(* ===== verification/_CoqProject ===== *)
-Q . S2P
Prelude.v
JsNum.v
Utf8.v
Json.v
Unicode.v
Canonical.v
Stringify.v
Types.v
Crypto.v
Texts.v
Policy.v
PolicyPackage.v
PolicyV1.v
Authorize.v
Pricing.v
Providers.v
Intent.v
JsMap.v
Insights.v
Gates.v
ProofVerify.v
Hpke.v
Tee.v
EnclaveVerify.v
ProverClient.v
Prover.v
ReceiptVerify.v
GateRequest.v
Dispatch.v
Enclave.v
Ingest.v
Logs.v
Routing.v
Events.v
Coordinator.v
Trust.v
Settle.v
Booking.v
Client.v
EndToEnd.v
Contribution.v
Onboarding.v
Schema.v
GraphView.v
LiveGraph.v
Layout.v
Reads.v
Pages.v
Compat.v
Labels.v
ReceiptCli.v
Preview.v
