(* ===== verification/Prelude.v ===== *)
(** * Supercompute: a verified model of the confidential compute network

    The program lends API keys of contributors to callers without showing either
    to the operator.  A client seals a request to an attested enclave; the
    coordinator, which never reads it, relays it; the enclave decrypts it, has a zkVM
    executor evaluate the safety policy, picks the contributed credential, calls the
    provider, and seals the answer to the caller; a prover turns the verdict into a
    proof in the background; receipts, events and a graph describe what happened.
    This library translates the TypeScript of packages/, services/tee-sim/,
    services/coordinator/, four modules of apps/web/ and the receipt checker of
    scripts/ into executable Rocq definitions and proves what makes them correct.

    ** Conventions

    - A string of JavaScript is a UTF-8 [string]; [well_formed] ones are those JSON
      and TextDecoder preserve.  Numbers are [jsnum] (a rational, an infinity or NaN)
      with binary64 rounding in [js_add], [js_mul], [js_div]; token counts, prices and
      clocks are [Z] where the code checks that they are integers.  Any JSON value or
      untyped body is a [jsval]; [js_get] is [None] where JavaScript throws a TypeError.
    - Fallible code returns [res E A], code with state is a function of [SE S E A]
      (state passed on also by a throw, as in the source); an object or Map mutated in
      place is threaded as a value, an insertion-ordered Map is the list of JsMap.
    - A handler that awaits is cut into the segments between its [await]s: what a
      segment does is one function, and the interleaving of many requests is an event
      list over a world ([Enclave.step], [Prover.sys_step], [Coordinator.cstep],
      [Labels.joint_step]), so every theorem on histories is over all interleavings.
      Awaits between which a handler touches only its own variables are one segment:
      the loop of a dispatch over its candidates, and the health of the executor after
      its answer (Enclave.v says why this loses no interleaving).
    - Code that is not under src/ is a parameter: SHA-256, ed25519 and AES-GCM
      ([Crypto], [NodeCrypto]), HPKE ([Hpke]), Unicode normalization and case
      ([Unicode], [LowerCase]), the URL parser ([Url]), fetch, clocks, random bytes,
      localeCompare.  Their documented laws are the classes [CryptoOk], [HpkeOk],
      [UnicodeOk], [LowerCaseOk], each with an instance in which the witnesses compute.

    ** Files, in order, and what they translate

    - Foundations: Prelude (results, state, sorting, lists), JsNum (binary64), Utf8
      (code units, slices, comparison), Json (values, JSON.parse), Unicode, Texts
      (well-formed texts), JsMap (Map).
    - Protocol (packages/protocol/src): Canonical (canonical.ts), Stringify (JSON.stringify),
      Types (types.ts), Crypto (crypto.ts), Hpke (hpke.ts).
    - Policy (packages/policy/src, policy/v1/rules.json): Policy (engine.ts),
      PolicyPackage (index.ts), PolicyV1 (the rules).
    - Enclave (services/tee-sim/src): Authorize (authorize.ts), Pricing (pricing.ts,
      catalog.ts), Providers (providers.ts), Intent (intent.ts), Insights (insights/),
      Gates (pending-gates.ts), Tee (tee.ts), EnclaveVerify (verify.ts), ProofVerify
      (proof-verify.ts), ProverClient (prover-client.ts), Prover (prover.ts), and of
      index.ts: GateRequest (POST /gate), Dispatch (POST /execute), Enclave (both with
      the prover, interleaved), Ingest (POST /credentials/ingest), Labels (GET /proofs),
      Preview (POST /policy-test and POST /verify); Logs (enclave-log.ts and the
      coordinator's safe-log.ts).
    - packages/verify/src/verify.ts: ReceiptVerify; scripts/verify-receipt.ts: ReceiptCli.
    - Coordinator (services/coordinator/src): Routing (routing.ts and the rows of
      credentials and usage), Events (events.ts: outbox, projection, graph), Coordinator
      (tee-client.ts, runSecureRequest, watchProof and the secure endpoint of index.ts),
      Onboarding (contributors and credentials), Reads (the GET endpoints), Compat
      (compat.ts and the compatibility endpoint), Schema (db.ts).
    - Theorems over them: Trust (labels), Settle (outcomes), Booking (usage), Pages (what
      the pages show), Contribution, EndToEnd (client, coordinator and enclave).
    - Client (packages/client/src/index.ts); of apps/web/src: GraphView (path.ts and
      window.ts of components/graph), Layout (layout.ts), LiveGraph (useLiveGraph of
      lib/api.ts with the stream of the coordinator).

    ** What the theorems show

    - One request, one call: [Dispatch.single_dispatch], [Enclave.enclave_dispatches_once],
      [GateRequest.gateRequest_sound], [Authorize.authorizeCandidate_sound]: whatever
      the executor, the provider and the other requests do, a decrypted nonce is sent
      upstream at most once, after an ALLOW bound to its own commitment, with a
      credential every check of which held.
    - The whole path: [EndToEnd.secure_completion], [Compat.compat_completion],
      [Onboarding.contribution_serves], [Booking.booked_as_sent]: from the caller's
      input to the provider and back, from a contributed key to the request it serves,
      and from what was sent to what is booked, by composing the components' lemmas.
    - The coordinator's state: [Settle.request_settles] (every outcome, on every
      branch), [Trust.trust_status_sound], [Labels.verified_label], [Pages.pages_agree],
      [Schema.schema_sound], [Routing.revoked_never_routed], [Routing.daily_cap_enforced],
      [Routing.usage_booked_once], [Routing.discover_spec], [Events.outbox_drains],
      [Events.emitEvent_spec], [Logs.safeLog_noninterference].
    - Evidence: [Prover.prover_sound] and [Prover.prover_terminates],
      [Dispatch.receipt_and_proof_verify], [EnclaveVerify.attestation_correct],
      [ReceiptVerify.verifyReceipt_spec], [ReceiptVerify.frameJournal_exact],
      [ReceiptCli.receipt_cli_spec], [PolicyPackage.policy_package_binds],
      [Tee.vault_custody], [Insights.bulletin_spec], and the lemmas
      [ProofVerify.runReferenceVerify_ok], [Preview.post_verify_joint], [Crypto.digests_bind].
    - Functions against their specification: [Policy.evaluate_spec],
      [Policy.hard_block_unavoidable], [Canonical.canonicalJson_roundtrip],
      [Canonical.toCanonicalRequest_roundtrip], [Pricing.estimateCost_exact],
      [Reads.stats_spec], [GraphView.requestPath_spec], [GraphView.windowGraph_spec], and
      the lemmas [Intent.parseIntent_schema] and [Reads.models_cover_routing].
    - What a user is shown: [Preview.preview_agrees] (the policy lab against the gate),
      [LiveGraph.live_graph_converges] (the live page against the graph).
    - Where the code does something its comments do not say, an Example shows it on a
      concrete run: [Trust.proof_before_completion], [Routing.midnight_not_reset],
      [Events.banned_too_deep], [Compat.response_key_leaks], [Reads.negative_limit],
      [GraphView.path_crosses_credentials], [Ingest.ingest_race],
      [ReceiptCli.preview_identity_rejected], [LiveGraph.link_lost_in_gap],
      [Layout.rows_shift] and others.

    ** Bounds and fuel

    Only JSON.parse and the decimal text of an integer take fuel, the length of the text
    and the number of bits, which each step uses up by one; everything else is
    structural.  The prover's loop is driven by a script of
    answers whose needed length [Prover.fuel_left] bounds by the ceiling and the poll
    interval, and [Prover.prover_terminates] proves it enough; the outbox drains in
    passes of 500 and [Events.outbox_drains] counts the passes; [requestPath] has the
    code's own four levels.  Theorems on lengths and prices ask for numbers within
    2^53 - 1, as the code's own checks do.

    ** What is not modelled, and why

    - The executor and the prover guest (prover/, Rust) and the policy's copy in them:
      another language; the daemon is an input whose every answer is allowed for,
      and [GateRequest.faithful] states what it documents.
    - Reading the policy and vault files, process start-up, HTTP framing, CORS,
      setTimeout itself: I/O without a decision of its own; what is read is an input.
    - Of the enclave's index.ts: GET /attestation, /build-manifest and /providers, which
      put together values of functions modelled here ([Tee.attestation],
      [EnclaveVerify.verifyAttestation], [Providers.buildRegistry]) and keep no state.
    - The pages and components of apps/web (rendering), the easing of the graph's
      positions ([settle] of layout.ts, which uses Math.exp), the formatting of numbers.
    - The mock provider (a test double: every theorem takes the upstream's answer as
      arbitrary) and the other programs of scripts/ (they drive the live services).
    - The enclave's world and the coordinator's are joined for one request
      ([EndToEnd], [Compat], [Booking]) and for the proofs of all requests
      ([Labels.joint_step]); the dispatches of many concurrent requests are theorems on
      the enclave alone ([Enclave]), with the coordinator's posts as arbitrary events.
    - Concurrency below an await does not exist in the source; two coordinator
      processes on one database are outside the model, as they are outside the code. *)

From Stdlib Require Export ZArith Lia.
From stdpp Require Export prelude strings gmap sorting list.
From Hammer Require Export Tactics.

(** ** Results of fallible code

    [res E A] is a computation that either returns or throws: [Err] carries what
    the source throws (or the error body it answers with), [Ok] what it returns. *)
Inductive res (E A : Type) : Type :=
| Ok (a : A)
| Err (e : E).
Arguments Ok {E A} _.
Arguments Err {E A} _.

#[export] Instance res_eq_dec {E A} `{EqDecision E, EqDecision A} : EqDecision (res E A).
Proof. solve_decision. Defined.

#[export] Instance res_ret {E} : MRet (res E) := fun A a => Ok a.
#[export] Instance res_bind {E} : MBind (res E) :=
  fun A B f r => match r with Ok a => f a | Err e => Err e end.
#[export] Instance res_fmap {E} : FMap (res E) :=
  fun A B f r => match r with Ok a => Ok (f a) | Err e => Err e end.

(** [guard_ok b e]: the early exit [if (!b) throw e]. *)
Definition guard_ok {E} (b : bool) (e : E) : res E unit := if b then Ok tt else Err e.

(** [try_or r f]: [try { r } catch { f }]. *)
Definition try_or {E E' A} (r : res E A) (f : E -> res E' A) : res E' A :=
  match r with Ok a => Ok a | Err e => f e end.

Definition is_ok {E A} (r : res E A) : bool := match r with Ok _ => true | Err _ => false end.

Definition to_option {E A} (r : res E A) : option A :=
  match r with Ok a => Some a | Err _ => None end.

(** [map] over an array whose callback may throw: the first throw wins. *)
Section mapM_res.
Context {E A B : Type} (f : A -> res E B).
Fixpoint mapM_res (l : list A) : res E (list B) :=
  match l with
  | [] => Ok []
  | x :: l => match f x with
              | Err e => Err e
              | Ok y => match mapM_res l with Err e => Err e | Ok ys => Ok (y :: ys) end
              end
  end.
End mapM_res.

Section res_lemmas.
Context {E : Type}.

Lemma res_bind_Ok {A B} (f : A -> res E B) r b :
  r ≫= f = Ok b <-> exists a, r = Ok a /\ f a = Ok b.
Proof. destruct r; simpl; naive_solver. Qed.

Lemma guard_ok_Ok (b : bool) (e : E) u : guard_ok b e = Ok u <-> b = true.
Proof. destruct b, u; simpl; naive_solver. Qed.

Lemma mapM_res_Ok {A B} (f : A -> res E B) l ys :
  mapM_res f l = Ok ys <-> Forall2 (fun x y => f x = Ok y) l ys.
Proof.
  revert ys; induction l as [|x l IH]; intros ys; simpl.
  - split; [intros [=<-]; constructor | by inversion 1].
  - destruct (f x) as [y|e] eqn:Hx.
    + destruct (mapM_res f l) as [ys'|e'] eqn:Hl.
      * split.
        -- intros [=<-]. constructor; [done|]. by apply IH.
        -- inversion 1 as [|? y0 ? ys0 H1 H2]; subst. rewrite Hx in H1.
           apply IH in H2. congruence.
      * split; [done|]. inversion 1 as [|? y0 ? ys0 H1 H2]; subst. by apply IH in H2.
    + split; [done|]. inversion 1; congruence.
Qed.

Lemma mapM_res_length {A B} (f : A -> res E B) l ys :
  mapM_res f l = Ok ys -> length ys = length l.
Proof. intros H%mapM_res_Ok. symmetry. by eapply Forall2_length. Qed.

Lemma mapM_res_total {A B} (f : A -> res E B) l :
  Forall (fun x => is_ok (f x) = true) l -> exists ys, mapM_res f l = Ok ys.
Proof.
  induction 1 as [|x l Hx _ [ys IH]]; simpl; [by eexists|].
  destruct (f x); [|done]. rewrite IH. by eexists.
Qed.

Lemma mapM_res_fmap {A B} (f : A -> res E B) (g : A -> B) l :
  Forall (fun x => f x = Ok (g x)) l -> mapM_res f l = Ok (g <$> l).
Proof. induction 1 as [|x l Hx _ IH]; simpl; [done|]. by rewrite Hx, IH. Qed.
End res_lemmas.

(** ** State and exceptions

    The handlers of the services mutate module-level state and may throw; a throw
    does not undo the mutations made before it.  [SE S E A] keeps the final state
    in both outcomes. *)
Definition SE (S E A : Type) : Type := S -> S * res E A.

#[export] Instance SE_ret {S E} : MRet (SE S E) := fun A a s => (s, Ok a).
#[export] Instance SE_bind {S E} : MBind (SE S E) :=
  fun A B f m s => match m s with
                   | (s', Ok a) => f a s'
                   | (s', Err e) => (s', Err e)
                   end.

Definition se_get {S E} : SE S E S := fun s => (s, Ok s).
Definition se_modify {S E} (f : S -> S) : SE S E unit := fun s => (f s, Ok tt).
Definition se_throw {S E A} (e : E) : SE S E A := fun s => (s, Err e).
Definition se_lift {S E A} (r : res E A) : SE S E A := fun s => (s, r).

Definition map_err {E E' A} (f : E -> E') (r : res E A) : res E' A :=
  match r with Ok a => Ok a | Err e => Err (f e) end.
Definition se_map_err {S E E' A} (f : E -> E') (m : SE S E A) : SE S E' A :=
  fun s => let '(s', r) := m s in (s', map_err f r).
Definition se_guard {S E} (b : bool) (e : E) : SE S E unit := se_lift (guard_ok b e).

Section se_lemmas.
Context {S E : Type}.

Lemma map_err_Ok {E' A} (f : E -> E') (r : res E A) a : map_err f r = Ok a <-> r = Ok a.
Proof. destruct r; simpl; naive_solver. Qed.

Lemma se_bind_Ok {A B} (m : SE S E A) (f : A -> SE S E B) s s' b :
  (m ≫= f) s = (s', Ok b) <-> exists s1 a, m s = (s1, Ok a) /\ f a s1 = (s', Ok b).
Proof. unfold mbind, SE_bind. destruct (m s) as [s1 [a|e]]; naive_solver. Qed.

Lemma se_bind_Err {A B} (m : SE S E A) (f : A -> SE S E B) s s' e :
  (m ≫= f) s = (s', Err e) <->
  m s = (s', Err e) \/ exists s1 a, m s = (s1, Ok a) /\ f a s1 = (s', Err e).
Proof. unfold mbind, SE_bind. destruct (m s) as [s1 [a|e']]; naive_solver. Qed.

Lemma se_bind_run {A B} (m : SE S E A) (f : A -> SE S E B) s s1 a : m s = (s1, Ok a) -> (m ≫= f) s = f a s1.
Proof. unfold mbind, SE_bind. by intros ->. Qed.

Lemma se_bind_fail {A B} (m : SE S E A) (f : A -> SE S E B) s s1 e : m s = (s1, Err e) -> (m ≫= f) s = (s1, Err e).
Proof. unfold mbind, SE_bind. by intros ->. Qed.

Lemma se_lift_Ok {A} (r : res E A) (s s' : S) a : se_lift r s = (s', Ok a) <-> s' = s /\ r = Ok a.
Proof. unfold se_lift. naive_solver. Qed.

Lemma se_lift_Err {A} (r : res E A) (s s' : S) e : se_lift r s = (s', Err e) <-> s' = s /\ r = Err e.
Proof. unfold se_lift. naive_solver. Qed.

Lemma se_guard_Ok (b : bool) (e : E) (s s' : S) u : se_guard b e s = (s', Ok u) <-> s' = s /\ b = true.
Proof. unfold se_guard, se_lift, guard_ok. destruct b, u; naive_solver. Qed.
End se_lemmas.

(** ** Lists *)

(** [String.prototype.startsWith] and [includes], on any alphabet. *)
Fixpoint prefixb {A} `{EqDecision A} (n h : list A) : bool :=
  match n, h with
  | [], _ => true
  | x :: n, y :: h => bool_decide (x = y) && prefixb n h
  | _ :: _, [] => false
  end.

Fixpoint infixb {A} `{EqDecision A} (n h : list A) : bool :=
  prefixb n h || match h with [] => false | _ :: h => infixb n h end.

(** [split(sep)]: as many pieces as separators plus one, empty ones included. *)
Fixpoint split_on {A} `{EqDecision A} (sep : A) (l : list A) : list (list A) :=
  match l with
  | [] => [[]]
  | x :: l =>
      if decide (x = sep) then [] :: split_on sep l
      else match split_on sep l with
           | [] => [[x]]
           | w :: ws => (x :: w) :: ws
           end
  end.

(** [join(sep)] *)
Fixpoint join {A} (sep : list A) (ws : list (list A)) : list A :=
  match ws with
  | [] => []
  | [w] => w
  | w :: ws => w ++ sep ++ join sep ws
  end.

Section list_lemmas.
Context {A : Type} `{EqDecision A}.

Lemma prefixb_spec (n h : list A) : prefixb n h = true <-> exists t, h = n ++ t.
Proof.
  revert h; induction n as [|x n IH]; intros h; simpl.
  - split; [eauto | done].
  - destruct h as [|y h]; [split; [done | by intros [? ?]]|].
    rewrite andb_true_iff, bool_decide_eq_true, IH. split.
    + intros [-> [t ->]]. by exists t.
    + intros [t [= -> ->]]. eauto.
Qed.

Lemma infixb_spec (n h : list A) : infixb n h = true <-> exists a b, h = a ++ n ++ b.
Proof.
  induction h as [|y h IH]; simpl.
  - rewrite orb_false_r, prefixb_spec. split.
    + intros [t ?]. by exists [], t.
    + intros (a & b & E). exists b. destruct a; [done|discriminate].
  - rewrite orb_true_iff, prefixb_spec, IH. split.
    + intros [[t E]|(a & b & ->)]; [by exists [], t | by exists (y :: a), b].
    + intros ([|z a] & b & E); simplify_eq/=; [left|right]; eauto.
Qed.

Lemma infixb_app (n a h b : list A) : infixb n h = true -> infixb n (a ++ h ++ b) = true.
Proof.
  rewrite !infixb_spec. intros (x & y & ->). exists (a ++ x), (y ++ b).
  by rewrite <-!(assoc_L (++)).
Qed.

Lemma split_on_ne (sep : A) l : split_on sep l <> [].
Proof. destruct l as [|x l]; simpl; [done|]. case_decide; [done|]. by case_match. Qed.

Lemma join_split_on (sep : A) l : join [sep] (split_on sep l) = l.
Proof.
  induction l as [|x l IH]; simpl; [done|].
  pose proof (split_on_ne sep l). case_decide; subst.
  - destruct (split_on sep l) eqn:Hs; [done|]. simpl in *. by rewrite IH.
  - destruct (split_on sep l) as [|w ws] eqn:Hs; [done|].
    destruct ws; simpl in *; by rewrite <-IH.
Qed.

Lemma split_on_no_sep (sep : A) l : Forall (fun w => sep ∉ w) (split_on sep l).
Proof.
  induction l as [|x l IH]; simpl.
  - constructor; [set_solver|done].
  - case_decide.
    + constructor; [set_solver|done].
    + destruct (split_on sep l) as [|w ws]; [constructor; [set_solver|done]|].
      inv IH. constructor; [|done]. rewrite not_elem_of_cons. naive_solver.
Qed.
Lemma split_on_join (sep : A) ws :
  ws <> [] -> Forall (fun w => sep ∉ w) ws -> split_on sep (join [sep] ws) = ws.
Proof.
  induction ws as [|w ws IH]; intros Hne Hw; [done|].
  inversion_clear Hw as [|?? Hs Hws]. destruct ws as [|w' ws].
  - clear IH Hne Hws. induction w as [|x w IHw]; [done|]. simpl.
    apply not_elem_of_cons in Hs as [Hx Hs]. simpl in IHw. rewrite decide_False by done. by rewrite IHw.
  - specialize (IH ltac:(done) Hws).
    change (join [sep] (w :: w' :: ws)) with (w ++ [sep] ++ join [sep] (w' :: ws)).
    induction w as [|x w IHw]; cbn [app split_on].
    + rewrite decide_True by done. simpl in IH |- *. by rewrite IH.
    + apply not_elem_of_cons in Hs as [Hx Hs]. rewrite decide_False by done. cbn [app] in IHw. by rewrite (IHw ltac:(done) Hs).
Qed.

(** Removing the separators, i.e. [split(sep).join("")], is a filter. *)
Lemma split_on_concat (sep : A) l : join [] (split_on sep l) = filter (.≠ sep) l.
Proof.
  assert (Hc : forall ws : list (list A), join [] ws = concat ws).
  { induction ws as [|w ws IH]; [done|]. destruct ws; simpl in *.
    - by rewrite app_nil_r.
    - by rewrite IH. }
  rewrite Hc. clear Hc. induction l as [|x l IH]; simpl; [done|].
  rewrite filter_cons. pose proof (split_on_ne sep l).
  repeat case_decide; subst; try done.
  destruct (split_on sep l) as [|w ws]; [done|]. simpl in *. by rewrite IH.
Qed.
End list_lemmas.

Lemma Permutation_filterb {A} (p : A -> bool) (l l' : list A) :
  l ≡ₚ l' -> List.filter p l ≡ₚ List.filter p l'.
Proof.
  induction 1 as [|x l l' _ IH|x y l|l l' l'' _ IH1 _ IH2]; simpl; [done| | |by etrans].
  - destruct (p x); by rewrite IH.
  - destruct (p x), (p y); done || apply perm_swap.
Qed.

(** ** Sums and accumulating loops *)
Definition zsum (l : list Z) : Z := foldr Z.add 0%Z l.

Lemma zsum_app l k : zsum (l ++ k) = (zsum l + zsum k)%Z.
Proof. induction l as [|x l IH]; simpl; [done|]. rewrite IH. lia. Qed.

Lemma zsum_perm l k : l ≡ₚ k -> zsum l = zsum k.
Proof. induction 1; simpl; lia. Qed.

Lemma zsum_nonneg l : Forall (fun x => 0 <= x)%Z l -> (0 <= zsum l)%Z.
Proof. induction 1; simpl; lia. Qed.

(** A loop that adds a weight and pushes a label for the elements that pass a test. *)
Lemma fold_left_pick {A} (test : A -> bool) (w : A -> Z) (lbl : A -> string) l acc :
  fold_left (fun a x => if test x then (a.1 + w x, a.2 ++ [lbl x])%Z else a) l acc =
  ((acc.1 + zsum (List.map w (List.filter test l)))%Z,
   acc.2 ++ List.map lbl (List.filter test l)).
Proof.
  revert acc. induction l as [|x l IH]; intros [a b]; simpl; [by rewrite Z.add_0_r, app_nil_r|].
  rewrite IH. destruct (test x); simpl; [|done].
  rewrite <-(assoc_L (++)). f_equal. lia.
Qed.

(** ** Stable sorting

    [Array.prototype.sort] is a stable sort by a three-way comparator; [jsort] is
    one, and [jsort_unique] says the choice of algorithm does not matter when the
    comparator separates the elements. *)
Section jsort.
Context {A : Type} (cmp : A -> A -> comparison).

Definition cle (x y : A) : bool := match cmp x y with Gt => false | _ => true end.

Fixpoint jinsert (x : A) (l : list A) : list A :=
  match l with
  | [] => [x]
  | y :: l' => if cle x y then x :: l else y :: jinsert x l'
  end.

Definition jsort (l : list A) : list A := foldr jinsert [] l.

Lemma jinsert_perm x l : jinsert x l ≡ₚ x :: l.
Proof.
  induction l as [|y l IH]; simpl; [done|].
  destruct (cle x y); [done|]. rewrite IH. by constructor.
Qed.

Lemma jsort_perm l : jsort l ≡ₚ l.
Proof. induction l as [|x l IH]; simpl; [done|]. by rewrite jinsert_perm, IH. Qed.

Lemma elem_of_jsort x l : x ∈ jsort l <-> x ∈ l.
Proof. by rewrite jsort_perm. Qed.

Lemma length_jsort l : length (jsort l) = length l.
Proof. apply Permutation_length, jsort_perm. Qed.

Context (cle_total : forall x y, cle x y = true \/ cle y x = true)
        (cle_trans : forall x y z, cle x y = true -> cle y z = true -> cle x z = true).

Lemma jinsert_sorted x l :
  StronglySorted (fun a b => cle a b = true) l ->
  StronglySorted (fun a b => cle a b = true) (jinsert x l).
Proof using cle_total cle_trans.
  induction 1 as [|y l Hs IH Hy]; simpl.
  - by repeat constructor.
  - destruct (cle x y) eqn:Hxy.
    + constructor; [by constructor|]. constructor; [done|].
      eapply Forall_impl; [exact Hy|]. intros z Hz. by eapply cle_trans.
    + constructor; [done|]. rewrite jinsert_perm. constructor; [|done].
      destruct (cle_total x y); congruence.
Qed.

Lemma jsort_sorted l : StronglySorted (fun a b => cle a b = true) (jsort l).
Proof using cle_total cle_trans.
  induction l as [|x l IH]; simpl; [constructor|]. by apply jinsert_sorted.
Qed.

(** A sorted array is left alone. *)
Lemma jsort_id l : StronglySorted (fun a b => cle a b = true) l -> jsort l = l.
Proof.
  clear cle_total cle_trans.
  induction 1 as [|x l Hs IH Hx]; simpl; [done|]. rewrite IH.
  destruct l as [|y l]; simpl; [done|]. inv Hx. by rewrite H1.
Qed.

Lemma jsort_unique l l' :
  (forall x y, x ∈ l -> y ∈ l -> cle x y = true -> cle y x = true -> x = y) ->
  l ≡ₚ l' -> jsort l = jsort l'.
Proof using cle_total cle_trans.
  intros Hasym Hp. apply (StronglySorted_unique_strong (fun a b => cle a b = true)).
  - intros x y Hx Hy. rewrite elem_of_jsort in Hx, Hy. rewrite <-Hp in Hy. by apply Hasym.
  - apply jsort_sorted.
  - apply jsort_sorted.
  - by rewrite !jsort_perm.
Qed.
End jsort.

(** Sorting commutes with a map that keeps the order, and with a filter. *)
Lemma jsort_map {A B} (cmpA : A -> A -> comparison) (cmpB : B -> B -> comparison) (f : A -> B) l :
  (forall x y, cmpB (f x) (f y) = cmpA x y) ->
  jsort cmpB (List.map f l) = List.map f (jsort cmpA l).
Proof.
  intros Hf. induction l as [|x l IH]; simpl; [done|]. rewrite IH. clear IH.
  induction (jsort cmpA l) as [|y ys IH]; simpl; [done|].
  unfold cle. rewrite Hf. destruct (cmpA x y); simpl; by rewrite ?IH.
Qed.

Lemma jsort_filter {A} (cmp : A -> A -> comparison) (p : A -> bool) l :
  (forall x y, cle cmp x y = true \/ cle cmp y x = true) ->
  (forall x y z, cle cmp x y = true -> cle cmp y z = true -> cle cmp x z = true) ->
  jsort cmp (List.filter p l) = List.filter p (jsort cmp l).
Proof.
  intros Htot Htr. induction l as [|x l IH]; simpl; [done|].
  pose proof (jsort_sorted cmp Htot Htr l) as Hs.
  assert (Hins : List.filter p (jinsert cmp x (jsort cmp l)) =
                 if p x then jinsert cmp x (List.filter p (jsort cmp l))
                 else List.filter p (jsort cmp l)).
  { clear IH. induction Hs as [|y s Hs IH Hy]; simpl; [by destruct (p x)|].
    destruct (cle cmp x y) eqn:Hxy; simpl.
    - destruct (p x), (p y); simpl; rewrite ?Hxy; try done.
      assert (Hall : Forall (fun z => cle cmp x z = true) (List.filter p s)).
      { apply List.Forall_forall. intros z [Hz _]%List.filter_In.
        rewrite List.Forall_forall in Hy. eapply Htr; [exact Hxy|by apply Hy]. }
      destruct (List.filter p s) as [|z zs]; simpl; [done|]. inv Hall. by rewrite H1.
    - rewrite IH. destruct (p y), (p x); simpl; by rewrite ?Hxy. }
  rewrite Hins, <-IH. by destruct (p x).
Qed.

Lemma filter_sublist {A} (p : A -> bool) (l : list A) : List.filter p l `sublist_of` l.
Proof. induction l as [|x l IH]; simpl; [done|]. destruct (p x); by constructor. Qed.

(** ** Strings

    A JavaScript string is represented by its UTF-8 encoding, a [string] of
    bytes. *)
Definition str_app (ss : list string) : string := foldr String.append "" ss.

Fixpoint str_join (sep : string) (ss : list string) : string :=
  match ss with
  | [] => ""
  | [s] => s
  | s :: ss => s +:+ sep +:+ str_join sep ss
  end.

Lemma str_join_cons sep a b ss :
  str_join sep (a :: b :: ss) = a +:+ sep +:+ str_join sep (b :: ss).
Proof. done. Qed.

Definition chars (s : string) : list Ascii.ascii := String.list_ascii_of_string s.
Definition unchars (l : list Ascii.ascii) : string := String.string_of_list_ascii l.
Definition code (c : Ascii.ascii) : Z := Z.of_N (Ascii.N_of_ascii c).

Definition str_startswith (p s : string) : bool := prefixb (chars p) (chars s).
Definition str_endswith (p s : string) : bool := prefixb (rev (chars p)) (rev (chars s)).
Definition str_includes (p s : string) : bool := infixb (chars p) (chars s).
Definition str_empty (s : string) : bool := match s with EmptyString => true | _ => false end.
Definition blen (s : string) : Z := Z.of_nat (String.length s).

Section strings.
Lemma chars_app a b : chars (a +:+ b) = chars a ++ chars b.
Proof. induction a as [|c a IH]; simpl; [done|]. by rewrite IH. Qed.

Lemma unchars_chars s : unchars (chars s) = s.
Proof. apply String.string_of_list_ascii_of_string. Qed.

Lemma chars_unchars l : chars (unchars l) = l.
Proof. apply String.list_ascii_of_string_of_list_ascii. Qed.

Lemma chars_inj a b : chars a = chars b -> a = b.
Proof. intros H. by rewrite <-(unchars_chars a), H, unchars_chars. Qed.

Lemma length_chars s : length (chars s) = String.length s.
Proof. induction s; simpl; congruence. Qed.

Lemma str_app_assoc a b c : (a +:+ b) +:+ c = a +:+ (b +:+ c).
Proof. apply chars_inj. by rewrite !chars_app, (assoc_L (++)). Qed.

Lemma str_app_nil a : a +:+ "" = a.
Proof. apply chars_inj. by rewrite !chars_app, app_nil_r. Qed.

Lemma str_length_app a b : String.length (a +:+ b) = (String.length a + String.length b)%nat.
Proof. by rewrite <-!length_chars, chars_app, length_app. Qed.

(** Cutting at a known length is unambiguous. *)
Lemma str_app_inj a b c d :
  a +:+ b = c +:+ d -> String.length a = String.length c -> a = c /\ b = d.
Proof.
  intros H Hl. apply (f_equal chars) in H. rewrite !chars_app in H.
  apply app_inj_1 in H as [H1 H2]; [|by rewrite !length_chars].
  by apply chars_inj in H1; apply chars_inj in H2.
Qed.

Lemma str_app_inj_r a b c d :
  a +:+ b = c +:+ d -> String.length b = String.length d -> a = c /\ b = d.
Proof.
  intros H Hl. apply str_app_inj; [done|].
  apply (f_equal String.length) in H. rewrite !str_length_app in H. lia.
Qed.
End strings.

(** ** Small tactics of the development *)

(** Split every conjunction and existential of the context, keep equations applied. *)
Ltac inv_all := repeat (destruct_and? || match goal with
  | H : exists _, _ |- _ => destruct H
  | H : Ok _ = Ok _ |- _ => injection H as H
  | H : Err _ = Err _ |- _ => injection H as H
  | H : Some _ = Some _ |- _ => injection H as H
  | H : (_, _) = (_, _) |- _ => injection H; clear H; intros
  | H : Ok _ = Err _ |- _ => discriminate H
  | H : Err _ = Ok _ |- _ => discriminate H
  | H : Some _ = None |- _ => discriminate H
  | H : None = Some _ |- _ => discriminate H
  | H : true = false |- _ => discriminate H
  | H : false = true |- _ => discriminate H
  end); subst.

(** Case analysis on the scrutinee of every [match] or [if] of a hypothesis. *)
Ltac case_in H :=
  repeat match type of H with
  | context [match ?x with _ => _ end] =>
      lazymatch x with
      | context [match _ with _ => _ end] => fail
      | _ => let E := fresh "E" in destruct x eqn:E; simplify_eq/=
      end
  end.

(** The same for the goal. *)
Ltac case_goal :=
  repeat match goal with
  | |- context [match ?x with _ => _ end] =>
      lazymatch x with
      | context [match _ with _ => _ end] => fail
      | _ => let E := fresh "E" in destruct x eqn:E; simplify_eq/=
      end
  end.

(** Turn the boolean tests of the code into propositions. *)
Ltac bool_prop :=
  repeat match goal with
  | H : _ && _ = true |- _ => apply andb_true_iff in H as [? ?]
  | H : _ && _ = false |- _ => apply andb_false_iff in H
  | H : _ || _ = false |- _ => apply orb_false_iff in H as [? ?]
  | H : _ || _ = true |- _ => apply orb_true_iff in H
  | H : negb _ = true |- _ => apply negb_true_iff in H
  | H : negb _ = false |- _ => apply negb_false_iff in H
  | H : bool_decide _ = true |- _ => apply bool_decide_eq_true in H
  | H : bool_decide _ = false |- _ => apply bool_decide_eq_false in H
  | H : (_ <=? _)%Z = true |- _ => apply Z.leb_le in H
  | H : (_ <=? _)%Z = false |- _ => apply Z.leb_gt in H
  | H : (_ <? _)%Z = true |- _ => apply Z.ltb_lt in H
  | H : (_ <? _)%Z = false |- _ => apply Z.ltb_ge in H
  | H : (_ =? _)%Z = true |- _ => apply Z.eqb_eq in H
  | H : (_ =? _)%Z = false |- _ => apply Z.eqb_neq in H
  end.

(** ** Hints shared by the files *)
Create HintDb ctn discriminated.
#[export] Hint Constructors Forall StronglySorted : ctn.
Create Rewrite HintDb ctn_rw.
#[export] Hint Rewrite @res_bind_Ok @guard_ok_Ok @chars_app chars_unchars unchars_chars
  str_app_nil @elem_of_jsort @length_jsort : ctn_rw.
