(* ===== verification/JsNum.v ===== *)
(** * JavaScript numbers

    A finite JavaScript number is represented by the rational it denotes; each
    arithmetic operation is the exact one followed by [rnd], the rounding of
    IEEE-754 binary64 (nearest, ties to even).  Overflow to an infinity (beyond
    1.8e308) and the sign of zero are not represented: no computation of the
    program reaches the one, and no observer of the program distinguishes the
    other.  [NaN] and the infinities occur as inputs to be rejected. *)

From S2P Require Import Prelude.
From Stdlib Require Import QArith Qround Qabs Qpower Lqa.
Local Open Scope Z_scope.

Inductive jsnum : Type :=
| Fin (q : Q)
| Inf (neg : bool)
| NaN.

Definition jnum (z : Z) : jsnum := Fin (inject_Z z).

(** ** Rounding *)

(** Nearest integer, ties to even. *)
Definition round_even (q : Q) : Z :=
  let f := Qfloor q in
  match Qcompare (q - inject_Z f) (1 # 2) with
  | Lt => f
  | Gt => f + 1
  | Eq => if Z.even f then f else f + 1
  end.

(** The exponent of the last place of a binary64 near the positive [q]:
    [2^52 <= q / 2^e < 2^53], but not below that of the subnormals. *)
Definition q_exp (q : Q) : Z :=
  let e0 := Z.log2 (Z.abs (Qnum q)) - Z.log2 (Zpos (Qden q)) - 53 in
  let e1 := if Qle_bool (inject_Z (2 ^ 53)) (Qabs q * Qpower 2 (- e0)) then e0 + 1 else e0 in
  Z.max e1 (-1074).

Definition rnd (q : Q) : Q :=
  let e := q_exp q in Qred (inject_Z (round_even (q * Qpower 2 (- e))) * Qpower 2 e).

Definition js_add (x y : Q) : Q := rnd (x + y).
Definition js_mul (x y : Q) : Q := rnd (x * y).
Definition js_div (x y : Q) : Q := rnd (x / y).

(** [Math.ceil], [Math.floor] and [Math.round] are exact. *)
Definition js_ceil (q : Q) : Z := Qceiling q.
Definition js_floor (q : Q) : Z := Qfloor q.
Definition js_round (q : Q) : Z := Qfloor (q + (1 # 2)).

(** [Number.isInteger] and [Number.isSafeInteger] *)
Definition MAX_SAFE : Z := 2 ^ 53 - 1.

Definition q_int (q : Q) : option Z := if Qeq_bool q (inject_Z (Qfloor q)) then Some (Qfloor q) else None.

Definition safe_int (n : jsnum) : option Z :=
  match n with
  | Fin q => match q_int q with
             | Some z => if Z.abs z <=? MAX_SAFE then Some z else None
             | None => None
             end
  | _ => None
  end.

Definition is_integer (n : jsnum) : bool :=
  match n with Fin q => bool_decide (is_Some (q_int q)) | _ => false end.

Definition num_eqb (a b : jsnum) : bool :=
  match a, b with
  | Fin p, Fin q => Qeq_bool p q
  | Inf p, Inf q => Bool.eqb p q
  | _, _ => false          (* NaN differs from itself *)
  end.

(** [n === z] for an integer literal [z] *)
Definition num_is (n : jsnum) (z : Z) : bool := num_eqb n (jnum z).

Lemma q_int_inject z : q_int (inject_Z z) = Some z.
Proof.
  unfold q_int. rewrite Qfloor_Z. by rewrite (proj2 (Qeq_bool_iff _ _) (Qeq_refl _)).
Qed.

Lemma q_int_Some q z : q_int q = Some z -> (q == inject_Z z)%Q.
Proof. unfold q_int. destruct (Qeq_bool _ _) eqn:E; [|done]. intros [= <-]. by apply Qeq_bool_iff. Qed.

Lemma safe_int_num z : safe_int (jnum z) = if Z.abs z <=? MAX_SAFE then Some z else None.
Proof. unfold jnum, safe_int. by rewrite q_int_inject. Qed.

Lemma safe_int_bound n z : safe_int n = Some z -> Z.abs z <= MAX_SAFE.
Proof.
  unfold safe_int. destruct n; try done. destruct (q_int q); [|done].
  destruct (Z.leb_spec (Z.abs z0) MAX_SAFE); [|done]. by intros [= <-].
Qed.

(** ** What [rnd] guarantees *)
Section rounding.
Local Open Scope Q_scope.
Local Abbreviation p2 := (Qpower 2).

Lemma p2_pos e : 0 < p2 e.
Proof. by apply Qpower_0_lt. Qed.

Lemma p2_plus a b : p2 (a + b) == p2 a * p2 b.
Proof. by apply Qpower_plus. Qed.

Lemma p2_inject e : (0 <= e)%Z -> p2 e == inject_Z (2 ^ e).
Proof. intros. by rewrite Zpower_Qpower. Qed.

Lemma Qlt_mult_r a b c : 0 < c -> a * c < b * c -> a < b.
Proof. intros Hc H. by apply (Qmult_lt_r _ _ c). Qed.

Lemma Q_num_den q : q * inject_Z (Zpos (Qden q)) == inject_Z (Qnum q).
Proof. unfold Qeq. simpl. lia. Qed.

Lemma q_range q (L := (Z.log2 (Qnum q) - Z.log2 (Zpos (Qden q)))%Z) :
  0 < q -> p2 (L - 1) < q /\ q < p2 (L + 1).
Proof.
  intros Hq. assert (Hn : (0 < Qnum q)%Z) by (unfold Qlt in Hq; simpl in Hq; lia).
  pose proof (Z.log2_spec _ Hn) as [Hn1 Hn2].
  pose proof (Z.log2_spec (Zpos (Qden q)) ltac:(lia)) as [Hd1 Hd2].
  pose proof (Z.log2_nonneg (Qnum q)). pose proof (Z.log2_nonneg (Zpos (Qden q))).
  set (ln := Z.log2 (Qnum q)) in *. set (ld := Z.log2 (Zpos (Qden q))) in *.
  rewrite Zle_Qle in Hn1, Hd1. rewrite Zlt_Qlt in Hn2, Hd2.
  rewrite <-!p2_inject in Hn1, Hn2, Hd1, Hd2 by lia.
  pose proof (Q_num_den q) as E. pose proof (p2_pos ld). pose proof (p2_pos (Z.succ ld)).
  split.
  - apply (Qlt_mult_r _ _ (p2 (Z.succ ld))); [done|].
    rewrite <-p2_plus. replace (L - 1 + Z.succ ld)%Z with ln by lia.
    apply (Qle_lt_trans _ (q * inject_Z (Zpos (Qden q)))); [by rewrite E|].
    by apply Qmult_lt_l.
  - apply (Qlt_mult_r _ _ (p2 ld)); [done|].
    rewrite <-p2_plus. replace (L + 1 + ld)%Z with (Z.succ ln) by lia.
    apply (Qle_lt_trans _ (q * inject_Z (Zpos (Qden q)))); [by apply Qmult_le_l|].
    by rewrite E.
Qed.

Lemma Qle_bool_false x y : Qle_bool x y = false <-> y < x.
Proof.
  rewrite <-not_true_iff_false, Qle_bool_iff. split; [apply Qnot_le_lt | apply Qlt_not_le].
Qed.

(** The mantissa of a normal number has 53 bits. *)
Lemma q_exp_spec q :
  0 < q -> p2 (-1021) <= q ->
  p2 52 <= q * p2 (- q_exp q) /\ q * p2 (- q_exp q) < p2 53.
Proof.
  intros Hq Hmin. pose proof (q_range q Hq) as [H1 H2].
  assert (Hn : (0 < Qnum q)%Z) by (unfold Qlt in Hq; simpl in Hq; lia).
  unfold q_exp. rewrite (Z.abs_eq (Qnum q)) by lia.
  set (L := (Z.log2 (Qnum q) - Z.log2 (Zpos (Qden q)))%Z) in *.
  rewrite (Qabs_pos q) by by apply Qlt_le_weak.
  assert (HL : (-1021 < L + 1)%Z).
  { apply (Qpower_lt_compat_l_inv 2); [|done]. by eapply Qle_lt_trans. }
  assert (Hsh : forall a b, p2 a < q <-> p2 (a - b) < q * p2 (- b)).
  { intros a b. unfold Z.sub. rewrite p2_plus. rewrite Qmult_lt_r; [done|apply p2_pos]. }
  assert (Hsh' : forall a b, q < p2 a <-> q * p2 (- b) < p2 (a - b)).
  { intros a b. unfold Z.sub. rewrite p2_plus. rewrite Qmult_lt_r; [done|apply p2_pos]. }
  destruct (Qle_bool _ _) eqn:E.
  - rewrite Z.max_l by lia. apply Qle_bool_iff in E.
    rewrite <-p2_inject in E by lia. split.
    + assert (p2 (- (L - 53 + 1)) == p2 (- (L - 53)) * p2 (-1)) as ->
        by (rewrite <-p2_plus; replace (- (L - 53) + -1)%Z with (- (L - 53 + 1))%Z by lia; done).
      rewrite Qmult_assoc. assert (p2 52 == p2 53 * p2 (-1)) as -> by done.
      by apply Qmult_le_compat_r.
    + apply (Hsh' _ (L - 53 + 1)%Z) in H2. eapply Qlt_le_trans; [exact H2|].
      apply Qpower_le_compat_l; [lia|done].
  - rewrite Z.max_l by lia. apply Qle_bool_false in E. rewrite <-p2_inject in E by lia.
    split; [|done]. apply Qlt_le_weak. apply (Hsh _ (L - 53)%Z) in H1.
    eapply Qle_lt_trans; [|exact H1]. apply Qpower_le_compat_l; [lia|done].
Qed.

Lemma round_even_spec q :
  inject_Z (round_even q) - (1 # 2) <= q /\ q <= inject_Z (round_even q) + (1 # 2).
Proof.
  unfold round_even. pose proof (Qfloor_le q). pose proof (Qlt_floor q).
  rewrite inject_Z_plus in *. change (inject_Z 1) with 1 in *.
  destruct (Qcompare_spec (q - inject_Z (Qfloor q)) (1 # 2)).
  - destruct (Z.even _); rewrite ?inject_Z_plus; change (inject_Z 1) with 1; lra.
  - lra.
  - rewrite inject_Z_plus. change (inject_Z 1) with 1. lra.
Qed.

(** Rounding never crosses an integer. *)
Lemma round_even_le_Z q n : q <= inject_Z n -> (round_even q <= n)%Z.
Proof.
  intros H. unfold round_even. pose proof (Qfloor_resp_le _ _ H) as Hf. rewrite Qfloor_Z in Hf.
  assert (Hc : ~ q == inject_Z n -> (Qfloor q < n)%Z).
  { intros Hne. apply Z.lt_nge. intros Hge. apply Hne.
    apply Qle_antisym; [done|]. eapply Qle_trans; [|apply Qfloor_le]. by rewrite <-Zle_Qle. }
  destruct (Qeq_dec q (inject_Z n)) as [Heq|Hne].
  - assert (Hfl : Qfloor q = n) by (rewrite (Qfloor_comp _ _ Heq); apply Qfloor_Z).
    rewrite Hfl in *.
    destruct (Qcompare_spec (q - inject_Z n) (1 # 2)); (lia || exfalso; lra).
  - specialize (Hc Hne). destruct (Qcompare _ _); [|lia|lia]. destruct (Z.even _); lia.
Qed.

Lemma round_even_int z : round_even (inject_Z z) = z.
Proof.
  unfold round_even. rewrite Qfloor_Z.
  destruct (Qcompare_spec (inject_Z z - inject_Z z) (1 # 2)); lra || done.
Qed.

#[global] Instance round_even_Proper : Proper (Qeq ==> eq) round_even.
Proof.
  intros x y E. unfold round_even. rewrite (Qfloor_comp _ _ E).
  assert (Ed : x - inject_Z (Qfloor y) == y - inject_Z (Qfloor y)) by lra.
  by rewrite (Qcompare_comp _ _ Ed _ _ (Qeq_refl (1 # 2))).
Qed.

Lemma rnd_eq q : rnd q == inject_Z (round_even (q * p2 (- q_exp q))) * p2 (q_exp q).
Proof. unfold rnd. apply Qred_correct. Qed.

Lemma q_back q e : q * p2 (- e) * p2 e == q.
Proof. rewrite <-Qmult_assoc, <-p2_plus. replace (- e + e)%Z with 0%Z by lia. by rewrite Qmult_1_r. Qed.

(** The relative error is at most half a unit of the last place. *)
Lemma rnd_error q :
  0 < q -> p2 (-1021) <= q -> q - q * p2 (-53) <= rnd q /\ rnd q <= q + q * p2 (-53).
Proof.
  intros Hq Hmin. destruct (q_exp_spec q Hq Hmin) as [Hlo _]. rewrite !rnd_eq.
  set (e := q_exp q) in *. set (m := q * p2 (- e)) in *.
  pose proof (round_even_spec m) as [R1 R2].
  assert (Eq : q == m * p2 e) by (unfold m; by rewrite q_back).
  assert (He : 0 < p2 e) by apply p2_pos.
  assert (Hh : (1 # 2) <= m * p2 (-53)).
  { assert (1 # 2 == p2 52 * p2 (-53)) as -> by done. by apply Qmult_le_compat_r. }
  rewrite Eq. split.
  - assert (m * p2 e - m * p2 e * p2 (-53) == (m - m * p2 (-53)) * p2 e) as -> by ring.
    apply Qmult_le_compat_r; [|by apply Qlt_le_weak]. lra.
  - assert (m * p2 e + m * p2 e * p2 (-53) == (m + m * p2 (-53)) * p2 e) as -> by ring.
    apply Qmult_le_compat_r; [|by apply Qlt_le_weak]. lra.
Qed.

Lemma q_exp_nonpos q : 0 < q -> p2 (-1021) <= q -> q < p2 53 -> (q_exp q <= 0)%Z.
Proof.
  intros Hq Hmin Hlt. destruct (q_exp_spec q Hq Hmin) as [Hlo _].
  assert (H : p2 (52 + q_exp q) < p2 53).
  { set (e := q_exp q) in *. eapply Qle_lt_trans; [|exact Hlt].
    apply (Qle_trans _ (q * p2 (- e) * p2 e)); [|rewrite q_back; apply Qle_refl].
    rewrite p2_plus. apply Qmult_le_compat_r; [done|]. apply Qlt_le_weak, p2_pos. }
  apply Qpower_lt_compat_l_inv in H; [lia|done].
Qed.

(** [Math.ceil] sees through the rounding of a quotient below [2^53] whose
    fractional part is not tiny. *)
Lemma rnd_ceil_exact q (N := Qceiling q) :
  0 < q -> p2 (-1021) <= q -> q < p2 53 ->
  inject_Z (N - 1) + q * p2 (-53) < q -> Qceiling (rnd q) = N.
Proof.
  intros Hq Hmin Hlt Hgap. pose proof (Qle_ceiling q) as HN. fold N in HN.
  pose proof (rnd_error q Hq Hmin) as [Herr _].
  assert (Hup : rnd q <= inject_Z N).
  { rewrite rnd_eq. pose proof (q_exp_nonpos q Hq Hmin Hlt) as He.
    set (e := q_exp q) in *.
    assert (Hz : inject_Z N == inject_Z (N * 2 ^ (- e)) * p2 e).
    { rewrite inject_Z_mult, <-p2_inject by lia. by rewrite q_back. }
    rewrite Hz. apply Qmult_le_compat_r; [|apply Qlt_le_weak, p2_pos].
    rewrite <-Zle_Qle. apply round_even_le_Z. rewrite inject_Z_mult, <-p2_inject by lia.
    apply Qmult_le_compat_r; [done|]. apply Qlt_le_weak, p2_pos. }
  apply Z.le_antisymm.
  - apply Qceiling_resp_le in Hup. by rewrite Qceiling_Z in Hup.
  - assert (inject_Z (N - 1) < rnd q) as H by lra.
    assert (inject_Z (N - 1) < inject_Z (Qceiling (rnd q))) as H2
      by (eapply Qlt_le_trans; [exact H|apply Qle_ceiling]).
    rewrite <-Zlt_Qlt in H2. lia.
Qed.

Lemma q_exp_opp z : q_exp (inject_Z (- z)) = q_exp (inject_Z z).
Proof.
  unfold q_exp. change (Qnum (inject_Z ?z)) with z. rewrite Z.abs_opp.
  cbn [Qden inject_Z]. rewrite (Qabs_wd (inject_Z (- z)) (- inject_Z z)) by done.
  by rewrite Qabs_opp.
Qed.

Lemma Qred_int z : Qred (inject_Z z) = inject_Z z.
Proof.
  unfold Qred, inject_Z. generalize (Z.ggcd_gcd z 1), (Z.ggcd_correct_divisors z 1).
  destruct (Z.ggcd z 1) as [g [a b]]; simpl. rewrite Z.gcd_1_r.
  intros -> [-> H]. replace b with 1%Z by lia. by destruct a.
Qed.

(** The safe integers are exact. *)
Lemma rnd_int z : (Z.abs z <= MAX_SAFE)%Z -> rnd (inject_Z z) = inject_Z z.
Proof.
  intros Hz. assert (Hb : (Z.abs z < 2 ^ 53)%Z) by (unfold MAX_SAFE in Hz; lia).
  assert (He : (q_exp (inject_Z z) <= 0)%Z).
  { destruct (Z.eq_dec z 0) as [->|Hnz]; [done|].
    assert (q_exp (inject_Z z) = q_exp (inject_Z (Z.abs z))) as ->.
    { destruct (Z.abs_eq_or_opp z) as [->| ->]; [done|]. by rewrite q_exp_opp. }
    assert (1 <= inject_Z (Z.abs z)) by (change 1 with (inject_Z 1); rewrite <-Zle_Qle; lia).
    apply q_exp_nonpos; [lra| |].
    - eapply Qle_trans; [|done]. done.
    - rewrite p2_inject by lia. by rewrite <-Zlt_Qlt. }
  unfold rnd. transitivity (Qred (inject_Z z)); [|apply Qred_int]. apply Qred_complete.
  set (e := q_exp (inject_Z z)) in *.
  assert (E : inject_Z z * p2 (- e) == inject_Z (z * 2 ^ (- e))).
  { rewrite inject_Z_mult, p2_inject by lia. apply Qeq_refl. }
  rewrite (round_even_Proper _ _ E), round_even_int, inject_Z_mult, <-p2_inject by lia.
  apply q_back.
Qed.
End rounding.

Example rnd_tenth : rnd (1 # 10) = (3602879701896397 # 36028797018963968)%Q.
Proof. vm_compute. reflexivity. Qed.
Example rnd_add : js_add (rnd (1#10)) (rnd (2#10)) = (1351079888211149 # 4503599627370496)%Q.
Proof. vm_compute. reflexivity. Qed.
Example rnd_big : rnd (inject_Z (2^53 + 1)) = inject_Z (2^53).
Proof. vm_compute. reflexivity. Qed.
