(* ===== verification/Utf8.v ===== *)
(** * UTF-8: [TextEncoder], [TextDecoder] and the length of a string

    A JavaScript string is kept as its UTF-8 bytes.  Where the source looks at
    characters ([length], [slice], the normalizer's classes) the string is first
    decoded to code points; [decode] is the byte automaton of the WHATWG encoding
    standard, whose error cases [fatal: true] turns into a throw and the default
    decoder into U+FFFD. *)

From S2P Require Import Prelude.
Local Open Scope Z_scope.

Definition byte_of (z : Z) : Ascii.ascii := Ascii.ascii_of_N (Z.to_N z).

(** [TextEncoder.encode], one code point at a time *)
Definition encode_cp (c : Z) : list Z :=
  if c <=? 0x7F then [c]
  else if c <=? 0x7FF then [0xC0 + c / 64; 0x80 + c mod 64]
  else if c <=? 0xFFFF then [0xE0 + c / 4096; 0x80 + c / 64 mod 64; 0x80 + c mod 64]
  else [0xF0 + c / 262144; 0x80 + c / 4096 mod 64; 0x80 + c / 64 mod 64; 0x80 + c mod 64].

Definition encode_points (l : list Z) : list Z := l ≫= encode_cp.
Definition encode (l : list Z) : string := unchars (byte_of <$> encode_points l).

(** The decoder's registers between two bytes. *)
Record dstate := DState { d_cp : Z; d_needed : nat; d_lo : Z; d_hi : Z }.
Definition d_start : dstate := DState 0 0 0x80 0xBF.

(** A byte read when no sequence is open: emitted code points ([None] is an
    error) and the next state. *)
Definition d_lead (b : Z) : list (option Z) * dstate :=
  if b <=? 0x7F then ([Some b], d_start)
  else if b <=? 0xC1 then ([None], d_start)
  else if b <=? 0xDF then ([], DState (b - 0xC0) 1 0x80 0xBF)
  else if b <=? 0xEF then
    ([], DState (b - 0xE0) 2 (if b =? 0xE0 then 0xA0 else 0x80) (if b =? 0xED then 0x9F else 0xBF))
  else if b <=? 0xF4 then
    ([], DState (b - 0xF0) 3 (if b =? 0xF0 then 0x90 else 0x80) (if b =? 0xF4 then 0x8F else 0xBF))
  else ([None], d_start).

Definition d_byte (st : dstate) (b : Z) : list (option Z) * dstate :=
  match d_needed st with
  | O => d_lead b
  | S n =>
      if (d_lo st <=? b) && (b <=? d_hi st) then
        let cp := d_cp st * 64 + (b - 0x80) in
        match n with
        | O => ([Some cp], d_start)
        | S _ => ([], DState cp n 0x80 0xBF)
        end
      else let '(out, st') := d_lead b in (None :: out, st')
  end.

Fixpoint d_run (st : dstate) (bs : list Z) : list (option Z) :=
  match bs with
  | [] => match d_needed st with O => [] | S _ => [None] end
  | b :: bs => let '(out, st') := d_byte st b in out ++ d_run st' bs
  end.

Definition bytes (s : string) : list Z := code <$> chars s.
Definition decode (s : string) : list (option Z) := d_run d_start (bytes s).

(** [new TextDecoder("utf-8", { fatal: true }).decode] *)
Definition decode_fatal (s : string) : option (list Z) := mapM id (decode s).

(** The code points of a string of the program. *)
Definition points (s : string) : list Z := default 0xFFFD <$> decode s.

(** [new TextDecoder().decode]: a leading byte order mark is dropped, errors are
    replaced. *)
Definition text_decode (s : string) : string :=
  encode (match points s with 0xFEFF :: l => l | l => l end).

(** [s.length] counts UTF-16 code units. *)
Definition unit_len (c : Z) : Z := if c <=? 0xFFFF then 1 else 2.
Definition points_length (l : list Z) : Z := foldr (fun c n => unit_len c + n) 0 l.
Definition js_length (s : string) : Z := points_length (points s).

(** [s.slice(0, n)]: a pair cut in two leaves its leading surrogate. *)
Fixpoint take_units (n : Z) (l : list Z) : list Z :=
  match l with
  | [] => []
  | c :: l => if n <=? 0 then []
              else if unit_len c <=? n then c :: take_units (n - unit_len c) l
              else [0xD800 + (c - 0x10000) / 1024]
  end.
Definition js_slice0 (n : Z) (s : string) : string := encode (take_units n (points s)).

(** The UTF-16 code units of a string, in whose lexicographic order [<] and the
    default [sort()] compare strings. *)
Definition cp_units (c : Z) : list Z :=
  if c <=? 0xFFFF then [c]
  else [0xD800 + (c - 0x10000) / 1024; 0xDC00 + (c - 0x10000) mod 1024].
Definition js_units (s : string) : list Z := points s ≫= cp_units.

Fixpoint units_compare (a b : list Z) : comparison :=
  match a, b with
  | [], [] => Eq
  | [], _ :: _ => Lt
  | _ :: _, [] => Gt
  | x :: a, y :: b => match x ?= y with Eq => units_compare a b | c => c end
  end.
Definition js_compare (a b : string) : comparison := units_compare (js_units a) (js_units b).
(** [a <= b] *)
Definition jle (a b : string) : bool := cle js_compare a b.

Section js_order.
Lemma units_compare_antisym a b : units_compare a b = CompOpp (units_compare b a).
Proof.
  revert b; induction a as [|x a IH]; intros [|y b]; simpl; try done.
  rewrite (Z.compare_antisym y x). destruct (y ?= x); simpl; auto.
Qed.

Lemma units_compare_eq a b : units_compare a b = Eq -> a = b.
Proof.
  revert b; induction a as [|x a IH]; intros [|y b]; simpl; try done.
  destruct (Z.compare_spec x y); try done. intros H1%IH. by subst.
Qed.

Lemma units_compare_trans a b c :
  units_compare a b <> Gt -> units_compare b c <> Gt -> units_compare a c <> Gt.
Proof.
  revert b c; induction a as [|x a IH]; intros [|y b] [|z c]; simpl; try done.
  destruct (Z.compare_spec x y), (Z.compare_spec y z), (Z.compare_spec x z);
    try done; try lia; subst; eauto.
Qed.

Lemma jle_total a b : jle a b = true \/ jle b a = true.
Proof.
  unfold jle, cle, js_compare. rewrite (units_compare_antisym (js_units b)).
  destruct (units_compare (js_units a) (js_units b)); simpl; auto.
Qed.

Lemma jle_trans a b c : jle a b = true -> jle b c = true -> jle a c = true.
Proof.
  unfold jle, cle, js_compare. pose proof (units_compare_trans (js_units a) (js_units b) (js_units c)).
  destruct (units_compare (js_units a) (js_units b)), (units_compare (js_units b) (js_units c)),
    (units_compare (js_units a) (js_units c)); naive_solver.
Qed.
End js_order.
#[export] Hint Resolve jle_total jle_trans : ctn.

(** [\s] *)
Definition js_space (c : Z) : bool :=
  (9 <=? c) && (c <=? 13) || (c =? 32) || (c =? 0xA0) || (c =? 0x1680) ||
  (0x2000 <=? c) && (c <=? 0x200A) || (c =? 0x2028) || (c =? 0x2029) ||
  (c =? 0x202F) || (c =? 0x205F) || (c =? 0x3000) || (c =? 0xFEFF).

(** [trim()], on code points *)
Fixpoint trim_start (l : list Z) : list Z :=
  match l with
  | c :: l' => if js_space c then trim_start l' else l
  | [] => []
  end.
Definition trim (l : list Z) : list Z := rev (trim_start (rev (trim_start l))).

(** Unicode scalar values *)
Definition scalar (c : Z) : Prop := 0 <= c <= 0xD7FF \/ 0xE000 <= c <= 0x10FFFF.

Section utf8.
Lemma code_byte_of z : 0 <= z < 256 -> code (byte_of z) = z.
Proof.
  intros H. unfold code, byte_of. rewrite Ascii.N_ascii_embedding by lia. lia.
Qed.

Lemma code_range c : 0 <= code c < 256.
Proof. unfold code. pose proof (Ascii.N_ascii_bounded c). lia. Qed.

Lemma bytes_app a b : bytes (a +:+ b) = bytes a ++ bytes b.
Proof. unfold bytes. by rewrite chars_app, fmap_app. Qed.

Lemma encode_cp_range c : scalar c -> Forall (fun b => 0 <= b < 256) (encode_cp c).
Proof.
  unfold scalar, encode_cp. intros Hc.
  repeat match goal with |- context [c <=? ?n] => destruct (Z.leb_spec c n) end;
    rewrite ?Forall_cons, ?Forall_nil; split_and?; try done; cbv beta;
    Z.div_mod_to_equations; lia.
Qed.

Lemma bytes_encode l : Forall scalar l -> bytes (encode l) = encode_points l.
Proof.
  intros Hl. unfold bytes, encode. rewrite chars_unchars, <-list_fmap_compose.
  assert (Hr : Forall (fun b => 0 <= b < 256) (encode_points l)).
  { unfold encode_points. apply Forall_bind. eapply Forall_impl; [exact Hl|].
    apply encode_cp_range. }
  rewrite <-(list_fmap_id (encode_points l)) at 2.
  apply Forall_fmap_ext_1. eapply Forall_impl; [exact Hr|]. intros b Hb. by apply code_byte_of.
Qed.

(** One encoded code point brings the automaton back to its start. *)
Lemma d_run_encode_cp c bs :
  scalar c -> d_run d_start (encode_cp c ++ bs) = Some c :: d_run d_start bs.
Proof.
  unfold scalar, encode_cp. intros Hc.
  destruct (Z.leb_spec c 0x7F) as [H1|H1]; [|destruct (Z.leb_spec c 0x7FF) as [H2|H2];
    [|destruct (Z.leb_spec c 0xFFFF) as [H3|H3]]].
  - simpl. unfold d_byte, d_lead; simpl. by rewrite (proj2 (Z.leb_le c 127)) by lia.
  - set (b0 := 0xC0 + c / 64). set (b1 := 0x80 + c mod 64).
    assert (0xC2 <= b0 <= 0xDF) by (subst b0; Z.div_mod_to_equations; lia).
    assert (0x80 <= b1 <= 0xBF) by (subst b1; Z.div_mod_to_equations; lia).
    assert (c = (b0 - 0xC0) * 64 + (b1 - 0x80)) by (subst b0 b1; Z.div_mod_to_equations; lia).
    simpl. unfold d_byte at 1, d_lead; simpl.
    rewrite (proj2 (Z.leb_gt b0 127)), (proj2 (Z.leb_gt b0 193)), (proj2 (Z.leb_le b0 223)) by lia.
    simpl. unfold d_byte; simpl.
    rewrite (proj2 (Z.leb_le 128 b1)), (proj2 (Z.leb_le b1 191)) by lia. simpl. by f_equal; f_equal.
  - set (b0 := 0xE0 + c / 4096). set (b1 := 0x80 + c / 64 mod 64). set (b2 := 0x80 + c mod 64).
    assert (0xE0 <= b0 <= 0xEF) by (subst b0; Z.div_mod_to_equations; lia).
    assert (0x80 <= b1 <= 0xBF) by (subst b1; Z.div_mod_to_equations; lia).
    assert (0x80 <= b2 <= 0xBF) by (subst b2; Z.div_mod_to_equations; lia).
    assert (c = ((b0 - 0xE0) * 64 + (b1 - 0x80)) * 64 + (b2 - 0x80))
      by (subst b0 b1 b2; Z.div_mod_to_equations; lia).
    simpl. unfold d_byte at 1, d_lead; simpl.
    rewrite (proj2 (Z.leb_gt b0 127)), (proj2 (Z.leb_gt b0 193)), (proj2 (Z.leb_gt b0 223)),
      (proj2 (Z.leb_le b0 239)) by lia.
    simpl. unfold d_byte at 1; simpl.
    assert (Hlo : ((if b0 =? 224 then 160 else 128) <=? b1) = true).
    { apply Z.leb_le. destruct (Z.eqb_spec b0 224); lia. }
    assert (Hhi : (b1 <=? (if b0 =? 237 then 159 else 191)) = true).
    { apply Z.leb_le. destruct (Z.eqb_spec b0 237); lia. }
    rewrite Hlo, Hhi. simpl. unfold d_byte; simpl.
    rewrite (proj2 (Z.leb_le 128 b2)), (proj2 (Z.leb_le b2 191)) by lia. simpl. by f_equal; f_equal.
  - set (b0 := 0xF0 + c / 262144). set (b1 := 0x80 + c / 4096 mod 64).
    set (b2 := 0x80 + c / 64 mod 64). set (b3 := 0x80 + c mod 64).
    assert (0xF0 <= b0 <= 0xF4) by (subst b0; Z.div_mod_to_equations; lia).
    assert (0x80 <= b1 <= 0xBF) by (subst b1; Z.div_mod_to_equations; lia).
    assert (0x80 <= b2 <= 0xBF) by (subst b2; Z.div_mod_to_equations; lia).
    assert (0x80 <= b3 <= 0xBF) by (subst b3; Z.div_mod_to_equations; lia).
    assert (c = (((b0 - 0xF0) * 64 + (b1 - 0x80)) * 64 + (b2 - 0x80)) * 64 + (b3 - 0x80))
      by (subst b0 b1 b2 b3; Z.div_mod_to_equations; lia).
    simpl. unfold d_byte at 1, d_lead; simpl.
    rewrite (proj2 (Z.leb_gt b0 127)), (proj2 (Z.leb_gt b0 193)), (proj2 (Z.leb_gt b0 223)),
      (proj2 (Z.leb_gt b0 239)), (proj2 (Z.leb_le b0 244)) by lia.
    simpl. unfold d_byte at 1; simpl.
    assert (Hlo : ((if b0 =? 240 then 144 else 128) <=? b1) = true).
    { apply Z.leb_le. destruct (Z.eqb_spec b0 240); lia. }
    assert (Hhi : (b1 <=? (if b0 =? 244 then 143 else 191)) = true).
    { apply Z.leb_le. destruct (Z.eqb_spec b0 244); lia. }
    rewrite Hlo, Hhi. simpl. unfold d_byte at 1; simpl.
    rewrite (proj2 (Z.leb_le 128 b2)), (proj2 (Z.leb_le b2 191)) by lia. simpl.
    unfold d_byte; simpl.
    rewrite (proj2 (Z.leb_le 128 b3)), (proj2 (Z.leb_le b3 191)) by lia. simpl. by f_equal; f_equal.
Qed.

Lemma decode_encode l : Forall scalar l -> decode (encode l) = Some <$> l.
Proof.
  intros Hl. unfold decode. rewrite bytes_encode by done.
  induction Hl as [|c l Hc _ IH]; simpl; [done|].
  unfold encode_points in *; simpl. by rewrite d_run_encode_cp, IH.
Qed.

Lemma points_encode l : Forall scalar l -> points (encode l) = l.
Proof.
  intros Hl. unfold points. rewrite decode_encode by done.
  rewrite <-list_fmap_compose. apply list_fmap_id.
Qed.

Lemma decode_fatal_encode l : Forall scalar l -> decode_fatal (encode l) = Some l.
Proof.
  intros Hl. unfold decode_fatal. rewrite decode_encode by done.
  clear Hl. apply mapM_Some. induction l; constructor; done.
Qed.

(** The decoder only emits scalar values. *)
Fixpoint d_good (n : nat) (cp lo hi : Z) : Prop :=
  match n with
  | O => True
  | S O => forall b, lo <= b <= hi -> scalar (cp * 64 + (b - 0x80))
  | S n => forall b, lo <= b <= hi -> d_good n (cp * 64 + (b - 0x80)) 0x80 0xBF
  end.
Definition st_good (st : dstate) : Prop := d_good (d_needed st) (d_cp st) (d_lo st) (d_hi st).
Definition all_scalar (l : list (option Z)) : Prop := Forall (fun o => forall c, o = Some c -> scalar c) l.

Lemma all_scalar_error l : all_scalar l -> all_scalar (None :: l).
Proof. intros H. apply Forall_cons. split; [intros c [=]|done]. Qed.
Lemma all_scalar_one c : scalar c -> all_scalar [Some c].
Proof. intros H. apply Forall_cons. split; [by intros ? [= <-]|constructor]. Qed.

Lemma d_lead_good b : 0 <= b < 256 -> all_scalar (d_lead b).1 /\ st_good (d_lead b).2.
Proof.
  intros Hb. unfold d_lead, all_scalar, st_good.
  destruct (Z.leb_spec b 0x7F); [split; [apply all_scalar_one; left; lia|done]|].
  destruct (Z.leb_spec b 0xC1); [split; [apply all_scalar_error; constructor|done]|].
  destruct (Z.leb_spec b 0xDF); [split; simpl; [done|intros x Hx; left; lia]|].
  destruct (Z.leb_spec b 0xEF).
  { split; [done|]. simpl. intros x Hx y Hy. unfold scalar.
    destruct (Z.eqb_spec b 0xE0), (Z.eqb_spec b 0xED); lia. }
  destruct (Z.leb_spec b 0xF4); [|split; [apply all_scalar_error; constructor|done]].
  split; [done|]. simpl. intros x Hx y Hy z Hz. unfold scalar.
  destruct (Z.eqb_spec b 0xF0), (Z.eqb_spec b 0xF4); lia.
Qed.

Lemma d_byte_good st b :
  0 <= b < 256 -> st_good st -> all_scalar (d_byte st b).1 /\ st_good (d_byte st b).2.
Proof.
  intros Hb Hst. unfold d_byte, st_good in *. pose proof (d_lead_good b Hb) as [H1 H2].
  destruct (d_needed st) as [|n]; [done|].
  destruct ((d_lo st <=? b) && (b <=? d_hi st)) eqn:E.
  - apply andb_true_iff in E as [E1%Z.leb_le E2%Z.leb_le].
    destruct n as [|n]; simpl.
    + split; [|done]. apply all_scalar_one. by apply Hst.
    + split; [constructor|]. by apply Hst.
  - destruct (d_lead b) as [out st'] eqn:E'; simpl in *. split; [|done]. by apply all_scalar_error.
Qed.

Lemma d_run_scalar st bs :
  Forall (fun b => 0 <= b < 256) bs -> st_good st -> all_scalar (d_run st bs).
Proof.
  intros Hbs. revert st. induction Hbs as [|b bs Hb _ IH]; intros st Hst; simpl.
  - destruct (d_needed st); [constructor|apply all_scalar_error; constructor].
  - pose proof (d_byte_good st b Hb Hst) as [H1 H2]. destruct (d_byte st b) as [out st'].
    apply Forall_app. split; [done|]. by apply IH.
Qed.

Lemma points_scalar s : Forall scalar (points s).
Proof.
  unfold points, decode. apply Forall_fmap.
  eapply Forall_impl; [apply d_run_scalar|].
  - unfold bytes. apply Forall_fmap, Forall_forall. intros c _. apply code_range.
  - done.
  - intros [c|] H; simpl; [by apply H|]. right. lia.
Qed.
End utf8.


Example js_length_astral : js_length (encode [0x61; 0x1F4A3]) = 3.
Proof. reflexivity. Qed.
