(* ===== verification/Json.v ===== *)
(** * JavaScript values and JSON

    [jsval] is a JavaScript value as the program sees one that came from
    [JSON.parse] or from an object literal: an object is the list of its
    properties in insertion order.  [JSON_parse] is the ECMA-404 grammar;
    [quote] and [num_to_string] are [JSON.stringify] of a string and [String]
    of an integer. *)

From S2P Require Import Prelude JsNum Utf8.
From Stdlib Require Import QArith.
Local Open Scope Z_scope.

Unset Elimination Schemes.
Inductive jsval : Type :=
| VUndef
| VNull
| VBool (b : bool)
| VNum (n : jsnum)
| VStr (s : string)
| VArr (l : list jsval)
| VObj (o : list (string * jsval)).
Set Elimination Schemes.

Section jsval_ind.
Context (P : jsval -> Prop)
  (Hundef : P VUndef) (Hnull : P VNull) (Hbool : forall b, P (VBool b))
  (Hnum : forall n, P (VNum n)) (Hstr : forall s, P (VStr s))
  (Harr : forall l, Forall P l -> P (VArr l))
  (Hobj : forall o, Forall (fun kv => P kv.2) o -> P (VObj o)).

Fixpoint jsval_ind (v : jsval) : P v :=
  match v with
  | VUndef => Hundef
  | VNull => Hnull
  | VBool b => Hbool b
  | VNum n => Hnum n
  | VStr s => Hstr s
  | VArr l => Harr l ((fix go l : Forall P l :=
      match l with
      | [] => List.Forall_nil P
      | x :: l => List.Forall_cons P x l (jsval_ind x) (go l)
      end) l)
  | VObj o => Hobj o ((fix go o : Forall (fun kv => P kv.2) o :=
      match o with
      | [] => List.Forall_nil _
      | kv :: o => List.Forall_cons _ kv o (jsval_ind kv.2) (go o)
      end) o)
  end.
End jsval_ind.

(** ** Property access *)
Definition is_undef (v : jsval) : bool := match v with VUndef => true | _ => false end.

Fixpoint obj_get (o : list (string * jsval)) (k : string) : jsval :=
  match o with
  | [] => VUndef
  | (k', v) :: o => if String.eqb k k' then v else obj_get o k
  end.

(** [o[k] = v]: an existing property keeps its place. *)
Fixpoint obj_set (o : list (string * jsval)) (k : string) (v : jsval) : list (string * jsval) :=
  match o with
  | [] => [(k, v)]
  | (k', v') :: o => if String.eqb k k' then (k', v) :: o else (k', v') :: obj_set o k v
  end.

Lemma obj_get_set o k v k' : obj_get (obj_set o k v) k' = if String.eqb k' k then v else obj_get o k'.
Proof.
  induction o as [|[a x] o IH]; simpl; [done|]. destruct (String.eqb_spec k a) as [<-|Hka]; simpl.
  - by destruct (String.eqb k' k).
  - rewrite IH. destruct (String.eqb_spec k' a) as [->|]; [|done]. destruct (String.eqb_spec a k); congruence.
Qed.

(** [v.k] for a name [k] that no prototype defines; [None] is the TypeError of
    [null] and [undefined]. *)
Definition js_get (v : jsval) (k : string) : option jsval :=
  match v with
  | VUndef | VNull => None
  | VObj o => Some (obj_get o k)
  | _ => Some VUndef
  end.

(** [v?.k] *)
Definition js_get_opt (v : jsval) (k : string) : jsval := default VUndef (js_get v k).

Definition vint (z : Z) : jsval := VNum (jnum z).
Definition as_str (v : jsval) : option string := match v with VStr s => Some s | _ => None end.
Definition str_is (v : jsval) (s : string) : bool :=
  match v with VStr s' => bool_decide (s' = s) | _ => false end.

(** ** Printing *)
Definition hex_digit (d : Z) : Ascii.ascii := byte_of (if d <? 10 then 48 + d else 87 + d).

Definition escape (c : Ascii.ascii) : list Ascii.ascii :=
  let b := code c in
  if b =? 34 then chars "\" ++ [c]
  else if b =? 92 then chars "\\"
  else if b =? 8 then chars "\b"
  else if b =? 12 then chars "\f"
  else if b =? 10 then chars "\n"
  else if b =? 13 then chars "\r"
  else if b =? 9 then chars "\t"
  else if b <? 32 then chars "\u00" ++ [hex_digit (b / 16); hex_digit (b mod 16)]
  else [c].

Definition dquote : Ascii.ascii := byte_of 34.

(** [JSON.stringify(s)] for a string *)
Definition quote_chars (s : string) : list Ascii.ascii := dquote :: (chars s ≫= escape) ++ [dquote].
Definition quote (s : string) : string := unchars (quote_chars s).

(** [String(n)] for an integer of at most 21 digits *)
Fixpoint dec_aux (fuel : nat) (n : Z) (acc : list Z) : list Z :=
  match fuel with
  | O => acc
  | S fuel => let acc := n mod 10 :: acc in
              if n / 10 =? 0 then acc else dec_aux fuel (n / 10) acc
  end.
Definition dec_digits (n : Z) : list Z := dec_aux (S (Z.to_nat (Z.log2 n))) n [].
Definition digit_char (d : Z) : Ascii.ascii := byte_of (48 + d).
Definition num_chars (z : Z) : list Ascii.ascii :=
  if z <? 0 then byte_of 45 :: (digit_char <$> dec_digits (- z)) else digit_char <$> dec_digits z.
Definition num_to_string (z : Z) : string := unchars (num_chars z).

(** ** Parsing *)
Abbreviation chs := (list Ascii.ascii).

Definition is_ws (c : Ascii.ascii) : bool := bool_decide (code c ∈ [9; 10; 13; 32]).
Fixpoint skip_ws (l : chs) : chs :=
  match l with
  | [] => []
  | c :: l' => if is_ws c then skip_ws l' else l
  end.

Definition digit_val (c : Ascii.ascii) : option Z :=
  let b := code c in if (48 <=? b) && (b <=? 57) then Some (b - 48) else None.
Definition hex_val (c : Ascii.ascii) : option Z :=
  let b := code c in
  if (48 <=? b) && (b <=? 57) then Some (b - 48)
  else if (97 <=? b) && (b <=? 102) then Some (b - 87)
  else if (65 <=? b) && (b <=? 70) then Some (b - 55)
  else None.

Fixpoint take_digits (l : chs) : list Z * chs :=
  match l with
  | [] => ([], [])
  | c :: l' => match digit_val c with
               | Some d => let '(ds, r) := take_digits l' in (d :: ds, r)
               | None => ([], l)
               end
  end.
Definition digits_val (ds : list Z) : Z := fold_left (fun a d => a * 10 + d) ds 0.

Definition q_pow10 (e : Z) : Q := Qpower 10 e.
(** The double nearest to the literal; beyond the largest finite one, infinity. *)
Definition num_of_literal (neg : bool) (mant : Z) (e : Z) : jsnum :=
  let q := (inject_Z mant * q_pow10 e)%Q in
  if Qle_bool (inject_Z (2 ^ 1024 - 2 ^ 970)) q then Inf neg
  else Fin (rnd (if neg then - q else q)).

Definition parse_frac (l : chs) : option (list Z * chs) :=
  match l with
  | c :: l' => if code c =? 46 then match take_digits l' with
                                    | ([], _) => None
                                    | r => Some r
                                    end
               else Some ([], l)
  | [] => Some ([], l)
  end.

Definition parse_exp (l : chs) : option (Z * chs) :=
  match l with
  | c :: l' =>
      if (code c =? 101) || (code c =? 69) then
        let '(sg, l'') := match l' with
                          | c' :: r => if code c' =? 45 then (-1, r) else if code c' =? 43 then (1, r) else (1, l')
                          | [] => (1, l')
                          end in
        match take_digits l'' with
        | ([], _) => None
        | (ds, r) => Some (sg * digits_val ds, r)
        end
      else Some (0, l)
  | [] => Some (0, l)
  end.

Definition parse_number (l : chs) : option (jsnum * chs) :=
  let '(neg, l1) := match l with
                    | c :: r => if code c =? 45 then (true, r) else (false, l)
                    | [] => (false, l)
                    end in
  match take_digits l1 with
  | ([], _) => None
  | (0 :: _ :: _, _) => None                (* no leading zeros *)
  | (ds, l2) =>
      '(fs, l3) ← parse_frac l2;
      '(e, l4) ← parse_exp l3;
      Some (num_of_literal neg (digits_val (ds ++ fs)) (e - Z.of_nat (length fs)), l4)
  end.

Definition hex4 (l : chs) : option (Z * chs) :=
  match l with
  | a :: b :: c :: d :: r =>
      x ← hex_val a; y ← hex_val b; z ← hex_val c; w ← hex_val d;
      Some (((x * 16 + y) * 16 + z) * 16 + w, r)
  | _ => None
  end.

(** What a backslash introduces: the code points it stands for. *)
Definition parse_escape (l : chs) : option (list Z * chs) :=
  match l with
  | [] => None
  | c :: r =>
      let b := code c in
      if bool_decide (b ∈ [34; 92; 47]) then Some ([b], r)
      else if b =? 98 then Some ([8], r)
      else if b =? 102 then Some ([12], r)
      else if b =? 110 then Some ([10], r)
      else if b =? 114 then Some ([13], r)
      else if b =? 116 then Some ([9], r)
      else if b =? 117 then
        '(h, r1) ← hex4 r;
        match (if (0xD800 <=? h) && (h <=? 0xDBFF)
               then match r1 with
                    | b1 :: u1 :: r2 => if (code b1 =? 92) && (code u1 =? 117) then hex4 r2 else None
                    | _ => None
                    end
               else None) with
        | Some (lo, r3) =>
            if (0xDC00 <=? lo) && (lo <=? 0xDFFF)
            then Some ([0x10000 + (h - 0xD800) * 1024 + (lo - 0xDC00)], r3)
            else Some ([h], r1)
        | None => Some ([h], r1)
        end
      else None
  end.

(** After the opening quote; [n] bounds the number of characters. *)
Fixpoint parse_str (n : nat) (l : chs) : option (chs * chs) :=
  match n, l with
  | O, _ | _, [] => None
  | S n, c :: r =>
      if code c =? 34 then Some ([], r)
      else if code c =? 92 then
        '(cp, r1) ← parse_escape r;
        '(s, r2) ← parse_str n r1;
        Some ((byte_of <$> encode_points cp) ++ s, r2)
      else if code c <? 32 then None
      else '(s, r2) ← parse_str n r; Some (c :: s, r2)
  end.

Definition strip_lit (w : string) (l : chs) : option chs :=
  if prefixb (chars w) l then Some (drop (String.length w) l) else None.

Fixpoint parse_value (n : nat) (l : chs) {struct n} : option (jsval * chs) :=
  match n with
  | O => None
  | S n =>
      match skip_ws l with
      | [] => None
      | c :: r =>
          let b := code c in
          if b =? 34 then '(s, r') ← parse_str (length r) r; Some (VStr (unchars s), r')
          else if b =? 91 then
            match skip_ws r with
            | c' :: r' => if code c' =? 93 then Some (VArr [], r')
                          else '(xs, r2) ← parse_elems n r; Some (VArr xs, r2)
            | [] => None
            end
          else if b =? 123 then
            match skip_ws r with
            | c' :: r' => if code c' =? 125 then Some (VObj [], r')
                          else '(o, r2) ← parse_members n [] r; Some (VObj o, r2)
            | [] => None
            end
          else if b =? 110 then r' ← strip_lit "null" (c :: r); Some (VNull, r')
          else if b =? 116 then r' ← strip_lit "true" (c :: r); Some (VBool true, r')
          else if b =? 102 then r' ← strip_lit "false" (c :: r); Some (VBool false, r')
          else '(x, r') ← parse_number (c :: r); Some (VNum x, r')
      end
  end
with parse_elems (n : nat) (l : chs) {struct n} : option (list jsval * chs) :=
  match n with
  | O => None
  | S n =>
      '(x, r) ← parse_value n l;
      match skip_ws r with
      | c :: r' => if code c =? 44 then '(xs, r2) ← parse_elems n r'; Some (x :: xs, r2)
                   else if code c =? 93 then Some ([x], r')
                   else None
      | [] => None
      end
  end
with parse_members (n : nat) (acc : list (string * jsval)) (l : chs) {struct n}
    : option (list (string * jsval) * chs) :=
  match n with
  | O => None
  | S n =>
      match skip_ws l with
      | q :: r0 =>
          if code q =? 34 then
            '(k, r1) ← parse_str (length r0) r0;
            match skip_ws r1 with
            | c :: r2 =>
                if code c =? 58 then
                  '(v, r3) ← parse_value n r2;
                  let acc := obj_set acc (unchars k) v in
                  match skip_ws r3 with
                  | c' :: r4 => if code c' =? 44 then parse_members n acc r4
                                else if code c' =? 125 then Some (acc, r4)
                                else None
                  | [] => None
                  end
                else None
            | [] => None
            end
          else None
      | [] => None
      end
  end.

(** [JSON.parse]; [None] is the SyntaxError.  Every recursive call consumes a
    character, so the length of the text is enough fuel. *)
Definition JSON_parse (s : string) : option jsval :=
  match parse_value (S (length (chars s))) (chars s) with
  | Some (v, r) => match skip_ws r with [] => Some v | _ => None end
  | None => None
  end.

Example parse_ex :
  JSON_parse (str_app [" { "; quote "a"; " : [1, -20, true, null, "; quote "x"; "], ";
                       quote "b"; ":{},"; quote "a"; ":3 } "])
  = Some (VObj [("a", vint 3); ("b", VObj [])]).
Proof. vm_compute. reflexivity. Qed.

(** ** Reading back what was printed *)
Section roundtrip.
Lemma byte_of_code c : byte_of (code c) = c.
Proof. unfold byte_of, code. rewrite N2Z.id. apply Ascii.ascii_N_embedding. Qed.

Lemma hex_val_digit d : 0 <= d < 16 -> hex_val (hex_digit d) = Some d.
Proof.
  intros Hd. unfold hex_val, hex_digit.
  destruct (Z.ltb_spec d 10); rewrite code_byte_of by lia; case_goal; bool_prop;
    f_equal; lia.
Qed.

Lemma parse_str_esc n r cp r1 :
  parse_escape r = Some (cp, r1) ->
  parse_str (S n) (byte_of 92 :: r) =
    '(s, r2) ← parse_str n r1; Some ((byte_of <$> encode_points cp) ++ s, r2).
Proof. intros H. cbn -[parse_escape]. by rewrite H. Qed.

Lemma hex4_00 x y l :
  0 <= x < 16 -> 0 <= y < 16 ->
  hex4 (byte_of 48 :: byte_of 48 :: hex_digit x :: hex_digit y :: l) = Some (x * 16 + y, l).
Proof.
  intros Hx Hy. unfold hex4. change (hex_val (byte_of 48)) with (Some 0).
  by rewrite !hex_val_digit.
Qed.

Lemma parse_escape_u r h r1 :
  hex4 r = Some (h, r1) -> h < 0xD800 -> parse_escape (byte_of 117 :: r) = Some ([h], r1).
Proof.
  intros H Hh. unfold parse_escape. change (code (byte_of 117)) with 117.
  change (bool_decide (117 ∈ [34; 92; 47])) with false. cbn -[hex4 Z.leb]. rewrite H.
  cbn -[hex4 Z.leb]. by rewrite (proj2 (Z.leb_gt 55296 h)) by lia.
Qed.

(** One escaped character is read back as itself. *)
Lemma parse_str_char c n l :
  parse_str (S n) (escape c ++ l) =
    '(s, r) ← parse_str n l; Some (c :: s, r).
Proof.
  unfold escape. pose proof (code_range c) as Hr. pose proof (byte_of_code c) as Hc.
  remember (code c) as b eqn:Hb.
  assert (He : forall x, 0 <= x < 128 -> byte_of <$> encode_points [x] = [byte_of x]).
  { intros x Hx. unfold encode_points, encode_cp. simpl. by rewrite (proj2 (Z.leb_le x 127)) by lia. }
  repeat match goal with |- context [b =? ?k] =>
    destruct (Z.eqb_spec b k) as [->|?];
      [rewrite <-Hc; vm_compute chars; simpl; destruct (parse_str n l) as [[??]|]; reflexivity|] end.
  destruct (Z.ltb_spec b 32).
  - change (chars "\u00") with [byte_of 92; byte_of 117; byte_of 48; byte_of 48].
    rewrite <-!(assoc_L (++)). cbn [app]. rewrite (parse_str_esc n _ [b] l).
    2: { apply parse_escape_u; [|lia]. rewrite hex4_00 by (Z.div_mod_to_equations; lia).
         do 2 f_equal. Z.div_mod_to_equations; lia. }
    rewrite He, Hc by lia. done.
  - simpl. rewrite <-Hb.
    destruct (Z.eqb_spec b 34); [lia|]. destruct (Z.eqb_spec b 92); [lia|].
    by destruct (Z.ltb_spec b 32); [lia|].
Qed.

Lemma escape_length c : (1 <= length (escape c))%nat.
Proof. unfold escape. case_goal; simpl; lia. Qed.

Lemma parse_str_quote s n l :
  (length (chars s) < n)%nat ->
  parse_str n ((chars s ≫= escape) ++ dquote :: l) = Some (chars s, l).
Proof.
  revert n. induction (chars s) as [|c cs IH]; intros n Hn; (destruct n as [|n]; [lia|]).
  - done.
  - cbn [mbind list_bind]. rewrite <-(assoc_L (++)), parse_str_char, IH; [done|].
    simpl in Hn. lia.
Qed.

Lemma length_bind_escape cs : (length cs <= length (cs ≫= escape))%nat.
Proof.
  induction cs as [|c cs IH]; simpl; [lia|]. rewrite length_app.
  pose proof (escape_length c). unfold mbind in *. lia.
Qed.

Lemma skip_ws_cons c l : is_ws c = false -> skip_ws (c :: l) = c :: l.
Proof. simpl. by intros ->. Qed.

Lemma parse_value_quote n s l :
  parse_value (S n) (quote_chars s ++ l) = Some (VStr s, l).
Proof.
  unfold quote_chars. cbn [parse_value app]. rewrite skip_ws_cons by done.
  change (code dquote =? 34) with true. cbv iota.
  rewrite <-(assoc_L (++)). simpl. rewrite parse_str_quote.
  - simpl. by rewrite unchars_chars.
  - rewrite length_app. pose proof (length_bind_escape (chars s)). simpl. lia.
Qed.

(** *** Numbers *)
Definition num_stop (l : chs) : Prop :=
  match l with [] => True | c :: _ => code c = 44 \/ code c = 93 \/ code c = 125 end.

Lemma digit_val_char d : 0 <= d < 10 -> digit_val (digit_char d) = Some d.
Proof.
  intros. unfold digit_val, digit_char. rewrite code_byte_of by lia.
  case_goal; bool_prop; f_equal; lia.
Qed.

Lemma take_digits_stop l : num_stop l -> take_digits l = ([], l).
Proof.
  destruct l as [|c l]; [done|]. simpl. unfold digit_val.
  intros [->|[->| ->]]; done.
Qed.

Lemma take_digits_chars ds l :
  Forall (fun d => 0 <= d < 10) ds -> num_stop l ->
  take_digits ((digit_char <$> ds) ++ l) = (ds, l).
Proof.
  intros Hd Hl. induction Hd as [|d ds Hd _ IH].
  - by apply take_digits_stop.
  - rewrite fmap_cons. cbn [app take_digits]. by rewrite digit_val_char, IH.
Qed.

Lemma dec_aux_spec fuel n acc :
  0 <= n -> n < 2 ^ Z.of_nat fuel -> exists ds,
    dec_aux fuel n acc = ds ++ acc /\ Forall (fun d => 0 <= d < 10) ds /\
    (fuel <> O -> ds <> []) /\ (forall a, fold_left (fun a d => a * 10 + d) ds a = a * 10 ^ Z.of_nat (length ds) + n) /\
    (0 < n -> hd_error ds <> Some 0).
Proof.
  revert n acc. induction fuel as [|fuel IH]; intros n acc Hn Hlt; cbn [dec_aux].
  - exists []. change (2 ^ Z.of_nat 0) with 1 in Hlt. split_and!; try done. intros a. simpl. lia.
  - assert (Hq : 0 <= n / 10 /\ n / 10 < 2 ^ Z.of_nat fuel).
    { replace (Z.of_nat (S fuel)) with (Z.of_nat fuel + 1) in Hlt by lia.
      rewrite Z.pow_add_r in Hlt by lia. Z.div_mod_to_equations. lia. }
    destruct (Z.eqb_spec (n / 10) 0) as [Hz|Hnz].
    + exists [n mod 10]. split_and!; try done.
      * constructor; [|done]. Z.div_mod_to_equations; lia.
      * intros a. simpl. Z.div_mod_to_equations; lia.
      * simpl. intros ? [= ?]. Z.div_mod_to_equations; lia.
    + destruct (IH (n / 10) (n mod 10 :: acc)) as (ds & E & Hd & Hne & Hv & Hh); [lia|lia|].
      exists (ds ++ [n mod 10]). split_and!.
      * rewrite E. by rewrite <-(assoc_L (++)).
      * apply Forall_app. split; [done|]. constructor; [|done]. Z.div_mod_to_equations; lia.
      * intros _. by destruct ds.
      * intros a. rewrite fold_left_app, Hv. simpl. rewrite length_app. simpl.
        rewrite Nat2Z.inj_add, Z.pow_add_r by lia. simpl. Z.div_mod_to_equations. lia.
      * intros _. assert (Hds : ds <> []).
        { intros ->. specialize (Hv 0). simpl in Hv. lia. }
        destruct ds; [done|]. simpl in *. apply Hh. Z.div_mod_to_equations; lia.
Qed.

Lemma dec_digits_spec n :
  0 <= n -> Forall (fun d => 0 <= d < 10) (dec_digits n) /\ dec_digits n <> [] /\
            digits_val (dec_digits n) = n /\ (0 < n -> hd_error (dec_digits n) <> Some 0).
Proof.
  intros Hn. unfold dec_digits.
  destruct (dec_aux_spec (S (Z.to_nat (Z.log2 n))) n []) as (ds & E & Hd & Hne & Hv & Hh); [done| |].
  - pose proof (Z.log2_nonneg n). replace (Z.of_nat (S (Z.to_nat (Z.log2 n)))) with (Z.succ (Z.log2 n)) by lia.
    destruct (Z.eq_dec n 0) as [->|]; [done|]. apply Z.log2_spec. lia.
  - rewrite E, app_nil_r. split_and!; auto.
    unfold digits_val. rewrite Hv. lia.
Qed.

Lemma num_of_literal_int (neg : bool) m :
  0 <= m <= MAX_SAFE -> num_of_literal neg m 0 = jnum (if neg then - m else m).
Proof.
  intros Hm. unfold num_of_literal, q_pow10.
  assert (E : (inject_Z m * Qpower 10 0)%Q = inject_Z m).
  { unfold Qmult, inject_Z. simpl. by rewrite Z.mul_1_r. }
  rewrite E. rewrite (proj2 (Qle_bool_false _ _)).
  - unfold jnum. f_equal. destruct neg.
    + change (- inject_Z m)%Q with (inject_Z (- m)). apply rnd_int. lia.
    + apply rnd_int. lia.
  - rewrite <-Zlt_Qlt. unfold MAX_SAFE in Hm. lia.
Qed.

Lemma parse_number_digits neg m l :
  0 <= m <= MAX_SAFE -> num_stop l ->
  parse_number ((if neg : bool then [byte_of 45] else []) ++ (digit_char <$> dec_digits m) ++ l)
    = Some (jnum (if neg then - m else m), l).
Proof.
  intros Hm Hl. destruct (dec_digits_spec m) as (Hd & Hne & Hv & Hh); [lia|].
  unfold parse_number.
  assert (Hsig : forall l', match (if neg then [byte_of 45] else []) ++ (digit_char <$> dec_digits m) ++ l' with
                  | c :: r => if code c =? 45 then (true, r) else (false, (if neg then [byte_of 45] else []) ++ (digit_char <$> dec_digits m) ++ l')
                  | [] => (false, (if neg then [byte_of 45] else []) ++ (digit_char <$> dec_digits m) ++ l') end
                = (neg, (digit_char <$> dec_digits m) ++ l')).
  { intros l'. destruct neg; [done|]. destruct (dec_digits m) as [|d ds]; [done|].
    inv Hd. simpl. unfold digit_char at 1. rewrite code_byte_of by lia.
    by destruct (Z.eqb_spec (48 + d) 45); [lia|]. }
  rewrite Hsig, take_digits_chars by done.
  assert (Hp : parse_frac l = Some ([], l) /\ parse_exp l = Some (0, l)).
  { destruct l as [|c l]; [done|]. simpl in *. by destruct Hl as [-> | [-> | ->]]. }
  destruct Hp as [Hf He].
  assert (Hz : forall d ds, dec_digits m = d :: ds -> d = 0 -> ds = []).
  { intros d ds E ->. destruct (decide (m = 0)) as [->|]; [by vm_compute in E; simplify_eq|].
    exfalso. apply Hh; [lia|]. by rewrite E. }
  destruct (dec_digits m) as [|d ds] eqn:E; [done|].
  assert (Hgo : ('(fs, l3) ← parse_frac l; '(e, l4) ← parse_exp l3;
     Some (num_of_literal neg (digits_val ((d :: ds) ++ fs)) (e - Z.of_nat (length fs)), l4))
     = Some (jnum (if neg then - m else m), l)).
  { rewrite Hf. simpl. rewrite He. simpl. rewrite app_nil_r, Hv.
    by rewrite num_of_literal_int. }
  destruct d; [|exact Hgo|exact Hgo]. specialize (Hz 0 ds eq_refl eq_refl) as ->. exact Hgo.
Qed.

Lemma parse_value_num n z l :
  Z.abs z <= MAX_SAFE -> num_stop l ->
  parse_value (S n) (num_chars z ++ l) = Some (vint z, l).
Proof.
  intros Hz Hl.
  assert (Hgen : forall neg m, 0 <= m <= MAX_SAFE ->
    parse_value (S n) ((if neg : bool then [byte_of 45] else []) ++ (digit_char <$> dec_digits m) ++ l)
    = Some (vint (if neg then - m else m), l)).
  { intros neg m Hm. pose proof (parse_number_digits neg m l Hm Hl) as Hp.
    destruct (dec_digits_spec m) as (Hd & Hne & _ & _); [lia|].
    destruct (dec_digits m) as [|d ds]; [done|]. inv Hd.
    assert (exists c r, (if neg : bool then [byte_of 45] else []) ++ (digit_char <$> d :: ds) ++ l = c :: r
                        /\ 45 <= code c <= 57) as (c & r & E & Hc).
    { destruct neg.
      { exists (byte_of 45), ((digit_char <$> d :: ds) ++ l). split; [done|].
        change (code (byte_of 45)) with 45. lia. }
      exists (digit_char d), ((digit_char <$> ds) ++ l). split; [done|].
      unfold digit_char. rewrite code_byte_of; lia. }
    rewrite E in *. cbn [parse_value]. rewrite skip_ws_cons.
    - repeat match goal with |- context [code c =? ?k] =>
        destruct (Z.eqb_spec (code c) k); [lia|] end. by rewrite Hp.
    - unfold is_ws. apply bool_decide_eq_false. set_unfold. lia. }
  unfold num_chars. destruct (Z.ltb_spec z 0).
  - specialize (Hgen true (- z) ltac:(lia)). rewrite Z.opp_involutive in Hgen. exact Hgen.
  - apply (Hgen false z). lia.
Qed.

(** *** One step of the array and object parsers *)
Lemma parse_elems_comma n l x r :
  parse_value n l = Some (x, byte_of 44 :: r) ->
  parse_elems (S n) l = '(xs, r2) ← parse_elems n r; Some (x :: xs, r2).
Proof. intros H. cbn [parse_elems]. by rewrite H. Qed.

Lemma parse_elems_end n l x r :
  parse_value n l = Some (x, byte_of 93 :: r) -> parse_elems (S n) l = Some ([x], r).
Proof. intros H. cbn [parse_elems]. by rewrite H. Qed.

Lemma parse_members_key n acc k l v c r :
  parse_value n l = Some (v, c :: r) -> is_ws c = false ->
  parse_members (S n) acc (quote_chars k ++ byte_of 58 :: l) =
    if code c =? 44 then parse_members n (obj_set acc k v) r
    else if code c =? 125 then Some (obj_set acc k v, r) else None.
Proof.
  intros H Hc. unfold quote_chars. cbn [app parse_members]. rewrite skip_ws_cons by done.
  change (code dquote =? 34) with true. cbv iota. rewrite <-!(assoc_L (++)). cbn [app].
  rewrite parse_str_quote.
  2: { rewrite length_app. pose proof (length_bind_escape (chars k)). simpl. lia. }
  cbn -[parse_value skip_ws obj_set parse_members]. rewrite skip_ws_cons by done.
  change (code (byte_of 58) =? 58) with true. cbv iota.
  rewrite H. cbn -[skip_ws obj_set parse_members]. by rewrite unchars_chars, skip_ws_cons.
Qed.

Lemma parse_value_arr n c r :
  is_ws c = false -> code c <> 93 ->
  parse_value (S n) (byte_of 91 :: c :: r) =
    '(xs, r2) ← parse_elems n (c :: r); Some (VArr xs, r2).
Proof.
  intros Hw Hc. cbn [parse_value]. rewrite skip_ws_cons by done.
  change (code (byte_of 91)) with 91. cbn -[parse_elems skip_ws]. rewrite skip_ws_cons by done.
  by destruct (Z.eqb_spec (code c) 93).
Qed.

Lemma parse_value_obj n r :
  parse_value (S n) (byte_of 123 :: dquote :: r) =
    '(o, r2) ← parse_members n [] (dquote :: r); Some (VObj o, r2).
Proof. done. Qed.
End roundtrip.
