(* ===== verification/Unicode.v ===== *)
(** * Unicode

    The character database behind [String.prototype.normalize], [toLowerCase] and
    the regular-expression classes is data of the JavaScript engine, not of the
    program: [Unicode] is the interface the components use, [UnicodeOk] the part
    of UAX #15 and of the case mappings that the theorems use, and
    [ascii_unicode] an instance that is exact on ASCII text, on which the
    executable examples run. *)

From S2P Require Import Prelude Utf8.
Local Open Scope Z_scope.

Class Unicode := {
  (** [s.normalize("NFC")] *)
  nfc : string -> string;
  (** [s.normalize("NFKC").toLowerCase()], on code points *)
  nfkc_lower : list Z -> list Z;
  (** general categories P and S *)
  is_punct_or_symbol : Z -> bool;
}.

Class UnicodeOk (U : Unicode) : Prop := {
  nfc_idem : forall s, nfc (nfc s) = nfc s;
  (** ASCII text is in normal form C already *)
  nfc_ascii : forall s, Forall (fun c => code c < 128) (chars s) -> nfc s = s;
  (** no letter or digit of ASCII is punctuation, and neither is the space *)
  not_punct_alnum : forall c,
    97 <= c <= 122 \/ 48 <= c <= 57 -> is_punct_or_symbol c = false;
}.

Definition ascii_punct (c : Z) : bool :=
  (33 <=? c) && (c <=? 47) || (58 <=? c) && (c <=? 64) ||
  (91 <=? c) && (c <=? 96) || (123 <=? c) && (c <=? 126).
Definition ascii_lower (c : Z) : Z := if (65 <=? c) && (c <=? 90) then c + 32 else c.

#[export] Instance ascii_unicode : Unicode := {|
  nfc := fun s => s;
  nfkc_lower := fun l => ascii_lower <$> l;
  is_punct_or_symbol := ascii_punct;
|}.

#[export] Instance ascii_unicode_ok : UnicodeOk ascii_unicode.
Proof.
  split; [done..|]. intros c Hc. simpl. unfold ascii_punct.
  repeat match goal with |- context [?a <=? ?b] => destruct (Z.leb_spec a b) end; simpl; lia.
Qed.
