(* ===== verification/Canonical.v ===== *)
(** * Canonicalization (packages/protocol/src/canonical.ts)

    [toCanonicalRequest] validates an untyped request and fills its defaults;
    [canonicalJson] is the JCS-style text every digest and signature of the
    system is taken over.  [canon] is the value that text stands for, and
    [parse_canonicalJson] recovers it: the text determines the value. *)

From S2P Require Import Prelude JsNum Utf8 Json Unicode.
From Stdlib Require Import QArith.
Local Open Scope Z_scope.

(** The throws of the module, and the TypeError of a property of [null]. *)
Inductive CanonicalizationError : Type :=
| NotSafeInteger (field : string)
| NotString (field : string)
| ModelRequired
| MessagesRequired
| RoleInvalid (i : nat)
| TemperatureOutOfRange
| MillisOutOfRange
| MaxTokensOutOfRange
| NonIntegerNumber
| UnsupportedType
| TypeError.

#[export] Instance CanonicalizationError_eq_dec : EqDecision CanonicalizationError.
Proof. solve_decision. Defined.

Inductive role : Type := system | user | assistant.
#[export] Instance role_eq_dec : EqDecision role.
Proof. solve_decision. Defined.

Definition role_str (r : role) : string :=
  match r with system => "system" | user => "user" | assistant => "assistant" end.

Record CanonicalMessage : Type := { cm_role : role; cm_content : string }.
Record CanonicalRequestV1 : Type := {
  cr_model : string;
  cr_messages : list CanonicalMessage;
  cr_temperature_millis : Z;
  cr_max_tokens : Z;
}.

(** Evaluate the comparisons of literal property names. *)
Ltac sort_keys :=
  repeat match goal with
  | |- context [cle ?cmp (?k, ?v) (?k', ?v')] =>
      let b := eval vm_compute in (jle k k') in
      change (cle cmp (k, v) (k', v')) with b; cbv iota
  end.

Section Canonical.
Context `{U : Unicode}.

Definition prop (v : jsval) (k : string) : res CanonicalizationError jsval :=
  match js_get v k with Some x => Ok x | None => Err TypeError end.

Definition assertSafeInteger (n : jsval) (field : string) : res CanonicalizationError Z :=
  match n with
  | VNum x => match safe_int x with Some z => Ok z | None => Err (NotSafeInteger field) end
  | _ => Err (NotSafeInteger field)
  end.

Definition nfc_field (s : jsval) (field : string) : res CanonicalizationError string :=
  match s with VStr s => Ok (nfc s) | _ => Err (NotString field) end.

Definition ROLES : list role := [system; user; assistant].

(** [ROLES.has(v)], with the role found *)
Definition role_of (v : jsval) : option role :=
  match v with
  | VStr s => head (filter (fun r => role_str r = s) ROLES)
  | _ => None
  end.

Definition canonicalMessage (im : nat * jsval) : res CanonicalizationError CanonicalMessage :=
  vrole ← prop im.2 "role";
  match role_of vrole with
  | None => Err (RoleInvalid im.1)
  | Some r =>
      vcontent ← prop im.2 "content";
      content ← nfc_field vcontent "content";
      Ok {| cm_role := r; cm_content := content |}
  end.

(** The three sources of the temperature, before the range check. *)
Definition temperatureMillis (input : jsval) : res CanonicalizationError Z :=
  tm ← prop input "temperature_millis";
  if negb (is_undef tm) then assertSafeInteger tm "temperature_millis"
  else
    t ← prop input "temperature";
    if negb (is_undef t) then
      match t with
      | VNum (Fin q) =>
          if Qle_bool 0 q && Qle_bool q 2
          then Ok (js_round (js_mul q (inject_Z 1000)))
          else Err TemperatureOutOfRange
      | _ => Err TemperatureOutOfRange
      end
    else Ok 1000.

Definition toCanonicalRequest (input : jsval) : res CanonicalizationError CanonicalRequestV1 :=
  vmodel ← prop input "model";
  model ← nfc_field vmodel "model";
  _ ← guard_ok (negb (str_empty model)) ModelRequired;
  vmessages ← prop input "messages";
  messages ← match vmessages with
             | VArr [] => Err MessagesRequired
             | VArr ms => mapM_res canonicalMessage (imap pair ms)
             | _ => Err MessagesRequired
             end;
  temperature_millis ← temperatureMillis input;
  _ ← guard_ok ((0 <=? temperature_millis) && (temperature_millis <=? 2000)) MillisOutOfRange;
  vmax ← prop input "max_tokens";
  max_tokens ← assertSafeInteger
                 (match vmax with VUndef | VNull => vint 1024 | v => v end) "max_tokens";
  _ ← guard_ok ((1 <=? max_tokens) && (max_tokens <=? 128000)) MaxTokensOutOfRange;
  Ok {| cr_model := model; cr_messages := messages;
        cr_temperature_millis := temperature_millis; cr_max_tokens := max_tokens |}.

(** ** Canonical JSON *)
Definition key_cmp {A} (a b : string * A) : comparison := js_compare a.1 b.1.

Fixpoint canonicalJson (v : jsval) : res CanonicalizationError string :=
  match v with
  | VNull => Ok "null"
  | VBool b => Ok (if b then "true" else "false")
  | VNum n => match safe_int n with
              | Some z => Ok (num_to_string z)
              | None => Err NonIntegerNumber
              end
  | VStr s => Ok (quote (nfc s))
  | VArr l =>
      parts ← mapM_res canonicalJson l;
      Ok (str_app ["["; str_join "," parts; "]"])
  | VObj o =>
      let entries := List.map (fun kv => (kv.1, (is_undef kv.2, canonicalJson kv.2))) o in
      let keys := jsort key_cmp entries in
      parts ← mapM_res (fun e => s ← e.2.2; Ok (str_app [quote e.1; ":"; s]))
                       (List.filter (fun e => negb e.2.1) keys);
      Ok (str_app ["{"; str_join "," parts; "}"])
  | VUndef => Err UnsupportedType
  end.

(** The request as the object literal the source builds. *)
Definition message_val (m : CanonicalMessage) : jsval :=
  VObj [("role", VStr (role_str (cm_role m))); ("content", VStr (cm_content m))].
Definition request_val (r : CanonicalRequestV1) : jsval :=
  VObj [("model", VStr (cr_model r));
        ("messages", VArr (message_val <$> cr_messages r));
        ("temperature_millis", vint (cr_temperature_millis r));
        ("max_tokens", vint (cr_max_tokens r))].

(** [canonicalBytes]: a string is already its UTF-8 bytes. *)
Definition canonicalBytes (r : CanonicalRequestV1) : res CanonicalizationError string :=
  canonicalJson (request_val r).

(** ** The value a canonical text stands for *)
Fixpoint canon (v : jsval) : jsval :=
  match v with
  | VNum n => match safe_int n with Some z => vint z | None => VNum n end
  | VStr s => VStr (nfc s)
  | VArr l => VArr (List.map canon l)
  | VObj o =>
      VObj (jsort key_cmp
              (List.filter (fun kv => negb (is_undef kv.2))
                 (List.map (fun kv => (kv.1, canon kv.2)) o)))
  | v => v
  end.

(** Property names are unique, in every object of the value. *)
Fixpoint wf (v : jsval) : Prop :=
  match v with
  | VArr l => (fix go l := match l with [] => True | x :: l => wf x /\ go l end) l
  | VObj o => NoDup o.*1 /\
      (fix go (o : list (string * jsval)) := match o with [] => True | x :: o => wf x.2 /\ go o end) o
  | _ => True
  end.

(** ** What the text starts with *)
Lemma num_chars_first z :
  exists c r, num_chars z = c :: r /\ is_ws c = false /\ code c <> 93.
Proof.
  assert (Hd : forall m, 0 <= m -> exists c r, digit_char <$> dec_digits m = c :: r /\
                48 <= code c <= 57).
  { intros m Hm. destruct (dec_digits_spec m Hm) as (Hd & Hne & _).
    destruct (dec_digits m) as [|d ds]; [done|]. inv Hd.
    eexists _, _. split; [done|]. unfold digit_char. rewrite code_byte_of; lia. }
  unfold num_chars. destruct (Z.ltb_spec z 0).
  - eexists _, _. split; [done|]. done.
  - destruct (Hd z) as (c & r & E & Hc); [done|]. exists c, r. split_and!; [done| |lia].
    unfold is_ws. apply bool_decide_eq_false. set_unfold. lia.
Qed.

Lemma canonicalJson_first v s :
  canonicalJson v = Ok s -> exists c r, chars s = c :: r /\ is_ws c = false /\ code c <> 93.
Proof.
  destruct v as [| |b|n|t|l|o]; simpl; intros H; try discriminate H.
  - injection H as <-. by eexists _, _.
  - injection H as <-. destruct b; by eexists _, _.
  - destruct (safe_int n) as [z|]; [|done]. injection H as <-.
    unfold num_to_string. rewrite chars_unchars. apply num_chars_first.
  - injection H as <-. unfold quote. rewrite chars_unchars. by eexists _, _.
  - apply res_bind_Ok in H as (ps & _ & [= <-]). by eexists _, _.
  - apply res_bind_Ok in H as (ps & _ & [= <-]). by eexists _, _.
Qed.

Lemma key_cle {A} (a b : string * A) : cle key_cmp a b = jle a.1 b.1.
Proof. done. Qed.
Lemma key_total {A} (a b : string * A) : cle key_cmp a b = true \/ cle key_cmp b a = true.
Proof. apply jle_total. Qed.
Lemma key_trans {A} (a b c : string * A) :
  cle key_cmp a b = true -> cle key_cmp b c = true -> cle key_cmp a c = true.
Proof. apply jle_trans. Qed.

Lemma is_undef_canon v : is_undef (canon v) = is_undef v.
Proof. destruct v; simpl; try done. by destruct (safe_int n). Qed.

(** The properties that are printed, in the order they are printed. *)
Definition printed (o : list (string * jsval)) : list (string * jsval) :=
  List.filter (fun kv => negb (is_undef kv.2)) (jsort key_cmp o).

Lemma canonicalJson_arr l s :
  canonicalJson (VArr l) = Ok s ->
  exists parts, s = str_app ["["; str_join "," parts; "]"] /\
    Forall2 (fun x p => canonicalJson x = Ok p) l parts.
Proof.
  simpl. intros (parts & Hp & [= <-])%res_bind_Ok. exists parts.
  split; [done|]. by apply mapM_res_Ok in Hp.
Qed.

Lemma canonicalJson_obj o s :
  canonicalJson (VObj o) = Ok s ->
  exists parts, s = str_app ["{"; str_join "," parts; "}"] /\
    Forall2 (fun kv p => exists t, canonicalJson kv.2 = Ok t /\
               p = str_app [quote kv.1; ":"; t]) (printed o) parts.
Proof.
  simpl. rewrite (jsort_map key_cmp) by done. intros (parts & Hp & [= <-])%res_bind_Ok.
  exists parts. split; [done|]. apply mapM_res_Ok in Hp. unfold printed.
  revert parts Hp. induction (jsort key_cmp o) as [|[k v] l IH]; simpl; intros parts Hp.
  - by inv Hp.
  - destruct (is_undef v) eqn:Hv; simpl in *; [by apply IH|].
    inversion Hp as [|? p ? ps H1 H2]; subst. constructor; [|by apply IH].
    simpl in *. apply res_bind_Ok in H1 as (t & Ht & [= <-]). eauto.
Qed.

Lemma canonicalJson_obj_ok o :
  Forall (fun kv => kv.2 = VUndef \/ is_ok (canonicalJson kv.2) = true) o -> is_ok (canonicalJson (VObj o)) = true.
Proof.
  intros Ho. cbn [canonicalJson].
  match goal with |- context [mapM_res ?f ?l] => destruct (mapM_res_total f l) as [ys ->] end; [|done].
  apply Forall_forall. intros e He.
  apply list_elem_of_In, filter_In in He as [He Hu]. apply list_elem_of_In, elem_of_jsort, list_elem_of_In, in_map_iff in He as (kv & <- & Hkv).
  simpl in *. destruct (proj1 (List.Forall_forall _ _) Ho _ Hkv) as [Hu'|Hok]; [by rewrite Hu' in Hu|].
  by destruct (canonicalJson kv.2).
Qed.

Lemma canon_obj o :
  canon (VObj o) = VObj (List.map (fun kv => (kv.1, canon kv.2)) (printed o)).
Proof.
  simpl. f_equal. rewrite jsort_filter by eauto using key_total, key_trans.
  rewrite (jsort_map key_cmp) by done. unfold printed.
  induction (jsort key_cmp o) as [|[k v] l IH]; simpl; [done|].
  rewrite is_undef_canon, IH. by destruct (is_undef v).
Qed.

Lemma printed_elem o kv : kv ∈ printed o -> kv ∈ o.
Proof.
  unfold printed. rewrite !list_elem_of_In, List.filter_In, <-!list_elem_of_In.
  rewrite elem_of_jsort. naive_solver.
Qed.

Lemma printed_NoDup o : NoDup o.*1 -> NoDup (printed o).*1.
Proof.
  intros H. unfold printed. rewrite <-(jsort_perm key_cmp o) in H.
  induction (jsort key_cmp o) as [|[k v] l IH]; simpl in *; [done|].
  inv H. destruct (is_undef v); simpl; [auto|]. constructor; [|auto].
  intros (kv & -> & Hin)%list_elem_of_fmap. apply list_elem_of_In, List.filter_In in Hin as [Hin _].
  apply H2. apply list_elem_of_fmap. exists kv. split; [done|]. by apply list_elem_of_In.
Qed.

Lemma obj_set_fresh o k v : k ∉ o.*1 -> obj_set o k v = o ++ [(k, v)].
Proof.
  induction o as [|[k' v'] o IH]; simpl; [done|]. rewrite not_elem_of_cons. intros [H1 H2].
  rewrite (proj2 (String.eqb_neq k k')) by done. by rewrite IH.
Qed.

(** ** Reading a canonical text back *)
Definition reads (v : jsval) : Prop :=
  forall s n rest, canonicalJson v = Ok s -> (length (chars s) < n)%nat -> num_stop rest ->
    parse_value n (chars s ++ rest) = Some (canon v, rest).

Lemma parse_elems_parts l parts n rest :
  Forall reads l -> Forall2 (fun x s => canonicalJson x = Ok s) l parts -> l <> [] ->
  (length (chars (str_join "," parts)) + 1 < n)%nat ->
  parse_elems n (chars (str_join "," parts) ++ byte_of 93 :: rest) =
    Some (List.map canon l, rest).
Proof.
  intros Hr Hf. revert n. induction Hf as [|x p l parts Hx Hf IH]; intros n Hne Hn; [done|].
  inversion Hr as [|?? Hrx Hrl]; subst. destruct n as [|n]; [lia|].
  destruct Hf as [|y q l' qs Hy Hf'].
  - apply parse_elems_end. apply Hrx; [done| |simpl; auto]. simpl in Hn |- *. lia.
  - rewrite str_join_cons, !chars_app, !length_app in *. change (chars ",") with [byte_of 44] in *.
    rewrite <-!(assoc_L (++)). cbn [length] in Hn.
    erewrite parse_elems_comma by (apply Hrx; [done|lia|simpl; auto]).
    rewrite IH by (done || lia). done.
Qed.

Definition entry_text (k t : string) : string := str_app [quote k; ":"; t].

Lemma chars_entry k t : chars (entry_text k t) = quote_chars k ++ byte_of 58 :: chars t.
Proof.
  unfold entry_text, str_app, quote. cbn [foldr]. by rewrite str_app_nil, !chars_app, chars_unchars.
Qed.

Lemma parse_members_parts l parts n acc rest :
  Forall (fun kv => reads kv.2) l ->
  Forall2 (fun kv p => exists t, canonicalJson kv.2 = Ok t /\ p = entry_text kv.1 t) l parts ->
  l <> [] -> NoDup (acc.*1 ++ l.*1) ->
  (length (chars (str_join "," parts)) + 1 < n)%nat ->
  parse_members n acc (chars (str_join "," parts) ++ byte_of 125 :: rest) =
    Some (acc ++ List.map (fun kv => (kv.1, canon kv.2)) l, rest).
Proof.
  intros Hr Hf. revert n acc.
  induction Hf as [|[k x] p l parts (t & Hx & ->) Hf IH]; intros n acc Hne Hnd Hn; [done|].
  inversion Hr as [|?? Hrx Hrl]; subst. destruct n as [|n]; [lia|]. simpl in Hx, Hrx.
  assert (Hfresh : obj_set acc k (canon x) = acc ++ [(k, canon x)]).
  { apply obj_set_fresh. apply NoDup_app in Hnd as (_ & Hnd & _). intros Hk.
    apply (Hnd k Hk). simpl. by left. }
  destruct Hf as [|y q l' qs Hy Hf'].
  - cbn [str_join] in *. rewrite chars_entry, length_app in *. cbn [length] in Hn.
    rewrite <-(assoc_L (++)). cbn [app].
    erewrite parse_members_key by ((apply Hrx; [done|simpl in *; lia|simpl; auto]) || done).
    simpl. by rewrite Hfresh.
  - rewrite str_join_cons, !chars_app, !chars_entry, !length_app in *.
    change (chars ",") with [byte_of 44] in *. cbn [length] in Hn.
    rewrite <-!(assoc_L (++)). cbn [app].
    erewrite parse_members_key by ((apply Hrx; [done|simpl in *; lia|simpl; auto]) || done).
    change (code (byte_of 44) =? 44) with true. cbn [fst snd]. rewrite Hfresh, IH; try done.
    + by rewrite <-(assoc_L (++)).
    + rewrite fmap_app, <-(assoc_L (++)). done.
    + lia.
Qed.

Lemma str_join_first p ps r :
  exists r', chars (str_join "," (p :: ps)) ++ r = chars p ++ r'.
Proof.
  destruct ps as [|q ps]; [by eexists|].
  rewrite str_join_cons, chars_app, <-(assoc_L (++)). by eexists.
Qed.

Lemma chars_bracket a b t : chars (str_app [a; t; b]) = chars a ++ chars t ++ chars b.
Proof. unfold str_app. cbn [foldr]. by rewrite str_app_nil, !chars_app. Qed.

Lemma reads_arr l : Forall reads l -> reads (VArr l).
Proof.
  intros Hr s n rest Hs Hn Hrest. destruct n as [|n]; [lia|].
  apply canonicalJson_arr in Hs as (ps & -> & Hps).
  rewrite chars_bracket, !length_app in *. change (chars "]") with [byte_of 93] in *.
  change (chars "[") with [byte_of 91] in *. rewrite <-!(assoc_L (++)). cbn [app length] in *.
  destruct Hps as [|y p l ps Hy Hps]; [by destruct n|].
  destruct (canonicalJson_first _ _ Hy) as (c & r & Ec & Hw & H93).
  pose proof (parse_elems_parts (y :: l) (p :: ps) n rest Hr) as Hpe.
  destruct (str_join_first p ps (byte_of 93 :: rest)) as [r' Er].
  rewrite Er, Ec in *. cbn [app] in *. rewrite parse_value_arr by done.
  rewrite Hpe; [done|by constructor|done|lia].
Qed.

Lemma reads_obj o : NoDup o.*1 -> Forall (fun kv => reads kv.2) o -> reads (VObj o).
Proof.
  intros Hnd Hr s n rest Hs Hn Hrest. destruct n as [|n]; [lia|].
  apply canonicalJson_obj in Hs as (ps & -> & Hps). rewrite canon_obj.
  assert (Hr' : Forall (fun kv => reads kv.2) (printed o))
    by (apply Forall_forall; intros kv ?%printed_elem; by eapply Forall_forall in Hr).
  clear Hr; rename Hr' into Hr.
  apply printed_NoDup in Hnd.
  rewrite chars_bracket, !length_app in *. change (chars "}") with [byte_of 125] in *.
  change (chars "{") with [byte_of 123] in *. rewrite <-!(assoc_L (++)). cbn [app length] in *.
  destruct Hps as [|y p l ps Hy Hps]; [by destruct n|].
  pose proof (parse_members_parts (y :: l) (p :: ps) n [] rest Hr) as Hpe.
  destruct (str_join_first p ps (byte_of 125 :: rest)) as [r' Er].
  rewrite Er in *. destruct Hy as (t & Ht & ->).
  change (str_app [quote y.1; ":"; t]) with (entry_text y.1 t) in *.
  rewrite chars_entry in *. unfold quote_chars in *. cbn [app] in *.
  rewrite parse_value_obj, Hpe; [done|constructor; eauto|done|done|lia].
Qed.

Lemma canonicalJson_reads v : wf v -> reads v.
Proof.
  induction v as [| |b|x|t|l IH|o IH] using jsval_ind; intros Hwf.
  6: { apply reads_arr. simpl in Hwf. induction IH; constructor; [tauto|]. apply IHIH. tauto. }
  6: { destruct Hwf as [Hnd Hwf]. apply reads_obj; [done|]. clear Hnd.
       induction IH; constructor; [tauto|]. apply IHIH. tauto. }
  all: intros s n rest Hs Hn Hrest; (destruct n as [|n]; [lia|]); try discriminate Hs.
  - injection Hs as <-. done.
  - injection Hs as <-. by destruct b.
  - simpl in *. destruct (safe_int x) as [z|] eqn:E; [|done]. injection Hs as <-.
    unfold num_to_string. rewrite chars_unchars. apply parse_value_num; [|done].
    by eapply safe_int_bound.
  - injection Hs as <-. unfold quote. rewrite chars_unchars. apply parse_value_quote.
Qed.

Lemma JSON_parse_canonicalJson v s : wf v -> canonicalJson v = Ok s -> JSON_parse s = Some (canon v).
Proof.
  intros Hwf Hs. unfold JSON_parse. rewrite <-(app_nil_r (chars s)) at 2.
  rewrite (canonicalJson_reads v Hwf s _ [] Hs) by (done || lia). done.
Qed.

(** ** Validated requests *)
Definition message_ok (m : CanonicalMessage) : Prop := nfc (cm_content m) = cm_content m.
Definition request_ok (r : CanonicalRequestV1) : Prop :=
  cr_model r <> "" /\ nfc (cr_model r) = cr_model r /\
  cr_messages r <> [] /\ Forall message_ok (cr_messages r) /\
  0 <= cr_temperature_millis r <= 2000 /\ 1 <= cr_max_tokens r <= 128000.

Context `{!UnicodeOk U}.

Lemma nfc_role r : nfc (role_str r) = role_str r.
Proof. apply nfc_ascii. destruct r; repeat constructor. Qed.

Lemma role_of_str r : role_of (VStr (role_str r)) = Some r.
Proof. by destruct r. Qed.

Lemma canonicalMessage_ok im m : canonicalMessage im = Ok m -> message_ok m.
Proof.
  unfold canonicalMessage. intros (vr & _ & H)%res_bind_Ok.
  destruct (role_of vr) as [r|]; [|done].
  apply res_bind_Ok in H as (vc & _ & H). apply res_bind_Ok in H as (c & Hc & [= <-]).
  unfold nfc_field in Hc. destruct vc; try done. injection Hc as <-. apply nfc_idem.
Qed.

Lemma toCanonicalRequest_valid input r : toCanonicalRequest input = Ok r -> request_ok r.
Proof.
  unfold toCanonicalRequest. intros H.
  repeat (let x := fresh "x" in let Hx := fresh "Hx" in
          apply res_bind_Ok in H as (x & Hx & H)).
  injection H as <-. rewrite guard_ok_Ok in *. bool_prop.
  unfold request_ok; simpl. split_and!; try lia.
  - intros ->. done.
  - unfold nfc_field in Hx0. destruct x; try done. injection Hx0 as <-. apply nfc_idem.
  - intros ->. destruct x2 as [| | | | |[|m ms]|]; try done.
    apply mapM_res_length in Hx3. simpl in Hx3. lia.
  - destruct x2 as [| | | | |[|m ms]|]; try done. apply mapM_res_Ok in Hx3.
    clear -Hx3 UnicodeOk0. induction Hx3; constructor; [|done]. by eapply canonicalMessage_ok.
Qed.

(** The canonical text of a message and of a request, as values. *)
Lemma canon_message m :
  message_ok m ->
  canon (message_val m) = VObj [("content", VStr (cm_content m)); ("role", VStr (role_str (cm_role m)))].
Proof.
  intros Hm. unfold message_val. rewrite canon_obj. unfold printed. cbn. sort_keys. cbn.
  by rewrite Hm, nfc_role.
Qed.

Lemma canon_vint z : Z.abs z <= MAX_SAFE -> canon (vint z) = vint z.
Proof. intros H. unfold vint. cbn [canon]. rewrite safe_int_num. by rewrite (proj2 (Z.leb_le _ _) H). Qed.

Lemma canon_request r :
  request_ok r ->
  canon (request_val r) =
    VObj [("max_tokens", vint (cr_max_tokens r));
          ("messages", VArr (List.map canon (message_val <$> cr_messages r)));
          ("model", VStr (cr_model r));
          ("temperature_millis", vint (cr_temperature_millis r))].
Proof.
  intros (_ & Hm & _ & _ & Ht & Hx). unfold request_val. rewrite canon_obj.
  unfold printed. cbn -[canon vint cle].
  repeat (sort_keys; cbn -[canon vint cle]).
  change (is_undef (vint _)) with false. cbn -[canon vint].
  rewrite !canon_vint by (unfold MAX_SAFE; lia). cbn -[vint]. by rewrite Hm.
Qed.

Lemma wf_request r : wf (request_val r).
Proof.
  simpl. split_and!; try done.
  - by apply (bool_decide_unpack _).
  - induction (cr_messages r) as [|m l IH]; simpl; [done|].
    split_and!; try done. by apply (bool_decide_unpack _).
Qed.

Lemma canonicalJson_vint z : Z.abs z <= MAX_SAFE -> canonicalJson (vint z) = Ok (num_to_string z).
Proof. intros H. unfold vint. cbn [canonicalJson]. rewrite safe_int_num. by rewrite (proj2 (Z.leb_le _ _) H). Qed.

Lemma canonicalJson_message m : is_ok (canonicalJson (message_val m)) = true.
Proof. done. Qed.

Lemma canonicalBytes_total r : request_ok r -> exists s, canonicalBytes r = Ok s.
Proof.
  intros (_ & _ & _ & _ & Ht & Hx). unfold canonicalBytes, request_val.
  assert (Hms : exists t, canonicalJson (VArr (message_val <$> cr_messages r)) = Ok t).
  { cbn [canonicalJson]. assert (Hps : exists ps, mapM_res canonicalJson (message_val <$> cr_messages r) = Ok ps).
    { apply mapM_res_total, Forall_fmap, Forall_forall. intros m _. apply canonicalJson_message. }
    destruct Hps as [ps ->]. by eexists. }
  destruct Hms as [t Hms].
  assert (Hu : is_undef (VArr (message_val <$> cr_messages r)) = false) by done.
  pose proof (canonicalJson_vint (cr_temperature_millis r)) as Hct.
  pose proof (canonicalJson_vint (cr_max_tokens r)) as Hcx.
  specialize (Hct ltac:(unfold MAX_SAFE; lia)). specialize (Hcx ltac:(unfold MAX_SAFE; lia)).
  assert (Hut : forall z, is_undef (vint z) = false) by done.
  revert Hms Hu Hct Hcx Hut. generalize (VArr (message_val <$> cr_messages r)) as vm.
  generalize vint as vi. intros vi vm Hms Hu Hct Hcx Hut.
  cbn [canonicalJson List.map fst snd]. cbn -[cle]. rewrite Hms, Hu, Hct, Hcx, !Hut.
  repeat (sort_keys; cbn -[cle]). eauto.
Qed.

Lemma canonicalMessage_canon i m :
  message_ok m -> canonicalMessage (i, canon (message_val m)) = Ok m.
Proof.
  intros Hm. rewrite canon_message by done. unfold canonicalMessage, prop, role_of.
  cbn -[role_str]. destruct m as [r c]. unfold message_ok in Hm. cbn in *.
  destruct r; vm_compute in Hm |- *; by rewrite Hm.
Qed.

Lemma canonicalMessages_canon ms k :
  Forall message_ok ms ->
  mapM_res canonicalMessage (imap (fun i => pair (k + i)%nat) (List.map canon (message_val <$> ms))) = Ok ms.
Proof.
  intros H. revert k. induction H as [|m ms Hm _ IH]; intros k; [done|].
  cbn [fmap list_fmap List.map imap mapM_res]. rewrite canonicalMessage_canon by done.
  erewrite imap_ext; [by rewrite (IH (S k))|]. intros i x _. simpl. f_equal. lia.
Qed.

Lemma toCanonicalRequest_canon r :
  request_ok r -> toCanonicalRequest (canon (request_val r)) = Ok r.
Proof.
  intros Hr. rewrite canon_request by done. destruct Hr as (Hne & Hm & Hms & Hok & Ht & Hx).
  unfold toCanonicalRequest, prop, nfc_field, temperatureMillis, assertSafeInteger.
  cbn -[canon message_val mapM_res safe_int]. rewrite Hm.
  destruct (str_empty (cr_model r)) eqn:He; [by destruct (cr_model r)|].
  pose proof (canonicalMessages_canon (cr_messages r) 0 Hok) as E.
  destruct (cr_messages r) as [|m ms] eqn:Ems; [done|].
  cbn -[canon message_val mapM_res safe_int] in *.
  unfold prop, assertSafeInteger; cbn -[canon message_val mapM_res safe_int jnum] in *.
  rewrite !safe_int_num, !(proj2 (Z.leb_le _ MAX_SAFE)) by (unfold MAX_SAFE; lia).
  match goal with |- mapM_res ?f ?l ≫= _ = _ => change (mapM_res f l = Ok (m :: ms)) in E end.
  rewrite E. unfold guard_ok, mbind, res_bind.
  rewrite !(proj2 (Z.leb_le _ _)) by lia. cbn. destruct r; simpl in *; by subst.
Qed.

Lemma canonicalBytes_reads r s :
  request_ok r -> canonicalBytes r = Ok s ->
  exists v, JSON_parse s = Some v /\ toCanonicalRequest v = Ok r.
Proof.
  intros Hr Hs. exists (canon (request_val r)).
  split; [|by apply toCanonicalRequest_canon].
  apply JSON_parse_canonicalJson; [apply wf_request|done].
Qed.

Lemma canonicalBytes_inj r r' s :
  request_ok r -> request_ok r' -> canonicalBytes r = Ok s -> canonicalBytes r' = Ok s -> r = r'.
Proof.
  intros H1 H2 E1 E2. apply canonicalBytes_reads in E1 as (v & Hv & E1); [|done].
  apply canonicalBytes_reads in E2 as (v' & Hv' & E2); [|done]. congruence.
Qed.

(** C27. The canonical text of any well-formed value is JSON, and parsing it gives back that
    value with its strings in normal form C, its undefined properties dropped and its
    properties sorted: nothing a digest is taken over is lost or ambiguous. *)
Theorem canonicalJson_roundtrip v s :
  wf v -> canonicalJson v = Ok s -> JSON_parse s = Some (canon v).
Proof. apply JSON_parse_canonicalJson. Qed.

(** C28. Canonicalizing a request is total after validation and idempotent: whatever
    [toCanonicalRequest] accepts satisfies the bounds of [CanonicalRequestV1], is
    serialized, and the bytes the enclave commits to parse and re-validate to exactly
    that request. *)
Theorem toCanonicalRequest_roundtrip input r :
  toCanonicalRequest input = Ok r ->
  request_ok r /\
  exists s v, canonicalBytes r = Ok s /\ JSON_parse s = Some v /\ toCanonicalRequest v = Ok r.
Proof.
  intros Hr%toCanonicalRequest_valid. split; [done|].
  destruct (canonicalBytes_total r Hr) as [s Hs].
  destruct (canonicalBytes_reads r s Hr Hs) as (v & ? & ?). eauto.
Qed.
End Canonical.

Definition ex_input : jsval :=
  VObj [("model", VStr "m"); ("temperature", VNum (Fin (rnd (7 # 10))));
        ("messages", VArr [VObj [("role", VStr "user"); ("content", VStr "hi")]])].

Definition ex_request : CanonicalRequestV1 := {|
  cr_model := "m"; cr_messages := [{| cm_role := user; cm_content := "hi" |}];
  cr_temperature_millis := 700; cr_max_tokens := 1024 |}.

Lemma canonicalJson_roundtrip_witness :
  JSON_parse (str_app ["{"; quote "a"; ":[true,3]}"])
  = Some (VObj [("a", VArr [VBool true; vint 3])]).
Proof.
  apply (canonicalJson_roundtrip
           (VObj [("z", VUndef); ("a", VArr [VBool true; vint 3])])).
  - simpl. split_and!; [|done..]. by apply (bool_decide_unpack _).
  - vm_compute. reflexivity.
Defined.

Lemma toCanonicalRequest_roundtrip_witness :
  request_ok ex_request /\
  exists s v, canonicalBytes ex_request = Ok s /\ JSON_parse s = Some v /\
    toCanonicalRequest v = Ok ex_request.
Proof.
  apply (toCanonicalRequest_roundtrip ex_input). vm_compute. reflexivity.
Defined.
