(* ===== verification/Stringify.v ===== *)
(** * JSON.stringify

    The services exchange JSON texts; this is the printer of the language, with
    the members in insertion order.  It is partial only where the text of a
    number is not an integer's. *)

From S2P Require Import Prelude JsNum Utf8 Json Unicode Canonical.
Local Open Scope Z_scope.

Definition number_text (n : jsnum) : option string :=
  match safe_int n with
  | Some z => Some (num_to_string z)
  | None => match n with NaN | Inf _ => Some "null" | Fin _ => None end
  end.

(** [undefined] has no text of its own: a member is skipped, an element is [null]. *)
Fixpoint stringify (v : jsval) : option string :=
  match v with
  | VUndef => None
  | VNull => Some "null"
  | VBool b => Some (if b then "true" else "false")
  | VNum n => number_text n
  | VStr s => Some (quote s)
  | VArr l =>
      ps ← mapM (fun x => if is_undef x then Some "null" else stringify x) l;
      Some (str_app ["["; str_join "," ps; "]"])
  | VObj o =>
      ps ← mapM (fun kv => if is_undef kv.2 then Some None
                           else t ← stringify kv.2; Some (Some (entry_text kv.1 t))) o;
      Some (str_app ["{"; str_join "," (omap id ps); "}"])
  end.

(** What the text says. *)
Fixpoint plain (v : jsval) : jsval :=
  match v with
  | VNum n => match safe_int n with Some z => vint z | None => VNull end
  | VArr l => VArr (List.map (fun x => if is_undef x then VNull else plain x) l)
  | VObj o => VObj (List.filter (fun kv => negb (is_undef kv.2)) (List.map (fun kv => (kv.1, plain kv.2)) o))
  | v => v
  end.

(** ** Reading it back *)
Definition prints (s : string) (v : jsval) : Prop :=
  (exists c r, chars s = c :: r /\ is_ws c = false /\ code c <> 93) /\
  forall n rest, (length (chars s) < n)%nat -> num_stop rest -> parse_value n (chars s ++ rest) = Some (v, rest).

Lemma prints_elems ps vs n rest :
  Forall2 prints ps vs -> ps <> [] -> (length (chars (str_join "," ps)) + 1 < n)%nat ->
  parse_elems n (chars (str_join "," ps) ++ byte_of 93 :: rest) = Some (vs, rest).
Proof.
  intros Hf. revert n. induction Hf as [|p v ps vs [_ Hp] Hf IH]; intros n Hne Hn; [done|].
  destruct n as [|n]; [lia|]. destruct Hf as [|q w ps' ws Hq Hf'].
  - apply parse_elems_end. apply Hp; [simpl in Hn |- *; lia|simpl; auto].
  - rewrite str_join_cons, !chars_app, !length_app in *. change (chars ",") with [byte_of 44] in *.
    rewrite <-!(assoc_L (++)). cbn [length] in Hn.
    erewrite parse_elems_comma by (apply Hp; [lia|simpl; auto]).
    rewrite IH by (done || lia). done.
Qed.

Lemma prints_arr ps vs : Forall2 prints ps vs -> prints (str_app ["["; str_join "," ps; "]"]) (VArr vs).
Proof.
  intros Hf. split; [by eexists _, _|]. intros n rest Hn Hr. destruct n as [|n]; [lia|].
  rewrite chars_bracket, !length_app in *. change (chars "]") with [byte_of 93] in *.
  change (chars "[") with [byte_of 91] in *. rewrite <-!(assoc_L (++)). cbn [app length] in *.
  destruct Hf as [|p v ps vs Hp Hf]; [by destruct n|].
  pose proof (prints_elems (p :: ps) (v :: vs) n rest) as Hpe.
  pose proof Hp as [(c & r & Ec & Hw & H93) _].
  destruct (str_join_first p ps (byte_of 93 :: rest)) as [r' Er].
  rewrite Er, Ec in *. cbn [app] in *. rewrite parse_value_arr by done.
  rewrite Hpe; [done|by constructor|done|lia].
Qed.

Definition prints_member (p : string) (kv : string * jsval) : Prop :=
  exists t, p = entry_text kv.1 t /\ prints t kv.2.

Lemma prints_members ps kvs n acc rest :
  Forall2 prints_member ps kvs -> ps <> [] -> NoDup (acc.*1 ++ kvs.*1) ->
  (length (chars (str_join "," ps)) + 1 < n)%nat ->
  parse_members n acc (chars (str_join "," ps) ++ byte_of 125 :: rest) = Some (acc ++ kvs, rest).
Proof.
  intros Hf. revert n acc.
  induction Hf as [|p [k v] ps kvs (t & -> & Hpf & Hp) Hf IH]; intros n acc Hne Hnd Hn; [done|].
  destruct n as [|n]; [lia|]. cbn [fst snd] in *.
  assert (Hfresh : obj_set acc k v = acc ++ [(k, v)]).
  { apply obj_set_fresh. apply NoDup_app in Hnd as (_ & Hnd & _). intros Hk. apply (Hnd k Hk). by left. }
  destruct Hf as [|q kv' ps' kvs' Hq Hf'].
  - cbn [str_join] in *. rewrite chars_entry, length_app in *. cbn [length] in Hn.
    rewrite <-(assoc_L (++)). cbn [app].
    erewrite parse_members_key by ((apply Hp; [lia|simpl; auto]) || done).
    simpl. by rewrite Hfresh.
  - rewrite str_join_cons, !chars_app, !chars_entry, !length_app in *.
    change (chars ",") with [byte_of 44] in *. cbn [length] in Hn.
    rewrite <-!(assoc_L (++)). cbn [app].
    erewrite parse_members_key by ((apply Hp; [lia|simpl; auto]) || done).
    change (code (byte_of 44) =? 44) with true. cbn [fst snd]. rewrite Hfresh, IH; try done.
    + by rewrite <-(assoc_L (++)).
    + rewrite fmap_app, <-(assoc_L (++)). done.
    + lia.
Qed.

Lemma prints_obj ps kvs :
  NoDup kvs.*1 -> Forall2 prints_member ps kvs -> prints (str_app ["{"; str_join "," ps; "}"]) (VObj kvs).
Proof.
  intros Hnd Hf. split; [by eexists _, _|]. intros n rest Hn Hr. destruct n as [|n]; [lia|].
  rewrite chars_bracket, !length_app in *. change (chars "}") with [byte_of 125] in *.
  change (chars "{") with [byte_of 123] in *. rewrite <-!(assoc_L (++)). cbn [app length] in *.
  destruct Hf as [|p kv ps kvs Hp Hf]; [by destruct n|].
  pose proof (prints_members (p :: ps) (kv :: kvs) n [] rest) as Hpe.
  destruct (str_join_first p ps (byte_of 125 :: rest)) as [r' Er]. rewrite Er in *.
  pose proof Hp as (t & -> & Ht). rewrite chars_entry in *. unfold quote_chars in *. cbn [app] in *.
  rewrite parse_value_obj, Hpe; [done|by constructor|done|done|lia].
Qed.

Lemma prints_word s v :
  match v with VNull => s = "null" | VBool true => s = "true" | VBool false => s = "false" | _ => False end -> prints s v.
Proof.
  intros Hs. assert (Hc : exists c r, chars s = c :: r /\ is_ws c = false /\ code c <> 93)
    by (destruct v as [| |[]| | | |]; try done; subst; by eexists _, _).
  split; [exact Hc|]. intros n rest Hn _. destruct n as [|n]; [lia|].
  by destruct v as [| |[]| | | |]; try done; subst.
Qed.
Lemma prints_int z : Z.abs z <= MAX_SAFE -> prints (num_to_string z) (vint z).
Proof.
  intros Hz. unfold num_to_string, prints. rewrite chars_unchars. split; [apply num_chars_first|].
  intros n rest Hn Hr. destruct n as [|n]; [lia|]. by apply parse_value_num.
Qed.
Lemma prints_str s : prints (quote s) (VStr s).
Proof.
  unfold quote, prints. rewrite chars_unchars. split; [by eexists _, _|].
  intros n rest Hn _. destruct n as [|n]; [lia|]. apply parse_value_quote.
Qed.

Lemma is_undef_plain v : is_undef (plain v) = is_undef v.
Proof. destruct v; simpl; try done. by destruct (safe_int n). Qed.

Lemma stringify_prints v s : wf v -> stringify v = Some s -> prints s (plain v).
Proof.
  revert s. induction v as [| |b|x|t|l IH|o IH] using jsval_ind; intros s Hwf Hs; try discriminate Hs.
  - injection Hs as <-. by apply prints_word.
  - injection Hs as <-. by destruct b; apply prints_word.
  - simpl in *. unfold number_text in Hs. destruct (safe_int x) as [z|] eqn:E.
    + injection Hs as <-. apply prints_int. by eapply safe_int_bound.
    + destruct x; simplify_eq; by apply prints_word.
  - injection Hs as <-. apply prints_str.
  - simpl in Hs. apply bind_Some in Hs as (ps & Hps & [= <-]). apply prints_arr.
    apply mapM_Some_1 in Hps. simpl in Hwf. clear -IH Hwf Hps.
    induction Hps as [|x p l ps Hx Hps IHl]; constructor; inversion_clear IH as [|?? Hi Hl].
    + destruct (is_undef x); [injection Hx as <-; by apply prints_word|]. apply Hi; [tauto|done].
    + apply IHl; [done|tauto].
  - simpl in Hs. apply bind_Some in Hs as (ps & Hps & [= <-]). destruct Hwf as [Hnd Hwf]. simpl.
    apply mapM_Some_1 in Hps. apply prints_obj.
    + clear -Hnd. induction o as [|[k v] o IHo]; simpl in *; [constructor|]. inversion_clear Hnd as [|?? Hk Hn].
      rewrite is_undef_plain. destruct (is_undef v); simpl; [auto|]. constructor; [|auto].
      intros (kv & -> & Hin)%list_elem_of_fmap. apply Hk. apply list_elem_of_In, List.filter_In in Hin as [Hin _].
      apply List.in_map_iff in Hin as (kv' & <- & Hin). simpl. by apply list_elem_of_fmap_2, list_elem_of_In.
    + clear Hnd. induction Hps as [|[k v] p o ps Hx Hps IHo]; [constructor|].
      inversion_clear IH as [|?? Hi Hl]. simpl in *. specialize (IHo Hl ltac:(tauto)).
      rewrite is_undef_plain. destruct (is_undef v) eqn:Hu; [injection Hx as <-; exact IHo|]. simpl.
      apply bind_Some in Hx as (t & Ht & [= <-]). simpl. constructor; [|exact IHo].
      exists t. split; [done|]. apply Hi; [tauto|done].
Qed.

Lemma JSON_parse_prints s v : prints s v -> JSON_parse s = Some v.
Proof.
  intros [_ Hp]. unfold JSON_parse. rewrite <-(app_nil_r (chars s)) at 2. by rewrite Hp by (simpl; auto || lia).
Qed.

Lemma JSON_parse_stringify v s : wf v -> stringify v = Some s -> JSON_parse s = Some (plain v).
Proof. intros Hw Hs. by apply JSON_parse_prints, stringify_prints. Qed.
