(* ===== verification/Types.v ===== *)
(** * Protocol types (packages/protocol/src/types.ts)

    The tagged unions as inductive types, the interfaces as records, and the
    objects that are signed or hashed also as [jsval]s: [..._val] is the object
    literal the code passes to [canonicalJson]. *)

From S2P Require Import Prelude JsNum Utf8 Json Unicode Canonical.
Local Open Scope Z_scope.

(** ** Enumerations *)
Inductive Provider : Type := openai | anthropic | mock.
Inductive PolicyDecision : Type := ALLOW | DENY.
Inductive ProofStatus : Type := NOT_REQUIRED | QUEUED | PROVING | GENERATED | VERIFIED | FAILED.
Inductive RequestStatus : Type :=
| RECEIVED | DECRYPTED | POLICY_EVALUATING | DENIED | AUTHORIZED | ROUTING
| PROVIDER_PENDING | PROVIDER_RUNNING | REQUEST_FAILED | COMPLETE.
Inductive TrustStatus : Type :=
| CONFIDENTIAL_VERIFIED | CONFIDENTIAL_PROOF_PENDING | CONFIDENTIAL_PROOF_FAILED
| SIMULATED | COMPATIBILITY.
Inductive teeMode : Type := simulation | nitro.

#[export] Instance Provider_eq_dec : EqDecision Provider.
Proof. solve_decision. Defined.
#[export] Instance PolicyDecision_eq_dec : EqDecision PolicyDecision.
Proof. solve_decision. Defined.
#[export] Instance ProofStatus_eq_dec : EqDecision ProofStatus.
Proof. solve_decision. Defined.
#[export] Instance RequestStatus_eq_dec : EqDecision RequestStatus.
Proof. solve_decision. Defined.
#[export] Instance TrustStatus_eq_dec : EqDecision TrustStatus.
Proof. solve_decision. Defined.
#[export] Instance teeMode_eq_dec : EqDecision teeMode.
Proof. solve_decision. Defined.

Definition provider_str (p : Provider) : string :=
  match p with openai => "openai" | anthropic => "anthropic" | mock => "mock" end.
Definition decision_str (d : PolicyDecision) : string :=
  match d with ALLOW => "ALLOW" | DENY => "DENY" end.
Definition proof_status_str (s : ProofStatus) : string :=
  match s with
  | NOT_REQUIRED => "NOT_REQUIRED" | QUEUED => "QUEUED" | PROVING => "PROVING"
  | GENERATED => "GENERATED" | VERIFIED => "VERIFIED" | FAILED => "FAILED"
  end.
Definition tee_mode_str (m : teeMode) : string :=
  match m with simulation => "simulation" | nitro => "nitro" end.

(** ** Envelopes *)
Record SealedBox : Type := { sb_enc : string; sb_ciphertext : string }.
#[export] Instance SealedBox_eq_dec : EqDecision SealedBox.
Proof. solve_decision. Defined.

Record SecureRequestEnvelope : Type := {
  env_requestId : string;
  env_enclaveKeyId : string;
  env_box : SealedBox;            (* [enc] and [ciphertext] *)
  env_apiVersion : string;        (* [aad.apiVersion] *)
  env_requestedPolicy : string;   (* [aad.requestedPolicy] *)
  env_model : string;             (* [aad.model] *)
}.
Definition aad_val (e : SecureRequestEnvelope) : jsval :=
  VObj [("apiVersion", VStr (env_apiVersion e));
        ("requestedPolicy", VStr (env_requestedPolicy e));
        ("model", VStr (env_model e))].

Record SecurePayload : Type := {
  pl_request : CanonicalRequestV1;
  pl_requestNonce : string;
  pl_responsePublicKey : string;
}.

(** ** Credentials *)
Record CredentialIntentV1 : Type := {
  ci_credentialId : string;
  ci_secret : string;
  ci_provider : Provider;
  ci_allowedModels : list string;
  ci_allowedPolicies : list string;
  ci_contributorId : string;
  ci_intentNonce : string;
}.

Definition strs_val (l : list string) : jsval := VArr (VStr <$> l).

(** The intent without its secret. *)
Definition public_intent_val (i : CredentialIntentV1) : jsval :=
  VObj [("version", vint 1);
        ("credentialId", VStr (ci_credentialId i));
        ("provider", VStr (provider_str (ci_provider i)));
        ("allowedModels", strs_val (ci_allowedModels i));
        ("allowedPolicies", strs_val (ci_allowedPolicies i));
        ("contributorId", VStr (ci_contributorId i));
        ("intentNonce", VStr (ci_intentNonce i))].

Record CredentialCapability : Type := {
  cap_credentialId : string;
  cap_provider : Provider;
  cap_allowedModels : list string;
  cap_allowedPolicyIds : list string;
  cap_contributorId : string;
  cap_createdAt : Z;
  cap_version : Z;
  cap_blobDigest : string;
  cap_intentDigest : string;
}.

Definition capability_val (c : CredentialCapability) : jsval :=
  VObj [("credentialId", VStr (cap_credentialId c));
        ("provider", VStr (provider_str (cap_provider c)));
        ("allowedModels", strs_val (cap_allowedModels c));
        ("allowedPolicyIds", strs_val (cap_allowedPolicyIds c));
        ("contributorId", VStr (cap_contributorId c));
        ("createdAt", vint (cap_createdAt c));
        ("version", vint (cap_version c));
        ("blobDigest", VStr (cap_blobDigest c));
        ("intentDigest", VStr (cap_intentDigest c))].

(** ** Decisions and proofs *)
Record PolicyDecisionReceiptV1 : Type := {
  dr_requestId : string;
  dr_requestCommitment : string;
  dr_policyId : string;
  dr_decision : PolicyDecision;
  dr_imageId : string;
  dr_gateWallMs : Z;
}.
#[export] Instance PolicyDecisionReceiptV1_eq_dec : EqDecision PolicyDecisionReceiptV1.
Proof. solve_decision. Defined.

Definition decision_receipt_val (r : PolicyDecisionReceiptV1) : jsval :=
  VObj [("requestId", VStr (dr_requestId r));
        ("requestCommitment", VStr (dr_requestCommitment r));
        ("policyId", VStr (dr_policyId r));
        ("decision", VStr (decision_str (dr_decision r)));
        ("imageId", VStr (dr_imageId r));
        ("timing", VObj [("gateWallMs", vint (dr_gateWallMs r))])].

Record SignedPolicyDecisionReceiptV1 : Type := {
  sdr_receipt : PolicyDecisionReceiptV1;
  sdr_enclaveSignature : string;
}.
#[export] Instance SignedPolicyDecisionReceiptV1_eq_dec : EqDecision SignedPolicyDecisionReceiptV1.
Proof. solve_decision. Defined.

(** [protocolVersion] is the literal type [1] here, checked where a journal is
    decoded. *)
Record PolicyJournal : Type := {
  j_protocolVersion : Z;
  j_requestCommitment : string;
  j_policyId : string;
  j_decision : PolicyDecision;
  j_proofNonce : string;
}.
#[export] Instance PolicyJournal_eq_dec : EqDecision PolicyJournal.
Proof. solve_decision. Defined.

Record ProofArtifactV1 : Type := {
  pa_risc0Version : string;
  pa_receiptBytes : string;
  pa_imageId : string;
  pa_journalVersion : Z;
  pa_decodedJournal : PolicyJournal;
}.
#[export] Instance ProofArtifactV1_eq_dec : EqDecision ProofArtifactV1.
Proof. solve_decision. Defined.

Record ProofArtifactWireV1 : Type := {
  pw_risc0Version : string;
  pw_receiptB64 : string;
  pw_imageId : string;
  pw_journalVersion : Z;
  pw_decodedJournal : PolicyJournal;
}.
#[export] Instance ProofArtifactWireV1_eq_dec : EqDecision ProofArtifactWireV1.
Proof. solve_decision. Defined.

Record ProofBindingV2 : Type := {
  pb_decisionReceiptDigest : string;
  pb_artifactDigest : string;
  pb_imageId : string;
  pb_policyId : string;
  pb_decision : PolicyDecision;
  pb_proofVerified : bool;
}.
#[export] Instance ProofBindingV2_eq_dec : EqDecision ProofBindingV2.
Proof. solve_decision. Defined.

Definition proof_binding_val (b : ProofBindingV2) : jsval :=
  VObj [("decisionReceiptDigest", VStr (pb_decisionReceiptDigest b));
        ("artifactDigest", VStr (pb_artifactDigest b));
        ("imageId", VStr (pb_imageId b));
        ("policyId", VStr (pb_policyId b));
        ("decision", VStr (decision_str (pb_decision b)));
        ("proofVerified", VBool (pb_proofVerified b))].

Record SignedProofBindingV2 : Type := {
  spb_binding : ProofBindingV2;
  spb_enclaveSignature : string;
}.

(** ** Error codes *)
Inductive CtnErrorCode : Type :=
| CTN_POLICY_DENIED | CTN_NO_CAPACITY | CTN_PROVIDER_RATE_LIMITED
| CTN_PROVIDER_AUTH_FAILED | CTN_PROVIDER_ERROR | CTN_INVALID_ENVELOPE
| CTN_INTENT_MISMATCH | CTN_INTENT_REPLAY | CTN_ATTESTATION_REQUIRED
| CTN_ENCLAVE_UNAVAILABLE | CTN_PROVER_UNAVAILABLE | CTN_CAPABILITY_IMMUTABLE
| CTN_INVALID_STATUS | CTN_CREDENTIAL_DELETED | CTN_INTERNAL.
#[export] Instance CtnErrorCode_eq_dec : EqDecision CtnErrorCode.
Proof. solve_decision. Defined.
