(* ===== verification/Crypto.v ===== *)
(** * Digests, signatures and encodings (packages/protocol/src/crypto.ts)

    The primitives of @noble/hashes and @noble/ed25519 are the operations of
    [Crypto]; [CryptoOk] is what their documentation promises.  Collision
    resistance is no law: a theorem that needs it ends in
    "or here are two inputs that collide". *)

From S2P Require Import Prelude JsNum Utf8 Json Unicode Canonical Types.
Local Open Scope Z_scope.

Class Crypto := {
  sha256 : string -> string;
  (** [ed.getPublicKey], [ed.sign(message, key)] *)
  ed_public : string -> string;
  ed_sign : string -> string -> string;
  (** [ed.verify(signature, message, publicKey)]; [None] when it throws *)
  ed_verify : string -> string -> string -> option bool;
}.

Class CryptoOk (C : Crypto) : Prop := {
  sha256_length : forall s, String.length (sha256 s) = 32%nat;
  ed_correct : forall m k, ed_verify (ed_sign m k) m (ed_public k) = Some true;
}.

Definition collides `{Crypto} (x y : string) : Prop := x <> y /\ sha256 x = sha256 y.

(** ** Hexadecimal *)
Definition hex_pair (c : Ascii.ascii) : list Ascii.ascii :=
  [hex_digit (code c / 16); hex_digit (code c mod 16)].
Definition toHex (bytes : string) : string := unchars (chars bytes ≫= hex_pair).

Fixpoint hex_bytes (l : list Ascii.ascii) : option (list Ascii.ascii) :=
  match l with
  | [] => Some []
  | a :: b :: l =>
      x ← hex_val a; y ← hex_val b; r ← hex_bytes l;
      Some (byte_of (x * 16 + y) :: r)
  | _ => None
  end.

(** [None] is the thrown "invalid hex". *)
Definition fromHex (hex : string) : option string :=
  let clean := if str_startswith "0x" hex then drop 2 (chars hex) else chars hex in
  unchars <$> hex_bytes clean.

(** ** Base64 *)
Definition b64_char (v : Z) : Ascii.ascii :=
  byte_of (if v <? 26 then 65 + v else if v <? 52 then 71 + v
           else if v <? 62 then v - 4 else if v =? 62 then 43 else 47).

Fixpoint b64_encode (l : list Z) : list Ascii.ascii :=
  match l with
  | [] => []
  | [a] => [b64_char (a / 4); b64_char (a mod 4 * 16); byte_of 61; byte_of 61]
  | [a; b] => [b64_char (a / 4); b64_char (a mod 4 * 16 + b / 16); b64_char (b mod 16 * 4); byte_of 61]
  | a :: b :: c :: l =>
      b64_char (a / 4) :: b64_char (a mod 4 * 16 + b / 16)
      :: b64_char (b mod 16 * 4 + c / 64) :: b64_char (c mod 64) :: b64_encode l
  end.
Definition toB64 (s : string) : string := unchars (b64_encode (bytes s)).

(** [Buffer.from(s, "base64")] accepts both alphabets and skips every other
    character. *)
Definition b64_val (c : Ascii.ascii) : option Z :=
  let b := code c in
  if (65 <=? b) && (b <=? 90) then Some (b - 65)
  else if (97 <=? b) && (b <=? 122) then Some (b - 71)
  else if (48 <=? b) && (b <=? 57) then Some (b + 4)
  else if (b =? 43) || (b =? 45) then Some 62
  else if (b =? 47) || (b =? 95) then Some 63
  else None.

Fixpoint b64_decode (l : list Z) : list Z :=
  match l with
  | a :: b :: c :: d :: l =>
      (a * 4 + b / 16) :: (b mod 16 * 16 + c / 4) :: (c mod 4 * 64 + d) :: b64_decode l
  | [a; b; c] => [a * 4 + b / 16; b mod 16 * 16 + c / 4]
  | [a; b] => [a * 4 + b / 16]
  | _ => []
  end.
Definition fromB64 (s : string) : string :=
  unchars (byte_of <$> b64_decode (omap b64_val (chars s))).

(** ** Digests *)
Inductive CryptoError : Type :=
| InvalidHex
| NonceLength
| NotCanonical (e : CanonicalizationError).

Definition lift_canon {A} (r : res CanonicalizationError A) : res CryptoError A :=
  match r with Ok a => Ok a | Err e => Err (NotCanonical e) end.
Definition lift_hex (o : option string) : res CryptoError string :=
  match o with Some s => Ok s | None => Err InvalidHex end.

Definition COMMITMENT_DOMAIN : string := "CTN_REQUEST_V1".
Definition INTENT_DOMAIN : string := "CTN_INTENT_V1".
Definition ZK_RECEIPT_DOMAIN : string := "CTN_ZK_RECEIPT_V1".
Definition DECISION_RECEIPT_DOMAIN : string := "CTN_DECISION_RECEIPT_V1".

Section Crypto.
Context `{U : Unicode} `{C : Crypto}.

Definition sha256Hex (data : string) : string := toHex (sha256 data).

Definition canonicalHash (value : jsval) : res CryptoError string :=
  s ← lift_canon (canonicalJson value); Ok (sha256Hex s).

(** The bytes a commitment hashes, and the commitment. *)
Definition commitment_preimage (canonical nonceHex : string) : res CryptoError string :=
  nonce ← lift_hex (fromHex nonceHex);
  _ ← guard_ok (blen nonce =? 32) NonceLength;
  Ok (str_app [COMMITMENT_DOMAIN; canonical; nonce]).
Definition requestCommitment (canonical nonceHex : string) : res CryptoError string :=
  buf ← commitment_preimage canonical nonceHex;
  Ok ("0x" +:+ toHex (sha256 buf)).

Definition intentDigest (intent : CredentialIntentV1) : res CryptoError string :=
  canonical ← lift_canon (canonicalJson (public_intent_val intent));
  Ok ("0x" +:+ toHex (sha256 (INTENT_DOMAIN +:+ canonical))).

Definition zkArtifactDigest (receiptBytes : string) : string :=
  "0x" +:+ toHex (sha256 (ZK_RECEIPT_DOMAIN +:+ receiptBytes)).

Definition decisionReceiptDigest (receipt : PolicyDecisionReceiptV1) : res CryptoError string :=
  canonical ← lift_canon (canonicalJson (decision_receipt_val receipt));
  Ok ("0x" +:+ toHex (sha256 (DECISION_RECEIPT_DOMAIN +:+ canonical))).

(** ** The wire form of an artifact *)
Definition artifactToWire (a : ProofArtifactV1) : ProofArtifactWireV1 := {|
  pw_risc0Version := pa_risc0Version a; pw_receiptB64 := toB64 (pa_receiptBytes a);
  pw_imageId := pa_imageId a; pw_journalVersion := pa_journalVersion a;
  pw_decodedJournal := pa_decodedJournal a |}.
Definition artifactFromWire (w : ProofArtifactWireV1) : ProofArtifactV1 := {|
  pa_risc0Version := pw_risc0Version w; pa_receiptBytes := fromB64 (pw_receiptB64 w);
  pa_imageId := pw_imageId w; pa_journalVersion := pw_journalVersion w;
  pa_decodedJournal := pw_decodedJournal w |}.

(** ** Signatures *)
Definition signDigestHex (digestHex privateKey : string) : res CryptoError string :=
  d ← lift_hex (fromHex digestHex);
  Ok (toHex (ed_sign d privateKey)).

(** Anything thrown while decoding or verifying is a failed verification. *)
Definition verifyDigestHex (digestHex signatureHex publicKeyHex : string) : bool :=
  default false
    (sig ← fromHex signatureHex; d ← fromHex digestHex; pk ← fromHex publicKeyHex;
     ed_verify sig d pk).

Definition signCanonical (value : jsval) (privateKey : string) : res CryptoError string :=
  h ← canonicalHash value; signDigestHex h privateKey.

Definition verifyCanonical (value : jsval) (signatureHex publicKeyHex : string) : res CryptoError bool :=
  h ← canonicalHash value; Ok (verifyDigestHex h signatureHex publicKeyHex).

(** ** The encodings round-trip *)
Lemma hex_bytes_pairs l : hex_bytes (l ≫= hex_pair) = Some l.
Proof.
  induction l as [|c l IH]; [done|]. pose proof (code_range c) as Hc.
  change ((c :: l) ≫= hex_pair) with (hex_digit (code c / 16) :: hex_digit (code c mod 16) :: (l ≫= hex_pair)).
  revert IH. generalize (l ≫= hex_pair) as t. intros t IH.
  cbn [hex_bytes]. rewrite !hex_val_digit by (Z.div_mod_to_equations; lia). simpl. rewrite IH. simpl.
  do 2 f_equal. rewrite <-(byte_of_code c) at 3. f_equal. Z.div_mod_to_equations; lia.
Qed.

Lemma hex_digit_x d : 0 <= d < 16 -> hex_digit d <> byte_of 120.
Proof.
  intros Hd E. apply (f_equal code) in E. unfold hex_digit in E.
  rewrite !code_byte_of in E by (case_goal; lia). destruct (Z.ltb_spec d 10); lia.
Qed.

Lemma toHex_no_prefix s : str_startswith "0x" (toHex s) = false.
Proof.
  unfold str_startswith, toHex. rewrite chars_unchars. destruct (chars s) as [|c l]; [done|].
  change ((c :: l) ≫= hex_pair) with (hex_digit (code c / 16) :: hex_digit (code c mod 16) :: (l ≫= hex_pair)).
  cbn [chars String.list_ascii_of_string prefixb]. apply andb_false_iff. right.
  apply andb_false_iff. left. apply bool_decide_eq_false. intros E. symmetry in E. revert E.
  apply hex_digit_x. pose proof (code_range c). Z.div_mod_to_equations; lia.
Qed.

Lemma fromHex_toHex s : fromHex (toHex s) = Some s.
Proof.
  unfold fromHex. rewrite toHex_no_prefix. unfold toHex. rewrite chars_unchars, hex_bytes_pairs.
  simpl. by rewrite unchars_chars.
Qed.

Lemma fromHex_0x_toHex s : fromHex ("0x" +:+ toHex s) = Some s.
Proof.
  unfold fromHex. assert (str_startswith "0x" ("0x" +:+ toHex s) = true) as ->.
  { apply prefixb_spec. rewrite chars_app. by eexists. }
  rewrite chars_app. change (drop 2 (chars "0x" ++ chars (toHex s))) with (chars (toHex s)).
  unfold toHex. rewrite chars_unchars, hex_bytes_pairs.
  simpl. by rewrite unchars_chars.
Qed.

Lemma toHex_inj s t : toHex s = toHex t -> s = t.
Proof. intros E. apply (f_equal fromHex) in E. rewrite !fromHex_toHex in E. by simplify_eq. Qed.

Lemma b64_val_char v : 0 <= v < 64 -> b64_val (b64_char v) = Some v.
Proof.
  intros Hv. unfold b64_val, b64_char.
  rewrite code_byte_of by (case_goal; bool_prop; lia).
  case_goal; bool_prop; f_equal; lia.
Qed.

Lemma b64_decode_encode l :
  Forall (fun b => 0 <= b < 256) l -> b64_decode (omap b64_val (b64_encode l)) = l.
Proof.
  revert l. fix IH 1. intros [|a [|b [|c l]]] Hl; [done| | |];
    repeat match goal with H : Forall _ (_ :: _) |- _ => apply Forall_cons in H as [? ?] end;
    cbn [b64_encode].
  - cbn [omap list_omap]. rewrite !b64_val_char by (Z.div_mod_to_equations; lia).
    simpl. f_equal. Z.div_mod_to_equations; lia.
  - cbn [omap list_omap]. rewrite !b64_val_char by (Z.div_mod_to_equations; lia).
    simpl. f_equal; [|f_equal]; Z.div_mod_to_equations; lia.
  - cbn [omap list_omap]. rewrite !b64_val_char by (Z.div_mod_to_equations; lia).
    cbn [b64_decode]. fold (omap b64_val (b64_encode l)). rewrite (IH l) by done.
    repeat f_equal; Z.div_mod_to_equations; lia.
Qed.

Lemma fromB64_toB64 s : fromB64 (toB64 s) = s.
Proof.
  unfold fromB64, toB64. rewrite chars_unchars, b64_decode_encode.
  - apply chars_inj. rewrite chars_unchars. unfold bytes. rewrite <-list_fmap_compose.
    rewrite <-(list_fmap_id (chars s)) at 2. apply list_fmap_ext. intros ? c _. apply byte_of_code.
  - unfold bytes. apply Forall_fmap, Forall_forall. intros c _. apply code_range.
Qed.

Lemma artifact_roundtrip a : artifactFromWire (artifactToWire a) = a.
Proof. destruct a. unfold artifactFromWire; simpl. by rewrite fromB64_toB64. Qed.

(** ** Preimages *)

(** What each of the four constructions hashes. *)
Inductive digested : Type :=
| DRequest (canonical nonceHex : string)
| DIntent (intent : CredentialIntentV1)
| DArtifact (receiptBytes : string)
| DDecision (receipt : PolicyDecisionReceiptV1).

Definition digest_of (d : digested) : res CryptoError string :=
  match d with
  | DRequest c n => requestCommitment c n
  | DIntent i => intentDigest i
  | DArtifact b => Ok (zkArtifactDigest b)
  | DDecision r => decisionReceiptDigest r
  end.

Definition preimage_of (d : digested) : res CryptoError string :=
  match d with
  | DRequest c n => commitment_preimage c n
  | DIntent i => c ← lift_canon (canonicalJson (public_intent_val i)); Ok (INTENT_DOMAIN +:+ c)
  | DArtifact b => Ok (ZK_RECEIPT_DOMAIN +:+ b)
  | DDecision r => c ← lift_canon (canonicalJson (decision_receipt_val r)); Ok (DECISION_RECEIPT_DOMAIN +:+ c)
  end.

(** The two digested things carry the same information. *)
Definition same_content (a b : digested) : Prop :=
  match a, b with
  | DRequest c n, DRequest c' n' => c = c' /\ fromHex n = fromHex n'
  | DIntent i, DIntent i' => canon (public_intent_val i) = canon (public_intent_val i')
  | DArtifact x, DArtifact x' => x = x'
  | DDecision r, DDecision r' => canon (decision_receipt_val r) = canon (decision_receipt_val r')
  | _, _ => False
  end.

Lemma digest_preimage d h :
  digest_of d = Ok h -> exists p, preimage_of d = Ok p /\ h = "0x" +:+ toHex (sha256 p).
Proof.
  destruct d; cbn [digest_of preimage_of]; unfold requestCommitment, intentDigest, decisionReceiptDigest.
  - intros (p & Hp & [= <-])%res_bind_Ok. eauto.
  - intros (p & -> & [= <-])%res_bind_Ok. simpl. eauto.
  - intros [= <-]. unfold zkArtifactDigest. eauto.
  - intros (p & -> & [= <-])%res_bind_Ok. simpl. eauto.
Qed.

Lemma lift_canon_Ok {A} (r : res CanonicalizationError A) a : lift_canon r = Ok a <-> r = Ok a.
Proof. destruct r; simpl; split; intros; congruence. Qed.
Lemma lift_hex_Ok o a : lift_hex o = Ok a <-> o = Some a.
Proof. destruct o; simpl; split; intros; congruence. Qed.

Lemma wf_strs l : wf (strs_val l).
Proof. simpl. by induction l. Qed.
Lemma wf_public_intent i : wf (public_intent_val i).
Proof.
  unfold public_intent_val. cbn [wf]. split; [by apply (bool_decide_unpack _)|].
  simpl. split_and!; try done; apply wf_strs.
Qed.
Lemma wf_decision_receipt r : wf (decision_receipt_val r).
Proof.
  unfold decision_receipt_val. cbn [wf]. split; [by apply (bool_decide_unpack _)|].
  simpl. split_and!; try done. by apply (bool_decide_unpack _).
Qed.

Lemma commitment_preimage_Ok c n p :
  commitment_preimage c n = Ok p ->
  exists b, fromHex n = Some b /\ String.length b = 32%nat /\ p = COMMITMENT_DOMAIN +:+ (c +:+ b).
Proof.
  unfold commitment_preimage. intros (b & Hb & H)%res_bind_Ok.
  apply res_bind_Ok in H as (? & Hl & [= <-]). apply lift_hex_Ok in Hb. apply guard_ok_Ok in Hl.
  exists b. split; [done|]. bool_prop. unfold blen in Hl. split; [lia|].
  unfold str_app. cbn [foldr]. by rewrite str_app_nil.
Qed.

(** The preimages determine what was digested: no domain label is a prefix of another. *)
Lemma preimage_same a b p :
  preimage_of a = Ok p -> preimage_of b = Ok p -> same_content a b.
Proof.
  destruct a as [c n|i|x|r], b as [c' n'|i'|x'|r']; cbn [preimage_of same_content]; intros Ha Hb;
    repeat match goal with
    | H : commitment_preimage _ _ = Ok _ |- _ =>
        let b := fresh "b" in apply commitment_preimage_Ok in H as (b & ? & ? & ?)
    | H : _ ≫= _ = Ok _ |- _ =>
        let c := fresh "c" in apply res_bind_Ok in H as (c & H & ?); apply lift_canon_Ok in H
    | H : Ok _ = Ok _ |- _ => injection H as H
    end; subst;
    try match goal with E : _ +:+ _ = _ +:+ _ |- False => exfalso; cbn in E; discriminate E end.
  - match goal with E : _ +:+ _ = _ +:+ _ |- _ =>
      apply str_app_inj in E as [_ E]; [|done]; apply str_app_inj_r in E as [-> ->]; [|lia] end.
    split; congruence.
  - apply str_app_inj in H as [_ ->]; [|done].
    apply JSON_parse_canonicalJson in Ha, Hb; auto using wf_public_intent. congruence.
  - by apply str_app_inj in Hb as [_ ->].
  - apply str_app_inj in H as [_ ->]; [|done].
    apply JSON_parse_canonicalJson in Ha, Hb; auto using wf_decision_receipt. congruence.
Qed.

Lemma digest_inj a b h pa pb :
  preimage_of a = Ok pa -> preimage_of b = Ok pb ->
  digest_of a = Ok h -> digest_of b = Ok h -> pa = pb \/ collides pa pb.
Proof.
  intros Ha Hb (p & Hp & ->)%digest_preimage (q & Hq & E)%digest_preimage.
  rewrite Ha in Hp. rewrite Hb in Hq. simplify_eq.
  apply toHex_inj in E.
  destruct (decide (p = q)); [by left|right; done].
Qed.

(** The four domain-separated digests bind their content: two equal digests, of the same
    kind or of different kinds, come from the same content (the same canonical bytes and
    nonce, the same public intent, the same receipt bytes, the same decision receipt, up to
    normalization) or exhibit a SHA-256 collision between the two byte strings hashed. *)
Lemma digests_bind a b h :
  digest_of a = Ok h -> digest_of b = Ok h ->
  exists pa pb, preimage_of a = Ok pa /\ preimage_of b = Ok pb /\
    (same_content a b \/ collides pa pb).
Proof.
  intros Ha Hb. destruct (digest_preimage a h Ha) as (pa & Hpa & _).
  destruct (digest_preimage b h Hb) as (pb & Hpb & _). exists pa, pb. split_and!; [done..|].
  destruct (digest_inj a b h pa pb) as [->|]; [done..| |by right].
  left. by eapply preimage_same.
Qed.

Context `{!CryptoOk C}.

Lemma verifyDigestHex_sign d k sig :
  signDigestHex d k = Ok sig -> verifyDigestHex d sig (toHex (ed_public k)) = true.
Proof.
  unfold signDigestHex. intros (b & Hb%lift_hex_Ok & [= <-])%res_bind_Ok.
  unfold verifyDigestHex. rewrite !fromHex_toHex, Hb. simpl. by rewrite ed_correct.
Qed.

Lemma canonicalHash_hex v h : canonicalHash v = Ok h -> exists d, fromHex h = Some d.
Proof.
  unfold canonicalHash. intros (s & _ & [= <-])%res_bind_Ok. eexists. apply fromHex_toHex.
Qed.

(** Two values with the same canonical form have the same signatures. *)
Lemma signCanonical_verify v k sig :
  signCanonical v k = Ok sig -> verifyCanonical v sig (toHex (ed_public k)) = Ok true.
Proof.
  unfold signCanonical, verifyCanonical. intros (h & -> & Hs)%res_bind_Ok. simpl.
  by erewrite verifyDigestHex_sign.
Qed.

(** Signing is total on canonicalizable values and correct: every signature
    [signCanonical] returns verifies under the key pair's public key, and a signature or key
    that is not hexadecimal is a failed verification, never an exception. *)
Lemma signCanonical_correct v k s :
  canonicalJson v = Ok s ->
  exists sig, signCanonical v k = Ok sig /\
    verifyCanonical v sig (toHex (ed_public k)) = Ok true /\
    forall sig' pk, fromHex sig' = None \/ fromHex pk = None -> verifyCanonical v sig' pk = Ok false.
Proof.
  intros Hs. assert (Hh : canonicalHash v = Ok (sha256Hex s)) by (unfold canonicalHash; by rewrite Hs).
  assert (exists sig, signCanonical v k = Ok sig) as [sig Hsig].
  { unfold signCanonical, signDigestHex. rewrite Hh. simpl. unfold sha256Hex.
    rewrite fromHex_toHex. simpl. eauto. }
  exists sig. split_and!; [done|by apply signCanonical_verify|].
  intros sig' pk Hn. unfold verifyCanonical, verifyDigestHex. rewrite Hh. simpl. do 2 f_equal.
  destruct Hn as [-> | ->]; [done|]. destruct (fromHex sig'); [|done]. simpl.
  by destruct (fromHex (sha256Hex s)).
Qed.
End Crypto.

(** ** A concrete instance, for the examples: a checksum and a keyed tag, with the laws of
    [CryptoOk] and none of the security. *)
Definition toy_hash (s : string) : string :=
  let v := foldl (fun a b => (a * 257 + b + 1) mod 2 ^ 256) 0 (bytes s) in
  unchars ((fun i => byte_of (Z.shiftr v (8 * Z.of_nat i) mod 256)) <$> seq 0 32).

#[export] Instance toy_crypto : Crypto := {|
  sha256 := toy_hash;
  ed_public := fun k => k;
  ed_sign := fun m k => toy_hash (k +:+ m);
  ed_verify := fun sig m pk => Some (String.eqb sig (toy_hash (pk +:+ m)));
|}.

#[export] Instance toy_crypto_ok : CryptoOk toy_crypto.
Proof.
  split.
  - intros s. unfold sha256, toy_crypto, toy_hash. by rewrite <-length_chars, chars_unchars, length_fmap, length_seq.
  - intros m k. unfold ed_verify, ed_sign, ed_public, toy_crypto. f_equal. apply String.eqb_refl.
Qed.

Definition ex_nonce : string := toHex (toy_hash "nonce").

Lemma digests_bind_witness :
  exists pa pb,
    preimage_of (DRequest "{}" ex_nonce) = Ok pa /\
    preimage_of (DRequest "{}" ("0x" +:+ ex_nonce)) = Ok pb /\
    (same_content (DRequest "{}" ex_nonce) (DRequest "{}" ("0x" +:+ ex_nonce)) \/ collides pa pb).
Proof.
  apply (digests_bind _ _ (match requestCommitment "{}" ex_nonce with Ok h => h | Err _ => "" end));
    vm_compute; reflexivity.
Defined.

Lemma signCanonical_correct_witness :
  exists sig, signCanonical (VObj [("a", vint 1)]) "key" = Ok sig /\
    verifyCanonical (VObj [("a", vint 1)]) sig (toHex (ed_public "key")) = Ok true /\
    forall sig' pk, fromHex sig' = None \/ fromHex pk = None ->
      verifyCanonical (VObj [("a", vint 1)]) sig' pk = Ok false.
Proof. eapply signCanonical_correct. vm_compute. reflexivity. Defined.
