(* ===== verification/Texts.v ===== *)
(** * Well-formed text

    A JavaScript string survives [TextEncoder] and [TextDecoder] when it has no lone
    surrogate: as a sequence of bytes, when it is well-formed UTF-8.  JSON texts of
    well-formed strings are well-formed, and decode to themselves. *)

From S2P Require Import Prelude JsNum Utf8 Json Unicode Canonical Stringify Types Crypto.
Local Open Scope Z_scope.

Definition well_formed (s : string) : bool := String.eqb (encode (points s)) s.

Lemma well_formed_encode l : Forall scalar l -> well_formed (encode l) = true.
Proof. intros Hl. unfold well_formed. rewrite points_encode by done. apply String.eqb_refl. Qed.
Lemma well_formed_elim s : well_formed s = true -> exists l, Forall scalar l /\ s = encode l.
Proof. intros He%String.eqb_eq. exists (points s). split; [apply points_scalar|done]. Qed.

Lemma unchars_app a b : unchars (a ++ b) = unchars a +:+ unchars b.
Proof. apply chars_inj. by rewrite chars_app, !chars_unchars. Qed.
Lemma encode_app a b : encode (a ++ b) = encode a +:+ encode b.
Proof. unfold encode, encode_points. by rewrite bind_app, fmap_app, unchars_app. Qed.
Lemma well_formed_app a b : well_formed a = true -> well_formed b = true -> well_formed (a +:+ b) = true.
Proof.
  intros (la & Ha & ->)%well_formed_elim (lb & Hb & ->)%well_formed_elim. rewrite <-encode_app.
  apply well_formed_encode. by apply Forall_app.
Qed.

Definition ascii (s : string) : bool := forallb (fun c => code c <? 128) (chars s).
Lemma well_formed_ascii s : ascii s = true -> well_formed s = true.
Proof.
  intros Ha. unfold ascii in Ha. rewrite <-(unchars_chars s). assert (He : encode (code <$> chars s) = unchars (chars s)).
  { unfold encode. f_equal. induction (chars s) as [|c l IH]; [done|]. simpl in Ha. apply andb_true_iff in Ha as [Hc%Z.ltb_lt Hl].
    cbn [fmap list_fmap encode_points mbind list_bind]. unfold encode_cp at 1. rewrite (proj2 (Z.leb_le _ 0x7F)) by lia.
    cbn [app fmap list_fmap]. unfold encode_points in IH. rewrite IH by done. f_equal.
    unfold byte_of, code. rewrite N2Z.id. apply Ascii.ascii_N_embedding. }
  rewrite <-He. apply well_formed_encode, Forall_fmap, List.Forall_forall. intros c Hc.
  rewrite forallb_forall in Ha. apply Ha, Z.ltb_lt in Hc. pose proof (code_range c). left. simpl. lia.
Qed.

Lemma escape_ascii c : code c < 128 -> forallb (fun x => code x <? 128) (escape c) = true.
Proof.
  intros Hc. pose proof (code_range c). unfold escape.
  repeat match goal with |- context [if ?b then _ else _] => destruct b eqn:? end; cbn [app forallb chars]; try reflexivity.
  - rewrite forallb_app. cbn [forallb]. by rewrite (proj2 (Z.ltb_lt _ _) Hc).
  - rewrite forallb_app. unfold hex_digit. apply Z.ltb_lt in Heqb6.
    assert (H1 : 0 <= code c / 16 < 2) by (Z.div_mod_to_equations; lia). assert (H2 : 0 <= code c mod 16 < 16) by (apply Z.mod_pos_bound; lia).
    cbn [forallb]. rewrite !code_byte_of by (case_match; lia). rewrite !(proj2 (Z.ltb_lt _ 128)) by (case_match; lia). reflexivity.
  - by rewrite (proj2 (Z.ltb_lt _ _) Hc).
Qed.
Lemma escape_high c : 128 <= code c -> escape c = [c].
Proof. intros Hc. unfold escape. repeat match goal with |- context [if ?b then _ else _] => destruct b eqn:? end; try done; lia. Qed.

Lemma quote_encode l : Forall scalar l -> well_formed (unchars (chars (encode l) ≫= escape)) = true.
Proof.
  induction 1 as [|c l Hc Hl IH]; [done|]. change (c :: l) with ([c] ++ l). rewrite encode_app, chars_app, bind_app, unchars_app.
  apply well_formed_app; [|done]. clear IH.
  assert (Hb : bytes (encode [c]) = encode_cp c) by (rewrite bytes_encode by (by constructor); unfold encode_points; simpl; by rewrite app_nil_r).
  destruct (decide (c <= 0x7F)) as [Ha|Ha].
  - apply well_formed_ascii. unfold ascii. rewrite chars_unchars. unfold encode_cp in Hb. rewrite (proj2 (Z.leb_le _ _) Ha) in Hb.
    unfold bytes in Hb. destruct (chars (encode [c])) as [|x [|? ?]]; simplify_eq/=. rewrite app_nil_r. apply escape_ascii. lia.
  - assert (Hh : Forall (fun x => 128 <= code x) (chars (encode [c]))).
    { assert (Hf : Forall (fun z => 128 <= z) (code <$> chars (encode [c]))); [|exact (proj1 (Forall_fmap code _ _) Hf)].
      change (code <$> chars (encode [c])) with (bytes (encode [c])). rewrite Hb. unfold encode_cp. unfold scalar in Hc.
      repeat match goal with |- context [c <=? ?n] => destruct (Z.leb_spec c n) end; repeat constructor; Z.div_mod_to_equations; lia. }
    assert (He : chars (encode [c]) ≫= escape = chars (encode [c])).
    { clear -Hh. induction Hh as [|x l Hx _ IH]; [done|]. cbn [mbind list_bind]. rewrite (escape_high _ Hx). simpl. by rewrite <-IH at 2. }
    rewrite He, unchars_chars. apply well_formed_encode. by constructor.
Qed.

Lemma well_formed_quote s : well_formed s = true -> well_formed (quote s) = true.
Proof.
  intros (l & Hl & ->)%well_formed_elim. unfold quote, quote_chars.
  change (dquote :: ?m ++ [dquote]) with ([dquote] ++ m ++ [dquote]). rewrite !unchars_app.
  apply well_formed_app; [by vm_compute|]. apply well_formed_app; [by apply quote_encode|by vm_compute].
Qed.

Lemma text_decode_ascii s c r : well_formed s = true -> chars s = c :: r -> code c < 128 -> text_decode s = s.
Proof.
  intros (l & Hl & ->)%well_formed_elim Hc Ha. unfold text_decode. rewrite points_encode by done. destruct l as [|x l]; [done|].
  destruct (decide (x = 0xFEFF)) as [->|Hx]; [|by repeat (case_match; try done)].
  exfalso. assert (Hb : bytes (encode (0xFEFF :: l)) = encode_points (0xFEFF :: l)) by (by apply bytes_encode).
  unfold bytes in Hb. rewrite Hc in Hb. simpl in Hb. injection Hb as Hb _. rewrite Hb in Ha. vm_compute in Ha. done.
Qed.

Lemma well_formed_concat ps : Forall (fun p => well_formed p = true) ps -> well_formed (str_app ps) = true.
Proof. unfold str_app. induction 1 as [|p ps Hp _ IH]; simpl; [by vm_compute|]. by apply well_formed_app. Qed.
Lemma well_formed_join sep ps : well_formed sep = true -> Forall (fun p => well_formed p = true) ps -> well_formed (str_join sep ps) = true.
Proof.
  intros Hs. induction 1 as [|p ps Hp Hps IH]; [by vm_compute|]. destruct Hps as [|q ps Hq Hps]; [done|].
  rewrite str_join_cons. by repeat apply well_formed_app.
Qed.

Lemma ascii_num z : ascii (num_to_string z) = true.
Proof.
  unfold ascii, num_to_string. rewrite chars_unchars. apply forallb_forall. intros c Hc.
  assert (Hd : forall n, 0 <= n -> Forall (fun c => code c < 128) (digit_char <$> dec_digits n)).
  { intros n Hn. destruct (dec_digits_spec n Hn) as (Hd & _). apply Forall_fmap. eapply Forall_impl; [exact Hd|].
    intros d Hr. unfold compose, digit_char. rewrite code_byte_of by (cbv beta in Hr; lia). cbv beta in Hr. lia. }
  apply Z.ltb_lt. unfold num_chars in Hc. destruct (Z.ltb_spec z 0).
  - destruct Hc as [<-|Hc]; [reflexivity|]. specialize (Hd (-z) ltac:(lia)). rewrite List.Forall_forall in Hd. by apply Hd.
  - specialize (Hd z ltac:(lia)). rewrite List.Forall_forall in Hd. by apply Hd.
Qed.

(** Every string in the value is well-formed. *)
Fixpoint texts_ok (v : jsval) : bool :=
  match v with
  | VStr s => well_formed s
  | VArr l => forallb texts_ok l
  | VObj o => forallb (fun kv => well_formed kv.1 && texts_ok kv.2) o
  | _ => true
  end.

Lemma stringify_well_formed v s : texts_ok v = true -> stringify v = Some s -> well_formed s = true.
Proof.
  revert s. induction v as [| |b|x|t|l IH|o IH] using jsval_ind; intros s Hok Hs; try discriminate Hs; cbn [stringify] in Hs.
  - by injection Hs as <-.
  - injection Hs as <-. by destruct b.
  - unfold number_text in Hs. destruct (safe_int x); [injection Hs as <-; apply well_formed_ascii, ascii_num|].
    destruct x; simplify_eq; by vm_compute.
  - injection Hs as <-. by apply well_formed_quote.
  - apply bind_Some in Hs as (ps & Hps & [= <-]). apply (well_formed_concat ["["; str_join "," ps; "]"]). repeat constructor.
    apply well_formed_join; [by vm_compute|]. apply mapM_Some_1 in Hps. cbn [texts_ok] in Hok.
    induction Hps as [|x p l ps Hx _ IHl]; [constructor|]. inversion_clear IH as [|?? Hi Hl]. simpl in Hok. apply andb_true_iff in Hok as [Hox Hol].
    constructor; [|by apply IHl]. destruct (is_undef x); [injection Hx as <-; by vm_compute|by apply Hi].
  - apply bind_Some in Hs as (ps & Hps & [= <-]). apply (well_formed_concat ["{"; str_join "," (omap id ps); "}"]). repeat constructor.
    apply well_formed_join; [by vm_compute|]. apply mapM_Some_1 in Hps. cbn [texts_ok] in Hok.
    induction Hps as [|[k x] p o ps Hx _ IHo]; [constructor|]. inversion_clear IH as [|?? Hi Ho]. simpl in *.
    apply andb_true_iff in Hok as [[Hk Hox]%andb_true_iff Hol]. specialize (IHo Ho Hol).
    destruct (is_undef x); [injection Hx as <-; exact IHo|]. apply bind_Some in Hx as (t & Ht & [= <-]). simpl. constructor; [|exact IHo].
    apply (well_formed_concat [quote k; ":"; t]). constructor; [by apply well_formed_quote|].
    constructor; [by vm_compute|]. constructor; [by apply Hi|constructor].
Qed.

(** ** Encodings are ASCII *)
Lemma ascii_unchars l : forallb (fun c => code c <? 128) l = true -> ascii (unchars l) = true.
Proof. unfold ascii. by rewrite chars_unchars. Qed.
Lemma hex_digit_ascii d : 0 <= d < 16 -> code (hex_digit d) <? 128 = true.
Proof. intros Hd. unfold hex_digit. apply Z.ltb_lt. rewrite code_byte_of by (case_match; lia). case_match; lia. Qed.
Lemma ascii_toHex s : ascii (toHex s) = true.
Proof.
  unfold toHex. apply ascii_unchars. induction (chars s) as [|c l IH]; [done|]. cbn [mbind list_bind]. rewrite forallb_app. cbn [hex_pair forallb].
  pose proof (code_range c). rewrite !hex_digit_ascii by (Z.div_mod_to_equations; lia). exact IH.
Qed.
Lemma b64_char_ascii v : 0 <= v < 64 -> code (b64_char v) <? 128 = true.
Proof. intros Hv. unfold b64_char. apply Z.ltb_lt. rewrite code_byte_of by (repeat case_match; lia). repeat case_match; lia. Qed.
Lemma b64_ascii n : forall l, (length l <= n)%nat -> Forall (fun b => 0 <= b < 256) l -> forallb (fun c => code c <? 128) (b64_encode l) = true.
Proof.
  induction n as [|n IH]; intros l Hn Hl; [destruct l; [done|simpl in Hn; lia]|].
  destruct l as [|a [|b [|c l]]]; [done|..]; repeat (apply Forall_cons in Hl as [? Hl]);
    cbn [b64_encode forallb]; rewrite !b64_char_ascii by (Z.div_mod_to_equations; lia); [done..|].
  apply IH; [simpl in Hn; lia|done].
Qed.
Lemma ascii_toB64 s : ascii (toB64 s) = true.
Proof.
  unfold toB64. apply ascii_unchars. apply (b64_ascii (length (bytes s))); [done|]. unfold bytes.
  apply Forall_fmap, List.Forall_forall. intros c _. apply code_range.
Qed.

(** ** Canonical JSON is the text of the canonical value *)
Section canonical.
Context `{U : Unicode}.

Lemma stringify_members o ps :
  Forall2 (fun kv p => exists t, stringify kv.2 = Some t /\ p = entry_text kv.1 t) o ps ->
  stringify (VObj o) = Some (str_app ["{"; str_join "," ps; "}"]).
Proof.
  intros Hf. cbn [stringify].
  assert (Ho : omap id (Some <$> ps) = ps) by (clear; induction ps as [|p ps IH]; [done|]; cbn; by f_equal).
  enough (Hm : mapM (fun kv => if is_undef kv.2 then Some None else t ← stringify kv.2; Some (Some (entry_text kv.1 t))) o = Some (Some <$> ps)).
  { rewrite Hm. cbn [mbind option_bind]. by rewrite Ho. }
  apply mapM_Some_2. apply Forall2_fmap_r. eapply Forall2_impl; [exact Hf|]. intros [k v] p (t & Ht & ->). cbn [fst snd] in *.
  rewrite Ht. destruct v; done.
Qed.

Lemma canonicalJson_stringify v s : canonicalJson v = Ok s -> stringify (canon v) = Some s.
Proof.
  revert s. induction v as [| |b|x|t|l IH|o IH] using jsval_ind; intros s Hs.
  6: { apply canonicalJson_arr in Hs as (parts & -> & Hf). cbn [canon stringify].
       enough (Hm : mapM (fun x => if is_undef x then Some "null" else stringify x) (List.map canon l) = Some parts) by by rewrite Hm.
       apply mapM_Some_2. induction Hf as [|x p l ps Hx _ IHl]; [constructor|]. inversion_clear IH as [|?? Hi Hl].
       constructor; [|by apply IHl]. rewrite is_undef_canon. destruct x; try discriminate Hx; cbn [is_undef]; by apply Hi. }
  6: { apply canonicalJson_obj in Hs as (parts & -> & Hf). rewrite canon_obj. apply stringify_members.
       assert (Hin : Forall (fun kv => forall s, canonicalJson kv.2 = Ok s -> stringify (canon kv.2) = Some s) (printed o)).
       { apply Forall_forall. intros kv Hkv%printed_elem. by eapply Forall_forall in IH. }
       clear IH. induction Hf as [|kv p l ps (t & Ht & ->) _ IHl]; [constructor|]. inversion_clear Hin as [|?? Hi Hl].
       constructor; [|by apply IHl]. exists t. split; [by apply Hi|done]. }
  all: try discriminate Hs.
  - by injection Hs as <-.
  - by injection Hs as <-.
  - cbn [canonicalJson canon] in *. destruct (safe_int x) as [z|] eqn:Hz; [|done]. injection Hs as <-. unfold vint. cbn [stringify]. unfold number_text.
    rewrite safe_int_num. apply safe_int_bound in Hz. by rewrite (proj2 (Z.leb_le _ _) Hz).
  - by injection Hs as <-.
Qed.
End canonical.
