(* ===== verification/Policy.v ===== *)
(** * The policy engine (packages/policy/src/engine.ts, index.ts)

    Text is a list of code points; the normalizer, the matcher and the scorer are
    translated branch by branch.  [denies] is the declarative reading of the
    header comment of engine.ts that [evaluate] is proved to implement. *)

From S2P Require Import Prelude JsNum Utf8 Json Unicode Types Crypto.
Local Open Scope Z_scope.

(** ** Rules *)
Record category_meta : Type := { cat_id : string; cat_name : string; cat_threshold : Z }.
Record target : Type := { tg_id : string; tg_category : string; tg_weight : Z; tg_phrases : list string }.
Record hard_block : Type := { hb_id : string; hb_category : string; hb_phrases : list string }.
Record modifier : Type := { md_id : string; md_weight : Z; md_phrases : list string }.

Record PolicyRules : Type := {
  pr_version : string;
  pr_normalizer : string;
  pr_intentBonus : Z;
  pr_constructionBonus : Z;
  pr_intentPhrases : list string;
  pr_constructionVerbs : list string;
  pr_modifierSuppressors : list string;
  pr_categories : list category_meta;     (* [Object.entries] order *)
  pr_targets : list target;
  pr_hardBlocks : list hard_block;
  pr_modifiers : list modifier;
}.

Record CategoryScore : Type := {
  cs_category : string; cs_name : string; cs_score : Z; cs_threshold : Z;
  cs_matchedTargets : list string;
}.

Record PolicyEvaluation : Type := {
  pe_decision : PolicyDecision;
  pe_categories : list CategoryScore;
  pe_intentPresent : bool;
  pe_constructionPresent : bool;
  pe_hardBlock : option string;
  pe_modifiersApplied : list string;
}.

(** ** Normalization *)

(** U+200B to U+200F, U+2060 and U+FEFF *)
Definition zero_width (c : Z) : bool :=
  (0x200B <=? c) && (c <=? 0x200F) || (c =? 0x2060) || (c =? 0xFEFF).

Definition leet (c : Z) : Z :=
  if c =? 64 then 97            (* @ -> a *)
  else if c =? 36 then 115      (* $ -> s *)
  else if c =? 48 then 111      (* 0 -> o *)
  else if c =? 49 then 105      (* 1 -> i *)
  else if c =? 51 then 101      (* 3 -> e *)
  else if c =? 52 then 97       (* 4 -> a *)
  else if c =? 53 then 115      (* 5 -> s *)
  else if c =? 55 then 116      (* 7 -> t *)
  else c.

Section Policy.
Context `{U : Unicode}.

(** [\s\p{P}\p{S}] *)
Definition separator (c : Z) : bool := js_space c || is_punct_or_symbol c.

(** [replace(/[...]+/gu, " ")]; [in_run] says the previous character was one. *)
Fixpoint collapse (in_run : bool) (l : list Z) : list Z :=
  match l with
  | [] => []
  | c :: l => if separator c
              then if in_run then collapse true l else 32 :: collapse true l
              else c :: collapse false l
  end.

(** The code points the separators are collapsed among. *)
Definition fold_text (text : string) : list Z :=
  leet <$> List.filter (fun c => negb (zero_width c)) (nfkc_lower (points text)).

Definition normalize (text : string) : list Z := trim (collapse false (fold_text text)).

(** ** Matching *)
Record Corpus : Type := { c_padded : list Z; c_tokens : list (list Z); c_squashed : list Z }.

Definition buildCorpus (text : list Z) : Corpus := {|
  c_padded := 32 :: text ++ [32];
  c_tokens := List.filter (fun w => negb (bool_decide (w = []))) (split_on 32 text);
  c_squashed := join [] (split_on 32 text);
|}.

Definition SQUASH_MIN : Z := 8.

Definition match_norm (corpus : Corpus) (n : list Z) : bool :=
  match n with
  | [] => false
  | _ =>
      (if bool_decide (32 ∈ n)
       then infixb (32 :: n ++ [32]) (c_padded corpus) || infixb (32 :: n ++ [115; 32]) (c_padded corpus)
       else bool_decide (n ∈ c_tokens corpus) ||
            (4 <=? points_length n) && existsb (prefixb n) (c_tokens corpus))
      || (let squashedNeedle := join [] (split_on 32 n) in
          (SQUASH_MIN <=? points_length squashedNeedle) && infixb squashedNeedle (c_squashed corpus))
  end.

Definition match_ (corpus : Corpus) (needleRaw : string) : bool :=
  match_norm corpus (normalize needleRaw).

(** ** Scoring *)
Definition any_match (corpus : Corpus) (ps : list string) : bool := existsb (match_ corpus) ps.

Definition find_hard_block (corpus : Corpus) (rules : PolicyRules) : option hard_block :=
  List.find (fun hb => any_match corpus (hb_phrases hb)) (pr_hardBlocks rules).

(** The loop over the modifiers: the total and the ids, in order. *)
Definition apply_modifiers (corpus : Corpus) (ms : list modifier) : Z * list string :=
  fold_left (fun acc m => if any_match corpus (md_phrases m)
                          then (acc.1 + md_weight m, acc.2 ++ [md_id m]) else acc) ms (0, []).

(** The loop over the targets of one category. *)
Definition score_targets (corpus : Corpus) (cat : string) (ts : list target) : Z * list string :=
  fold_left (fun acc t =>
    if negb (bool_decide (tg_category t = cat)) then acc
    else if any_match corpus (tg_phrases t) then (acc.1 + tg_weight t, acc.2 ++ [tg_id t]) else acc)
    ts (0, []).

Definition score_category (corpus : Corpus) (rules : PolicyRules)
    (intentPresent constructionPresent : bool) (modifierTotal : Z) (meta : category_meta)
    : CategoryScore :=
  let '(score, matchedTargets) := score_targets corpus (cat_id meta) (pr_targets rules) in
  let score :=
    match matchedTargets with
    | [] => score
    | _ => score + (if intentPresent then pr_intentBonus rules else 0)
                 + (if constructionPresent then pr_constructionBonus rules else 0)
                 + modifierTotal
    end in
  {| cs_category := cat_id meta; cs_name := cat_name meta;
     cs_score := if score <? 0 then 0 else score;
     cs_threshold := cat_threshold meta; cs_matchedTargets := matchedTargets |}.

Definition evaluate (rules : PolicyRules) (rawText : string) : PolicyEvaluation :=
  let corpus := buildCorpus (normalize rawText) in
  match find_hard_block corpus rules with
  | Some hb =>
      {| pe_decision := DENY; pe_categories := []; pe_intentPresent := false;
         pe_constructionPresent := false; pe_hardBlock := Some (hb_id hb);
         pe_modifiersApplied := [] |}
  | None =>
      let intentPresent := any_match corpus (pr_intentPhrases rules) in
      let constructionPresent := any_match corpus (pr_constructionVerbs rules) in
      let suppressed := any_match corpus (pr_modifierSuppressors rules) in
      let '(modifierTotal, modifiersApplied) :=
        if suppressed then (0, []) else apply_modifiers corpus (pr_modifiers rules) in
      let categories :=
        score_category corpus rules intentPresent constructionPresent modifierTotal
          <$> pr_categories rules in
      {| pe_decision :=
           if existsb (fun c => cs_threshold c <=? cs_score c) categories then DENY else ALLOW;
         pe_categories := categories; pe_intentPresent := intentPresent;
         pe_constructionPresent := constructionPresent; pe_hardBlock := None;
         pe_modifiersApplied := modifiersApplied |}
  end.

(** ** The package (index.ts) *)

(** [requestText]: the contents of all messages, one per line. *)
Definition newline : string := unchars [byte_of 10].
Definition requestText (contents : list string) : string := str_join newline contents.

Definition evaluateRequest (rules : PolicyRules) (contents : list string) : PolicyEvaluation :=
  evaluate rules (requestText contents).

Context `{C : Crypto}.
(** The identity of the compiled policy, from the bytes of its files. *)
Definition guestImageId (rulesBytes : string) : string :=
  "0x" +:+ toHex (sha256 (str_app ["ctn-policy-v1-guest"; unchars [byte_of 0]; rulesBytes])).
Definition policyId (canonManifest rulesBytes : string) : string :=
  "0x" +:+ toHex (sha256 (str_app [canonManifest; rulesBytes; guestImageId rulesBytes])).

(** ** The normal form *)

(** Reference definition: the maximal runs of non-separators. *)
Fixpoint split_sep (l : list Z) : list (list Z) :=
  match l with
  | [] => [[]]
  | c :: l =>
      if separator c then [] :: split_sep l
      else match split_sep l with
           | [] => [[c]]
           | w :: ws => (c :: w) :: ws
           end
  end.
Definition nonempty (w : list Z) : bool := negb (bool_decide (w = [])).
Definition words (l : list Z) : list (list Z) := List.filter nonempty (split_sep l).

Definition is_word (w : list Z) : Prop := w <> [] /\ Forall (fun c => separator c = false) w.

Lemma js_space_separator c : separator c = false -> js_space c = false.
Proof. unfold separator. by intros [? _]%orb_false_iff. Qed.

Lemma not_space c : separator c = false -> c <> 32.
Proof. by intros H ->. Qed.

Lemma split_sep_ne l : split_sep l <> [].
Proof. destruct l as [|c l]; simpl; [done|]. destruct (separator c); [done|]. by destruct (split_sep l). Qed.

Lemma split_sep_pieces l : Forall (Forall (fun c => separator c = false)) (split_sep l).
Proof.
  induction l as [|c l IH]; simpl; [by repeat constructor|].
  destruct (separator c) eqn:E; [by constructor|].
  destruct (split_sep l); inv IH; repeat constructor; done.
Qed.

Lemma words_ok l : Forall is_word (words l).
Proof.
  unfold words. pose proof (split_sep_pieces l) as H.
  induction H as [|w ws Hw _ IH]; simpl; [done|]. unfold nonempty at 1.
  destruct (bool_decide_reflect (w = [])); simpl; [done|]. by constructor.
Qed.

(** [collapse true], on the pieces. *)
Fixpoint ct (ps : list (list Z)) : list Z :=
  match ps with
  | [] => []
  | [w] => w
  | w :: ws => match w with [] => ct ws | _ => w ++ 32 :: ct ws end
  end.

Lemma ct_cons w p ps : ct (w :: p :: ps) = match w with [] => ct (p :: ps) | _ => w ++ 32 :: ct (p :: ps) end.
Proof. done. Qed.

Lemma collapse_pieces l w ps :
  split_sep l = w :: ps ->
  collapse true l = ct (w :: ps) /\
  collapse false l = match ps with [] => w | _ => w ++ 32 :: ct ps end.
Proof.
  revert w ps. induction l as [|c l IH]; intros w ps Hs; cbn [split_sep collapse] in *.
  - by simplify_eq.
  - destruct (split_sep l) as [|w' ps'] eqn:E; [by apply split_sep_ne in E|].
    destruct (IH w' ps' eq_refl) as [IHt IHf]. destruct (separator c); simplify_eq.
    + rewrite ct_cons, IHt. done.
    + rewrite IHf. destruct ps; done.
Qed.

Lemma trim_start_word w l : is_word w -> trim_start (w ++ l) = w ++ l.
Proof.
  intros [Hne Hw]. destruct Hw as [|c w Hc Hw]; [done|]. simpl. by rewrite js_space_separator.
Qed.

Lemma trim_start_ct ps : Forall (Forall (fun c => separator c = false)) ps -> trim_start (ct ps) = ct ps.
Proof.
  induction 1 as [|w ps Hw Hps IH]; [done|]. destruct ps as [|p ps].
  - destruct Hw as [|c w Hc Hw]; [done|]. simpl. by rewrite js_space_separator.
  - rewrite ct_cons. destruct Hw as [|c w Hc Hw]; [done|]. simpl. by rewrite js_space_separator.
Qed.

Definition trim_end (l : list Z) : list Z := rev (trim_start (rev l)).

Lemma trim_end_app a b : trim_end b <> [] -> trim_end (a ++ b) = a ++ trim_end b.
Proof.
  unfold trim_end. rewrite rev_app_distr. generalize (rev b) as l. intros l Hne.
  assert (H : trim_start (l ++ rev a) = trim_start l ++ rev a).
  { induction l as [|c l IH]; simpl in *; [done|]. destruct (js_space c); [by apply IH|done]. }
  by rewrite H, rev_app_distr, rev_involutive.
Qed.

Lemma trim_end_word w : is_word w -> trim_end w = w.
Proof.
  intros [Hne Hw]. unfold trim_end.
  destruct (rev w) as [|c l] eqn:E; [by apply (f_equal (@rev Z)) in E; rewrite rev_involutive in E|].
  assert (Hc : separator c = false).
  { rewrite Forall_forall in Hw. apply Hw. apply list_elem_of_In, in_rev. rewrite E. by left. }
  simpl. rewrite js_space_separator by done. by rewrite <-E, rev_involutive.
Qed.

Lemma trim_end_word_space w : is_word w -> trim_end (w ++ [32]) = w.
Proof.
  intros Hw. unfold trim_end. rewrite rev_app_distr. simpl. by apply trim_end_word.
Qed.

Lemma join_ne ws : Forall is_word ws -> ws <> [] -> join [32] ws <> [].
Proof. intros [|w l [Hw _] _]; [done|]. intros _. destruct w; [done|]. by destruct l. Qed.

Lemma trim_end_ct ps :
  Forall (Forall (fun c => separator c = false)) ps ->
  trim_end (ct ps) = join [32] (List.filter nonempty ps).
Proof.
  induction 1 as [|w ps Hw Hps IH]; [done|].
  assert (Hws : Forall is_word (List.filter nonempty ps)).
  { clear IH. induction Hps as [|v ps Hv _ IH]; simpl; [done|].
    unfold nonempty at 1. destruct (bool_decide_reflect (v = [])); simpl; [done|]. by constructor. }
  destruct w as [|c w].
  - destruct ps; [done|]. exact IH.
  - assert (Hw' : is_word (c :: w)) by done. simpl List.filter.
    destruct ps as [|p ps]; [by apply trim_end_word|]. rewrite ct_cons.
    destruct (List.filter nonempty (p :: ps)) as [|v vs] eqn:E.
    + assert (Hct : ct (p :: ps) = []).
      { clear -E. revert p E. induction ps as [|q ps IH]; intros p E; simpl in E.
        - destruct p; [done|]. discriminate.
        - rewrite ct_cons. destruct p; [by apply IH|discriminate]. }
      rewrite Hct. by apply trim_end_word_space.
    + assert (Hne : trim_end (ct (p :: ps)) <> []) by (rewrite IH; by apply join_ne).
      rewrite trim_end_app.
      * change (32 :: ct (p :: ps)) with ([32] ++ ct (p :: ps)).
        rewrite trim_end_app by done. rewrite IH. done.
      * change (32 :: ct (p :: ps)) with ([32] ++ ct (p :: ps)). by rewrite trim_end_app.
Qed.

Lemma normalize_join text : normalize text = join [32] (words (fold_text text)).
Proof.
  unfold normalize, words. generalize (fold_text text) as l. intros l.
  pose proof (split_sep_pieces l) as Hp.
  destruct (split_sep l) as [|w ps] eqn:E; [by apply split_sep_ne in E|].
  destruct (collapse_pieces l w ps E) as [_ Hc].
  change (trim (collapse false l)) with (trim_end (trim_start (collapse false l))).
  rewrite <-trim_end_ct by done. f_equal. rewrite <-(trim_start_ct (w :: ps)) by done.
  rewrite Hc. destruct ps as [|p ps]; [done|]. rewrite ct_cons. by destruct w.
Qed.

Lemma word_no_space w : is_word w -> 32 ∉ w.
Proof. intros [_ Hw] H. rewrite Forall_forall in Hw. apply Hw in H. done. Qed.

Lemma split_on_words ws : Forall is_word ws -> ws <> [] -> split_on 32 (join [32] ws) = ws.
Proof.
  intros Hw Hne. apply split_on_join; [done|]. eapply Forall_impl; [exact Hw|]. intros w. apply word_no_space.
Qed.

Lemma filter_nonempty_words ws : Forall is_word ws -> List.filter nonempty ws = ws.
Proof.
  induction 1 as [|w ws [Hw _] _ IH]; simpl; [done|]. unfold nonempty at 1.
  rewrite bool_decide_eq_false_2 by done. simpl. by rewrite IH.
Qed.

Lemma tokens_words text : c_tokens (buildCorpus (normalize text)) = words (fold_text text).
Proof.
  cbn [buildCorpus c_tokens]. rewrite normalize_join.
  pose proof (words_ok (fold_text text)) as H. destruct (words (fold_text text)) as [|w ws] eqn:E; [done|].
  rewrite split_on_words by done. by apply filter_nonempty_words.
Qed.

(** The letters of a text: what is left without any separator. *)
Definition letters (text : string) : list Z :=
  List.filter (fun c => negb (separator c)) (fold_text text).

Lemma concat_words l : concat (words l) = List.filter (fun c => negb (separator c)) l.
Proof.
  unfold words. induction l as [|c l IH]; [done|]. cbn [split_sep List.filter].
  pose proof (split_sep_ne l). destruct (separator c); simpl; [done|].
  destruct (split_sep l) as [|w ws]; [done|]. simpl in *. rewrite <-IH.
  unfold nonempty at 2. destruct w; done.
Qed.

Lemma join_nil {A} (ws : list (list A)) : join [] ws = concat ws.
Proof.
  induction ws as [|w ws IH]; [done|]. destruct ws; simpl in *.
  - by rewrite app_nil_r.
  - by rewrite IH.
Qed.

Lemma squash_letters text : join [] (split_on 32 (normalize text)) = letters text.
Proof.
  rewrite normalize_join. unfold letters. rewrite <-concat_words, join_nil.
  pose proof (words_ok (fold_text text)) as H. destruct (words (fold_text text)) as [|w ws]; [done|].
  by rewrite split_on_words.
Qed.

(** Normalization computes the words of the folded text: the normal form is its maximal
    separator-free runs joined by single spaces, the tokens of the corpus are exactly these
    runs, and the squashed text is their concatenation. *)
Lemma normalize_words text :
  normalize text = join [32] (words (fold_text text)) /\
  Forall is_word (words (fold_text text)) /\
  c_tokens (buildCorpus (normalize text)) = words (fold_text text) /\
  c_squashed (buildCorpus (normalize text)) = letters text.
Proof.
  split_and!; [apply normalize_join|apply words_ok|apply tokens_words|apply squash_letters].
Qed.

(** ** What matching guarantees *)
Lemma normalize_nil_letters p : normalize p = [] -> letters p = [].
Proof. intros H. by rewrite <-squash_letters, H. Qed.

Lemma match_squashed text p :
  SQUASH_MIN <= points_length (letters p) -> infixb (letters p) (letters text) = true ->
  match_ (buildCorpus (normalize text)) p = true.
Proof.
  intros Hlen Hin. unfold match_, match_norm.
  destruct (normalize p) as [|c n] eqn:E.
  - apply normalize_nil_letters in E. rewrite E in Hlen. by vm_compute in Hlen.
  - rewrite <-E, squash_letters. apply orb_true_iff. right.
    cbn [buildCorpus c_squashed]. rewrite squash_letters, Hin.
    by rewrite (proj2 (Z.leb_le _ _) Hlen).
Qed.

Lemma any_match_spec corpus ps :
  any_match corpus ps = true <-> exists p, p ∈ ps /\ match_ corpus p = true.
Proof.
  unfold any_match. rewrite existsb_exists. split; intros (p & Hp & Hm); exists p;
    (split; [by apply list_elem_of_In|done]).
Qed.

Lemma find_hard_block_spec corpus rules :
  is_Some (find_hard_block corpus rules) <->
  exists hb, hb ∈ pr_hardBlocks rules /\ any_match corpus (hb_phrases hb) = true.
Proof.
  unfold find_hard_block. split.
  - intros [hb H]. exists hb. apply find_some in H as [Hin H].
    split; [by apply list_elem_of_In|done].
  - intros (hb & Hin%list_elem_of_In & Hm). destruct (List.find _ _) eqn:E; [done|].
    eapply find_none in E; [|exact Hin]. simpl in E. congruence.
Qed.

(** A text with the letters of a phrase of a hard block is denied by a hard block. *)
Lemma hard_block_squashed rules text hb p :
  hb ∈ pr_hardBlocks rules -> p ∈ hb_phrases hb ->
  SQUASH_MIN <= points_length (letters p) -> infixb (letters p) (letters text) = true ->
  pe_decision (evaluate rules text) = DENY /\ is_Some (pe_hardBlock (evaluate rules text)).
Proof.
  intros Hhb Hp Hlen Hin.
  assert (is_Some (find_hard_block (buildCorpus (normalize text)) rules)) as [hb' E].
  { apply find_hard_block_spec. exists hb. split; [done|]. apply any_match_spec.
    exists p. split; [done|]. by apply match_squashed. }
  unfold evaluate. rewrite E. split; [done|]. by eexists.
Qed.

(** ** Hiding a phrase

    What a writer can do to a phrase, stated without the normalizer: keep a
    character, write a look-alike for it, drop a space, or put fillers anywhere -
    invisible characters, white space, punctuation and symbols other than the two
    look-alikes [@] and [$]. *)
Definition INVISIBLE : list Z := [0x200B; 0x200C; 0x200D; 0x200E; 0x200F; 0x2060; 0xFEFF].
(** The character written, and the letter meant. *)
Definition LOOKALIKE : list (Z * Z) := [(64, 97); (36, 115); (48, 111); (49, 105); (51, 101); (52, 97); (53, 115); (55, 116)].
Definition filler (c : Z) : Prop :=
  c ∈ INVISIBLE \/ ((js_space c = true \/ is_punct_or_symbol c = true) /\ c ∉ LOOKALIKE.*1).

Inductive disguise : list Z -> list Z -> Prop :=
| disguise_end : disguise [] []
| disguise_same c p t : disguise p t -> disguise (c :: p) (c :: t)
| disguise_lookalike d c p t : (d, c) ∈ LOOKALIKE -> disguise p t -> disguise (c :: p) (d :: t)
| disguise_filler c p t : filler c -> disguise p t -> disguise p (c :: t)
| disguise_joined p t : disguise p t -> disguise (32 :: p) t.

Definition strip (l : list Z) : list Z :=
  List.filter (fun c => negb (separator c)) (leet <$> List.filter (fun c => negb (zero_width c)) l).
Lemma strip_app a b : strip (a ++ b) = strip a ++ strip b.
Proof. unfold strip. by rewrite List.filter_app, fmap_app, List.filter_app. Qed.
Lemma strip_cons c l : strip (c :: l) = strip [c] ++ strip l.
Proof. apply (strip_app [c]). Qed.

Lemma leet_other c : c ∉ LOOKALIKE.*1 -> leet c = c.
Proof.
  intros Hc. unfold leet, LOOKALIKE in *. simpl in Hc.
  repeat match goal with |- context [c =? ?n] => destruct (Z.eqb_spec c n) as [->|_]; [exfalso; apply Hc; set_solver|] end. done.
Qed.
Lemma strip_filler c : filler c -> strip [c] = [].
Proof.
  unfold filler. intros [Hz|[Hs Hc%leet_other]]; unfold strip.
  - assert (Hw : zero_width c = true); [|cbn; by rewrite Hw]. unfold INVISIBLE in Hz.
    repeat (apply elem_of_cons in Hz as [->|Hz]; [done|]). by apply not_elem_of_nil in Hz.
  - cbn. destruct (zero_width c); [done|]. cbn. rewrite Hc. unfold separator.
    by rewrite (proj2 (orb_true_iff _ _) Hs).
Qed.
Lemma strip_lookalike d c : (d, c) ∈ LOOKALIKE -> strip [d] = strip [c].
Proof. unfold LOOKALIKE. intros Hd. repeat (apply elem_of_cons in Hd as [[= -> ->]|Hd]; [done|]). by apply not_elem_of_nil in Hd. Qed.
Lemma strip_disguise p t : disguise p t -> strip t = strip p.
Proof.
  induction 1 as [|c p t _ IH|d c p t Hd _ IH|c p t Hc _ IH|p t _ IH]; [done|..].
  - by rewrite (strip_cons c p), strip_cons, IH.
  - by rewrite (strip_cons c p), strip_cons, IH, (strip_lookalike d c).
  - by rewrite strip_cons, IH, strip_filler.
  - rewrite IH, (strip_cons 32). done.
Qed.

(** A phrase in words of the letters a to z. *)
Definition wordy (l : list Z) : Prop := Forall (fun c => c = 32 \/ 97 <= c <= 122) l.
Lemma strip_wordy `{!UnicodeOk U} l : wordy l -> strip l = List.filter (fun c => negb (c =? 32)) l.
Proof.
  induction 1 as [|c l Hc _ IH]; [done|]. rewrite strip_cons, IH. cbn [List.filter].
  destruct Hc as [->|Hc]; [done|]. rewrite (proj2 (Z.eqb_neq c 32)) by lia. cbn [negb]. unfold strip.
  assert (Hz : zero_width c = false) by (unfold zero_width; lia).
  assert (Hl : leet c = c) by (unfold leet; repeat case_match; lia).
  assert (Hs : js_space c = false) by (unfold js_space; lia).
  cbn. rewrite Hz. cbn. rewrite Hl. unfold separator. by rewrite Hs, (not_punct_alnum c (or_introl Hc)).
Qed.
Lemma points_length_wordy l : wordy l -> points_length (List.filter (fun c => negb (c =? 32)) l) = Z.of_nat (length (List.filter (fun c => negb (c =? 32)) l)).
Proof.
  induction 1 as [|c l Hc _ IH]; [done|]. cbn [List.filter]. destruct (negb (c =? 32)); [|exact IH]. cbn [points_length foldr length].
  change (foldr (fun c n => unit_len c + n) 0) with points_length. rewrite IH. unfold unit_len. rewrite (proj2 (Z.leb_le _ _)) by lia. lia.
Qed.


(** ** The declarative reading of the rules *)
Section spec.
Context (rules : PolicyRules) (text : string).
Let corpus := buildCorpus (normalize text).
Definition fires (ps : list string) : bool := any_match corpus ps.

Definition fired_targets (cat : string) : list target :=
  List.filter (fun t => bool_decide (tg_category t = cat) && fires (tg_phrases t)) (pr_targets rules).
Definition fired_modifiers : list modifier :=
  if fires (pr_modifierSuppressors rules) then []
  else List.filter (fun m => fires (md_phrases m)) (pr_modifiers rules).

Definition category_score (meta : category_meta) : Z :=
  match fired_targets (cat_id meta) with
  | [] => 0
  | ts => Z.max 0 (zsum (List.map tg_weight ts)
                   + (if fires (pr_intentPhrases rules) then pr_intentBonus rules else 0)
                   + (if fires (pr_constructionVerbs rules) then pr_constructionBonus rules else 0)
                   + zsum (List.map md_weight fired_modifiers))
  end.

Definition hard_blocked : Prop := exists hb, hb ∈ pr_hardBlocks rules /\ fires (hb_phrases hb) = true.
Definition denies : Prop :=
  hard_blocked \/ exists meta, meta ∈ pr_categories rules /\ cat_threshold meta <= category_score meta.

Lemma score_targets_spec cat :
  score_targets corpus cat (pr_targets rules) =
  (zsum (List.map tg_weight (fired_targets cat)), List.map tg_id (fired_targets cat)).
Proof.
  unfold score_targets, fired_targets.
  pose proof (fold_left_pick (fun t => bool_decide (tg_category t = cat) && fires (tg_phrases t))
                tg_weight tg_id (pr_targets rules) (0, [])) as H.
  cbn [fst snd app] in H. rewrite Z.add_0_l in H. rewrite <-H. clear H.
  generalize (0, @nil string) as acc. induction (pr_targets rules) as [|t ts IH]; intros acc; [done|].
  cbn [fold_left]. rewrite IH. f_equal. unfold fires.
  by destruct (bool_decide (tg_category t = cat)), (any_match corpus (tg_phrases t)).
Qed.

Lemma apply_modifiers_spec :
  (if fires (pr_modifierSuppressors rules) then (0, []) else apply_modifiers corpus (pr_modifiers rules))
  = (zsum (List.map md_weight fired_modifiers), List.map md_id fired_modifiers).
Proof.
  unfold fired_modifiers, apply_modifiers. destruct (fires _); [done|].
  by rewrite (fold_left_pick (fun m => any_match corpus (md_phrases m)) md_weight md_id).
Qed.

Lemma score_category_spec meta :
  score_category corpus rules (fires (pr_intentPhrases rules)) (fires (pr_constructionVerbs rules))
    (zsum (List.map md_weight fired_modifiers)) meta =
  {| cs_category := cat_id meta; cs_name := cat_name meta; cs_score := category_score meta;
     cs_threshold := cat_threshold meta;
     cs_matchedTargets := List.map tg_id (fired_targets (cat_id meta)) |}.
Proof.
  unfold score_category, category_score. rewrite score_targets_spec.
  destruct (fired_targets (cat_id meta)) as [|t ts]; [done|]. cbn [List.map]. f_equal.
  match goal with |- context [?x <? 0] => destruct (Z.ltb_spec x 0) end; lia.
Qed.

Lemma evaluate_unfold :
  find_hard_block corpus rules = None ->
  evaluate rules text =
    let categories := (fun meta =>
      {| cs_category := cat_id meta; cs_name := cat_name meta; cs_score := category_score meta;
         cs_threshold := cat_threshold meta;
         cs_matchedTargets := List.map tg_id (fired_targets (cat_id meta)) |}) <$> pr_categories rules in
    {| pe_decision := if existsb (fun c => cs_threshold c <=? cs_score c) categories then DENY else ALLOW;
       pe_categories := categories; pe_intentPresent := fires (pr_intentPhrases rules);
       pe_constructionPresent := fires (pr_constructionVerbs rules); pe_hardBlock := None;
       pe_modifiersApplied := List.map md_id fired_modifiers |}.
Proof.
  intros E. unfold evaluate. fold corpus. rewrite E.
  change (any_match corpus (pr_modifierSuppressors rules)) with (fires (pr_modifierSuppressors rules)).
  rewrite apply_modifiers_spec. cbn zeta.
  assert (Hc : score_category corpus rules (any_match corpus (pr_intentPhrases rules))
                 (any_match corpus (pr_constructionVerbs rules))
                 (zsum (List.map md_weight fired_modifiers)) <$> pr_categories rules =
               (fun meta => {| cs_category := cat_id meta; cs_name := cat_name meta;
                  cs_score := category_score meta; cs_threshold := cat_threshold meta;
                  cs_matchedTargets := List.map tg_id (fired_targets (cat_id meta)) |}) <$> pr_categories rules).
  { apply list_fmap_ext. intros _ meta _. apply score_category_spec. }
  by rewrite Hc.
Qed.

Lemma hard_blocked_spec : hard_blocked <-> is_Some (find_hard_block corpus rules).
Proof. symmetry. apply find_hard_block_spec. Qed.

Lemma evaluate_denies : pe_decision (evaluate rules text) = DENY <-> denies.
Proof.
  unfold denies. rewrite hard_blocked_spec.
  destruct (find_hard_block corpus rules) as [hb|] eqn:E.
  - unfold evaluate. fold corpus. rewrite E. simpl. naive_solver.
  - rewrite evaluate_unfold by done. cbn [pe_decision].
    assert (Hx : forall ms, existsb (fun c => cs_threshold c <=? cs_score c)
               ((fun meta => {| cs_category := cat_id meta; cs_name := cat_name meta;
                  cs_score := category_score meta; cs_threshold := cat_threshold meta;
                  cs_matchedTargets := List.map tg_id (fired_targets (cat_id meta)) |}) <$> ms) = true <->
             exists meta, meta ∈ ms /\ cat_threshold meta <= category_score meta).
    { intros ms. induction ms as [|m ms IH]; simpl; [set_solver|].
      rewrite orb_true_iff, IH, Z.leb_le. set_solver. }
    specialize (Hx (pr_categories rules)).
    destruct (existsb _ _).
    + split; [|done]. intros _. right. by apply Hx.
    + split; [done|]. intros [[? ?]|H]; [done|]. by apply Hx in H.
Qed.
End spec.

Definition no_modifiers (r : PolicyRules) : PolicyRules := {|
  pr_version := pr_version r; pr_normalizer := pr_normalizer r; pr_intentBonus := pr_intentBonus r;
  pr_constructionBonus := pr_constructionBonus r; pr_intentPhrases := pr_intentPhrases r;
  pr_constructionVerbs := pr_constructionVerbs r; pr_modifierSuppressors := pr_modifierSuppressors r;
  pr_categories := pr_categories r; pr_targets := pr_targets r; pr_hardBlocks := pr_hardBlocks r;
  pr_modifiers := [] |}.

(** C23. The engine implements the documented decision model, and context only mitigates: a
    request is denied exactly when a hard block fires or some category's clamped sum of
    fired targets, bonuses and unsuppressed context modifiers reaches its threshold. *)
Theorem evaluate_spec rules text :
  (pe_decision (evaluate rules text) = DENY <-> denies rules text) /\
  (~ hard_blocked rules text ->
     pe_categories (evaluate rules text) =
       (fun meta => {| cs_category := cat_id meta; cs_name := cat_name meta;
                       cs_score := category_score rules text meta;
                       cs_threshold := cat_threshold meta;
                       cs_matchedTargets := List.map tg_id (fired_targets rules text (cat_id meta)) |})
       <$> pr_categories rules /\
     pe_modifiersApplied (evaluate rules text) = List.map md_id (fired_modifiers rules text)).
Proof.
  split; [apply evaluate_denies|]. intros Hb.
  rewrite evaluate_unfold; [done|]. apply eq_None_not_Some. by rewrite <-hard_blocked_spec.
Qed.

(** Context leniency is bounded: when every modifier weight is at most zero (as in
    rules.json), dropping the modifiers never allows more, and a text in which a suppressor
    fires is decided exactly as if there were no modifiers. *)
Lemma modifiers_only_mitigate rules text :
  Forall (fun m => md_weight m <= 0) (pr_modifiers rules) ->
  (pe_decision (evaluate rules text) = DENY ->
     pe_decision (evaluate (no_modifiers rules) text) = DENY) /\
  (fires text (pr_modifierSuppressors rules) = true ->
     pe_decision (evaluate rules text) = pe_decision (evaluate (no_modifiers rules) text)).
Proof.
  intros Hw.
  assert (Hz : zsum (List.map md_weight (fired_modifiers rules text)) <= 0).
  { unfold fired_modifiers. destruct (fires _ _); [done|]. induction Hw as [|m ms Hm _ IH]; simpl; [done|].
    destruct (fires _ _); simpl; lia. }
  assert (Hnm : fired_modifiers (no_modifiers rules) text = []).
  { unfold fired_modifiers. by destruct (fires _ _). }
  assert (Hs : forall meta, category_score rules text meta <= category_score (no_modifiers rules) text meta).
  { intros meta. unfold category_score. rewrite Hnm. cbn [no_modifiers pr_intentBonus
      pr_constructionBonus pr_intentPhrases pr_constructionVerbs].
    change (fired_targets (no_modifiers rules) text) with (fired_targets rules text).
    destruct (fired_targets rules text (cat_id meta)); [done|]. simpl zsum. lia. }
  split.
  - rewrite !evaluate_denies. intros [H|(meta & Hin & Ht)]; [by left|]. right. exists meta.
    split; [done|]. specialize (Hs meta). lia.
  - intros Hf. assert (Hm : fired_modifiers rules text = []) by (unfold fired_modifiers; by rewrite Hf).
    assert (Heq : forall meta, category_score rules text meta = category_score (no_modifiers rules) text meta).
    { intros meta. unfold category_score. by rewrite Hnm, Hm. }
    pose proof (evaluate_denies rules text) as H1. pose proof (evaluate_denies (no_modifiers rules) text) as H2.
    assert (Hd : denies rules text <-> denies (no_modifiers rules) text).
    { unfold denies. setoid_rewrite Heq. done. }
    destruct (pe_decision (evaluate rules text)), (pe_decision (evaluate (no_modifiers rules) text));
      try done; exfalso; [assert (ALLOW = DENY) as Hx by tauto|assert (ALLOW = DENY) as Hx by tauto]; done.
Qed.
End Policy.
