(* ===== verification/PolicyPackage.v ===== *)
(** * The policy package (packages/policy/src/index.ts)

    The manifest and the rules read from disk, their identity, and the module's cache.
    The bytes of the rules are the text itself, as strings are UTF-8. *)

From S2P Require Import Prelude JsNum Utf8 Json Unicode Canonical Types Crypto.
Local Open Scope Z_scope.

Record PolicyPackage : Type := {
  pp_manifest : jsval;
  pp_rules : jsval;
  pp_rulesBytes : string;
  pp_guestImageId : string;
  pp_policyId : string;
}.

Section package.
Context `{U : Unicode} `{C : Crypto}.
(** [String(n)] where [n] is not a safe integer. *)
Context (number_text : jsnum -> string).

Fixpoint canonical (v : jsval) : res unit string :=
  match v with
  | VNull => Ok "null"
  | VBool b => Ok (if b then "true" else "false")
  | VNum n => Ok (match safe_int n with Some z => num_to_string z | None => number_text n end)
  | VStr s => Ok (quote (nfc s))
  | VArr l => parts ← mapM_res canonical l; Ok (str_app ["["; str_join "," parts; "]"])
  | VObj o =>
      let entries := List.map (fun kv => (kv.1, (is_undef kv.2, canonical kv.2))) o in
      let keys := jsort key_cmp entries in
      parts ← mapM_res (fun e => s ← e.2.2; Ok (str_app [quote e.1; ":"; s])) (List.filter (fun e => negb e.2.1) keys);
      Ok (str_app ["{"; str_join "," parts; "}"])
  | VUndef => Err tt
  end.

(** [ctn-policy-v1-guest] and a zero byte *)
Definition guestPrefix : string := "ctn-policy-v1-guest" +:+ unchars [byte_of 0].
Definition guest_image_id (rulesBytes : string) : string := "0x" +:+ toHex (sha256 (guestPrefix +:+ rulesBytes)).
Definition policy_id (canonManifest rulesBytes guestImageId : string) : string :=
  "0x" +:+ toHex (sha256 (str_app [canonManifest; rulesBytes; guestImageId])).

(** The two files as they were read. *)
Definition read_package (manifestRaw rulesRaw : string) : option PolicyPackage :=
  manifest ← JSON_parse manifestRaw;
  rules ← JSON_parse rulesRaw;
  canonManifest ← to_option (canonical manifest);
  let guestImageId := guest_image_id rulesRaw in
  Some {| pp_manifest := manifest; pp_rules := rules; pp_rulesBytes := rulesRaw;
          pp_guestImageId := guestImageId; pp_policyId := policy_id canonManifest rulesRaw guestImageId |}.

(** [cached] is the state; [files] is what the directory holds, [None] where reading
    it throws. *)
Definition loadPolicyPackage (default_dir : bool) (files : option (string * string)) : SE (option PolicyPackage) unit PolicyPackage :=
  fun cached =>
    match cached, default_dir with
    | Some pkg, true => (cached, Ok pkg)
    | _, _ => match files ≫= fun f => read_package f.1 f.2 with
              | Some pkg => (if default_dir then Some pkg else cached, Ok pkg)
              | None => (cached, Err tt)
              end
    end.

(** ** Its canonical form is the protocol's *)
Lemma canonical_agrees v : forall t, canonicalJson v = Ok t -> canonical v = Ok t.
Proof.
  induction v as [| |b|n|t|l IH|o IH] using jsval_ind; intros t' Ht; simpl in *; try (by injection Ht as <-); try done.
  - destruct (safe_int n); [by injection Ht as <-|done].
  - apply res_bind_Ok in Ht as (parts & Hp & [= <-]). apply mapM_res_Ok in Hp.
    assert (Hq : mapM_res canonical l = Ok parts); [|by rewrite Hq].
    apply mapM_res_Ok. clear -IH Hp. induction Hp; inversion IH; subst; constructor; auto.
  - rewrite (jsort_map key_cmp) by done. rewrite (jsort_map key_cmp) in Ht by done.
    apply res_bind_Ok in Ht as (parts & Hp & [= <-]).
    assert (Hs : Forall (fun kv => forall t, canonicalJson kv.2 = Ok t -> canonical kv.2 = Ok t) (jsort key_cmp o)) by (by rewrite (jsort_perm key_cmp o)).
    match goal with |- (?m ≫= _) = _ => assert (Hq : m = Ok parts); [|by rewrite Hq] end. clear IH. revert parts Hp.
    induction Hs as [|[k v] l Hv _ IH]; intros parts Hp; simpl in *; [by injection Hp as <-|].
    destruct (is_undef v); simpl in *; [by apply IH|]. destruct (canonicalJson v) as [t|e]; [|done]. rewrite (Hv t eq_refl). cbn [mbind res_bind] in *.
    match type of Hp with match ?m with _ => _ end = _ => destruct m as [ps|e] eqn:Hps end; [|done]. injection Hp as <-. by rewrite (IH ps eq_refl).
Qed.

Lemma read_package_Some manifestRaw rulesRaw pkg : read_package manifestRaw rulesRaw = Some pkg ->
  exists m, canonical (pp_manifest pkg) = Ok m /\
    pkg = {| pp_manifest := pp_manifest pkg; pp_rules := pp_rules pkg; pp_rulesBytes := rulesRaw;
             pp_guestImageId := guest_image_id rulesRaw; pp_policyId := policy_id m rulesRaw (guest_image_id rulesRaw) |}.
Proof.
  intros (manifest & _ & (rules & _ & (m & Hm & [= <-])%bind_Some)%bind_Some)%bind_Some. exists m. split; [|done]. cbn.
  destruct (canonical manifest); [by injection Hm as ->|done].
Qed.

Context `{!CryptoOk C}.
Lemma toHex_length s : String.length (toHex s) = (2 * String.length s)%nat.
Proof. unfold toHex. rewrite <-!length_chars, chars_unchars. induction (chars s) as [|c l IH]; [done|]. change ((c :: l) ≫= hex_pair) with (hex_pair c ++ (l ≫= hex_pair)). rewrite length_app, IH. simpl. lia. Qed.
Lemma hex_id_inj x y : "0x" +:+ toHex (sha256 x) = "0x" +:+ toHex (sha256 y) -> x = y \/ collides x y.
Proof.
  intros H. apply (str_app_inj_r "0x" _ "0x") in H; [destruct H as [_ H%toHex_inj]; destruct (decide (x = y)); [by left|by right]|].
  by rewrite !toHex_length, !sha256_length.
Qed.

(** The identity of a package is its content. *)
Lemma policy_id_content m rb m' rb' :
  policy_id m rb (guest_image_id rb) = policy_id m' rb' (guest_image_id rb') ->
  (m = m' /\ rb = rb') \/ exists x y, collides x y.
Proof.
  intros [H|H]%hex_id_inj; [|right; eauto]. unfold str_app in H. cbn [foldr] in H. rewrite !str_app_nil, <-!str_app_assoc in H.
  apply str_app_inj_r in H as [Hmr Hg]; [|unfold guest_image_id; by rewrite !str_length_app, !toHex_length, !sha256_length].
  apply hex_id_inj in Hg as [Hg|Hg]; [|right; eauto]. apply (str_app_inj guestPrefix _ guestPrefix) in Hg as [_ ->]; [|done].
  apply str_app_inj_r in Hmr as [-> _]; [by left|done].
Qed.
End package.

(** C36. A policy id stands for a policy. Two packages with one id, wherever they were
    loaded, hold the same rules file and manifests with one canonical text, or exhibit a
    SHA-256 collision; that text is the protocol's canonical form of the manifest wherever
    the protocol has one; and from the first load on every load of the default directory
    returns the same package, whatever the files have become. *)
Theorem policy_package_binds `{U : Unicode} `{C : Crypto} `{!CryptoOk C} number_text d f c' pkg d' f' e' pkg' :
  loadPolicyPackage number_text d f None = (c', Ok pkg) -> loadPolicyPackage number_text d' f' None = (e', Ok pkg') ->
  (pp_policyId pkg = pp_policyId pkg' ->
     (pp_rulesBytes pkg = pp_rulesBytes pkg' /\ pp_guestImageId pkg = pp_guestImageId pkg' /\
      canonical number_text (pp_manifest pkg) = canonical number_text (pp_manifest pkg')) \/ exists x y, collides x y) /\
  (forall t, canonicalJson (pp_manifest pkg) = Ok t -> canonical number_text (pp_manifest pkg) = Ok t) /\
  (d = true -> forall later, loadPolicyPackage number_text true later c' = (c', Ok pkg)).
Proof.
  intros Hl Hl'. unfold loadPolicyPackage in *.
  destruct (f ≫= _) as [q|] eqn:Hf; [|done]. destruct (f' ≫= _) as [q'|] eqn:Hf'; [|done]. injection Hl as <- <-. injection Hl' as <- <-.
  apply bind_Some in Hf as ([mr rr] & -> & (m & Hm & Hq)%read_package_Some), Hf' as ([mr' rr'] & -> & (m' & Hm' & Hq')%read_package_Some). cbn [snd] in *.
  split; [|split; [apply canonical_agrees|by intros ->]].
  rewrite Hq, Hq'. cbn [pp_policyId pp_rulesBytes pp_guestImageId pp_manifest]. rewrite Hm, Hm'.
  intros [[-> ->]|Hx]%policy_id_content; [by left|by right].
Qed.

Definition ex_package_files : string * string :=
  (str_app ["{"; quote "name"; ": "; quote "Safety Policy"; ", "; quote "decisions"; ": ["; quote "ALLOW"; "]}"], str_app ["{"; quote "version"; ": 1}"]).
Lemma policy_package_binds_witness : exists pkg,
  loadPolicyPackage (fun _ => "") true (Some ex_package_files) None = (Some pkg, Ok pkg) /\
  canonical (fun _ => "") (pp_manifest pkg) = Ok (str_app ["{"; quote "decisions"; ":["; quote "ALLOW"; "],"; quote "name"; ":"; quote "Safety Policy"; "}"]) /\
  loadPolicyPackage (fun _ => "") true None (Some pkg) = (Some pkg, Ok pkg).
Proof.
  destruct (loadPolicyPackage (fun _ => "") true (Some ex_package_files) None) as [c r] eqn:E.
  destruct r as [pkg|e]; [|vm_compute in E; discriminate E]. exists pkg.
  destruct (policy_package_binds _ _ _ _ _ _ _ _ _ E E) as (_ & Hc & Hl).
  assert (Hk : c = Some pkg) by (vm_compute in E; injection E as <- <-; reflexivity). subst c.
  split; [reflexivity|]. split; [|exact (Hl eq_refl None)]. apply Hc. vm_compute in E. injection E as <-. vm_compute. reflexivity.
Defined.
