(* ===== verification/Authorize.v ===== *)
(** * The authorized states (services/tee-sim/src/authorize.ts)

    [AuthorizedRequest] and [AuthorizedCredential] are records that only the
    functions of this file build.  A candidate's capability is JSON supplied by
    the untrusted coordinator, so it is a [jsval] here. *)

From S2P Require Import Prelude JsNum Utf8 Json Unicode Canonical Types Crypto Policy.
Local Open Scope Z_scope.

(** What a handler of the enclave can throw, besides its own [GateError]. *)
Inductive Throw : Type :=
| ThrowCrypto (e : CryptoError)
| ThrowTypeError
| CommitmentMismatchError.

Definition lift_crypto {A} (r : res CryptoError A) : res Throw A :=
  match r with Ok a => Ok a | Err e => Err (ThrowCrypto e) end.
Definition lift_get {A} (o : option A) : res Throw A :=
  match o with Some a => Ok a | None => Err ThrowTypeError end.

Record AuthorizedRequest : Type := {
  ar_request : CanonicalRequestV1;
  ar_requestCommitment : string;
  ar_requestNonce : string;
  ar_policyId : string;
  ar_policyMs : Z;
}.

(** ALLOW carries the authorized request, DENY cannot. *)
Inductive GateResult : Type :=
| GateAllow (authorized : AuthorizedRequest) (commitment : string)
| GateDeny (commitment : string).

Definition gate_commitment (g : GateResult) : string :=
  match g with GateAllow _ c | GateDeny c => c end.
Definition gate_decision (g : GateResult) : PolicyDecision :=
  match g with GateAllow _ _ => ALLOW | GateDeny _ => DENY end.

Record AuthorizedCredential : Type := {
  ac_credentialId : string;
  ac_contributorId : string;
  ac_provider : string;
  ac_secret : string;
  ac_capability : jsval;
}.

Record CandidateRecord : Type := {
  cd_credentialId : string;
  cd_contributorId : string;
  cd_provider : string;
  cd_status : string;
  cd_encryptedBlob : string;
  cd_capability : jsval;
  cd_capabilitySignature : string;
}.

Inductive AuthorizationReason : Type :=
| not_enabled | provider_mismatch | model_not_allowed | policy_not_allowed
| capability_signature_invalid | capability_id_mismatch | blob_digest_mismatch
| blob_decrypt_failed.
#[export] Instance AuthorizationReason_eq_dec : EqDecision AuthorizationReason.
Proof. solve_decision. Defined.

Record AuthorizationFailure : Type := { af_credentialId : string; af_reason : AuthorizationReason }.

(** [v.includes(s)] for an array or a string; anything else has no such method. *)
Definition js_includes (v : jsval) (s : string) : option bool :=
  match v with
  | VArr l => Some (existsb (fun x => str_is x s) l)
  | VStr t => Some (str_includes s t)
  | _ => None
  end.

Section Authorize.
Context `{U : Unicode} `{C : Crypto}.

Definition request_commitment_of (request : CanonicalRequestV1) (requestNonce : string)
    : res Throw string :=
  bytes ← lift_crypto (lift_canon (canonicalBytes request));
  lift_crypto (requestCommitment bytes requestNonce).

Definition assertGuestCommitment (enclaveCommitment journalCommitment : string) : res Throw unit :=
  guard_ok (String.eqb enclaveCommitment journalCommitment) CommitmentMismatchError.

(** [AuthorizedRequest.evaluate], the Policy-Lab preview; [elapsed] is the rounded
    time the two calls took. *)
Definition evaluate_preview (request : CanonicalRequestV1) (requestNonce : string)
    (rules : PolicyRules) (pkgPolicyId : string) (elapsed : Z) : res Throw (GateResult * PolicyEvaluation) :=
  commitment ← request_commitment_of request requestNonce;
  let evaluation := evaluateRequest rules (cm_content <$> cr_messages request) in
  let policyMs := Z.max 1 elapsed in
  Ok (match pe_decision evaluation with
      | DENY => GateDeny commitment
      | ALLOW => GateAllow {| ar_request := request; ar_requestCommitment := commitment;
                              ar_requestNonce := requestNonce; ar_policyId := pkgPolicyId;
                              ar_policyMs := policyMs |} commitment
      end, evaluation).

(** [AuthorizedRequest.fromGuestJournal] *)
Definition fromGuestJournal (request : CanonicalRequestV1) (requestNonce : string)
    (journalCommitment : string) (journalDecision : PolicyDecision) (journalPolicyId : string)
    (gateWallMs : Z) : res Throw GateResult :=
  commitment ← request_commitment_of request requestNonce;
  _ ← assertGuestCommitment commitment journalCommitment;
  Ok (match journalDecision with
      | ALLOW => GateAllow {| ar_request := request; ar_requestCommitment := commitment;
                              ar_requestNonce := requestNonce; ar_policyId := journalPolicyId;
                              ar_policyMs := gateWallMs |} commitment
      | DENY => GateDeny commitment
      end).

(** [witness()] *)
Definition witness (a : AuthorizedRequest) : res Throw (string * string) :=
  text ← lift_crypto (lift_canon (canonicalJson (request_val (ar_request a))));
  Ok (text, ar_requestNonce a).

(** [authorizeCandidate]; [decryptBlob] throws on [None]. *)
Definition authorizeCandidate (candidate : CandidateRecord) (authorized : AuthorizedRequest)
    (enclaveSigningPublicKey : string) (decryptBlob : string -> option string)
    : res Throw (AuthorizationFailure + AuthorizedCredential) :=
  let fail r := Ok (inl {| af_credentialId := cd_credentialId candidate; af_reason := r |}) in
  let cap := cd_capability candidate in
  if negb (String.eqb (cd_status candidate) "ACTIVE") then fail not_enabled else
  sig_ok ← lift_crypto (verifyCanonical cap (cd_capabilitySignature candidate) enclaveSigningPublicKey);
  if negb sig_ok then fail capability_signature_invalid else
  capId ← lift_get (js_get cap "credentialId");
  capContributor ← lift_get (js_get cap "contributorId");
  if negb (str_is capId (cd_credentialId candidate)) || negb (str_is capContributor (cd_contributorId candidate))
  then fail capability_id_mismatch else
  blobDigest ← lift_get (js_get cap "blobDigest");
  if negb (str_is blobDigest ("0x" +:+ sha256Hex (cd_encryptedBlob candidate)))
  then fail blob_digest_mismatch else
  provider ← lift_get (js_get cap "provider");
  if negb (str_is provider (cd_provider candidate)) then fail provider_mismatch else
  models ← lift_get (js_get cap "allowedModels");
  model_ok ← lift_get (js_includes models (cr_model (ar_request authorized)));
  if negb model_ok then fail model_not_allowed else
  policies ← lift_get (js_get cap "allowedPolicyIds");
  policy_ok ← lift_get (js_includes policies (ar_policyId authorized));
  if negb policy_ok then fail policy_not_allowed else
  match decryptBlob (cd_encryptedBlob candidate) with
  | None => fail blob_decrypt_failed
  | Some secret =>
      Ok (inr {| ac_credentialId := cd_credentialId candidate;
                 (* from the signed capability; the check above made them equal *)
                 ac_contributorId := default "" (as_str capContributor);
                 ac_provider := cd_provider candidate;
                 ac_secret := secret; ac_capability := cap |})
  end.

(** ** Soundness *)

(** Everything that must hold of a candidate before its key is used. *)
Definition cleared (candidate : CandidateRecord) (authorized : AuthorizedRequest) (pk : string) : Prop :=
  let cap := cd_capability candidate in
  cd_status candidate = "ACTIVE" /\
  verifyCanonical cap (cd_capabilitySignature candidate) pk = Ok true /\
  js_get cap "credentialId" = Some (VStr (cd_credentialId candidate)) /\
  js_get cap "contributorId" = Some (VStr (cd_contributorId candidate)) /\
  js_get cap "blobDigest" = Some (VStr ("0x" +:+ sha256Hex (cd_encryptedBlob candidate))) /\
  js_get cap "provider" = Some (VStr (cd_provider candidate)) /\
  (js_get cap "allowedModels" ≫= fun v => js_includes v (cr_model (ar_request authorized))) = Some true /\
  (js_get cap "allowedPolicyIds" ≫= fun v => js_includes v (ar_policyId authorized)) = Some true.

Lemma str_is_true v s : str_is v s = true <-> v = VStr s.
Proof. destruct v; simpl; rewrite ?bool_decide_eq_true; split; intros; try congruence; by simplify_eq. Qed.

Lemma lift_get_Ok {A} (o : option A) a : lift_get o = Ok a <-> o = Some a.
Proof. destruct o; simpl; split; intros; congruence. Qed.
Lemma lift_crypto_Ok {A} (r : res CryptoError A) a : lift_crypto r = Ok a <-> r = Ok a.
Proof. destruct r; simpl; split; intros; congruence. Qed.

Lemma authorizeCandidate_iff candidate authorized pk dec cred :
  authorizeCandidate candidate authorized pk dec = Ok (inr cred) <->
  cleared candidate authorized pk /\
  exists secret, dec (cd_encryptedBlob candidate) = Some secret /\
    cred = {| ac_credentialId := cd_credentialId candidate;
              ac_contributorId := cd_contributorId candidate;
              ac_provider := cd_provider candidate;
              ac_secret := secret; ac_capability := cd_capability candidate |}.
Proof.
  unfold authorizeCandidate, cleared. split.
  - intros H. destruct (String.eqb_spec (cd_status candidate) "ACTIVE") as [Ha|]; [|done]. cbn [negb] in H.
    apply res_bind_Ok in H as (sg & Hs%lift_crypto_Ok & H). destruct sg; [|done]. cbn [negb] in H.
    apply res_bind_Ok in H as (v1 & H1%lift_get_Ok & H). apply res_bind_Ok in H as (v2 & H2%lift_get_Ok & H).
    destruct (str_is v1 _ ) eqn:E1; [|done]. destruct (str_is v2 _) eqn:E2; [|done]. cbn [negb orb] in H.
    apply res_bind_Ok in H as (v3 & H3%lift_get_Ok & H). destruct (str_is v3 _) eqn:E3; [|done]. cbn [negb] in H.
    apply res_bind_Ok in H as (v4 & H4%lift_get_Ok & H). destruct (str_is v4 _) eqn:E4; [|done]. cbn [negb] in H.
    apply res_bind_Ok in H as (v5 & H5%lift_get_Ok & H). apply res_bind_Ok in H as (b5 & E5%lift_get_Ok & H).
    destruct b5; [|done]. cbn [negb] in H.
    apply res_bind_Ok in H as (v6 & H6%lift_get_Ok & H). apply res_bind_Ok in H as (b6 & E6%lift_get_Ok & H).
    destruct b6; [|done]. cbn [negb] in H. apply str_is_true in E1, E2, E3, E4. subst.
    destruct (dec _) as [secret|]; [|done]. injection H as <-. simpl in *.
    rewrite H1, H2, H3, H4, H5, H6. split_and!; try done. eauto.
  - intros ((Ha & Hs & H1 & H2 & H3 & H4 & H5 & H6) & secret & Hd & ->).
    rewrite (proj2 (String.eqb_eq _ _) Ha), Hs. cbn [negb lift_crypto mbind res_bind].
    rewrite H1, H2, H3, H4. cbn [lift_get mbind res_bind].
    rewrite !(proj2 (str_is_true _ _) eq_refl). cbn [negb orb].
    apply bind_Some in H5 as (v5 & -> & H5). apply bind_Some in H6 as (v6 & -> & H6).
    cbn [lift_get mbind res_bind]. rewrite H5. cbn [lift_get mbind res_bind negb]. rewrite H6.
    cbn [lift_get mbind res_bind negb]. rewrite Hd. done.
Qed.

(** C9. No check can be skipped and no key substituted: a credential is minted exactly when
    the candidate is active, its capability verifies under the enclave's key and names this
    credential, contributor, provider, ciphertext, model and policy, and the ciphertext
    decrypts; the attribution is the signed one, and two different ciphertexts are never both
    accepted under one capability unless their SHA-256 digests collide. *)
Theorem authorizeCandidate_sound candidate authorized pk dec cred :
  (authorizeCandidate candidate authorized pk dec = Ok (inr cred) <->
   cleared candidate authorized pk /\
   exists secret, dec (cd_encryptedBlob candidate) = Some secret /\
    cred = {| ac_credentialId := cd_credentialId candidate;
              ac_contributorId := cd_contributorId candidate;
              ac_provider := cd_provider candidate;
              ac_secret := secret; ac_capability := cd_capability candidate |}) /\
  (forall candidate' authorized' cred',
     authorizeCandidate candidate authorized pk dec = Ok (inr cred) ->
     authorizeCandidate candidate' authorized' pk dec = Ok (inr cred') ->
     cd_capability candidate' = cd_capability candidate ->
     (ac_contributorId cred' = ac_contributorId cred /\ ac_secret cred' = ac_secret cred /\
      ac_provider cred' = ac_provider cred)
     \/ collides (cd_encryptedBlob candidate) (cd_encryptedBlob candidate')).
Proof.
  split; [apply authorizeCandidate_iff|].
  intros c' a' cred' ((_ & _ & _ & H2 & H3 & H4 & _) & secret & Hd & ->)%authorizeCandidate_iff
    ((_ & _ & _ & H2' & H3' & H4' & _) & secret' & Hd' & ->)%authorizeCandidate_iff E.
  rewrite E in *. simpl. rewrite H2 in H2'. rewrite H3 in H3'. rewrite H4 in H4'.
  injection H2' as H2'. injection H4' as H4'. injection H3' as H3'.
  apply toHex_inj in H3'.
  destruct (decide (cd_encryptedBlob candidate = cd_encryptedBlob c')) as [Eb|Nb].
  - left. rewrite Eb, Hd' in Hd. injection Hd as ->. done.
  - right. done.
Qed.

(** ** Capabilities the enclave signed *)

(** The outcome in terms of the typed capability. *)
Definition authorize_minted (candidate : CandidateRecord) (cap : CredentialCapability)
    (authorized : AuthorizedRequest) (dec : string -> option string)
    : AuthorizationReason + string :=
  if negb (bool_decide (cd_status candidate = "ACTIVE")) then inl not_enabled
  else if negb (bool_decide (cap_credentialId cap = cd_credentialId candidate)
                && bool_decide (cap_contributorId cap = cd_contributorId candidate))
  then inl capability_id_mismatch
  else if negb (bool_decide (cap_blobDigest cap = "0x" +:+ sha256Hex (cd_encryptedBlob candidate)))
  then inl blob_digest_mismatch
  else if negb (bool_decide (provider_str (cap_provider cap) = cd_provider candidate))
  then inl provider_mismatch
  else if negb (bool_decide (cr_model (ar_request authorized) ∈ cap_allowedModels cap))
  then inl model_not_allowed
  else if negb (bool_decide (ar_policyId authorized ∈ cap_allowedPolicyIds cap))
  then inl policy_not_allowed
  else match dec (cd_encryptedBlob candidate) with
       | None => inl blob_decrypt_failed
       | Some secret => inr secret
       end.

Lemma includes_strs l s : js_includes (strs_val l) s = Some (bool_decide (s ∈ l)).
Proof.
  cbn [js_includes strs_val]. f_equal. induction l as [|x l IH]; [done|].
  rewrite fmap_cons. cbn [existsb str_is]. rewrite IH.
  apply eq_true_iff_eq. rewrite orb_true_iff, !bool_decide_eq_true. set_solver.
Qed.

Definition outcome_reason (r : AuthorizationFailure + AuthorizedCredential) : AuthorizationReason + string :=
  match r with inl f => inl (af_reason f) | inr c => inr (ac_secret c) end.

(** ** The verdict of the guest *)
Definition preimage_of_request (r : CanonicalRequestV1) (n : string) : option string :=
  match canonicalBytes r with
  | Ok b => to_option (commitment_preimage b n)
  | Err _ => None
  end.

Lemma request_commitment_of_Ok r n c :
  request_commitment_of r n = Ok c ->
  exists b, canonicalBytes r = Ok b /\ digest_of (DRequest b n) = Ok c.
Proof.
  unfold request_commitment_of. intros (b & Hb & H)%res_bind_Ok.
  apply lift_crypto_Ok, lift_canon_Ok in Hb. apply lift_crypto_Ok in H. eauto.
Qed.

(** The determinism guard: the enclave acts on the guest's verdict only for the request
    the guest evaluated.  If the journal's commitment is that of some validated request and
    nonce, then the verdict is returned for exactly that request and nonce (or two explicit
    byte strings collide under SHA-256), an authorized request exists exactly when the
    verdict is ALLOW, and it carries this request, its commitment and the guest's policy id. *)
Lemma fromGuestJournal_binds `{!UnicodeOk U} r n r' n' jc d pol ms g :
  request_ok r -> request_ok r' ->
  request_commitment_of r' n' = Ok jc -> fromGuestJournal r n jc d pol ms = Ok g ->
  gate_commitment g = jc /\ gate_decision g = d /\
  (forall a c, g = GateAllow a c -> ar_request a = r /\ ar_requestCommitment a = jc /\
     ar_requestNonce a = n /\ ar_policyId a = pol) /\
  ((r = r' /\ fromHex n = fromHex n') \/
   exists x y, preimage_of_request r n = Some x /\ preimage_of_request r' n' = Some y /\ collides x y).
Proof.
  intros Hr Hr' Hj. unfold fromGuestJournal. intros (c & Hc & H)%res_bind_Ok.
  apply res_bind_Ok in H as (u & Hu & [= <-]). apply guard_ok_Ok, String.eqb_eq in Hu. subst c.
  split; [by destruct d|]. split; [by destruct d|]. split; [by destruct d; intros ?? [= <- <-]|].
  apply request_commitment_of_Ok in Hj as (b' & Hb' & Hd').
  apply request_commitment_of_Ok in Hc as (b & Hb & Hd).
  destruct (digest_preimage _ _ Hd) as (x & Hx & _). destruct (digest_preimage _ _ Hd') as (y & Hy & _).
  destruct (digest_inj _ _ _ x y Hx Hy Hd Hd') as [->|Hcol].
  - left. pose proof (preimage_same _ _ _ Hx Hy) as [-> Hn]. split; [|done].
    by eapply canonicalBytes_inj.
  - right. exists x, y. unfold preimage_of_request. rewrite Hb, Hb'.
    cbn [preimage_of] in Hx, Hy. by rewrite Hx, Hy.
Qed.

Context `{!CryptoOk C}.

(** On a capability the enclave itself signed, authorization never throws and its outcome
    is that of the ordered list of checks on the typed capability: each refusal reason is
    returned exactly in its case, and an honest candidate of the right model and policy
    yields the decrypted secret. *)
Lemma authorizeCandidate_minted candidate cap authorized key sig dec :
  cd_capability candidate = capability_val cap ->
  signCanonical (capability_val cap) key = Ok sig -> cd_capabilitySignature candidate = sig ->
  exists r, authorizeCandidate candidate authorized (toHex (ed_public key)) dec = Ok r /\
    outcome_reason r = authorize_minted candidate cap authorized dec.
Proof.
  intros Hc Hs Hsig. unfold authorizeCandidate, authorize_minted. rewrite Hc, Hsig.
  destruct (String.eqb_spec (cd_status candidate) "ACTIVE") as [Ha|Ha].
  2: { rewrite bool_decide_eq_false_2 by done. eexists. split; done. }
  rewrite bool_decide_eq_true_2 by done. apply signCanonical_verify in Hs. rewrite Hs.
  cbn [negb lift_crypto lift_get mbind res_bind js_get capability_val obj_get String.eqb Ascii.eqb Bool.eqb
       str_is orb andb].
  rewrite !includes_strs. cbn [lift_get mbind res_bind].
  repeat match goal with
  | |- context [bool_decide ?P] => destruct (bool_decide_reflect P); cbn [negb orb andb]
  end; try (eexists; split; done).
  destruct (dec _); eexists; split; done.
Qed.
End Authorize.

(** ** Examples *)
Definition ex_blob : string := "blob".
Definition ex_capability : CredentialCapability := {|
  cap_credentialId := "cred_1"; cap_provider := mock; cap_allowedModels := ["m"];
  cap_allowedPolicyIds := ["p"]; cap_contributorId := "u"; cap_createdAt := 5; cap_version := 1;
  cap_blobDigest := "0x" +:+ sha256Hex ex_blob; cap_intentDigest := "0x00" |}.
Definition ex_signature : string :=
  match signCanonical (capability_val ex_capability) "key" with Ok s => s | Err _ => "" end.
Definition ex_candidate : CandidateRecord := {|
  cd_credentialId := "cred_1"; cd_contributorId := "u"; cd_provider := "mock"; cd_status := "ACTIVE";
  cd_encryptedBlob := ex_blob; cd_capability := capability_val ex_capability;
  cd_capabilitySignature := ex_signature |}.
Definition ex_authorized : AuthorizedRequest := {|
  ar_request := ex_request; ar_requestCommitment := "c"; ar_requestNonce := ex_nonce;
  ar_policyId := "p"; ar_policyMs := 1 |}.

Lemma authorizeCandidate_minted_witness :
  exists r, authorizeCandidate ex_candidate ex_authorized (toHex (ed_public "key")) Some = Ok r /\
    outcome_reason r = authorize_minted ex_candidate ex_capability ex_authorized Some.
Proof.
  eapply (authorizeCandidate_minted ex_candidate ex_capability ex_authorized "key" ex_signature).
  - reflexivity.
  - vm_compute. reflexivity.
  - reflexivity.
Defined.
