(* ===== verification/Pricing.v ===== *)
(** * Catalog and pricing (services/tee-sim/src/catalog.ts, pricing.ts)

    Costs are JavaScript numbers: products and sums of token counts and prices are
    rounded to doubles and the quotient is rounded up by [Math.ceil].
    [estimateCost_exact] shows the result is the integer ceiling anyway. *)

From S2P Require Import Prelude JsNum Utf8 Json Unicode Canonical Types Crypto.
From Stdlib Require Import QArith Qround Lqa.
Local Open Scope Z_scope.

(** ** Catalog *)
Definition MODEL_CATALOG : list (Provider * list string) := [
  (anthropic, ["claude-haiku-4-5-20251001"; "claude-sonnet-4-5-20250929"]);
  (openai, ["gpt-4o-mini-2024-07-18"; "gpt-4o-2024-08-06"]);
  (mock, ["ctn/demo-model-a"; "ctn/demo-model-b"; "ctn/demo-model-fast"])].

Definition catalog_models (p : Provider) : list string :=
  match p with
  | anthropic => ["claude-haiku-4-5-20251001"; "claude-sonnet-4-5-20250929"]
  | openai => ["gpt-4o-mini-2024-07-18"; "gpt-4o-2024-08-06"]
  | mock => ["ctn/demo-model-a"; "ctn/demo-model-b"; "ctn/demo-model-fast"]
  end.

(** ** The price table *)
Record ModelPrice : Type := { inMicroUsdPerMTok : Z; outMicroUsdPerMTok : Z }.

Definition PRICING_TABLE : list (string * ModelPrice) := [
  ("claude-haiku-4-5-20251001", {| inMicroUsdPerMTok := 1000000; outMicroUsdPerMTok := 5000000 |});
  ("claude-sonnet-4-5-20250929", {| inMicroUsdPerMTok := 3000000; outMicroUsdPerMTok := 15000000 |});
  ("gpt-4o-mini-2024-07-18", {| inMicroUsdPerMTok := 150000; outMicroUsdPerMTok := 600000 |});
  ("gpt-4o-2024-08-06", {| inMicroUsdPerMTok := 2500000; outMicroUsdPerMTok := 10000000 |});
  ("ctn/demo-model-a", {| inMicroUsdPerMTok := 150000; outMicroUsdPerMTok := 600000 |});
  ("ctn/demo-model-b", {| inMicroUsdPerMTok := 2500000; outMicroUsdPerMTok := 10000000 |});
  ("ctn/demo-model-fast", {| inMicroUsdPerMTok := 50000; outMicroUsdPerMTok := 200000 |})].

(** [PRICING_TABLE[model]] also finds what an object inherits. *)
Definition object_prototype : list string :=
  ["constructor"; "__defineGetter__"; "__defineSetter__"; "hasOwnProperty"; "__lookupGetter__";
   "__lookupSetter__"; "isPrototypeOf"; "propertyIsEnumerable"; "toString"; "valueOf";
   "__proto__"; "toLocaleString"].

Inductive table_entry : Type :=
| Own (p : ModelPrice)
| Inherited.     (* an object or function without the two prices *)

Fixpoint table_get (t : list (string * ModelPrice)) (model : string) : option table_entry :=
  match t with
  | [] => if bool_decide (model ∈ object_prototype) then Some Inherited else None
  | (m, p) :: t => if String.eqb model m then Some (Own p) else table_get t model
  end.

Definition isPriced (model : string) : bool := bool_decide (is_Some (table_get PRICING_TABLE model)).

(** [UnpricedModelError] *)
Inductive PricingError : Type := UnpricedModelError (model : string).

Definition price (model : string) : res PricingError table_entry :=
  match table_get PRICING_TABLE model with
  | Some e => Ok e
  | None => Err (UnpricedModelError model)
  end.

Definition assertPriced (model : string) : res PricingError unit :=
  _ ← price model; Ok tt.

(** [Math.ceil((a * pin + b * pout) / 1_000_000)] *)
Definition cost (e : table_entry) (a b : Z) : jsnum :=
  match e with
  | Own p =>
      jnum (js_ceil (js_div (js_add (js_mul (inject_Z a) (inject_Z (inMicroUsdPerMTok p)))
                                    (js_mul (inject_Z b) (inject_Z (outMicroUsdPerMTok p))))
                            (inject_Z 1000000)))
  | Inherited => NaN      (* arithmetic on [undefined] *)
  end.

Definition estimateCostMicroUsd (model : string) (inTok outTok : Z) : res PricingError jsnum :=
  p ← price model; Ok (cost p inTok outTok).

Definition prompt_tok_bound (contents : list string) : Z :=
  zsum (blen <$> contents) + 16 * Z.of_nat (length contents) + 16.

Definition estimateWorstCaseMicroUsd (model : string) (contents : list string) (maxTokens : Z)
    : res PricingError jsnum :=
  p ← price model; Ok (cost p (prompt_tok_bound contents) maxTokens).

Definition price_val (p : ModelPrice) : jsval :=
  VObj [("inMicroUsdPerMTok", vint (inMicroUsdPerMTok p)); ("outMicroUsdPerMTok", vint (outMicroUsdPerMTok p))].
Definition pricing_table_val : jsval :=
  VObj ((fun kp => (kp.1, price_val kp.2)) <$> PRICING_TABLE).

Section digest.
Context `{U : Unicode} `{C : Crypto}.
Definition PRICING_TABLE_DIGEST : string :=
  "0x" +:+ match canonicalHash pricing_table_val with Ok h => h | Err _ => "" end.
End digest.

(** ** The rounding does not show *)
Definition ceil_div (a b : Z) : Z := - ((- a) / b).

Lemma Qceiling_div a b : 0 < b -> Qceiling (inject_Z a / inject_Z b) = ceil_div a b.
Proof.
  intros Hb. unfold Qceiling, ceil_div. f_equal.
  assert ((- (inject_Z a / inject_Z b) == inject_Z (- a) / inject_Z b)%Q) as E.
  { unfold Qdiv. rewrite inject_Z_opp. ring. }
  rewrite (Qfloor_comp _ _ E). rewrite <-Zdiv_Qdiv. done.
Qed.

Lemma ceil_div_spec a b : 0 < b -> b * (ceil_div a b - 1) < a <= b * ceil_div a b.
Proof. intros Hb. unfold ceil_div. Z.div_mod_to_equations. nia. Qed.

Lemma ceil_div_mono a a' b : 0 < b -> a <= a' -> ceil_div a b <= ceil_div a' b.
Proof. intros Hb Ha. pose proof (ceil_div_spec a b Hb). pose proof (ceil_div_spec a' b Hb). nia. Qed.

Lemma rnd_zero : rnd (inject_Z 0 / inject_Z 1000000) = 0%Q.
Proof. vm_compute. reflexivity. Qed.

(** Dividing a safe integer by a million and rounding up. *)
Lemma ceil_million T :
  0 <= T <= MAX_SAFE -> js_ceil (js_div (inject_Z T) (inject_Z 1000000)) = ceil_div T 1000000.
Proof.
  intros HT. unfold js_ceil, js_div. destruct (Z.eq_dec T 0) as [->|Hn].
  { rewrite rnd_zero. vm_compute. reflexivity. }
  rewrite <-(Qceiling_div T 1000000) by lia.
  set (q := (inject_Z T / inject_Z 1000000)%Q).
  assert (Hq : (q == inject_Z T * (1 # 1000000))%Q) by (unfold q, Qdiv; reflexivity).
  assert (H1 : (1 <= inject_Z T)%Q) by (change 1%Q with (inject_Z 1); rewrite <-Zle_Qle; lia).
  assert (H2 : (inject_Z T <= inject_Z MAX_SAFE)%Q) by (rewrite <-Zle_Qle; lia).
  change (inject_Z MAX_SAFE) with (9007199254740991#1)%Q in H2.
  apply rnd_ceil_exact.
  - rewrite Hq. lra.
  - apply (Qle_trans _ (1 # 1000000)); [done|]. rewrite Hq. lra.
  - change (Qpower 2 53) with (9007199254740992#1)%Q. rewrite Hq. lra.
  - fold q. set (N := Qceiling q). assert (HN : N = ceil_div T 1000000) by (by apply Qceiling_div).
    pose proof (ceil_div_spec T 1000000) as Hs. rewrite <-HN in Hs.
    assert (Hz : (inject_Z (N - 1) * 1000000 + 1 <= inject_Z T)%Q).
    { change 1000000%Q with (inject_Z 1000000). rewrite <-inject_Z_mult.
      change 1%Q with (inject_Z 1). rewrite <-inject_Z_plus, <-Zle_Qle. lia. }
    change (Qpower 2 (-53)) with (1#9007199254740992)%Q. rewrite Hq. lra.
Qed.

Lemma safe_mul a b : 0 <= a -> 0 <= b -> a * b <= MAX_SAFE -> js_mul (inject_Z a) (inject_Z b) = inject_Z (a * b).
Proof.
  intros Ha Hb H. unfold js_mul. assert (E : (inject_Z a * inject_Z b)%Q = inject_Z (a * b)) by done.
  rewrite E. apply rnd_int. nia.
Qed.

Lemma safe_add a b : 0 <= a -> 0 <= b -> a + b <= MAX_SAFE -> js_add (inject_Z a) (inject_Z b) = inject_Z (a + b).
Proof.
  intros Ha Hb H. unfold js_add. assert (E : (inject_Z a + inject_Z b)%Q = inject_Z (a + b)).
  { unfold Qplus, inject_Z; simpl. f_equal. lia. }
  rewrite E. apply rnd_int. lia.
Qed.

Definition exact_total (p : ModelPrice) (a b : Z) : Z :=
  a * inMicroUsdPerMTok p + b * outMicroUsdPerMTok p.

Lemma cost_exact p a b :
  0 <= inMicroUsdPerMTok p -> 0 <= outMicroUsdPerMTok p -> 0 <= a -> 0 <= b ->
  exact_total p a b <= MAX_SAFE ->
  cost (Own p) a b = jnum (ceil_div (exact_total p a b) 1000000).
Proof.
  intros Hi Ho Ha Hb HT. unfold cost, exact_total in *.
  rewrite !safe_mul, safe_add by nia. by rewrite ceil_million by nia.
Qed.

Lemma table_prices model p :
  price model = Ok (Own p) -> 0 <= inMicroUsdPerMTok p <= 3000000 /\ 0 <= outMicroUsdPerMTok p <= 15000000.
Proof.
  unfold price. simpl.
  repeat match goal with |- context [String.eqb model ?m] => destruct (String.eqb model m) end;
    try (intros [= <-]; simpl; lia).
  by case_bool_decide.
Qed.

(** C37. Cost estimates are exact integers: for every price of the table, as long as the exact
    weighted total is a safe integer, the floating-point expression of [estimateCostMicroUsd]
    is the integer ceiling of total / 1,000,000, and a token count within the byte-based
    prompt bound and the output limit never costs more than the worst-case estimate. *)
Theorem estimateCost_exact model p inTok outTok contents maxTokens :
  price model = Ok (Own p) -> 0 <= inTok <= prompt_tok_bound contents -> 0 <= outTok <= maxTokens ->
  exact_total p (prompt_tok_bound contents) maxTokens <= MAX_SAFE ->
  exists c w,
    estimateCostMicroUsd model inTok outTok = Ok (jnum c) /\
    estimateWorstCaseMicroUsd model contents maxTokens = Ok (jnum w) /\
    c = ceil_div (exact_total p inTok outTok) 1000000 /\
    w = ceil_div (exact_total p (prompt_tok_bound contents) maxTokens) 1000000 /\
    0 <= c <= w.
Proof.
  intros Hp Hin Hout HT. pose proof (table_prices model p Hp) as [Hpi Hpo].
  assert (Hle : exact_total p inTok outTok <= exact_total p (prompt_tok_bound contents) maxTokens)
    by (unfold exact_total; nia).
  assert (H0 : 0 <= exact_total p inTok outTok) by (unfold exact_total; nia).
  unfold estimateCostMicroUsd, estimateWorstCaseMicroUsd. rewrite Hp. cbn [mbind res_bind].
  rewrite !cost_exact by lia. eexists _, _. split_and!; try done.
  - pose proof (ceil_div_spec (exact_total p inTok outTok) 1000000). lia.
  - by apply ceil_div_mono.
Qed.

Lemma estimateCost_exact_witness : exists c w,
    estimateCostMicroUsd "gpt-4o-2024-08-06" 3 7 = Ok (jnum c) /\
    estimateWorstCaseMicroUsd "gpt-4o-2024-08-06" ["hello"] 10 = Ok (jnum w) /\
    c = ceil_div (exact_total {| inMicroUsdPerMTok := 2500000; outMicroUsdPerMTok := 10000000 |} 3 7) 1000000 /\
    w = ceil_div (exact_total {| inMicroUsdPerMTok := 2500000; outMicroUsdPerMTok := 10000000 |}
                    (prompt_tok_bound ["hello"]) 10) 1000000 /\
    0 <= c <= w.
Proof.
  apply estimateCost_exact.
  - vm_compute. reflexivity.
  - vm_compute. split; discriminate.
  - lia.
  - vm_compute. discriminate.
Defined.

(** Inherited names count as priced, at the price NaN. *)
Lemma isPriced_prototype :
  isPriced "constructor" = true /\ estimateCostMicroUsd "constructor" 1 1 = Ok NaN.
Proof. vm_compute. done. Qed.

(** The catalog only lists priced models. *)
Lemma catalog_priced p m : m ∈ catalog_models p -> exists pr, price m = Ok (Own pr).
Proof.
  intros H. destruct p; simpl in H;
    repeat (apply elem_of_cons in H as [->|H]; [vm_compute; eauto|]); by apply elem_of_nil in H.
Qed.

Lemma catalog_entries p : (p, catalog_models p) ∈ MODEL_CATALOG.
Proof. destruct p; vm_compute; repeat constructor. Qed.
