(* ===== verification/Providers.v ===== *)
(** * Provider adapters and egress (services/tee-sim/src/providers.ts)

    [complete] returns the outcome together with the list of HTTP requests that
    left the enclave.  [fetch] (what the network answers), [parse_url] (the WHATWG
    parser) and the elapsed milliseconds are inputs; everything else is the code. *)

From S2P Require Import Prelude JsNum Utf8 Json Unicode Canonical Types Crypto Policy Authorize Pricing.
Local Open Scope Z_scope.

Inductive classification : Type :=
| auth_failed | rate_limited | server_error | timeout | egress_denied
| redirect_refused | malformed_response | unpriced_model.
#[export] Instance classification_eq_dec : EqDecision classification.
Proof. solve_decision. Defined.

Record ProviderResponse : Type := {
  rs_content : string;
  rs_inputTokens : Z;
  rs_outputTokens : Z;
  rs_estimatedCostMicroUsd : jsnum;
  rs_pricingTableDigest : string;
  rs_upstreamRequestHash : string;
  rs_upstreamResponseHash : string;
  rs_httpStatus : Z;
  rs_latencyMs : Z;
}.

Record ProviderFailure : Type := {
  pf_httpStatus : Z;
  pf_latencyMs : Z;
  pf_classification : classification;
  pf_upstreamOutcomeUnknown : bool;
  pf_assumedSpendMicroUsd : option jsnum;
}.

Inductive ProviderOutcome : Type :=
| POk (r : ProviderResponse)
| PFail (f : ProviderFailure).

(** ** The network *)
Record http_call : Type := { hc_url : string; hc_headers : list (string * string); hc_body : string }.
Inductive fetch_result : Type :=
| FetchThrows (aborted : bool)
| FetchResponse (status : Z) (json : option jsval).   (* [None]: [res.json()] rejects *)

Class Url := {
  (** protocol, hostname and port of [new URL(url)]; [None] when it throws *)
  parse_url : string -> option (string * string * string);
}.

Definition default_allowlist : list string := ["api.openai.com:443"; "api.anthropic.com:443"].

(** [CTN_EGRESS_ALLOWLIST.split(",").map(trim).filter(Boolean)] *)
Definition allowlist (env : string) : list string :=
  default_allowlist ++
  List.filter (fun s => negb (str_empty s))
    (List.map (fun w => encode (trim w)) (split_on 44 (points env))).

Section egress.
Context `{W : Url}.
Definition egress_target (url : string) : option string :=
  match parse_url url with
  | None => None
  | Some (protocol, hostname, port) =>
      let port := if str_empty port then (if String.eqb protocol "https:" then "443" else "80") else port in
      Some (str_app [hostname; ":"; port])
  end.
(** [false] is the thrown [EgressDeniedError]. *)
Definition assertEgressAllowed (env url : string) : bool :=
  match egress_target url with
  | None => false
  | Some target => bool_decide (target ∈ allowlist env)
  end.
End egress.

(** ** Wire bodies *)
Definition json_fields (fs : list (string * string)) : string :=
  str_app ["{"; str_join "," ((fun kv => str_app [quote kv.1; ":"; kv.2]) <$> fs); "}"].
Definition json_array (xs : list string) : string := str_app ["["; str_join "," xs; "]"].

(** [String(millis / 1000)] for [0 <= millis <= 2000]: at most three decimals. *)
Definition millis_text (t : Z) : string :=
  let f := t mod 1000 in
  let ip := num_to_string (t / 1000) in
  let digits ds := unchars (digit_char <$> ds) in
  if f =? 0 then ip
  else if f mod 100 =? 0 then str_app [ip; "."; digits [f / 100]]
  else if f mod 10 =? 0 then str_app [ip; "."; digits [f / 100; f / 10 mod 10]]
  else str_app [ip; "."; digits [f / 100; f / 10 mod 10; f mod 10]].

Definition message_json (m : CanonicalMessage) : string :=
  json_fields [("role", quote (role_str (cm_role m))); ("content", quote (cm_content m))].

Definition openai_body (r : CanonicalRequestV1) : string :=
  json_fields [("model", quote (cr_model r));
               ("messages", json_array (message_json <$> cr_messages r));
               ("temperature", millis_text (cr_temperature_millis r));
               ("max_tokens", num_to_string (cr_max_tokens r))].

Definition ANTHROPIC_MAX_TEMPERATURE : Z := 1.
Definition ANTHROPIC_MAX_OUTPUT_TOKENS : Z := 64000.

Definition anthropic_system (r : CanonicalRequestV1) : string :=
  str_join newline (cm_content <$> filter (fun m => cm_role m = system) (cr_messages r)).

Definition anthropic_body (r : CanonicalRequestV1) : string :=
  let sys := anthropic_system r in
  json_fields
    ([("model", quote (cr_model r));
      ("max_tokens", num_to_string (Z.min (cr_max_tokens r) ANTHROPIC_MAX_OUTPUT_TOKENS))]
     ++ (if str_empty sys then [] else [("system", quote sys)]) ++
     [("messages", json_array (message_json <$> filter (fun m => cm_role m <> system) (cr_messages r)));
      ("temperature", millis_text (Z.min (cr_temperature_millis r) (ANTHROPIC_MAX_TEMPERATURE * 1000)))]).

(** ** Reading responses *)
Definition validUsage (n : jsval) : option Z :=
  match n with
  | VNum x => match safe_int x with
              | Some z => if 0 <=? z then Some z else None
              | None => None
              end
  | _ => None
  end.

(** [v?.[0]] *)
Definition js_first (v : jsval) : jsval :=
  match v with
  | VArr (x :: _) => x
  | VObj o => obj_get o "0"
  | VStr s => match points s with c :: _ => VStr (encode (take_units 1 [c])) | [] => VUndef end
  | _ => VUndef
  end.

(** Content and token counts: [Err] is the TypeError of [json] being null,
    [Ok None] a response that is not accounted for. *)
Definition openai_parse (json : jsval) : res unit (option (string * Z * Z)) :=
  match js_get json "choices", js_get json "usage" with
  | Some choices, Some usage =>
      let content := js_get_opt (js_get_opt (js_first choices) "message") "content" in
      match as_str content, validUsage (js_get_opt usage "prompt_tokens"),
            validUsage (js_get_opt usage "completion_tokens") with
      | Some c, Some i, Some o => Ok (Some (c, i, o))
      | _, _, _ => Ok None
      end
  | _, _ => Err tt
  end.

Fixpoint anthropic_blocks (bs : list jsval) (out : string) : option string :=
  match bs with
  | [] => Some out
  | b :: bs =>
      match b with
      | VObj _ | VArr _ =>
          match js_get_opt b "type", js_get_opt b "text" with
          | VStr type, text =>
              if negb (String.eqb type "text") then anthropic_blocks bs out
              else match text with
                   | VStr t => anthropic_blocks bs (out +:+ t)
                   | _ => None
                   end
          | _, _ => None
          end
      | _ => None
      end
  end.
Definition anthropicText (blocks : jsval) : option string :=
  match blocks with VArr bs => anthropic_blocks bs "" | _ => None end.

Definition anthropic_parse (json : jsval) : res unit (option (string * Z * Z)) :=
  match js_get json "usage", js_get json "content" with
  | Some usage, Some content =>
      match anthropicText content, validUsage (js_get_opt usage "input_tokens"),
            validUsage (js_get_opt usage "output_tokens") with
      | Some c, Some i, Some o => Ok (Some (c, i, o))
      | _, _, _ => Ok None
      end
  | _, _ => Err tt
  end.

(** ** The adapters *)
Definition error_classification (status : Z) : classification :=
  if (status =? 401) || (status =? 403) then auth_failed
  else if status =? 429 then rate_limited
  else server_error.

Section adapters.
Context `{U : Unicode} `{C : Crypto} `{W : Url}.
Context (env_allowlist : string) (fetch : http_call -> fetch_result) (latencyMs : Z).

Definition unknownOutcome (request : AuthorizedRequest) (c : classification)
    : res PricingError ProviderOutcome :=
  let r := ar_request request in
  w ← estimateWorstCaseMicroUsd (cr_model r) (cm_content <$> cr_messages r) (cr_max_tokens r);
  Ok (PFail {| pf_httpStatus := 0; pf_latencyMs := latencyMs; pf_classification := c;
               pf_upstreamOutcomeUnknown := true; pf_assumedSpendMicroUsd := Some w |}).

Definition known_failure (status : Z) (c : classification) : ProviderOutcome :=
  PFail {| pf_httpStatus := status; pf_latencyMs := latencyMs; pf_classification := c;
           pf_upstreamOutcomeUnknown := false; pf_assumedSpendMicroUsd := None |}.

Definition response_val (content : string) (inputTokens outputTokens : Z) : jsval :=
  VObj [("content", VStr content); ("inputTokens", vint inputTokens); ("outputTokens", vint outputTokens)].

(** The success value; [Err] stands for any exception of the two computations. *)
Definition accounted (model content : string) (i o status : Z) (bodyJson : string)
    : res unit ProviderOutcome :=
  match estimateCostMicroUsd model i o, canonicalHash (response_val content i o) with
  | Ok c, Ok h =>
      Ok (POk {| rs_content := content; rs_inputTokens := i; rs_outputTokens := o;
                 rs_estimatedCostMicroUsd := c; rs_pricingTableDigest := PRICING_TABLE_DIGEST;
                 rs_upstreamRequestHash := "0x" +:+ sha256Hex bodyJson;
                 rs_upstreamResponseHash := "0x" +:+ h;
                 rs_httpStatus := status; rs_latencyMs := latencyMs |})
  | _, _ => Err tt
  end.

(** The body of the [try] after [fetch] answered, with its [catch]. *)
Definition read_response (parse : jsval -> res unit (option (string * Z * Z)))
    (request : AuthorizedRequest) (bodyJson : string) (answer : fetch_result)
    : res PricingError ProviderOutcome :=
  match answer with
  | FetchThrows aborted => unknownOutcome request (if aborted then timeout else server_error)
  | FetchResponse status json =>
      if (300 <=? status) && (status <? 400) then Ok (known_failure status redirect_refused)
      else if negb ((200 <=? status) && (status <=? 299))
      then Ok (known_failure status (error_classification status))
      else match json with
           | None => unknownOutcome request malformed_response
           | Some j =>
               match parse j with
               | Err _ => unknownOutcome request server_error
               | Ok None => unknownOutcome request malformed_response
               | Ok (Some (content, i, o)) =>
                   match accounted (cr_model (ar_request request)) content i o status bodyJson with
                   | Ok r => Ok r
                   | Err _ => unknownOutcome request server_error
                   end
               end
           end
  end.

Definition run_complete (url : string) (headers : list (string * string)) (bodyJson : string)
    (parse : jsval -> res unit (option (string * Z * Z))) (request : AuthorizedRequest)
    : list http_call * res PricingError ProviderOutcome :=
  if negb (is_ok (assertPriced (cr_model (ar_request request))))
  then ([], Ok (known_failure 0 unpriced_model))
  else if negb (assertEgressAllowed env_allowlist url)
  then ([], Ok (known_failure 0 egress_denied))
  else
    let call := {| hc_url := url; hc_headers := headers; hc_body := bodyJson |} in
    ([call], read_response parse request bodyJson (fetch call)).

Definition openai_complete (baseUrl : string) (request : AuthorizedRequest)
    (credential : AuthorizedCredential) : list http_call * res PricingError ProviderOutcome :=
  run_complete (baseUrl +:+ "/v1/chat/completions")
    [("content-type", "application/json"); ("authorization", "Bearer " +:+ ac_secret credential)]
    (openai_body (ar_request request)) openai_parse request.

Definition anthropic_complete (baseUrl : string) (request : AuthorizedRequest)
    (credential : AuthorizedCredential) : list http_call * res PricingError ProviderOutcome :=
  run_complete (baseUrl +:+ "/v1/messages")
    [("content-type", "application/json"); ("x-api-key", ac_secret credential);
     ("anthropic-version", "2023-06-01")]
    (anthropic_body (ar_request request)) anthropic_parse request.
End adapters.

(** ** The registry *)
Record ProviderAdapter : Type := { ad_baseUrl : string; ad_anthropic : bool; ad_models : list string }.

Definition supportsModel (a : ProviderAdapter) (model : string) : bool :=
  bool_decide (model ∈ ad_models a) && isPriced model.

Definition buildRegistry (mockUrl : string) : list (string * ProviderAdapter) := [
  ("mock", {| ad_baseUrl := mockUrl; ad_anthropic := false; ad_models := catalog_models mock |});
  ("openai", {| ad_baseUrl := "https://api.openai.com"; ad_anthropic := false; ad_models := catalog_models openai |});
  ("anthropic", {| ad_baseUrl := "https://api.anthropic.com"; ad_anthropic := true; ad_models := catalog_models anthropic |})].

Fixpoint registry_get (r : list (string * ProviderAdapter)) (provider : string) : option ProviderAdapter :=
  match r with
  | [] => None
  | (k, a) :: r => if String.eqb provider k then Some a else registry_get r provider
  end.

Definition complete `{Unicode} `{Crypto} `{Url} (env : string) (fetch : http_call -> fetch_result) (lat : Z)
    (a : ProviderAdapter) (request : AuthorizedRequest) (credential : AuthorizedCredential)
    : list http_call * res PricingError ProviderOutcome :=
  if ad_anthropic a then anthropic_complete env fetch lat (ad_baseUrl a) request credential
  else openai_complete env fetch lat (ad_baseUrl a) request credential.

(** ** What an outcome says about the network *)
Definition PRE_DISPATCH_CLASSIFICATIONS : list classification := [egress_denied; unpriced_model].

Definition wire_body (a : ProviderAdapter) (r : CanonicalRequestV1) : string :=
  if ad_anthropic a then anthropic_body r else openai_body r.
Definition wire_parse (a : ProviderAdapter) : jsval -> res unit (option (string * Z * Z)) :=
  if ad_anthropic a then anthropic_parse else openai_parse.

(** Where a request goes and what authenticates it. *)
Definition wire_url (a : ProviderAdapter) : string :=
  ad_baseUrl a +:+ (if ad_anthropic a then "/v1/messages" else "/v1/chat/completions").
Definition wire_headers (a : ProviderAdapter) (secret : string) : list (string * string) :=
  ("content-type", "application/json") ::
  (if ad_anthropic a then [("x-api-key", secret); ("anthropic-version", "2023-06-01")]
   else [("authorization", "Bearer " +:+ secret)]).

Section outcomes.
Context `{U : Unicode} `{C : Crypto} `{W : Url}.
Context (env : string) (fetch : http_call -> fetch_result) (lat : Z).

Lemma assertPriced_isPriced m : is_ok (assertPriced m) = isPriced m.
Proof. unfold assertPriced, isPriced, price. by destruct (table_get PRICING_TABLE m). Qed.

Lemma worst_case_priced m cs k :
  isPriced m = true -> exists w, estimateWorstCaseMicroUsd m cs k = Ok w.
Proof.
  unfold isPriced, estimateWorstCaseMicroUsd, price. case_bool_decide as H; [|done]. intros _.
  destruct H as [e ->]. by eexists.
Qed.

Definition worst_case (request : AuthorizedRequest) : res PricingError jsnum :=
  estimateWorstCaseMicroUsd (cr_model (ar_request request))
    (cm_content <$> cr_messages (ar_request request)) (cr_max_tokens (ar_request request)).

(** An outcome reached after the bytes left. *)
Definition dispatched_outcome (request : AuthorizedRequest) (answer : fetch_result) (o : ProviderOutcome) : Prop :=
  match o with
  | POk r => exists status j, answer = FetchResponse status (Some j) /\ 200 <= status <= 299 /\
               rs_httpStatus r = status /\ 0 <= rs_inputTokens r <= MAX_SAFE /\ 0 <= rs_outputTokens r <= MAX_SAFE /\
               estimateCostMicroUsd (cr_model (ar_request request)) (rs_inputTokens r) (rs_outputTokens r)
                 = Ok (rs_estimatedCostMicroUsd r)
  | PFail f => pf_classification f ∉ PRE_DISPATCH_CLASSIFICATIONS /\
      ((pf_upstreamOutcomeUnknown f = true /\ pf_httpStatus f = 0 /\
        (exists w, worst_case request = Ok w /\ pf_assumedSpendMicroUsd f = Some w) /\
        ((exists ab, answer = FetchThrows ab) \/
         exists status j, answer = FetchResponse status j /\ 200 <= status <= 299))
       \/
       (pf_upstreamOutcomeUnknown f = false /\ pf_assumedSpendMicroUsd f = None /\
        exists status j, answer = FetchResponse status j /\ ~ 200 <= status <= 299 /\
          pf_httpStatus f = status))
  end.

Definition usage_sound (parse : jsval -> res unit (option (string * Z * Z))) : Prop :=
  forall j c i o, parse j = Ok (Some (c, i, o)) -> 0 <= i <= MAX_SAFE /\ 0 <= o <= MAX_SAFE.

Lemma validUsage_range v z : validUsage v = Some z -> 0 <= z <= MAX_SAFE.
Proof.
  unfold validUsage. intros H. case_in H. bool_prop. pose proof (safe_int_bound _ _ E). lia.
Qed.

Lemma openai_usage : usage_sound openai_parse.
Proof.
  intros j c i o H. unfold openai_parse in H. case_in H. split; by eapply validUsage_range.
Qed.
Lemma anthropic_usage : usage_sound anthropic_parse.
Proof.
  intros j c i o H. unfold anthropic_parse in H. case_in H. split; by eapply validUsage_range.
Qed.

Lemma unknownOutcome_Ok request c w :
  worst_case request = Ok w ->
  unknownOutcome lat request c =
    Ok (PFail {| pf_httpStatus := 0; pf_latencyMs := lat; pf_classification := c;
                 pf_upstreamOutcomeUnknown := true; pf_assumedSpendMicroUsd := Some w |}).
Proof. unfold worst_case, unknownOutcome. by intros ->. Qed.

Lemma accounted_Ok model content i o status body r :
  accounted lat model content i o status body = Ok r ->
  exists p, r = POk p /\ rs_content p = content /\ rs_inputTokens p = i /\ rs_outputTokens p = o /\
    rs_httpStatus p = status /\ estimateCostMicroUsd model i o = Ok (rs_estimatedCostMicroUsd p).
Proof. unfold accounted. intros H. case_in H. eexists. by split_and!. Qed.

Lemma read_response_spec parse request body answer :
  usage_sound parse -> isPriced (cr_model (ar_request request)) = true ->
  exists o, read_response lat parse request body answer = Ok o /\ dispatched_outcome request answer o.
Proof.
  intros Hp Hm.
  destruct (worst_case_priced _ (cm_content <$> cr_messages (ar_request request))
              (cr_max_tokens (ar_request request)) Hm) as [w Hw].
  pose proof (fun c => unknownOutcome_Ok request c w Hw) as Hu.
  assert (Hun : forall c, c ∉ PRE_DISPATCH_CLASSIFICATIONS ->
    ((exists ab, answer = FetchThrows ab) \/
         exists status j, answer = FetchResponse status j /\ 200 <= status <= 299) ->
    exists o, unknownOutcome lat request c = Ok o /\ dispatched_outcome request answer o).
  { intros c Hc Ha. rewrite Hu. eexists. split; [done|]. simpl. split; [done|]. left.
    split_and!; [done|done| |exact Ha]. exists w. split; [exact Hw|done]. }
  unfold read_response. destruct answer as [ab|status json].
  - apply Hun; [destruct ab; set_solver|eauto].
  - destruct (Z.leb_spec 300 status) as [H3|H3], (Z.ltb_spec status 400) as [H4|H4]; cbn [andb].
    1: { eexists; split; [done|]. simpl. split; [set_solver|]. right. split_and!; try done.
         exists status, json. split_and!; [done|lia|done]. }
    all: destruct (Z.leb_spec 200 status) as [H5|H5], (Z.leb_spec status 299) as [H6|H6]; try lia; cbn [andb negb].
    all: try (eexists; split; [done|]; simpl; split;
              [unfold error_classification; repeat case_goal; set_solver|];
              right; split_and!; try done; exists status, json; split_and!; [done|lia|done]).
    assert (Hr : (exists ab, FetchResponse status json = FetchThrows ab) \/
         exists s j, FetchResponse status json = FetchResponse s j /\ 200 <= s <= 299) by (right; eauto).
    destruct json as [j|]; [|apply Hun; [set_solver|done]].
    destruct (parse j) as [[[[c i] o]|]|] eqn:Ej; [|apply Hun; [set_solver|done]..].
    destruct (accounted _ _ _ _ _ _ _) as [r|] eqn:Ea; [|apply Hun; [set_solver|done]].
    exists r. split; [done|]. apply accounted_Ok in Ea as (p & -> & _ & <- & <- & Hs & Hc).
    apply Hp in Ej. simpl. exists status, j. split_and!; try done; lia.
Qed.

Lemma complete_run a request credential :
  complete env fetch lat a request credential =
    run_complete env fetch lat (wire_url a) (wire_headers a (ac_secret credential)) (wire_body a (ar_request request)) (wire_parse a) request.
Proof. unfold complete, wire_url, wire_headers, wire_body, wire_parse. by destruct (ad_anthropic a). Qed.

Lemma wire_parse_usage a : usage_sound (wire_parse a).
Proof. unfold wire_parse. destruct (ad_anthropic a); [apply anthropic_usage|apply openai_usage]. Qed.

(** Every adapter call returns an outcome (it never rejects), and the outcome tells the
    truth about the network: the two pre-dispatch classifications mean that nothing left the
    enclave and nothing is assumed spent, every other outcome follows exactly one request,
    to the provider's endpoint, which is allowlisted, with the credential's own key in
    the headers and a body that does not depend on it; unknown
    outcomes carry the worst-case spend, definite HTTP errors their status, and successes are
    2xx responses billed by the price table. *)
Lemma complete_dispatch a request credential :
  exists calls o, complete env fetch lat a request credential = (calls, Ok o) /\
    ((calls = [] /\ exists c, c ∈ PRE_DISPATCH_CLASSIFICATIONS /\ o = known_failure lat 0 c) \/
     (exists call target, calls = [call] /\
        hc_url call = wire_url a /\ egress_target (hc_url call) = Some target /\ target ∈ allowlist env /\
        hc_headers call = wire_headers a (ac_secret credential) /\ hc_body call = wire_body a (ar_request request) /\
        isPriced (cr_model (ar_request request)) = true /\
        dispatched_outcome request (fetch call) o)).
Proof.
  rewrite complete_run. set (url := wire_url a). set (hdrs := wire_headers a (ac_secret credential)). unfold run_complete.
  rewrite assertPriced_isPriced. destruct (isPriced _) eqn:Hm; cbn [negb].
  2: { eexists _, _. split; [done|]. left. split; [done|]. exists unpriced_model. split; [set_solver|done]. }
  destruct (assertEgressAllowed env url) eqn:He; cbn [negb].
  2: { eexists _, _. split; [done|]. left. split; [done|]. exists egress_denied. split; [set_solver|done]. }
  set (call := {| hc_url := url; hc_headers := hdrs; hc_body := wire_body a (ar_request request) |}).
  destruct (read_response_spec (wire_parse a) request (wire_body a (ar_request request)) (fetch call))
    as (o & Ho & Hd); [apply wire_parse_usage|done|].
  unfold assertEgressAllowed in He. destruct (egress_target url) as [target|] eqn:Et; [|done].
  apply bool_decide_eq_true in He.
  eexists [call], o. rewrite Ho. split; [done|]. right. exists call, target. split_and!; done.
Qed.

(** A well-formed 2xx is a success: when the adapter dispatches and the provider answers
    with text and two non-negative safe token counts, the outcome is that text and those
    counts, with the hash of the exact bytes sent, whatever the credential. *)
Lemma complete_accounts a request credential call status j c i o :
  (complete env fetch lat a request credential).1 = [call] ->
  fetch call = FetchResponse status (Some j) -> 200 <= status <= 299 ->
  wire_parse a j = Ok (Some (c, i, o)) ->
  exists r, (complete env fetch lat a request credential).2 = Ok (POk r) /\
    rs_content r = c /\ rs_inputTokens r = i /\ rs_outputTokens r = o /\
    rs_upstreamRequestHash r = "0x" +:+ sha256Hex (hc_body call).
Proof.
  rewrite complete_run. set (url := wire_url a). set (hdrs := wire_headers a (ac_secret credential)). unfold run_complete.
  rewrite assertPriced_isPriced. destruct (isPriced _) eqn:Hm; [|done]. cbn [negb].
  destruct (assertEgressAllowed env url); [|done]. cbn [negb fst snd]. intros [= <-] Hf Hs Hj.
  rewrite Hf. unfold read_response.
  rewrite (proj2 (Z.leb_gt 300 status)), (proj2 (Z.leb_le 200 status)), (proj2 (Z.leb_le status 299)) by lia.
  cbn [andb negb]. rewrite Hj. destruct (wire_parse_usage a _ _ _ _ Hj) as [Hi Ho].
  unfold accounted. unfold isPriced in Hm. apply bool_decide_eq_true in Hm as [e He].
  unfold estimateCostMicroUsd, price. rewrite He. cbn [mbind res_bind].
  assert (Hh : exists h, canonicalHash (response_val c i o) = Ok h).
  { unfold canonicalHash, response_val.
    pose proof (canonicalJson_vint i ltac:(lia)) as Ei. pose proof (canonicalJson_vint o ltac:(lia)) as Eo.
    assert (Hu : forall z, is_undef (vint z) = false) by done. revert Ei Eo Hu.
    generalize vint as vi. intros vi Ei Eo Hu. cbn -[cle]. rewrite Ei, Eo, !Hu.
    repeat (sort_keys; cbn -[cle]). eauto. }
  destruct Hh as [h ->]. eexists. split; [done|]. by split_and!.
Qed.
End outcomes.

(** ** Examples *)
#[export] Instance toy_url : Url := {|
  parse_url := fun url => if str_startswith "https://api.openai.com/" url
                          then Some ("https:", "api.openai.com", "") else None |}.

Definition ex_openai : ProviderAdapter := {|
  ad_baseUrl := "https://api.openai.com"; ad_anthropic := false; ad_models := catalog_models openai |}.
Definition ex_gpt_request : AuthorizedRequest := {|
  ar_request := {| cr_model := "gpt-4o-2024-08-06"; cr_messages := [{| cm_role := user; cm_content := "hi" |}];
                   cr_temperature_millis := 700; cr_max_tokens := 16 |};
  ar_requestCommitment := "c"; ar_requestNonce := "n"; ar_policyId := "p"; ar_policyMs := 1 |}.
Definition ex_credential : AuthorizedCredential := {|
  ac_credentialId := "cred_1"; ac_contributorId := "u"; ac_provider := "openai"; ac_secret := "sk";
  ac_capability := VNull |}.
Definition ex_json : jsval :=
  VObj [("choices", VArr [VObj [("message", VObj [("content", VStr "hello")])]]);
        ("usage", VObj [("prompt_tokens", vint 3); ("completion_tokens", vint 7)])].
Definition ex_fetch (c : http_call) : fetch_result := FetchResponse 200 (Some ex_json).
Definition ex_call : http_call := {|
  hc_url := "https://api.openai.com/v1/chat/completions";
  hc_headers := [("content-type", "application/json"); ("authorization", "Bearer sk")];
  hc_body := openai_body (ar_request ex_gpt_request) |}.

Lemma complete_accounts_witness :
  exists r, (complete "" ex_fetch 12 ex_openai ex_gpt_request ex_credential).2 = Ok (POk r) /\
    rs_content r = "hello" /\ rs_inputTokens r = 3 /\ rs_outputTokens r = 7 /\
    rs_upstreamRequestHash r = "0x" +:+ sha256Hex (hc_body ex_call).
Proof.
  apply (complete_accounts "" ex_fetch 12 ex_openai ex_gpt_request ex_credential ex_call 200 ex_json).
  - vm_compute. reflexivity.
  - reflexivity.
  - lia.
  - vm_compute. reflexivity.
Defined.
