(* ===== verification/Intent.v ===== *)
(** * The sealed intent (services/tee-sim/src/intent.ts)

    [parseIntent] turns the decrypted bytes into a typed intent or one of the
    errors of the source, in its order; [intent_ok] is the schema it enforces and
    [deriveCapability] the only way from an intent to a capability. *)

From S2P Require Import Prelude JsNum Utf8 Json Unicode Canonical Types Crypto Policy Authorize Pricing Providers.
Local Open Scope Z_scope.

Inductive InvalidIntentError : Type :=
| IntentNotJson | IntentNotObject | IntentFields | IntentVersion | IntentCredentialId
| IntentSecret | IntentProvider | IntentModels | IntentPolicies | IntentContributor | IntentNonceBad.

Definition INTENT_KEYS : list string :=
  ["allowedModels"; "allowedPolicies"; "contributorId"; "credentialId"; "intentNonce";
   "provider"; "secret"; "version"].
Definition SUPPORTED_POLICIES : list string := ["safety-v1"].
Definition MAX_MODELS : nat := 8.
Definition MAX_ID_LENGTH : Z := 64.

(** [\[0-9a-f\]{n}] over a whole string *)
Definition hex_lower (c : Ascii.ascii) : bool :=
  let b := code c in (48 <=? b) && (b <=? 57) || (97 <=? b) && (b <=? 102).
Definition hex_lower_n (n : nat) (l : list Ascii.ascii) : bool :=
  Nat.eqb (length l) n && forallb hex_lower l.

Definition credential_id_ok (s : string) : bool :=
  str_startswith "cred_" s && hex_lower_n 12 (drop 5 (chars s)).

Definition str_trim (s : string) : string := encode (trim (points s)).
Definition secret_ok (s : string) : bool :=
  let t := trim (points s) in (8 <=? points_length t) && negb (existsb js_space t).

Definition provider_of (s : string) : option Provider :=
  if String.eqb s "anthropic" then Some anthropic
  else if String.eqb s "openai" then Some openai
  else if String.eqb s "mock" then Some mock
  else None.

(** An array of strings that all pass, without repetition. *)
Definition unique_strings (test : string -> bool) (l : list jsval) : option (list string) :=
  ss ← mapM as_str l;
  if forallb test ss && bool_decide (NoDup ss) then Some ss else None.

Definition parseIntentValue (parsed : jsval) : res InvalidIntentError CredentialIntentV1 :=
  match parsed with
  | VObj o =>
      let get k := obj_get o k in
      _ ← guard_ok (bool_decide (jsort js_compare o.*1 = INTENT_KEYS)) IntentFields;
      _ ← guard_ok (match get "version" with VNum n => num_is n 1 | _ => false end) IntentVersion;
      credentialId ← match get "credentialId" with
                     | VStr s => if credential_id_ok s then Ok s else Err IntentCredentialId
                     | _ => Err IntentCredentialId
                     end;
      secret ← match get "secret" with
               | VStr s => if secret_ok s then Ok s else Err IntentSecret
               | _ => Err IntentSecret
               end;
      provider ← match get "provider" with
                 | VStr s => match provider_of s with Some p => Ok p | None => Err IntentProvider end
                 | _ => Err IntentProvider
                 end;
      models ← match get "allowedModels" with
               | VArr [] => Err IntentModels
               | VArr l =>
                   if Nat.ltb MAX_MODELS (length l) then Err IntentModels
                   else match unique_strings (fun m => bool_decide (m ∈ catalog_models provider)) l with
                        | Some ss => Ok ss
                        | None => Err IntentModels
                        end
               | _ => Err IntentModels
               end;
      policies ← match get "allowedPolicies" with
                 | VArr [] => Err IntentPolicies
                 | VArr l => match unique_strings (fun p => bool_decide (p ∈ SUPPORTED_POLICIES)) l with
                             | Some ss => Ok ss
                             | None => Err IntentPolicies
                             end
                 | _ => Err IntentPolicies
                 end;
      contributorId ← match get "contributorId" with
                      | VStr s => if (1 <=? js_length s) && (js_length s <=? MAX_ID_LENGTH)
                                  then Ok s else Err IntentContributor
                      | _ => Err IntentContributor
                      end;
      intentNonce ← match get "intentNonce" with
                    | VStr s => if hex_lower_n 64 (chars s) then Ok s else Err IntentNonceBad
                    | _ => Err IntentNonceBad
                    end;
      Ok {| ci_credentialId := credentialId; ci_secret := str_trim secret; ci_provider := provider;
            ci_allowedModels := models; ci_allowedPolicies := policies;
            ci_contributorId := contributorId; ci_intentNonce := intentNonce |}
  | _ => Err IntentNotObject
  end.

Definition parseIntent (plaintext : string) : res InvalidIntentError CredentialIntentV1 :=
  match JSON_parse (text_decode plaintext) with
  | None => Err IntentNotJson
  | Some parsed => parseIntentValue parsed
  end.

Section derive.
Context `{U : Unicode} `{C : Crypto}.

Definition deriveCapability (intent : CredentialIntentV1) (blobDigest : string)
    (resolvePolicyId : string -> string) (now : Z) : res CryptoError CredentialCapability :=
  digest ← intentDigest intent;
  Ok {| cap_credentialId := ci_credentialId intent;
        cap_provider := ci_provider intent;
        cap_allowedModels := jsort js_compare (ci_allowedModels intent);
        cap_allowedPolicyIds := resolvePolicyId <$> ci_allowedPolicies intent;
        cap_contributorId := ci_contributorId intent;
        cap_createdAt := now;
        cap_version := 1;
        cap_blobDigest := blobDigest;
        cap_intentDigest := digest |}.
End derive.

(** ** The schema *)
Record intent_ok (i : CredentialIntentV1) : Prop := {
  io_id : credential_id_ok (ci_credentialId i) = true;
  io_secret : secret_ok (ci_secret i) = true;
  io_models_ne : ci_allowedModels i <> [];
  io_models_max : (length (ci_allowedModels i) <= MAX_MODELS)%nat;
  io_models : Forall (fun m => m ∈ catalog_models (ci_provider i)) (ci_allowedModels i);
  io_models_nodup : NoDup (ci_allowedModels i);
  io_policies : ci_allowedPolicies i = ["safety-v1"];
  io_contributor : 1 <= js_length (ci_contributorId i) <= MAX_ID_LENGTH;
  io_nonce : hex_lower_n 64 (chars (ci_intentNonce i)) = true;
}.

(** The object the browser seals. *)
Definition intent_val (i : CredentialIntentV1) : jsval :=
  VObj [("version", vint 1); ("credentialId", VStr (ci_credentialId i)); ("secret", VStr (ci_secret i));
        ("provider", VStr (provider_str (ci_provider i))); ("allowedModels", strs_val (ci_allowedModels i));
        ("allowedPolicies", strs_val (ci_allowedPolicies i)); ("contributorId", VStr (ci_contributorId i));
        ("intentNonce", VStr (ci_intentNonce i))].

Lemma mapM_as_str l ss : mapM as_str l = Some ss <-> l = VStr <$> ss.
Proof.
  revert ss. induction l as [|v l IH]; intros ss; simpl.
  - split; [by intros [= <-]|]. destruct ss; [done|discriminate].
  - split.
    + intros H. apply bind_Some in H as (s & Hs & H). apply bind_Some in H as (ss' & Hss & [= <-]).
      destruct v; try discriminate. injection Hs as ->. apply IH in Hss as ->. done.
    + destruct ss as [|s ss]; [discriminate|]. intros [= -> E]. apply IH in E. rewrite E. done.
Qed.

Lemma unique_strings_Some test l ss :
  unique_strings test l = Some ss <-> l = VStr <$> ss /\ forallb test ss = true /\ NoDup ss.
Proof.
  unfold unique_strings. rewrite bind_Some. split.
  - intros (ss' & Hm%mapM_as_str & H). destruct (forallb test ss') eqn:Ef; [|done].
    case_bool_decide; [|done]. by injection H as <-.
  - intros (-> & Hf & Hn). exists ss. rewrite (proj2 (mapM_as_str _ _) eq_refl), Hf.
    by rewrite bool_decide_eq_true_2.
Qed.

Lemma nodup_safety_v1 ss :
  ss <> [] -> forallb (fun p => bool_decide (p ∈ SUPPORTED_POLICIES)) ss = true -> NoDup ss ->
  ss = ["safety-v1"].
Proof.
  intros Hne Hf Hn. rewrite forallb_forall in Hf.
  assert (Hall : forall x, x ∈ ss -> x = "safety-v1").
  { intros x Hx%list_elem_of_In. specialize (Hf x Hx). apply bool_decide_eq_true in Hf.
    unfold SUPPORTED_POLICIES in Hf. set_solver. }
  destruct ss as [|a [|b ss]]; [done|f_equal; apply Hall; by left|].
  exfalso. inv Hn. assert (a = b) as -> by (rewrite (Hall a), (Hall b); set_solver). set_solver.
Qed.

(** What is left after trimming is trimmed, when it has no inner space. *)
Lemma trim_start_nospace l : existsb js_space l = false -> trim_start l = l.
Proof. destruct l as [|c l]; [done|]. simpl. by intros [-> _]%orb_false_iff. Qed.

Lemma existsb_rev {A} (f : A -> bool) l : existsb f (rev l) = existsb f l.
Proof.
  induction l as [|x l IH]; [done|]. simpl. rewrite existsb_app, IH. simpl.
  rewrite orb_false_r. apply orb_comm.
Qed.

Lemma trim_nospace l : existsb js_space l = false -> trim l = l.
Proof.
  intros H. unfold trim. rewrite (trim_start_nospace l) by done.
  rewrite (trim_start_nospace (rev l)) by (by rewrite existsb_rev). apply rev_involutive.
Qed.

Lemma Forall_trim_start {P : Z -> Prop} l : Forall P l -> Forall P (trim_start l).
Proof. induction 1 as [|c l Hc Hl IH]; simpl; [done|]. destruct (js_space c); [done|]. by constructor. Qed.
Lemma Forall_rev {P : Z -> Prop} l : Forall P l -> Forall P (rev l).
Proof. rewrite !List.Forall_forall. intros H x Hx%in_rev. auto. Qed.
Lemma Forall_trim {P : Z -> Prop} l : Forall P l -> Forall P (trim l).
Proof. intros H. by apply Forall_rev, Forall_trim_start, Forall_rev, Forall_trim_start. Qed.

Lemma points_str_trim s : points (str_trim s) = trim (points s).
Proof. unfold str_trim. apply points_encode, Forall_trim, points_scalar. Qed.

Lemma secret_ok_trim s : secret_ok s = true -> secret_ok (str_trim s) = true.
Proof.
  unfold secret_ok. rewrite points_str_trim. intros [H1 H2]%andb_true_iff.
  rewrite trim_nospace by by apply negb_true_iff. by rewrite H1, H2.
Qed.

Lemma provider_of_str p : provider_of (provider_str p) = Some p.
Proof. by destruct p. Qed.

Lemma parseIntentValue_ok v i : parseIntentValue v = Ok i -> intent_ok i.
Proof.
  unfold parseIntentValue. destruct v as [| | | | | |o]; try discriminate. intros H.
  repeat (let x := fresh "x" in let Hx := fresh "Hx" in apply res_bind_Ok in H as (x & Hx & H)).
  injection H as <-. clear Hx Hx0. case_in Hx1. case_in Hx2. case_in Hx3.
  assert (Hm : exists l, x4 <> [] /\ (length l <= MAX_MODELS)%nat /\
    unique_strings (fun m => bool_decide (m ∈ catalog_models x3)) l = Some x4).
  { destruct (obj_get o "allowedModels") as [| | | | |[|a l]|]; try discriminate.
    destruct (Nat.ltb_spec MAX_MODELS (length (a :: l))) as [|Hl]; [discriminate|].
    destruct (unique_strings _ _) as [ss|] eqn:Eu; [|discriminate]. injection Hx4 as <-.
    exists (a :: l). split; [|split; [lia|done]].
    apply unique_strings_Some in Eu as (El & _). by destruct ss. }
  destruct Hm as (l & Hne & Hl & (-> & Hf & Hn)%unique_strings_Some).
  assert (Hp : x5 = ["safety-v1"]).
  { destruct (obj_get o "allowedPolicies") as [| | | | |[|a l']|]; try discriminate.
    destruct (unique_strings _ _) as [ss|] eqn:Eu; [|discriminate]. injection Hx5 as <-.
    apply unique_strings_Some in Eu as (El & Hfp & Hnp). apply nodup_safety_v1; [|done..]. by destruct ss. }
  subst x5. clear Hx4 Hx5. case_in Hx6. case_in Hx7. bool_prop.
  split; simpl; try done.
  - by apply secret_ok_trim.
  - by rewrite length_fmap in Hl.
  - apply Forall_forall. intros m Hin%list_elem_of_In. rewrite forallb_forall in Hf.
    specialize (Hf m Hin). by apply bool_decide_eq_true in Hf.
Qed.

Lemma parseIntentValue_complete i :
  intent_ok i -> str_trim (ci_secret i) = ci_secret i -> parseIntentValue (intent_val i) = Ok i.
Proof.
  intros [H1 H2 H3 H4 H5 H6 H7 H8 H9] Ht. unfold parseIntentValue, intent_val.
  cbn [obj_get String.eqb Ascii.eqb Bool.eqb].
  assert (Hk : jsort js_compare (["version"; "credentialId"; "secret"; "provider"; "allowedModels";
     "allowedPolicies"; "contributorId"; "intentNonce"]) = INTENT_KEYS) by (vm_compute; reflexivity).
  cbn [fmap list_fmap fst]. rewrite bool_decide_eq_true_2 by exact Hk. cbn [guard_ok mbind res_bind].
  change (match vint 1 with VNum n => num_is n 1 | _ => false end) with true. cbn [guard_ok mbind res_bind].
  rewrite H1, H2, provider_of_str. cbn [mbind res_bind strs_val].
  destruct i as [id sec p ms ps cid non]; simpl in *.
  assert (Hu : unique_strings (fun m => bool_decide (m ∈ catalog_models p)) (VStr <$> ms) = Some ms).
  { apply unique_strings_Some. split_and!; try done. apply forallb_forall. intros m Hm%list_elem_of_In.
    rewrite Forall_forall in H5. by apply bool_decide_eq_true_2, H5. }
  destruct ms as [|m ms]; [done|]. rewrite fmap_cons in *. rewrite Hu.
  assert (Hl : Nat.ltb MAX_MODELS (length (VStr m :: (VStr <$> ms))) = false).
  { apply Nat.ltb_ge. simpl in *. by rewrite length_fmap. }
  rewrite Hl. cbn [mbind res_bind]. subst ps.
  change (unique_strings _ _) with (Some ["safety-v1"]). cbn [mbind res_bind fmap list_fmap].
  rewrite !(proj2 (Z.leb_le _ _)) by lia. cbn [andb mbind res_bind]. rewrite H9. cbn [mbind res_bind].
  by rewrite Ht.
Qed.

(** The intent parser enforces exactly its schema: whatever bytes it accepts yield an
    intent of the fixed shape (credential id, key, catalog models of its own provider,
    supported policy, identifiers of the right form), and every intent of that shape is
    accepted unchanged from the object the browser seals. *)
Lemma parseIntent_schema :
  (forall plaintext i, parseIntent plaintext = Ok i -> intent_ok i) /\
  (forall plaintext i, intent_ok i -> str_trim (ci_secret i) = ci_secret i ->
     JSON_parse (text_decode plaintext) = Some (intent_val i) -> parseIntent plaintext = Ok i).
Proof.
  split.
  - intros plaintext i. unfold parseIntent. destruct (JSON_parse _); [|done]. apply parseIntentValue_ok.
  - intros plaintext i Hi Ht Hp. unfold parseIntent. rewrite Hp. by apply parseIntentValue_complete.
Qed.

Section capability.
Context `{U : Unicode} `{C : Crypto}.

Lemma registry_of_provider url p :
  exists a, registry_get (buildRegistry url) (provider_str p) = Some a /\ ad_models a = catalog_models p.
Proof. destruct p; by eexists. Qed.

Lemma canonicalJson_strs l : exists t, canonicalJson (strs_val l) = Ok t.
Proof.
  unfold strs_val. cbn [canonicalJson]. destruct (mapM_res_total canonicalJson (VStr <$> l)) as [ps ->].
  - apply Forall_fmap, Forall_forall. done.
  - by eexists.
Qed.

Lemma canonicalJson_capability c :
  Z.abs (cap_createdAt c) <= MAX_SAFE -> Z.abs (cap_version c) <= MAX_SAFE ->
  exists t, canonicalJson (capability_val c) = Ok t.
Proof.
  intros H1 H2. unfold capability_val.
  destruct (canonicalJson_strs (cap_allowedModels c)) as [t1 E1].
  destruct (canonicalJson_strs (cap_allowedPolicyIds c)) as [t2 E2].
  pose proof (canonicalJson_vint _ H1) as E3. pose proof (canonicalJson_vint _ H2) as E4.
  assert (Hu : forall z, is_undef (vint z) = false) by done.
  assert (Hs : forall l, is_undef (strs_val l) = false) by done.
  revert E1 E2 E3 E4 Hu Hs. generalize vint as vi. generalize strs_val as sv.
  intros sv vi E1 E2 E3 E4 Hu Hs. cbn -[cle]. rewrite E1, E2, E3, E4, !Hu, !Hs.
  repeat (sort_keys; cbn -[cle]). eauto.
Qed.

(** A capability says no more than the sealed intent: the one derived from an accepted
    intent names its credential, provider and contributor, allows exactly its models (a
    sorted permutation), every one of them offered and priced by the registry's adapter for
    that provider, allows only the resolved policy, and is always signable. *)
Lemma capability_from_intent plaintext i blobDigest resolve now url :
  parseIntent plaintext = Ok i -> 0 <= now <= MAX_SAFE ->
  exists c, deriveCapability i blobDigest resolve now = Ok c /\
    cap_credentialId c = ci_credentialId i /\ cap_provider c = ci_provider i /\
    cap_contributorId c = ci_contributorId i /\ cap_blobDigest c = blobDigest /\
    cap_allowedModels c ≡ₚ ci_allowedModels i /\
    cap_allowedPolicyIds c = [resolve "safety-v1"] /\
    digest_of (DIntent i) = Ok (cap_intentDigest c) /\
    (exists a, registry_get (buildRegistry url) (provider_str (cap_provider c)) = Some a /\
       Forall (fun m => supportsModel a m = true) (cap_allowedModels c)) /\
    (exists t, canonicalJson (capability_val c) = Ok t).
Proof.
  intros Hp Hnow. assert (Hi : intent_ok i).
  { unfold parseIntent in Hp. destruct (JSON_parse _); [|done]. by eapply parseIntentValue_ok. }
  assert (Hd : exists d, intentDigest i = Ok d).
  { unfold intentDigest, public_intent_val.
    destruct (canonicalJson_strs (ci_allowedModels i)) as [t1 E1].
    destruct (canonicalJson_strs (ci_allowedPolicies i)) as [t2 E2].
    assert (Hs : forall l, is_undef (strs_val l) = false) by done.
    revert E1 E2 Hs. generalize strs_val as sv. intros sv E1 E2 Hs. cbn -[cle].
    rewrite E1, E2, !Hs. repeat (sort_keys; cbn -[cle]). eauto. }
  destruct Hd as [d Hd]. unfold deriveCapability. rewrite Hd. cbn [mbind res_bind].
  eexists. split; [done|]. cbn [cap_credentialId cap_provider cap_contributorId cap_blobDigest
    cap_allowedModels cap_allowedPolicyIds cap_intentDigest]. split_and!; try done.
  - apply jsort_perm.
  - by rewrite (io_policies _ Hi).
  - destruct (registry_of_provider url (ci_provider i)) as (a & Ha & Hm). exists a. split; [done|].
    rewrite jsort_perm. eapply Forall_impl; [apply (io_models _ Hi)|]. intros m Hin.
    unfold supportsModel. rewrite Hm, bool_decide_eq_true_2 by done. simpl.
    destruct (catalog_priced _ _ Hin) as [pr Hpr]. unfold price in Hpr. unfold isPriced.
    destruct (table_get PRICING_TABLE m); [|done]. by rewrite bool_decide_eq_true_2.
  - apply canonicalJson_capability; simpl; unfold MAX_SAFE in *; lia.
Qed.
End capability.

(** ** Example *)
Definition ex_intent : CredentialIntentV1 := {|
  ci_credentialId := "cred_0123456789ab"; ci_secret := "sk-12345678"; ci_provider := mock;
  ci_allowedModels := ["ctn/demo-model-b"; "ctn/demo-model-a"]; ci_allowedPolicies := ["safety-v1"];
  ci_contributorId := "ann";
  ci_intentNonce := "0123456789abcdef0123456789abcdef0123456789abcdef0123456789abcdef" |}.
Definition ex_sealed : string :=
  match canonicalJson (intent_val ex_intent) with Ok s => s | Err _ => "" end.

Lemma capability_from_intent_witness :
  exists c, deriveCapability ex_intent "0xb" (fun p => "id-" +:+ p) 7 = Ok c /\
    cap_credentialId c = ci_credentialId ex_intent /\ cap_provider c = ci_provider ex_intent /\
    cap_contributorId c = ci_contributorId ex_intent /\ cap_blobDigest c = "0xb" /\
    cap_allowedModels c ≡ₚ ci_allowedModels ex_intent /\
    cap_allowedPolicyIds c = ["id-safety-v1"] /\
    digest_of (DIntent ex_intent) = Ok (cap_intentDigest c) /\
    (exists a, registry_get (buildRegistry "http://m") (provider_str (cap_provider c)) = Some a /\
       Forall (fun m => supportsModel a m = true) (cap_allowedModels c)) /\
    (exists t, canonicalJson (capability_val c) = Ok t).
Proof.
  apply (capability_from_intent ex_sealed ex_intent "0xb" (fun p => "id-" +:+ p) 7 "http://m").
  - vm_compute. reflexivity.
  - unfold MAX_SAFE. lia.
Defined.
