(* ===== verification/JsMap.v ===== *)
(** * JavaScript maps

    A [Map] is the list of its entries in insertion order: [set] on a present key
    changes the value in place, on a new key appends; iteration and
    [keys().next()] see the oldest entry first. *)

From S2P Require Import Prelude.

Section JsMap.
Context {K V : Type} {EK : EqDecision K}.
Abbreviation jmap := (list (K * V)).
Implicit Types m : list (K * V).

Fixpoint map_get (m : list (K * V)) (k : K) : option V :=
  match m with
  | [] => None
  | (k', v) :: m => if decide (k = k') then Some v else map_get m k
  end.

Definition map_has (m : list (K * V)) (k : K) : bool := bool_decide (is_Some (map_get m k)).

Fixpoint map_set (m : list (K * V)) (k : K) (v : V) : list (K * V) :=
  match m with
  | [] => [(k, v)]
  | (k', v') :: m => if decide (k = k') then (k', v) :: m else (k', v') :: map_set m k v
  end.

Definition map_delete (m : list (K * V)) (k : K) : list (K * V) :=
  filter (fun kv => kv.1 <> k) m.

(** [while (map.size >= max) delete the oldest] *)
Definition drop_oldest (max : nat) (m : list (K * V)) : list (K * V) :=
  drop (length m - (max - 1)) m.

Lemma map_get_None m k : map_get m k = None <-> k ∉ m.*1.
Proof.
  induction m as [|[k' v] m IH]; simpl; [set_solver|].
  case_decide; subst; [|set_solver]. split; [done|]. set_solver.
Qed.

Lemma map_get_Some_elem m k v : map_get m k = Some v -> (k, v) ∈ m.
Proof.
  induction m as [|[k' v'] m IH]; simpl; [done|].
  case_decide; subst; [intros [= ->]; by left|]. intros Hg. right. auto.
Qed.

Lemma map_get_elem m k v : NoDup m.*1 -> (k, v) ∈ m -> map_get m k = Some v.
Proof.
  induction m as [|[k' v'] m IH]; simpl; [set_solver|]. intros [Hk Hn]%NoDup_cons.
  intros [E|E]%elem_of_cons.
  - simplify_eq. by rewrite decide_True.
  - rewrite decide_False; [auto|]. intros ->. apply Hk. apply list_elem_of_fmap. by exists (k', v).
Qed.

Lemma map_get_set m k v : map_get (map_set m k v) k = Some v.
Proof.
  induction m as [|[k' v'] m IH]; simpl; [by rewrite decide_True|].
  case_decide as Hd; simpl; [by rewrite decide_True|]. by rewrite decide_False.
Qed.

Lemma map_get_set_ne m k k' v : k <> k' -> map_get (map_set m k v) k' = map_get m k'.
Proof.
  intros Hne. induction m as [|[k0 v'] m IH]; simpl; [by rewrite decide_False|].
  case_decide as Hd; simpl; [subst; by rewrite !decide_False|]. by rewrite IH.
Qed.

Lemma map_get_delete m k : map_get (map_delete m k) k = None.
Proof.
  apply map_get_None. unfold map_delete. intros (kv & -> & Hin)%list_elem_of_fmap.
  apply list_elem_of_filter in Hin as [? _]. done.
Qed.

Lemma map_get_delete_ne m k k' : k <> k' -> map_get (map_delete m k) k' = map_get m k'.
Proof.
  intros Hne. unfold map_delete. induction m as [|[k0 v'] m IH]; [done|].
  rewrite filter_cons. cbn [fst]. destruct (decide (k0 <> k)) as [Hd|Hd].
  - cbn [map_get]. by rewrite IH.
  - apply dec_stable in Hd as ->. rewrite IH. cbn [map_get]. by rewrite decide_False.
Qed.

Lemma map_set_keys m k v :
  (map_set m k v).*1 = m.*1 \/ k ∉ m.*1 /\ map_set m k v = m ++ [(k, v)].
Proof.
  induction m as [|[k0 v'] m IH]; simpl; [right; set_solver|].
  case_decide as Hd; simpl; [by left|].
  destruct IH as [E|[? E]]; [left; by f_equal|right; rewrite E; set_solver].
Qed.

Lemma map_set_NoDup m k v : NoDup m.*1 -> NoDup (map_set m k v).*1.
Proof.
  intros Hn. destruct (map_set_keys m k v) as [->|[Hk ->]]; [done|].
  rewrite fmap_app. apply NoDup_app. split_and!; [done|set_solver|repeat constructor; set_solver].
Qed.

Lemma map_set_elem m k v k' v' :
  (k', v') ∈ map_set m k v -> (k', v') = (k, v) \/ (k', v') ∈ m.
Proof.
  induction m as [|[k0 v0] m IH]; simpl; [set_solver|].
  case_decide as Hd; subst; set_solver.
Qed.

Lemma map_set_length m k v :
  length (map_set m k v) = if map_has m k then length m else S (length m).
Proof.
  unfold map_has. induction m as [|[k0 v0] m IH]; simpl; [done|].
  case_decide as Hd; simpl; [done|]. rewrite IH. by case_match.
Qed.

Lemma sublist_fst m m' : m `sublist_of` m' -> m.*1 `sublist_of` m'.*1.
Proof. induction 1; simpl; by constructor. Qed.
Lemma NoDup_fst_sublist m m' : m `sublist_of` m' -> NoDup m'.*1 -> NoDup m.*1.
Proof. intros Hs Hn. eapply sublist_NoDup; [exact Hn|by apply sublist_fst]. Qed.

Lemma map_delete_sublist m k : map_delete m k `sublist_of` m.
Proof.
  unfold map_delete. induction m as [|kv m IH]; [done|]. rewrite filter_cons.
  case_decide; by constructor.
Qed.

Lemma drop_oldest_sublist n m : drop_oldest n m `sublist_of` m.
Proof. unfold drop_oldest. apply sublist_drop. Qed.

Lemma drop_oldest_length n m : (0 < n)%nat -> (length (drop_oldest n m) < n)%nat.
Proof. intros Hn. unfold drop_oldest. rewrite length_drop. lia. Qed.
End JsMap.
