(* ===== verification/Insights.v ===== *)
(** * Insights (services/tee-sim/src/insights, packages/protocol/src/insights.ts)

    The closed facet enumeration, the classifier and the bulletin accumulator.
    Counters are the entries of a JavaScript [Map]; [spec_bulletin] is the bulletin
    as a function of the recorded events alone. *)

From S2P Require Import Prelude JsNum Utf8 Json Unicode Canonical Types Crypto Policy PolicyV1 JsMap.
From Stdlib Require Import QArith.
Local Open Scope Z_scope.

Inductive Facet : Type :=
| weapons | malware_cyber | phishing_fraud | violence | self_harm | csam
| coding | writing | research | data_analysis | education | business | creative
| translation | conversation | technical_ops
| other.
#[export] Instance Facet_eq_dec : EqDecision Facet.
Proof. solve_decision. Defined.

Definition facet_str (f : Facet) : string :=
  match f with
  | weapons => "weapons" | malware_cyber => "malware_cyber" | phishing_fraud => "phishing_fraud"
  | violence => "violence" | self_harm => "self_harm" | csam => "csam" | coding => "coding"
  | writing => "writing" | research => "research" | data_analysis => "data_analysis"
  | education => "education" | business => "business" | creative => "creative"
  | translation => "translation" | conversation => "conversation"
  | technical_ops => "technical_ops" | other => "other"
  end.

Definition SAFETY_FACETS : list Facet := [weapons; malware_cyber; phishing_fraud; violence; self_harm; csam].
Definition BENIGN_FACETS : list Facet :=
  [coding; writing; research; data_analysis; education; business; creative; translation;
   conversation; technical_ops].
Definition FACETS : list Facet := SAFETY_FACETS ++ BENIGN_FACETS ++ [other].

Definition CATEGORY_FACET : list (string * Facet) :=
  [("P1", phishing_fraud); ("P2", malware_cyber); ("P3", violence); ("P4", weapons); ("P5", csam);
   ("P6", phishing_fraud); ("P7", self_harm)].
Definition CATEGORY_ORDER : list string := ["P1"; "P2"; "P3"; "P4"; "P5"; "P6"; "P7"].

Definition BENIGN_KEYWORDS : list (Facet * list string) := [
  (coding, [
    "code"; "coding"; "function"; "python"; "javascript"; "typescript"; "java"; "rust";
    "golang"; "regex"; "bug"; "debug"; "compile"; "refactor"; "algorithm"; "api";
    "sql query"; "unit test"; "stack trace"; "class"; "variable"; "loop"; "array";
    "sort a list"]);
  (translation, [
    "translate"; "translation"; "in french"; "to french"; "in spanish"; "to spanish";
    "in german"; "to german"; "in japanese"; "to japanese"; "in chinese"; "to chinese";
    "into english"; "to english"]);
  (data_analysis, [
    "analyze"; "analyse"; "dataset"; "data set"; "spreadsheet"; "csv"; "regression";
    "correlation"; "statistics"; "statistical"; "chart"; "graph the"; "pivot table";
    "average of"; "median"; "histogram"]);
  (research, [
    "research"; "research paper"; "cite"; "citation"; "hypothesis"; "literature review";
    "study"; "findings"; "abstract of"; "peer reviewed"; "methodology"]);
  (education, [
    "explain"; "teach me"; "what is"; "how does"; "homework"; "study guide"; "lesson";
    "quiz me"; "tutor"; "define"; "learn about"; "for my class"; "exam"]);
  (business, [
    "marketing"; "business plan"; "invoice"; "sales pitch"; "market research"; "revenue";
    "startup"; "pitch deck"; "customer"; "roi"; "kpi"; "quarterly"; "strategy for";
    "product launch"]);
  (creative, [
    "story"; "short story"; "poem"; "poetry"; "novel"; "screenplay"; "song"; "lyrics";
    "fiction"; "character"; "fairy tale"; "sonnet"; "haiku"; "fantasy"]);
  (writing, [
    "essay"; "blog post"; "blog"; "article"; "email"; "letter"; "cover letter"; "resume";
    "summary"; "summarize"; "paraphrase"; "proofread"; "rewrite"; "grammar"; "draft a"]);
  (technical_ops, [
    "docker"; "kubernetes"; "server"; "deploy"; "nginx"; "linux"; "bash"; "shell"; "cron";
    "systemd"; "firewall"; "dns"; "container"; "ssh"; "port"; "restart the"; "config"]);
  (conversation, [
    "hello"; "hi there"; "how are you"; "good morning"; "lets chat"; "chat";
    "your opinion"; "what do you think"; "tell me a joke"; "advice"; "recommend a"])].

(** ** The classifier *)

(** The scores and thresholds the guest emitted, by category. *)
Record ClassifyInput : Type := {
  in_normalizedPrompt : list Z;
  in_decision : PolicyDecision;
  in_categoryScores : list (string * Z);
  in_categoryThresholds : list (string * Z);
}.

Definition keywordHit (normalized : list Z) (keyword : string) : bool :=
  let padded := 32 :: normalized ++ [32] in
  infixb (32 :: points keyword ++ [32]) padded.

(** A loop that keeps the strictly best entry so far, the first one on a tie. *)
Definition best_step {A} (acc : option (A * Z)) (x : A) (score : Z) : option (A * Z) :=
  match acc with
  | None => Some (x, score)
  | Some (w, s) => if s <? score then Some (x, score) else acc
  end.

Definition safetyFacet (scores thresholds : list (string * Z)) : Facet :=
  let winner := fold_left (fun acc c =>
      match map_get scores c, map_get thresholds c with
      | Some s, Some t => if s <? t then acc else best_step acc c s
      | _, _ => acc
      end) CATEGORY_ORDER None in
  match winner with
  | None => other
  | Some (c, _) => default other (map_get CATEGORY_FACET c)
  end.

Definition keyword_hits (normalized : list Z) (keywords : list string) : Z :=
  fold_left (fun n k => if keywordHit normalized k then n + 1 else n) keywords 0.

Definition benignFacet (normalized : list Z) : Facet :=
  (fold_left (fun acc fk =>
     let hits := keyword_hits normalized fk.2 in
     if acc.2 <? hits then (fk.1, hits) else acc) BENIGN_KEYWORDS (other, 0)).1.

Definition classify (i : ClassifyInput) : Facet :=
  match in_decision i with
  | DENY => safetyFacet (in_categoryScores i) (in_categoryThresholds i)
  | ALLOW => benignFacet (in_normalizedPrompt i)
  end.

(** ** The accumulator *)
Record Tally : Type := { t_allow : Z; t_deny : Z }.
Record Accumulator : Type := { acc_counts : list (Facet * Tally); acc_total : Z }.
Definition acc_init : Accumulator := {| acc_counts := []; acc_total := 0 |}.

Definition record_one (a : Accumulator) (facet : Facet) (decision : PolicyDecision) : Accumulator :=
  let tally := default {| t_allow := 0; t_deny := 0 |} (map_get (acc_counts a) facet) in
  let tally := match decision with
               | ALLOW => {| t_allow := t_allow tally + 1; t_deny := t_deny tally |}
               | DENY => {| t_allow := t_allow tally; t_deny := t_deny tally + 1 |}
               end in
  {| acc_counts := map_set (acc_counts a) facet tally; acc_total := acc_total a + 1 |}.

(** ** The bulletin *)
Record InsightsFacetCount : Type := { fc_facet : Facet; fc_allow : Z; fc_deny : Z }.
Record UnsignedInsightsBulletinV1 : Type := {
  ib_generatedAt : string;
  ib_windowRequests : Z;
  ib_kMin : jsnum;
  ib_facets : list InsightsFacetCount;
  ib_suppressedFacets : Z;
  ib_otherCount : Z;
  ib_policyId : string;
}.

(** [total >= kMin] *)
Definition num_ge (a : Z) (k : jsnum) : bool :=
  match k with Fin q => Qle_bool q (inject_Z a) | Inf neg => neg | NaN => false end.

Record assemble_acc : Type := { aa_facets : list InsightsFacetCount; aa_suppressed : Z; aa_other : Z }.

Definition assemble_step (kMin : jsnum) (s : assemble_acc) (e : Facet * Tally) : assemble_acc :=
  let '(facet, tally) := e in
  let total := t_allow tally + t_deny tally in
  if decide (facet = other)
  then {| aa_facets := aa_facets s; aa_suppressed := aa_suppressed s; aa_other := aa_other s + total |}
  else if num_ge total kMin
  then {| aa_facets := aa_facets s ++ [{| fc_facet := facet; fc_allow := t_allow tally; fc_deny := t_deny tally |}];
          aa_suppressed := aa_suppressed s; aa_other := aa_other s |}
  else {| aa_facets := aa_facets s; aa_suppressed := aa_suppressed s + 1; aa_other := aa_other s + total |}.

Definition assemble (a : Accumulator) (kMin : jsnum) (policyId generatedAt : string)
    : UnsignedInsightsBulletinV1 :=
  let s := fold_left (assemble_step kMin) (acc_counts a)
             {| aa_facets := []; aa_suppressed := 0; aa_other := 0 |} in
  {| ib_generatedAt := generatedAt; ib_windowRequests := acc_total a; ib_kMin := kMin;
     ib_facets := aa_facets s; ib_suppressedFacets := aa_suppressed s; ib_otherCount := aa_other s;
     ib_policyId := policyId |}.

(** [(a, b) => a.facet < b.facet ? -1 : a.facet > b.facet ? 1 : 0] *)
Definition facet_cmp (a b : InsightsFacetCount) : comparison :=
  js_compare (facet_str (fc_facet a)) (facet_str (fc_facet b)).

Inductive BulletinError : Type :=
| NotInteger (field : string)
| BulletinSign (e : CryptoError).

(** The counts are integers already; only [kMin] comes from the environment. *)
Definition canonicalizeInsightsBulletin (b : UnsignedInsightsBulletinV1)
    : res BulletinError UnsignedInsightsBulletinV1 :=
  _ ← guard_ok (is_integer (ib_kMin b)) (NotInteger "kMin");
  Ok {| ib_generatedAt := ib_generatedAt b; ib_windowRequests := ib_windowRequests b;
        ib_kMin := ib_kMin b; ib_facets := jsort facet_cmp (ib_facets b);
        ib_suppressedFacets := ib_suppressedFacets b; ib_otherCount := ib_otherCount b;
        ib_policyId := ib_policyId b |}.

Definition facet_count_val (f : InsightsFacetCount) : jsval :=
  VObj [("facet", VStr (facet_str (fc_facet f))); ("allow", vint (fc_allow f)); ("deny", vint (fc_deny f))].
Definition bulletin_val (b : UnsignedInsightsBulletinV1) : jsval :=
  VObj [("version", vint 1); ("generatedAt", VStr (ib_generatedAt b));
        ("windowRequests", vint (ib_windowRequests b)); ("kMin", VNum (ib_kMin b));
        ("facets", VArr (facet_count_val <$> ib_facets b));
        ("suppressedFacets", vint (ib_suppressedFacets b)); ("otherCount", vint (ib_otherCount b));
        ("policyId", VStr (ib_policyId b))].

Section signing.
Context `{U : Unicode} `{C : Crypto}.

Definition lift_sign {A} (r : res CryptoError A) : res BulletinError A :=
  match r with Ok a => Ok a | Err e => Err (BulletinSign e) end.

Definition insightsBulletinDigest (b : UnsignedInsightsBulletinV1) : res BulletinError string :=
  c ← canonicalizeInsightsBulletin b; lift_sign (canonicalHash (bulletin_val c)).

(** [buildBulletin] and [signInsightsBulletin] *)
Definition signInsightsBulletin (b : UnsignedInsightsBulletinV1) (privateKey : string)
    : res BulletinError (UnsignedInsightsBulletinV1 * string) :=
  c ← canonicalizeInsightsBulletin b;
  sig ← lift_sign (signCanonical (bulletin_val c) privateKey);
  Ok (c, sig).

Definition buildBulletin (a : Accumulator) (kMin : jsnum) (policyId generatedAt privateKey : string)
    : res BulletinError (UnsignedInsightsBulletinV1 * string) :=
  signInsightsBulletin (assemble a kMin policyId generatedAt) privateKey.

Definition verifyInsightsBulletin (b : UnsignedInsightsBulletinV1) (signature publicKeyHex : string)
    : res BulletinError bool :=
  c ← canonicalizeInsightsBulletin b;
  lift_sign (verifyCanonical (bulletin_val c) signature publicKeyHex).
End signing.

(** ** Counting *)
Abbreviation event := (Facet * PolicyDecision)%type.

Definition record_all (l : list event) : Accumulator :=
  fold_left (fun a e => record_one a e.1 e.2) l acc_init.

Definition cnt (l : list event) (f : Facet) (d : PolicyDecision) : Z :=
  Z.of_nat (length (filter (fun e => e = (f, d)) l)).
Definition tally_of (l : list event) (f : Facet) : Tally := {| t_allow := cnt l f ALLOW; t_deny := cnt l f DENY |}.
Definition total_of (t : Tally) : Z := t_allow t + t_deny t.

Lemma cnt_snoc l e f d : cnt (l ++ [e]) f d = cnt l f d + (if decide (e = (f, d)) then 1 else 0).
Proof.
  unfold cnt. rewrite filter_app, length_app, Nat2Z.inj_add. f_equal.
  rewrite filter_cons. by case_decide.
Qed.

Lemma record_all_snoc l e : record_all (l ++ [e]) = record_one (record_all l) e.1 e.2.
Proof. unfold record_all. by rewrite fold_left_app. Qed.

Lemma cnt_absent l f d : f ∉ l.*1 -> cnt l f d = 0.
Proof.
  intros Hf. unfold cnt. induction l as [|[f' d'] l IH]; [done|]. rewrite filter_cons.
  rewrite fmap_cons, not_elem_of_cons in Hf. destruct Hf as [Hne Hf].
  rewrite decide_False by naive_solver. auto.
Qed.

Lemma record_all_get l f :
  map_get (acc_counts (record_all l)) f = if decide (f ∈ l.*1) then Some (tally_of l f) else None.
Proof.
  induction l as [|[f0 d0] l IH] using rev_ind; [done|].
  rewrite record_all_snoc. unfold record_one. cbn [acc_counts fst snd].
  assert (Hin : f ∈ (l ++ [(f0, d0)]).*1 <-> f ∈ l.*1 \/ f = f0) by (rewrite fmap_app; set_solver).
  destruct (decide (f0 = f)) as [->|Hne].
  - rewrite map_get_set, decide_True by tauto. f_equal. rewrite IH. unfold tally_of.
    rewrite !cnt_snoc. destruct (decide (f ∈ l.*1)) as [Hf|Hf]; simpl.
    + destruct d0; simpl; f_equal; repeat case_decide; simplify_eq; lia.
    + rewrite !cnt_absent by done. destruct d0; simpl; f_equal; repeat case_decide; simplify_eq; done.
  - rewrite map_get_set_ne by done. rewrite IH.
    unfold tally_of. rewrite !cnt_snoc, !(decide_False (P := (f0, d0) = _)) by naive_solver.
    rewrite !Z.add_0_r. repeat case_decide; naive_solver.
Qed.

Lemma record_all_NoDup l : NoDup (acc_counts (record_all l)).*1.
Proof.
  induction l as [|e l IH] using rev_ind; [constructor|].
  rewrite record_all_snoc. by apply map_set_NoDup.
Qed.

Lemma record_all_total l : acc_total (record_all l) = Z.of_nat (length l).
Proof.
  induction l as [|e l IH] using rev_ind; [done|].
  rewrite record_all_snoc, length_app. simpl. rewrite IH. lia.
Qed.

(** The entries of the map, up to order, are a function of the counts. *)
Definition entries_of (l : list event) : list (Facet * Tally) :=
  (fun f => (f, tally_of l f)) <$> filter (fun f => f ∈ l.*1) FACETS.

Lemma FACETS_all f : f ∈ FACETS.
Proof. apply list_elem_of_In. destruct f; simpl; tauto. Qed.
Lemma FACETS_NoDup : NoDup FACETS.
Proof. by apply (bool_decide_unpack _). Qed.

Lemma entries_perm l : acc_counts (record_all l) ≡ₚ entries_of l.
Proof.
  apply NoDup_Permutation.
  - apply (NoDup_fmap_1 fst), record_all_NoDup.
  - unfold entries_of. apply NoDup_fmap_2; [by intros ?? [= ->]|]. apply NoDup_filter, FACETS_NoDup.
  - intros [f t]. unfold entries_of. rewrite list_elem_of_fmap. split.
    + intros H. apply map_get_elem in H; [|apply record_all_NoDup]. rewrite record_all_get in H.
      case_decide as Hf; [|done]. simplify_eq. exists f. split; [done|].
      apply list_elem_of_filter. split; [done|apply FACETS_all].
    + intros (f' & [= -> ->] & [Hf _]%list_elem_of_filter). apply map_get_Some_elem.
      rewrite record_all_get. by rewrite decide_True.
Qed.

Lemma entries_of_perm l l' : l ≡ₚ l' -> entries_of l = entries_of l'.
Proof.
  intros Hp. unfold entries_of.
  assert (Ht : forall f, tally_of l f = tally_of l' f).
  { intros f. unfold tally_of, cnt. f_equal; f_equal; by rewrite Hp. }
  assert (Hfi : filter (fun f => f ∈ l.*1) FACETS = filter (fun f => f ∈ l'.*1) FACETS).
  { apply list_filter_iff. intros f. by rewrite Hp. }
  rewrite Hfi. apply list_fmap_ext. intros _ f _. by rewrite Ht.
Qed.

(** ** The fold of [assemble] *)
Definition listed (k : jsnum) (e : Facet * Tally) : bool :=
  negb (bool_decide (e.1 = other)) && num_ge (total_of e.2) k.
Definition suppressed (k : jsnum) (e : Facet * Tally) : bool :=
  negb (bool_decide (e.1 = other)) && negb (num_ge (total_of e.2) k).
Definition mk_count (e : Facet * Tally) : InsightsFacetCount :=
  {| fc_facet := e.1; fc_allow := t_allow e.2; fc_deny := t_deny e.2 |}.

Lemma assemble_fold k es s :
  fold_left (assemble_step k) es s =
  {| aa_facets := aa_facets s ++ List.map mk_count (List.filter (listed k) es);
     aa_suppressed := aa_suppressed s + Z.of_nat (length (List.filter (suppressed k) es));
     aa_other := aa_other s + zsum (List.map (fun e => total_of e.2)
                                      (List.filter (fun e => negb (listed k e)) es)) |}.
Proof.
  revert s. induction es as [|[f t] es IH]; intros [fs n o]; simpl.
  - by rewrite app_nil_r, !Z.add_0_r.
  - rewrite IH. unfold assemble_step, listed, suppressed. fold (total_of t). simpl.
    destruct (decide (f = other)) as [->|Hne]; simpl.
    + f_equal; lia.
    + rewrite bool_decide_eq_false_2 by done. destruct (num_ge (total_of t) k); simpl.
      * rewrite <-(assoc_L (++)). f_equal.
      * f_equal; lia.
Qed.

Lemma zsum_split {A} (p : A -> bool) (g : A -> Z) es :
  zsum (List.map g (List.filter p es)) + zsum (List.map g (List.filter (fun e => negb (p e)) es))
  = zsum (List.map g es).
Proof. induction es as [|e es IH]; simpl; [done|]. destruct (p e); simpl; lia. Qed.

Lemma zsum_entries l : zsum (List.map (fun e => total_of e.2) (entries_of l)) = Z.of_nat (length l).
Proof.
  rewrite <-(zsum_perm _ _ (Permutation_map _ (entries_perm l))).
  induction l as [|[f0 d0] l IH] using rev_ind; [done|].
  rewrite record_all_snoc, length_app. cbn [record_one acc_counts fst snd].
  assert (Hs : forall (m : list (Facet * Tally)) f t,
    zsum (List.map (fun e => total_of e.2) (map_set m f t)) =
    zsum (List.map (fun e => total_of e.2) m) + total_of t
      - total_of (default {| t_allow := 0; t_deny := 0 |} (map_get m f))).
  { intros m f t. induction m as [|[f' t'] m IHm]; simpl; [unfold total_of; simpl; lia|].
    case_decide as Hd; simpl; [lia|]. rewrite IHm. lia. }
  rewrite Hs, IH. destruct d0; unfold total_of; simpl; lia.
Qed.

Lemma facet_cmp_total x y : cle facet_cmp x y = true \/ cle facet_cmp y x = true.
Proof. apply jle_total. Qed.
Lemma facet_cmp_trans x y z :
  cle facet_cmp x y = true -> cle facet_cmp y z = true -> cle facet_cmp x z = true.
Proof. apply jle_trans. Qed.

Lemma facet_str_order f g :
  jle (facet_str f) (facet_str g) = true -> jle (facet_str g) (facet_str f) = true -> f = g.
Proof. destruct f, g; vm_compute; done. Qed.

(** Facets of a list of distinct entries are separated by the comparator. *)
Lemma counts_separated es x y :
  NoDup es.*1 -> x ∈ List.map mk_count es -> y ∈ List.map mk_count es ->
  cle facet_cmp x y = true -> cle facet_cmp y x = true -> x = y.
Proof.
  intros Hn Hx Hy Hxy Hyx. pose proof (facet_str_order _ _ Hxy Hyx) as E.
  apply list_elem_of_In, in_map_iff in Hx as ([f t] & <- & Hx%list_elem_of_In).
  apply list_elem_of_In, in_map_iff in Hy as ([f' t'] & <- & Hy%list_elem_of_In).
  simpl in E. subst f'. apply map_get_elem in Hx, Hy; [|done..]. congruence.
Qed.

(** The bulletin as a function of the events. *)
Definition spec_bulletin (l : list event) (k : jsnum) (policyId generatedAt : string)
    : UnsignedInsightsBulletinV1 :=
  let es := entries_of l in
  {| ib_generatedAt := generatedAt; ib_windowRequests := Z.of_nat (length l); ib_kMin := k;
     ib_facets := jsort facet_cmp (List.map mk_count (List.filter (listed k) es));
     ib_suppressedFacets := Z.of_nat (length (List.filter (suppressed k) es));
     ib_otherCount := zsum (List.map (fun e => total_of e.2) (List.filter (fun e => negb (listed k e)) es));
     ib_policyId := policyId |}.

Lemma canonical_bulletin l l' k policyId generatedAt :
  is_integer k = true -> l ≡ₚ l' ->
  canonicalizeInsightsBulletin (assemble (record_all l') k policyId generatedAt) =
    Ok (spec_bulletin l k policyId generatedAt).
Proof.
  intros Hint Hp. unfold canonicalizeInsightsBulletin, assemble. cbn [ib_kMin]. rewrite Hint.
  cbn [guard_ok mbind res_bind ib_generatedAt ib_windowRequests ib_kMin ib_facets ib_suppressedFacets
       ib_otherCount ib_policyId].
  rewrite assemble_fold. cbn [aa_facets aa_suppressed aa_other app].
  pose proof (entries_perm l') as Hes. rewrite <-(entries_of_perm l l' Hp) in Hes.
  unfold spec_bulletin. rewrite record_all_total. do 2 f_equal.
  - by rewrite Hp.
  - apply jsort_unique; [apply facet_cmp_total|apply facet_cmp_trans| |].
    + intros x y. apply counts_separated.
      apply (NoDup_fst_sublist _ (acc_counts (record_all l'))); [apply filter_sublist|apply record_all_NoDup].
    + by apply Permutation_map, Permutation_filterb.
  - by rewrite (Permutation_length (Permutation_filterb (suppressed k) _ _ Hes)).
  - by apply zsum_perm, Permutation_map, Permutation_filterb.
Qed.

Lemma entries_of_elem l f t : (f, t) ∈ entries_of l <-> f ∈ l.*1 /\ t = tally_of l f.
Proof.
  unfold entries_of. rewrite list_elem_of_fmap. split.
  - intros (g & [= -> ->] & [Hg _]%list_elem_of_filter). done.
  - intros [Hf ->]. exists f. split; [done|]. apply list_elem_of_filter. split; [done|apply FACETS_all].
Qed.

Lemma spec_facets_elem l k f policyId generatedAt :
  f ∈ ib_facets (spec_bulletin l k policyId generatedAt) <->
  fc_facet f <> other /\ fc_facet f ∈ l.*1 /\ num_ge (fc_allow f + fc_deny f) k = true /\
  fc_allow f = cnt l (fc_facet f) ALLOW /\ fc_deny f = cnt l (fc_facet f) DENY.
Proof.
  cbn [spec_bulletin ib_facets]. rewrite elem_of_jsort, list_elem_of_In, in_map_iff. split.
  - intros ([g t] & <- & [Hin Hl]%filter_In). apply list_elem_of_In, entries_of_elem in Hin as [Hg ->].
    unfold listed in Hl. apply andb_true_iff in Hl as [Hne Hk].
    apply negb_true_iff, bool_decide_eq_false in Hne. done.
  - destruct f as [g a d]; simpl. intros (Hne & Hg & Hk & -> & ->). exists (g, tally_of l g).
    split; [done|]. apply filter_In. split; [by apply list_elem_of_In, entries_of_elem|].
    unfold listed. simpl. rewrite bool_decide_eq_false_2 by done. done.
Qed.

Lemma spec_suppressed l k (P : Facet -> Prop) `{forall f, Decision (P f)} policyId generatedAt :
  (forall f, P f <-> f ∈ l.*1 /\ f <> other /\ num_ge (cnt l f ALLOW + cnt l f DENY) k = false) ->
  ib_suppressedFacets (spec_bulletin l k policyId generatedAt) = Z.of_nat (length (filter P FACETS)).
Proof.
  intros HP. cbn [spec_bulletin ib_suppressedFacets]. f_equal. unfold entries_of.
  induction FACETS as [|f fs IH]; [done|]. rewrite !filter_cons.
  destruct (decide (P f)) as [Hf|Hf].
  - apply HP in Hf as (Hin & Hne & Hk). rewrite decide_True by done. rewrite fmap_cons. cbn [List.filter].
    unfold suppressed at 1, total_of. simpl. rewrite bool_decide_eq_false_2, Hk by done. simpl. by f_equal.
  - case_decide as Hin; [|done]. rewrite fmap_cons. cbn [List.filter].
    assert (Hs : suppressed k (f, tally_of l f) = false).
    { unfold suppressed, total_of. simpl. destruct (decide (f = other)) as [->|Hne].
      - by rewrite bool_decide_eq_true_2.
      - destruct (num_ge _ k) eqn:Hk; [apply andb_false_r|]. exfalso. apply Hf, HP. done. }
    by rewrite Hs.
Qed.

Lemma num_ge_int a k : num_ge a (jnum k) = (k <=? a).
Proof. unfold jnum, num_ge. apply eq_true_iff_eq. rewrite Qle_bool_iff, <-Zle_Qle. by rewrite Z.leb_le. Qed.

(** *** Signing *)
Lemma cnt_bound l f d : 0 <= cnt l f d <= Z.of_nat (length l).
Proof. unfold cnt. pose proof (length_filter (fun e => e = (f, d)) l). lia. Qed.
Lemma canonicalizes_vint z : Z.abs z <= MAX_SAFE -> is_ok (canonicalJson (vint z)) = true.
Proof. intros Hz. by rewrite canonicalJson_vint. Qed.

(** A bulletin whose numbers are safe integers has a canonical form. *)
Lemma bulletin_canonical `{Unicode} b kMin : ib_kMin b = jnum kMin -> Z.abs kMin <= MAX_SAFE ->
  Z.abs (ib_windowRequests b) <= MAX_SAFE -> Z.abs (ib_suppressedFacets b) <= MAX_SAFE -> Z.abs (ib_otherCount b) <= MAX_SAFE ->
  Forall (fun f => Z.abs (fc_allow f) <= MAX_SAFE /\ Z.abs (fc_deny f) <= MAX_SAFE) (ib_facets b) ->
  exists t, canonicalJson (bulletin_val b) = Ok t.
Proof.
  intros Hk Hkm Hw Hs Ho Hf. unfold bulletin_val. rewrite Hk. change (VNum (jnum kMin)) with (vint kMin).
  assert (Hfs : is_ok (canonicalJson (VArr (facet_count_val <$> ib_facets b))) = true).
  { cbn [canonicalJson]. destruct (mapM_res_total canonicalJson (facet_count_val <$> ib_facets b)) as [ps ->]; [|done].
    apply Forall_fmap. eapply Forall_impl; [exact Hf|]. intros f [Ha Hd]. apply canonicalJson_obj_ok.
    apply Forall_cons. split; [by right|]. apply Forall_cons. split; [right; by apply canonicalizes_vint|].
    apply Forall_cons. split; [right; by apply canonicalizes_vint|]. constructor. }
  assert (Hok : is_ok (canonicalJson (bulletin_val b)) = true).
  { unfold bulletin_val. rewrite Hk. change (VNum (jnum kMin)) with (vint kMin). apply canonicalJson_obj_ok.
    repeat (apply Forall_cons; split; [right; cbn [snd]; first [apply canonicalizes_vint; first [assumption|unfold MAX_SAFE; lia]|exact Hfs|reflexivity]|]). constructor. }
  unfold bulletin_val in Hok. rewrite Hk in Hok. change (VNum (jnum kMin)) with (vint kMin) in Hok.
  destruct (canonicalJson (VObj _)) as [t|e]; [by exists t|discriminate Hok].
Qed.

(** What was canonicalized is canonical. *)
Lemma canonicalize_idem b c : canonicalizeInsightsBulletin b = Ok c -> canonicalizeInsightsBulletin c = Ok c.
Proof.
  unfold canonicalizeInsightsBulletin. destruct (is_integer (ib_kMin b)) eqn:Hi; [|done]. intros [= <-]. cbn. rewrite Hi. cbn. do 2 f_equal.
  apply jsort_id, jsort_sorted; [apply facet_cmp_total|apply facet_cmp_trans].
Qed.

(** A canonical bulletin with a canonical form is signed, and its signature verifies. *)
Lemma sign_bulletin `{Unicode} `{Crypto} `{!CryptoOk _} b c t key :
  canonicalizeInsightsBulletin b = Ok c -> canonicalJson (bulletin_val c) = Ok t ->
  exists sig, (forall b', canonicalizeInsightsBulletin b' = Ok c -> signInsightsBulletin b' key = Ok (c, sig)) /\
    verifyInsightsBulletin c sig (toHex (ed_public key)) = Ok true.
Proof.
  intros Hc Ht. destruct (signCanonical_correct _ key _ Ht) as (sig & Hsig & Hver & _). exists sig. split.
  - intros b' Hb'. unfold signInsightsBulletin. rewrite Hb'. cbn [mbind res_bind]. by rewrite Hsig.
  - unfold verifyInsightsBulletin. rewrite (canonicalize_idem _ _ Hc). cbn [mbind res_bind]. by rewrite Hver.
Qed.

(** C32. The bulletin discloses aggregate counts above the floor and nothing else: for any
    sequence of recorded requests and an integer floor, every request is counted once
    (listed counts and [otherCount] sum to [windowRequests]), a facet is listed exactly when
    it occurred, is not "other" and reaches the floor, with its exact counts, in order, and
    the result does not depend on the order of the requests.  As long as the floor and
    the number of requests are safe integers, [buildBulletin] signs that bulletin, the
    same signature in every order, and the signature verifies under the enclave's
    public key. *)
Theorem bulletin_spec `{Unicode} `{Crypto} `{!CryptoOk _} l kMin policyId generatedAt privateKey :
  exists b, (forall l', l ≡ₚ l' ->
       canonicalizeInsightsBulletin (assemble (record_all l') (jnum kMin) policyId generatedAt) = Ok b) /\
    (Z.abs kMin <= MAX_SAFE -> Z.of_nat (length l) <= MAX_SAFE ->
       exists sig, (forall l', l ≡ₚ l' -> buildBulletin (record_all l') (jnum kMin) policyId generatedAt privateKey = Ok (b, sig)) /\
         verifyInsightsBulletin b sig (toHex (ed_public privateKey)) = Ok true) /\
    ib_windowRequests b = Z.of_nat (length l) /\
    zsum (List.map (fun f => fc_allow f + fc_deny f) (ib_facets b)) + ib_otherCount b = ib_windowRequests b /\
    (forall f, f ∈ ib_facets b <->
       fc_facet f <> other /\ fc_facet f ∈ l.*1 /\ kMin <= fc_allow f + fc_deny f /\
       fc_allow f = cnt l (fc_facet f) ALLOW /\ fc_deny f = cnt l (fc_facet f) DENY) /\
    StronglySorted (fun x y => cle facet_cmp x y = true) (ib_facets b) /\
    ib_suppressedFacets b =
      Z.of_nat (length (filter (fun f => f ∈ l.*1 /\ f <> other /\ cnt l f ALLOW + cnt l f DENY < kMin) FACETS)).
Proof.
  set (b := spec_bulletin l (jnum kMin) policyId generatedAt).
  assert (Hcan : forall l', l ≡ₚ l' -> canonicalizeInsightsBulletin (assemble (record_all l') (jnum kMin) policyId generatedAt) = Ok b).
  { intros l' Hp. apply canonical_bulletin; [|done]. unfold jnum, is_integer. by rewrite q_int_inject. }
  assert (Hsum : zsum (List.map (fun f => fc_allow f + fc_deny f) (ib_facets b)) + ib_otherCount b = ib_windowRequests b).
  { cbn [b spec_bulletin ib_facets ib_otherCount ib_windowRequests].
    rewrite (zsum_perm _ _ (Permutation_map _ (jsort_perm facet_cmp _))), map_map.
    rewrite <-zsum_entries. apply zsum_split. }
  exists b. split_and!; [exact Hcan| |done|exact Hsum| | |].
  - intros Hk Hl.
    assert (Hpos : Forall (fun f => 0 <= fc_allow f <= MAX_SAFE /\ 0 <= fc_deny f <= MAX_SAFE) (ib_facets b)).
    { apply Forall_forall. intros f (_ & _ & _ & -> & ->)%spec_facets_elem.
      pose proof (cnt_bound l (fc_facet f) ALLOW); pose proof (cnt_bound l (fc_facet f) DENY); lia. }
    destruct (bulletin_canonical b kMin) as [t Ht]; try done.
    + cbn [b spec_bulletin ib_windowRequests]. lia.
    + cbn [b spec_bulletin ib_suppressedFacets].
      assert (length (List.filter (suppressed (jnum kMin)) (entries_of l)) <= 17)%nat; [|unfold MAX_SAFE; lia].
      etrans; [apply filter_length_le|]. unfold entries_of. rewrite length_fmap. apply length_filter.
    + assert (Ho : 0 <= ib_otherCount b).
      { cbn [b spec_bulletin ib_otherCount]. apply zsum_nonneg, Forall_fmap, Forall_forall. intros [f t] Ht.
        apply list_elem_of_In, filter_In in Ht as [Ht%list_elem_of_In%entries_of_elem _]. destruct Ht as [_ ->].
        pose proof (cnt_bound l f ALLOW). pose proof (cnt_bound l f DENY). unfold total_of. simpl. lia. }
      assert (Hs : 0 <= zsum (List.map (fun f => fc_allow f + fc_deny f) (ib_facets b))).
      { apply zsum_nonneg, Forall_fmap. eapply Forall_impl; [exact Hpos|]. simpl. lia. }
      change (ib_windowRequests b) with (Z.of_nat (length l)) in Hsum. lia.
    + eapply Forall_impl; [exact Hpos|]. simpl. lia.
    + destruct (sign_bulletin _ b t privateKey (Hcan l (Permutation_refl _)) Ht) as (sig & Hs & Hv). exists sig. split; [|exact Hv].
      intros l' Hp. unfold buildBulletin. by apply Hs, Hcan.
  - intros f. unfold b. rewrite spec_facets_elem, num_ge_int, Z.leb_le. done.
  - apply jsort_sorted; [apply facet_cmp_total|apply facet_cmp_trans].
  - apply spec_suppressed. intros f. rewrite num_ge_int, Z.leb_gt. done.
Qed.

(** ** The classifier *)

(** The loop of [best_step]: the first entry of maximal score. *)
Definition first_best {A} (sc : A -> option Z) (l : list A) (r : option (A * Z)) : Prop :=
  match r with
  | None => Forall (fun x => sc x = None) l
  | Some (w, s) => exists l1 l2, l = l1 ++ w :: l2 /\ sc w = Some s /\
      Forall (fun x => forall s', sc x = Some s' -> s' < s) l1 /\
      Forall (fun x => forall s', sc x = Some s' -> s' <= s) l2
  end.

Lemma best_step_loop {A} (sc : A -> option Z) l :
  first_best sc l (fold_left (fun acc x => match sc x with None => acc | Some s => best_step acc x s end) l None).
Proof.
  induction l as [|x l IH] using rev_ind; [constructor|]. rewrite fold_left_app. simpl.
  destruct (fold_left _ l None) as [[w s]|]; simpl in *.
  - destruct IH as (l1 & l2 & -> & Hw & H1 & H2).
    destruct (sc x) as [s'|] eqn:Ex; simpl.
    + destruct (Z.ltb_spec s s') as [Hlt|Hge]; simpl.
      * exists (l1 ++ w :: l2), []. split_and!; [done|done| |constructor].
        apply Forall_app. split; [eapply Forall_impl; [exact H1|]; intros y Hy z Hz; specialize (Hy z Hz); lia|].
        constructor; [intros z Hz; rewrite Hw in Hz; simplify_eq; lia|].
        eapply Forall_impl; [exact H2|]; intros y Hy z Hz; specialize (Hy z Hz); lia.
      * exists l1, (l2 ++ [x]). rewrite <-(assoc_L (++)). split_and!; [done..|].
        apply Forall_app. split; [done|]. repeat constructor. intros z Hz. rewrite Ex in Hz. by simplify_eq.
    + exists l1, (l2 ++ [x]). rewrite <-(assoc_L (++)). split_and!; [done..|].
      apply Forall_app. split; [done|]. repeat constructor. intros z Hz. by rewrite Ex in Hz.
  - destruct (sc x) as [s'|] eqn:Ex; simpl.
    + exists l, []. split_and!; [done|done| |constructor].
      eapply Forall_impl; [exact IH|]. intros y Hy z Hz. simpl in Hy. by rewrite Hy in Hz.
    + apply Forall_app. split; [done|]. by repeat constructor.
Qed.

(** A category's score, when it is over its threshold. *)
Definition over_threshold (i : ClassifyInput) (c : string) : option Z :=
  match map_get (in_categoryScores i) c, map_get (in_categoryThresholds i) c with
  | Some s, Some t => if s <? t then None else Some s
  | _, _ => None
  end.
Definition positive_hits (i : ClassifyInput) (fk : Facet * list string) : option Z :=
  let h := keyword_hits (in_normalizedPrompt i) fk.2 in if 0 <? h then Some h else None.

Lemma safetyFacet_best i :
  exists r, first_best (over_threshold i) CATEGORY_ORDER r /\
    safetyFacet (in_categoryScores i) (in_categoryThresholds i) =
      match r with None => other | Some (c, _) => default other (map_get CATEGORY_FACET c) end.
Proof.
  eexists. split; [apply best_step_loop|]. unfold safetyFacet.
  assert (Hf : forall l acc, fold_left (fun acc c => match map_get (in_categoryScores i) c, map_get (in_categoryThresholds i) c with
       | Some s, Some t => if s <? t then acc else best_step acc c s | _, _ => acc end) l acc =
     fold_left (fun acc x => match over_threshold i x with None => acc | Some s => best_step acc x s end) l acc).
  { induction l as [|c l IH]; intros acc; simpl; [done|]. rewrite IH. f_equal. unfold over_threshold.
    destruct (map_get (in_categoryScores i) c), (map_get (in_categoryThresholds i) c); try done.
    by destruct (_ <? _). }
  by rewrite Hf.
Qed.

Lemma benignFacet_best i :
  exists r, first_best (positive_hits i) BENIGN_KEYWORDS r /\
    benignFacet (in_normalizedPrompt i) = match r with None => other | Some (fk, _) => fk.1 end.
Proof.
  eexists. split; [apply best_step_loop|]. unfold benignFacet.
  assert (Hf : forall l acc, match acc with Some (_, s) => 0 < s | None => True end ->
     (fold_left (fun a fk => let hits := keyword_hits (in_normalizedPrompt i) fk.2 in
         if a.2 <? hits then (fk.1, hits) else a) l
         (match acc with None => (other, 0) | Some (fk, s) => (fk.1, s) end)).1 =
     match fold_left (fun acc x => match positive_hits i x with None => acc | Some s => best_step acc x s end) l acc with
     | None => other | Some (fk, _) => fk.1 end).
  { induction l as [|fk l IH]; intros acc Hacc; simpl; [by destruct acc as [[]|]|].
    unfold positive_hits at 2. set (h := keyword_hits _ fk.2).
    destruct acc as [[w s]|]; simpl.
    - destruct (Z.ltb_spec 0 h).
      + simpl. destruct (Z.ltb_spec s h); [apply (IH (Some (fk, h))); lia|apply (IH (Some (w, s))); lia].
      + destruct (Z.ltb_spec s h); [lia|]. apply (IH (Some (w, s))). lia.
    - destruct (Z.ltb_spec 0 h); [apply (IH (Some (fk, h))); lia|apply (IH None); done]. }
  apply (Hf BENIGN_KEYWORDS None). done.
Qed.

(** The facet of a request is the documented one: a denial is labelled by the earliest
    category of maximal score among those over their threshold, an allowed request by the
    earliest keyword group with the most (and at least one) hits, and "other" is used
    exactly when there is no such category or group. *)
Lemma classify_spec i :
  match in_decision i with
  | DENY => exists r, first_best (over_threshold i) CATEGORY_ORDER r /\
      classify i = match r with None => other | Some (c, _) => default other (map_get CATEGORY_FACET c) end
  | ALLOW => exists r, first_best (positive_hits i) BENIGN_KEYWORDS r /\
      classify i = match r with None => other | Some (fk, _) => fk.1 end
  end.
Proof.
  unfold classify. destruct (in_decision i); [apply benignFacet_best|apply safetyFacet_best].
Qed.

(** ** The facet of an evaluated request *)
Section facet_of.
Context `{U : Unicode}.

(** What the gate hands to the classifier, from an evaluation's trace. *)
Definition classify_input (rules : PolicyRules) (text : string) : ClassifyInput :=
  let e := evaluate rules text in
  {| in_normalizedPrompt := normalize text; in_decision := pe_decision e;
     in_categoryScores := (fun c => (cs_category c, cs_score c)) <$> pe_categories e;
     in_categoryThresholds := (fun c => (cs_category c, cs_threshold c)) <$> pe_categories e |}.

Lemma csam_only_P5 c : default other (map_get CATEGORY_FACET c) = csam -> c = "P5".
Proof.
  unfold CATEGORY_FACET. simpl. repeat (case_decide; [by subst|]). done.
Qed.

Lemma v1_P5_score text : category_score rules_v1 text
    {| cat_id := "P5"; cat_name := "Sexual exploitation of minors"; cat_threshold := 40 |} = 0.
Proof. reflexivity. Qed.

(** Under the shipped rules no request is ever labelled "csam": category P5 has no
    targets, so only a hard block denies it, and a hard block leaves no category scores, so
    such a denial is labelled "other". *)
Lemma csam_never_reported text :
  classify (classify_input rules_v1 text) <> csam /\
  (hard_blocked rules_v1 text -> classify (classify_input rules_v1 text) = other).
Proof.
  assert (Hb : hard_blocked rules_v1 text -> classify (classify_input rules_v1 text) = other).
  { intros [hb Hhb]%hard_blocked_spec. unfold classify_input, evaluate. by rewrite Hhb. }
  split; [|done]. destruct (find_hard_block (buildCorpus (normalize text)) rules_v1) as [hb|] eqn:Eb.
  { rewrite Hb by (apply hard_blocked_spec; by rewrite Eb). done. }
  pose proof (evaluate_unfold rules_v1 text Eb) as He.
  pose proof (classify_spec (classify_input rules_v1 text)) as Hc.
  destruct (in_decision (classify_input rules_v1 text)); destruct Hc as (r & Hr & ->).
  - destruct r as [[fk s]|]; [|done]. destruct Hr as (l1 & l2 & El & _).
    assert (Hin : fk ∈ BENIGN_KEYWORDS) by (rewrite El; set_solver).
    clear -Hin. unfold BENIGN_KEYWORDS in Hin.
    repeat (apply elem_of_cons in Hin as [->|Hin]; [done|]). by apply elem_of_nil in Hin.
  - destruct r as [[c s]|]; [|done]. intros ->%csam_only_P5. destruct Hr as (_ & _ & _ & Hs & _).
    revert Hs. unfold over_threshold, classify_input. rewrite He. cbn [in_categoryScores in_categoryThresholds pe_categories].
    assert (Hg : forall (g : category_meta -> CategoryScore) (h : CategoryScore -> Z) ,
      (forall m, cs_category (g m) = cat_id m) ->
      map_get ((fun c => (cs_category c, h c)) <$> (g <$> pr_categories rules_v1)) "P5" =
        Some (h (g {| cat_id := "P5"; cat_name := "Sexual exploitation of minors"; cat_threshold := 40 |}))).
    { intros g h Hg. unfold rules_v1. cbn [pr_categories fmap list_fmap map_get]. rewrite !Hg. done. }
    rewrite !Hg by done. cbn [cs_score cs_threshold]. by rewrite v1_P5_score.
Qed.
End facet_of.

(** ** An example: six coding requests, one facet below the floor *)
Definition ex_events : list event := [(coding, ALLOW); (coding, ALLOW); (writing, ALLOW); (coding, DENY); (other, ALLOW); (coding, ALLOW)].
Lemma bulletin_spec_witness : exists b sig,
  buildBulletin (record_all (rev ex_events)) (jnum 3) "0xp" "now" "key" = Ok (b, sig) /\
  verifyInsightsBulletin b sig (toHex (ed_public "key")) = Ok true /\
  ib_facets b = [{| fc_facet := coding; fc_allow := 3; fc_deny := 1 |}] /\ ib_suppressedFacets b = 1 /\ ib_otherCount b = 2.
Proof.
  destruct (bulletin_spec ex_events 3 "0xp" "now" "key") as (b & Hb & Hsign & _).
  destruct Hsign as (sig & Hs & Hv); [vm_compute; discriminate|vm_compute; discriminate|].
  exists b, sig. split; [apply Hs, Permutation_rev|]. split; [exact Hv|].
  specialize (Hb ex_events (Permutation_refl _)).
  assert (Hc : canonicalizeInsightsBulletin (assemble (record_all ex_events) (jnum 3) "0xp" "now") = Ok
    {| ib_generatedAt := "now"; ib_windowRequests := 6; ib_kMin := jnum 3; ib_facets := [{| fc_facet := coding; fc_allow := 3; fc_deny := 1 |}];
       ib_suppressedFacets := 1; ib_otherCount := 2; ib_policyId := "0xp" |}) by (vm_compute; reflexivity).
  rewrite Hc in Hb. injection Hb as <-. done.
Defined.
