(* ===== verification/Gates.v ===== *)
(** * Parked gates and replay protection (services/tee-sim/src/pending-gates.ts, index.ts)

    [PendingGates] and the nonce window are JavaScript maps of bounded size; time
    is the millisecond clock passed to each operation.  A history of operations is
    a list, so "single use" and "within the window" are statements about lists. *)

From S2P Require Import Prelude JsMap.
Local Open Scope Z_scope.

Section PendingGates.
Context {T : Type}.

Record parked : Type := { pk_value : T; pk_commitment : string; pk_at : Z }.
Definition gates : Type := list (string * parked).

Inductive ConsumeResult : Type :=
| MISS
| MISMATCH
| HIT (value : T).

Record PendingGatesOptions : Type := { po_ttlMs : Z; po_max : nat }.
Context (opts : PendingGatesOptions).

Definition expired (now : Z) (e : parked) : bool := po_ttlMs opts <? now - pk_at e.

Definition reap (now : Z) (m : gates) : gates := List.filter (fun ke => negb (expired now ke.2)) m.
Definition sweep (now : Z) (m : gates) : gates := reap now m.

Definition remember (now : Z) (key commitment : string) (value : T) (m : gates) : gates :=
  map_set (drop_oldest (po_max opts) (reap now m)) key
    {| pk_value := value; pk_commitment := commitment; pk_at := now |}.

Definition consume (now : Z) (key commitment : string) (m : gates) : ConsumeResult * gates :=
  match map_get m key with
  | None => (MISS, m)
  | Some e =>
      if expired now e then (MISS, map_delete m key)
      else if negb (String.eqb (pk_commitment e) commitment) then (MISMATCH, m)
      else (HIT (pk_value e), map_delete m key)
  end.

(** ** Histories *)
Inductive gate_op : Type :=
| OpRemember (now : Z) (key commitment : string) (value : T)
| OpConsume (now : Z) (key commitment : string)
| OpSweep (now : Z).

Definition gate_step (m : gates) (o : gate_op) : gates :=
  match o with
  | OpRemember now key c v => remember now key c v m
  | OpConsume now key c => (consume now key c m).2
  | OpSweep now => sweep now m
  end.
Definition gate_run (m : gates) (ops : list gate_op) : gates := fold_left gate_step ops m.

Lemma filterb_sublist {A} (p : A -> bool) (l : list A) : List.filter p l `sublist_of` l.
Proof. induction l as [|x l IH]; simpl; [done|]. destruct (p x); by constructor. Qed.

Lemma map_set_elem_fresh (m : gates) k v k' v' :
  NoDup m.*1 -> (k', v') ∈ map_set m k v -> (k' = k /\ v' = v) \/ (k' <> k /\ (k', v') ∈ m).
Proof.
  intros Hn Hin. destruct (decide (k' = k)) as [->|Hne].
  - left. apply map_get_elem in Hin; [|by apply map_set_NoDup]. rewrite map_get_set in Hin. by simplify_eq.
  - right. split; [done|]. apply map_set_elem in Hin as [?|?]; [by simplify_eq|done].
Qed.

(** What every reachable map satisfies. *)
Record gates_ok (ops : list gate_op) (m : gates) : Prop := {
  go_nodup : NoDup m.*1;
  go_size : (length m <= po_max opts)%nat;
  go_origin : forall k e, (k, e) ∈ m -> OpRemember (pk_at e) k (pk_commitment e) (pk_value e) ∈ ops;
}.

Lemma gates_ok_sublist ops m m' : m' `sublist_of` m -> gates_ok ops m -> gates_ok ops m'.
Proof.
  intros Hs [H1 H2 H3]. split.
  - by eapply NoDup_fst_sublist.
  - apply sublist_length in Hs. lia.
  - intros k e Hin. apply H3. by eapply elem_of_sublist.
Qed.

Lemma gates_ok_more ops ops' m : gates_ok ops m -> gates_ok (ops ++ ops') m.
Proof. intros [H1 H2 H3]. split; [done|done|]. intros k e Hin. apply elem_of_app. left. auto. Qed.

Lemma consume_sublist now k c m : (consume now k c m).2 `sublist_of` m.
Proof.
  unfold consume. destruct (map_get m k) as [e|]; [|done].
  destruct (expired now e); [apply map_delete_sublist|].
  destruct (negb _); [done|apply map_delete_sublist].
Qed.

Lemma gate_step_ok ops m o : (0 < po_max opts)%nat -> gates_ok ops m -> gates_ok (ops ++ [o]) (gate_step m o).
Proof.
  intros Hmax Hok. destruct o as [now k c v|now k c|now]; simpl.
  - set (m0 := drop_oldest (po_max opts) (reap now m)).
    assert (Hs : m0 `sublist_of` m).
    { unfold m0, reap. etrans; [apply drop_oldest_sublist|apply filterb_sublist]. }
    pose proof (gates_ok_sublist ops m m0 Hs Hok) as [H1 H2 H3]. unfold remember. fold m0. split.
    + by apply map_set_NoDup.
    + rewrite map_set_length. assert (length m0 < po_max opts)%nat by by apply drop_oldest_length.
      destruct (map_has m0 k); lia.
    + intros k' e Hin. apply map_set_elem_fresh in Hin as [[-> ->]|[_ Hin]]; [| |done].
      * apply elem_of_app. right. simpl. by left.
      * apply elem_of_app. left. auto.
  - apply gates_ok_more. eapply gates_ok_sublist; [apply consume_sublist|done].
  - apply gates_ok_more. eapply gates_ok_sublist; [apply filterb_sublist|done].
Qed.

Lemma gate_run_ok ops : (0 < po_max opts)%nat -> gates_ok ops (gate_run [] ops).
Proof.
  intros Hmax. induction ops as [|o ops IH] using rev_ind.
  - split; simpl; [constructor|lia|set_solver].
  - unfold gate_run. rewrite fold_left_app. simpl. by apply gate_step_ok.
Qed.

(** A key that nobody parks again stays absent. *)
Definition parks (k : string) (o : gate_op) : bool :=
  match o with OpRemember _ k' _ _ => String.eqb k k' | _ => false end.

Lemma map_get_sublist_None (m m' : gates) k : m' `sublist_of` m -> map_get m k = None -> map_get m' k = None.
Proof.
  rewrite !map_get_None. intros Hs Hn Hin. apply Hn. apply sublist_fst in Hs. by eapply elem_of_sublist.
Qed.

Lemma absent_stays m ops k :
  map_get m k = None -> existsb (parks k) ops = false -> map_get (gate_run m ops) k = None.
Proof.
  revert m. induction ops as [|o ops IH]; intros m Hm Ho; [done|]. simpl in Ho.
  apply orb_false_iff in Ho as [Ho1 Ho2]. simpl. apply IH; [|done].
  destruct o as [now k' c v|now k' c|now]; simpl in *.
  - apply String.eqb_neq in Ho1. unfold remember. rewrite map_get_set_ne by done.
    eapply map_get_sublist_None; [|exact Hm]. etrans; [apply drop_oldest_sublist|apply filterb_sublist].
  - eapply map_get_sublist_None; [apply consume_sublist|done].
  - eapply map_get_sublist_None; [apply filterb_sublist|done].
Qed.

(** A parked gate is consumed at most once, in time, and only by the holder of its
    commitment: a hit returns a value parked earlier under that key and that commitment, at
    most the time-to-live ago, and until the key is parked again every further attempt on it
    is a miss; a mismatch changes nothing. *)
Lemma gates_single_use ops now k c v m' :
  (0 < po_max opts)%nat -> consume now k c (gate_run [] ops) = (HIT v, m') ->
  (exists t, OpRemember t k c v ∈ ops /\ now - t <= po_ttlMs opts) /\
  (forall ops' now' c', existsb (parks k) ops' = false ->
     (consume now' k c' (gate_run m' ops')).1 = MISS) /\
  (forall now' k' c', (consume now' k' c' m').1 = MISMATCH -> (consume now' k' c' m').2 = m').
Proof.
  intros Hmax Hc. destruct (gate_run_ok ops Hmax) as [H1 H2 H3]. split_and!.
  - unfold consume in Hc. destruct (map_get _ k) as [e|] eqn:Eg; [|done].
    destruct (expired now e) eqn:Ee; [done|]. destruct (String.eqb_spec (pk_commitment e) c) as [<-|]; [|done].
    injection Hc as <- _. exists (pk_at e). split; [by apply H3, map_get_Some_elem|].
    unfold expired in Ee. apply Z.ltb_ge in Ee. lia.
  - intros ops' now' c' Ho. assert (Hm' : map_get m' k = None).
    { unfold consume in Hc. destruct (map_get _ k) as [e|] eqn:Eg; [|done].
      destruct (expired now e); [done|]. destruct (negb _); [done|]. injection Hc as _ <-.
      apply map_get_delete. }
    unfold consume. by rewrite absent_stays.
  - intros now' k' c'. unfold consume. destruct (map_get m' k') as [e|]; [|done].
    destruct (expired now' e); [done|]. by destruct (negb _).
Qed.

(** Plaintext residency is bounded in count and in time: no history of operations parks
    more than [max] entries, keys are unique, and right after any park or sweep at time [now]
    no entry is older than the time-to-live. *)
Lemma gates_bounded ops :
  (0 < po_max opts)%nat ->
  (length (gate_run [] ops) <= po_max opts)%nat /\ NoDup (gate_run [] ops).*1 /\
  (forall now k e, 0 <= po_ttlMs opts ->
     ((k, e) ∈ sweep now (gate_run [] ops) \/
      exists k' c' v', (k, e) ∈ remember now k' c' v' (gate_run [] ops)) ->
     now - pk_at e <= po_ttlMs opts).
Proof.
  intros Hmax. destruct (gate_run_ok ops Hmax) as [H1 H2 H3]. split_and!; [done..|].
  assert (Hr : forall now k e, (k, e) ∈ reap now (gate_run [] ops) -> now - pk_at e <= po_ttlMs opts).
  { intros now k e [_ He]%list_elem_of_In%filter_In. unfold expired in He. simpl in He.
    apply negb_true_iff, Z.ltb_ge in He. lia. }
  intros now k e Httl [Hin|(k' & c' & v' & Hin)]; [by eapply Hr|].
  unfold remember in Hin. apply map_set_elem in Hin as [E|Hin].
  - simplify_eq. simpl. lia.
  - eapply Hr, elem_of_sublist; [exact Hin|apply drop_oldest_sublist].
Qed.
End PendingGates.
Arguments ConsumeResult : clear implicits.
Arguments gates : clear implicits.
Arguments gate_op : clear implicits.

(** ** The nonce window *)
Definition nonces : Type := list (string * Z).
Definition NONCE_TTL_MS : Z := 30 * 60 * 1000.
Definition NONCE_MAX : nat := 50000.

Section Nonces.
Context (nonce_max : nat).

Definition evict (now : Z) (m : nonces) : nonces :=
  if Nat.leb nonce_max (length m)
  then drop_oldest nonce_max (List.filter (fun e => negb (NONCE_TTL_MS <? now - e.2)) m)
  else m.

(** [rememberNonce]: whether the nonce was fresh, and the window after. *)
Definition rememberNonce (now : Z) (nonce : string) (m : nonces) : bool * nonces :=
  if map_has m nonce then (false, m) else (true, map_set (evict now m) nonce now).

(** A run of calls, counting the acceptances. *)
Fixpoint nonce_run (m : nonces) (calls : list (Z * string)) : nat * nonces :=
  match calls with
  | [] => (O, m)
  | (now, n) :: calls =>
      let '(ok, m) := rememberNonce now n m in
      let '(k, m) := nonce_run m calls in ((if ok then S k else k), m)
  end.

Lemma map_has_in (m : nonces) n : map_has m n = true <-> n ∈ m.*1.
Proof.
  unfold map_has. rewrite bool_decide_eq_true, <-not_eq_None_Some, map_get_None.
  split; [apply dec_stable|naive_solver].
Qed.

Lemma map_set_fresh (m : nonces) n t : n ∉ m.*1 -> map_set m n t = m ++ [(n, t)].
Proof.
  induction m as [|[n' t'] m IH]; simpl; [done|]. rewrite not_elem_of_cons. intros [Hne Hn].
  rewrite decide_False by done. by rewrite IH.
Qed.

Lemma filterb_app {A} (p : A -> bool) l1 l2 : List.filter p (l1 ++ l2) = List.filter p l1 ++ List.filter p l2.
Proof. induction l1 as [|x l1 IH]; simpl; [done|]. destruct (p x); simpl; by rewrite IH. Qed.

(** The eviction keeps an unexpired nonce that few others follow. *)
Lemma evict_keeps now pre n t post :
  (0 < nonce_max)%nat -> now - t <= NONCE_TTL_MS -> (S (length post) < nonce_max)%nat ->
  exists pre' post', evict now (pre ++ (n, t) :: post) = pre' ++ (n, t) :: post' /\
    (length post' <= length post)%nat.
Proof.
  intros Hmax Ht Hp. unfold evict. destruct (Nat.leb _ _); [|by eexists _, _].
  rewrite filterb_app. cbn [List.filter snd].
  assert (Hk : negb (NONCE_TTL_MS <? now - t) = true) by (apply negb_true_iff, Z.ltb_ge; lia).
  rewrite Hk. set (p := fun e : string * Z => _). set (pre1 := List.filter p pre). set (post1 := List.filter p post).
  assert (Hl : (length post1 <= length post)%nat) by (apply sublist_length, filterb_sublist).
  unfold drop_oldest. rewrite length_app. cbn [length].
  set (d := (length pre1 + S (length post1) - (nonce_max - 1))%nat).
  assert (Hd : (d <= length pre1)%nat) by lia.
  exists (drop d pre1), post1. split; [|done]. by rewrite drop_app_le.
Qed.

Lemma nonce_run_keeps calls : forall pre n t post,
  (0 < nonce_max)%nat -> Forall (fun c => c.1 - t <= NONCE_TTL_MS) calls ->
  (S (length post + (nonce_run (pre ++ (n, t) :: post) calls).1) <= nonce_max)%nat ->
  n ∈ (nonce_run (pre ++ (n, t) :: post) calls).2.*1.
Proof.
  induction calls as [|[now x] calls IH]; intros pre n t post Hmax Hc Hk; cbn [nonce_run] in *.
  - simpl. rewrite fmap_app, fmap_cons. set_solver.
  - inversion Hc as [|?? Ht Hc']; subst. unfold rememberNonce in *.
    destruct (map_has (pre ++ (n, t) :: post) x) eqn:Hh.
    + pose proof (IH pre n t post Hmax Hc') as IH'.
      destruct (nonce_run (pre ++ (n, t) :: post) calls) as [k m]. by apply IH'.
    + assert (Hx : x ∉ (pre ++ (n, t) :: post).*1) by (rewrite <-map_has_in; by rewrite Hh).
      assert (Hpos : (S (length post) < nonce_max)%nat).
      { destruct (nonce_run _ calls) as [k m]. simpl in Hk. lia. }
      destruct (evict_keeps now pre n t post Hmax Ht Hpos) as (pre' & post' & E & Hl). rewrite E in *.
      assert (Hx' : x ∉ (pre' ++ (n, t) :: post').*1).
      { intros Hin. apply Hx. rewrite <-E in Hin. unfold evict in Hin. destruct (Nat.leb _ _); [|done].
        eapply elem_of_sublist; [exact Hin|]. apply sublist_fst.
        etrans; [apply drop_oldest_sublist|apply filterb_sublist]. }
      rewrite map_set_fresh in * by done. rewrite <-(assoc_L (++)) in *. cbn [app] in *.
      pose proof (IH pre' n t (post' ++ [(x, now)]) Hmax Hc') as IH'.
      destruct (nonce_run (pre' ++ (n, t) :: post' ++ [(x, now)]) calls) as [k m].
      apply IH'. simpl in *. rewrite length_app. simpl. lia.
Qed.

(** Replay protection holds for the whole window: a nonce that was accepted is rejected
    every time it is presented again, as long as fewer than the window's capacity of other
    nonces have been accepted since and its time-to-live has not passed. *)
Lemma nonce_no_replay m now n calls now' :
  (0 < nonce_max)%nat -> (rememberNonce now n m).1 = true ->
  Forall (fun c => c.1 - now <= NONCE_TTL_MS) calls ->
  ((nonce_run (rememberNonce now n m).2 calls).1 < nonce_max)%nat ->
  (rememberNonce now' n (nonce_run (rememberNonce now n m).2 calls).2).1 = false.
Proof.
  intros Hmax Hok Hc Hk. unfold rememberNonce in Hok, Hk |- * at 2.
  destruct (map_has m n) eqn:Hh; [done|]. cbn [snd] in *.
  assert (Hn : n ∉ (evict now m).*1).
  { intros Hin. apply Bool.not_true_iff_false in Hh. apply Hh. apply map_has_in. unfold evict in Hin.
    destruct (Nat.leb _ _); [|done]. eapply elem_of_sublist; [exact Hin|]. apply sublist_fst.
    etrans; [apply drop_oldest_sublist|apply filterb_sublist]. }
  rewrite map_set_fresh in * by done.
  assert (Hin : n ∈ (nonce_run (evict now m ++ [(n, now)]) calls).2.*1).
  { apply nonce_run_keeps; [done|done|]. simpl. lia. }
  apply map_has_in in Hin. unfold rememberNonce. by rewrite Hin.
Qed.

Lemma nonce_run_size calls m :
  (0 < nonce_max)%nat -> (length m <= nonce_max)%nat -> (length (nonce_run m calls).2 <= nonce_max)%nat.
Proof.
  intros Hmax. revert m. induction calls as [|[now n] calls IH]; intros m Hm; cbn [nonce_run]; [done|].
  unfold rememberNonce. destruct (map_has m n).
  - specialize (IH m Hm). by destruct (nonce_run m calls).
  - assert (Hs : (length (map_set (evict now m) n now) <= nonce_max)%nat).
    { rewrite map_set_length. assert (He : (length (evict now m) < nonce_max)%nat).
      { unfold evict. destruct (Nat.leb_spec nonce_max (length m)); [by apply drop_oldest_length|done]. }
      destruct (map_has _ _); lia. }
    specialize (IH _ Hs). by destruct (nonce_run (map_set (evict now m) n now) calls).
Qed.
End Nonces.

(** ** Examples *)
Definition ex_opts : PendingGatesOptions := {| po_ttlMs := 60000; po_max := 2 |}.
Definition ex_ops : list (gate_op nat) :=
  [OpRemember 0 "a" "ca" 1%nat; OpRemember 5 "b" "cb" 2%nat; OpConsume 7 "a" "wrong"].

Lemma gates_single_use_witness :
  (exists t, OpRemember t "a" "ca" 1%nat ∈ ex_ops /\ 9 - t <= 60000) /\
  (forall ops' now' c', existsb (parks "a") ops' = false ->
     (consume ex_opts now' "a" c' (gate_run ex_opts [("b", {| pk_value := 2%nat; pk_commitment := "cb"; pk_at := 5 |})] ops')).1 = MISS) /\
  (forall now' k' c', (consume ex_opts now' k' c' [("b", {| pk_value := 2%nat; pk_commitment := "cb"; pk_at := 5 |})]).1 = MISMATCH ->
     (consume ex_opts now' k' c' [("b", {| pk_value := 2%nat; pk_commitment := "cb"; pk_at := 5 |})]).2
       = [("b", {| pk_value := 2%nat; pk_commitment := "cb"; pk_at := 5 |})]).
Proof.
  apply (gates_single_use ex_opts ex_ops 9 "a" "ca" 1%nat).
  - simpl. lia.
  - vm_compute. reflexivity.
Defined.

Lemma gates_bounded_witness :
  (length (gate_run ex_opts [] ex_ops) <= 2)%nat /\ NoDup (gate_run ex_opts [] ex_ops).*1 /\
  (forall now k e, 0 <= 60000 ->
     ((k, e) ∈ sweep ex_opts now (gate_run ex_opts [] ex_ops) \/
      exists k' c' v', (k, e) ∈ remember ex_opts now k' c' v' (gate_run ex_opts [] ex_ops)) ->
     now - pk_at e <= 60000).
Proof. apply (gates_bounded ex_opts ex_ops). simpl. lia. Defined.

Lemma nonce_no_replay_witness :
  (rememberNonce 3 9 "n" (nonce_run 3 (rememberNonce 3 0 "n" []).2 [(1, "x"); (2, "n"); (3, "y")]).2).1 = false.
Proof.
  apply (nonce_no_replay 3 [] 0 "n" [(1, "x"); (2, "n"); (3, "y")] 9).
  - lia.
  - reflexivity.
  - unfold NONCE_TTL_MS. repeat constructor; simpl; lia.
  - vm_compute. lia.
Defined.

(** Parking a key again keeps its old place in the map, so the count bound can evict an entry
    that was parked after one it keeps. *)
Lemma remember_again_evicted_first :
  (fun ke => (ke.1, pk_at ke.2)) <$>
    gate_run {| po_ttlMs := 60000; po_max := 3 |} []
      [OpRemember 0 "a" "c" 1%nat; OpRemember 1 "b" "c" 2%nat; OpRemember 2 "a" "c" 3%nat;
       OpRemember 3 "d" "c" 4%nat; OpRemember 4 "e" "c" 5%nat]
  = [("b", 1); ("d", 3); ("e", 4)].
Proof. vm_compute. reflexivity. Qed.
