(* ===== verification/ProofVerify.v ===== *)
(** * Reference verification of a proof (services/tee-sim/src/proof-verify.ts)

    The enclave never trusts a journal it decoded itself: it runs the verifier
    binary on the receipt bytes and believes its exit code.  The temporary
    directory, the file write and the child process are inputs of the model; what
    the code makes of every way they can end is modelled. *)

From S2P Require Import Prelude JsNum Utf8 Types.
Local Open Scope Z_scope.

Record SubprocessCheck : Type := { sc_name : string; sc_pass : bool; sc_detail : option string }.
#[export] Instance SubprocessCheck_eq_dec : EqDecision SubprocessCheck.
Proof. solve_decision. Defined.

Record SubprocessVerification : Type := {
  sv_ok : bool;
  sv_exitCode : Z;
  sv_checks : list SubprocessCheck;
  sv_firstFailure : option string;
}.

Record VerifierPaths : Type := { vp_binPath : string; vp_releasePath : string; vp_policyDir : string }.

Record ProofExpectations : Type := {
  ex_commitment : string; ex_decision : PolicyDecision; ex_proofNonce : string;
}.

(** ** The report *)
Definition marker_ok : list Z := points "[ ok ]".
Definition marker_fail : list Z := points "[FAIL]".
Definition marker_skip : list Z := points "[ -- ]".

(** [rest.indexOf(" ")] splits [rest] into the name and what follows it. *)
Fixpoint cut_space (l : list Z) : list Z * option (list Z) :=
  match l with
  | [] => ([], None)
  | c :: l' => if c =? 32 then ([], Some l)
               else let '(a, b) := cut_space l' in (c :: a, b)
  end.

(** [s || undefined] on a string *)
Definition or_undefined (l : list Z) : option string :=
  match l with [] => None | _ => Some (encode l) end.

Definition report : Type := (list SubprocessCheck * option string).

(** One line.  The markers are six ASCII characters, so where one matches the
    slices at 6 code units are slices at 6 code points. *)
Definition parse_line (r : report) (line : list Z) : report :=
  let '(checks, firstFailure) := r in
  if negb (prefixb (points "[") line) then r else
  let marker := take 6 line in
  let rest := trim (drop 6 line) in
  let '(name_, tail) := cut_space rest in
  let name := encode name_ in
  let detail := match tail with None => None | Some t => or_undefined (trim t) end in
  if decide (marker = marker_ok) then
    (checks ++ [{| sc_name := name; sc_pass := true; sc_detail := detail |}], firstFailure)
  else if decide (marker = marker_fail) then
    (checks ++ [{| sc_name := name; sc_pass := false; sc_detail := detail |}],
     match firstFailure with
     | Some f => if str_empty f then Some name else firstFailure
     | None => Some name
     end)
  else if decide (marker = marker_skip) then
    (checks ++ [{| sc_name := name; sc_pass := false; sc_detail := Some (default "skipped" detail) |}],
     firstFailure)
  else r.

Definition parseReport (stdout : string) : report :=
  fold_left parse_line (split_on 10 (points stdout)) ([], None).

(** ** The subprocess *)

(** How [execFile] calls back: the [code] of its error when that is a number
    ([Some None] for any other error: a signal, a timeout, an unspawnable binary)
    and the standard output, if any. *)
Record exec_result : Type := { er_err : option (option Z); er_out : option string }.

(** [mkdtemp], [writeFile] and a synchronous throw of [execFile] carry a message. *)
Record subprocess_env : Type := {
  se_mkdtemp : res string string;
  se_writeFile : string -> string -> res string unit;
  se_execFile : string -> list string -> res string exec_result;
}.

Definition verifier_args (receiptPath : string) (expect : ProofExpectations) (paths : VerifierPaths) : list string :=
  ["--receipt"; receiptPath; "--release"; vp_releasePath paths; "--policy-dir"; vp_policyDir paths;
   "--expect-commitment"; ex_commitment expect; "--expect-decision"; decision_str (ex_decision expect);
   "--expect-proof-nonce"; ex_proofNonce expect].

Definition exit_code (r : exec_result) : Z :=
  match er_err r with Some (Some c) => c | Some None => 1 | None => 0 end.

(** [join(dir, "receipt.bin")] *)
Definition receipt_path (dir : string) : string := dir +:+ "/receipt.bin".

Definition runReferenceVerify (env : subprocess_env) (receiptBytes : string)
    (expect : ProofExpectations) (paths : VerifierPaths) : SubprocessVerification :=
  let attempt :=
    dir ← se_mkdtemp env;
    _ ← se_writeFile env (receipt_path dir) receiptBytes;
    r ← se_execFile env (vp_binPath paths) (verifier_args (receipt_path dir) expect paths);
    let code := exit_code r in
    let '(checks, firstFailure) := parseReport (default "" (er_out r)) in
    Ok {| sv_ok := code =? 0; sv_exitCode := code; sv_checks := checks; sv_firstFailure := firstFailure |} in
  match attempt with
  | Ok v => v
  | Err message =>
      {| sv_ok := false; sv_exitCode := -1;
         sv_checks := [{| sc_name := "subprocess"; sc_pass := false; sc_detail := Some message |}];
         sv_firstFailure := Some "subprocess" |}
  end.

(** ** The verdict *)

(** The run that [ok] stands for: the bytes were written, and the pinned binary,
    told what the gate decided, ended with status 0. *)
Definition verifier_accepts (env : subprocess_env) (receiptBytes : string)
    (expect : ProofExpectations) (paths : VerifierPaths) : Prop :=
  exists dir r,
    se_mkdtemp env = Ok dir /\
    se_writeFile env (dir +:+ "/receipt.bin") receiptBytes = Ok tt /\
    se_execFile env (vp_binPath paths)
      ["--receipt"; dir +:+ "/receipt.bin"; "--release"; vp_releasePath paths;
       "--policy-dir"; vp_policyDir paths; "--expect-commitment"; ex_commitment expect;
       "--expect-decision"; decision_str (ex_decision expect);
       "--expect-proof-nonce"; ex_proofNonce expect] = Ok r /\
    (er_err r = None \/ er_err r = Some (Some 0)).

(** The verdict of the enclave is the verdict of the reference verifier: [ok]
    holds exactly when the pinned binary ran to exit status 0 on these receipt
    bytes, this manifest and this gate decision.  Every other way the run can end,
    a missing binary or a failed write included, is a rejection that names a
    failure or an exit code other than 0; the printed report never decides. *)
Lemma runReferenceVerify_ok env receiptBytes expect paths :
  let v := runReferenceVerify env receiptBytes expect paths in
  (sv_ok v = true <-> verifier_accepts env receiptBytes expect paths) /\
  (sv_ok v = (sv_exitCode v =? 0)) /\
  (sv_exitCode v = -1 \/
   exists dir r, se_mkdtemp env = Ok dir /\ parseReport (default "" (er_out r)) = (sv_checks v, sv_firstFailure v)).
Proof.
  simpl. unfold runReferenceVerify, verifier_accepts.
  destruct (se_mkdtemp env) as [dir|m]; simpl.
  2: { split_and!; [|done|by left]. split; [done|]. naive_solver. }
  unfold receipt_path.
  destruct (se_writeFile env _ _) as [[]|m] eqn:Hw; simpl.
  2: { split_and!; [|done|by left]. split; [done|]. intros (? & ? & [= <-] & H & _). congruence. }
  unfold verifier_args.
  destruct (se_execFile env _ _) as [r|m] eqn:Hx; simpl.
  2: { split_and!; [|done|by left]. split; [done|]. intros (? & ? & [= <-] & _ & H & _). congruence. }
  destruct (parseReport _) as [checks ff] eqn:Hp. simpl.
  split_and!; [|done|right; by exists dir, r].
  unfold exit_code. split.
  - intros H%Z.eqb_eq. exists dir, r. split_and!; try done.
    destruct (er_err r) as [[c|]|]; [right; by subst|done|by left].
  - intros (? & r' & [= <-] & _ & Hr & He). rewrite Hx in Hr. simplify_eq.
    destruct He as [-> | ->]; done.
Qed.

(** ** The report of the reference verifier *)

(** A line as the verifier prints it: the mark, the name padded with [pad]
    blanks, and the detail. *)
Definition report_line (c : SubprocessCheck) (pad : nat) : list Z :=
  (if sc_pass c then marker_ok else marker_fail) ++ [32] ++ points (sc_name c) ++
  repeat 32 (S pad) ++ match sc_detail c with Some d => points d | None => [] end.

(** Names are words, details are trimmed and on one line. *)
Definition printable (c : SubprocessCheck) : Prop :=
  encode (points (sc_name c)) = sc_name c /\ points (sc_name c) <> [] /\
  Forall (fun z => js_space z = false) (points (sc_name c)) /\
  match sc_detail c with
  | None => True
  | Some d => encode (points d) = d /\ trim (points d) = points d /\ points d <> [] /\ 10 ∉ points d
  end.

Definition noise (line : list Z) : Prop := prefixb (points "[") line = false /\ 10 ∉ line.

Definition failing (checks : list SubprocessCheck) : option string :=
  sc_name <$> head (List.filter (fun c => negb (sc_pass c)) checks).

Lemma trim_start_solid x l : js_space x = false -> trim_start (x :: l) = x :: l.
Proof. intros H. simpl. by rewrite H. Qed.

Lemma trim_start_blanks n l : trim_start (repeat 32 n ++ l) = trim_start l.
Proof. induction n; simpl; auto. Qed.

Lemma trim_start_last l x : js_space x = false -> trim_start (rev (l ++ [x])) = rev (l ++ [x]).
Proof. intros H. rewrite rev_app_distr. simpl. by rewrite H. Qed.

Lemma trim_snoc l x y : js_space x = false -> js_space y = false -> trim (x :: l ++ [y]) = x :: l ++ [y].
Proof.
  intros Hx Hy. unfold trim. rewrite (trim_start_solid x) by done.
  rewrite app_comm_cons, trim_start_last, rev_involutive by done. done.
Qed.

Lemma trim_start_suffix l : exists a, l = a ++ trim_start l.
Proof.
  induction l as [|c l [a IH]]; simpl; [by exists []|]. destruct (js_space c).
  - exists (c :: a). simpl. by f_equal.
  - by exists [].
Qed.

Lemma trim_start_head l x r : trim_start l = x :: r -> js_space x = false.
Proof. induction l as [|c l IH]; simpl; [done|]. destruct (js_space c) eqn:Hc; naive_solver. Qed.

(** A trimmed, non-empty text starts and ends with a non-blank. *)
Lemma trimmed_ends l : trim l = l -> l <> [] ->
  (exists x r, l = x :: r /\ js_space x = false) /\ (exists a y, l = a ++ [y] /\ js_space y = false).
Proof.
  intros Ht Hne. unfold trim in Ht.
  assert (He : exists a y, l = a ++ [y] /\ js_space y = false).
  { destruct (trim_start (rev (trim_start l))) as [|y r] eqn:Hr; [simpl in Ht; congruence|].
    exists (rev r), y. split; [|by apply trim_start_head in Hr]. rewrite <-Ht. done. }
  split; [|done].
  destruct (trim_start_suffix (rev (trim_start l))) as [b Hb].
  destruct (trim_start_suffix l) as [a Ha].
  assert (Hl : (length l <= length (trim_start l))%nat).
  { rewrite <-Ht at 1. rewrite length_rev.
    apply (f_equal length) in Hb. rewrite length_app, length_rev in Hb. lia. }
  assert (a = []) as ->.
  { apply (f_equal length) in Ha. rewrite length_app in Ha. destruct a; [done|simpl in Ha; lia]. }
  simpl in Ha. destruct (trim_start l) as [|x r] eqn:Hr; [by rewrite Ha in Hne|].
  exists x, r. split; [done|]. by apply trim_start_head in Hr.
Qed.

Lemma cut_space_word w l :
  Forall (fun z => js_space z = false) w ->
  cut_space (w ++ l) = (w ++ (cut_space l).1, (cut_space l).2).
Proof.
  induction 1 as [|c w Hc _ IH]; simpl; [by destruct (cut_space l)|].
  destruct (Z.eqb_spec c 32) as [->|_]; [done|]. by rewrite IH.
Qed.

Lemma parse_line_noise r l : noise l -> parse_line r l = r.
Proof. intros [H _]. unfold parse_line. destruct r. by rewrite H. Qed.

(** What is left of a printed line after the mark. *)
Lemma trim_rest c pad : printable c ->
  cut_space (trim ([32] ++ points (sc_name c) ++ repeat 32 (S pad) ++
                   match sc_detail c with Some d => points d | None => [] end)) =
  (points (sc_name c), match sc_detail c with Some d => Some (repeat 32 (S pad) ++ points d) | None => None end).
Proof.
  intros (_ & Hne & Hw & Hd).
  destruct (points (sc_name c)) as [|x w] eqn:Hn; [done|]. inversion_clear Hw as [|?? Hx Hw'].
  set (tail := repeat 32 (S pad) ++ _).
  assert (Ht : trim ([32] ++ (x :: w) ++ tail) = (x :: w) ++ match sc_detail c with Some _ => tail | None => [] end).
  { unfold trim at 1. cbn [app trim_start]. change (js_space 32) with true. cbn [trim_start]. rewrite Hx.
    destruct (sc_detail c) as [d|].
    - destruct Hd as (_ & Hd & Hdne & _). destruct (trimmed_ends _ Hd Hdne) as [_ (a & y & Hy & Hys)].
      subst tail. rewrite Hy.
      rewrite !app_assoc, app_comm_cons, trim_start_last, rev_involutive by done. done.
    - subst tail. rewrite app_nil_r. change (x :: w ++ repeat 32 (S pad)) with ((x :: w) ++ repeat 32 (S pad)).
      assert (Hrev : rev (repeat 32 (S pad)) = repeat 32 (S pad)).
      { apply rev_repeat. }
      rewrite rev_app_distr, Hrev, trim_start_blanks, app_nil_r.
      destruct (List.rev (x :: w)) as [|y r] eqn:Hr;
        [apply (f_equal length) in Hr; rewrite length_rev in Hr; done|].
      rewrite trim_start_solid.
      + by rewrite <-Hr, rev_involutive.
      + assert (Hin : y ∈ x :: w).
        { apply list_elem_of_In, in_rev. rewrite Hr. by left. }
        apply elem_of_cons in Hin as [->|Hin]; [done|]. exact (proj1 (List.Forall_forall _ _) Hw' y (proj1 (list_elem_of_In _ _) Hin)). }
  rewrite Ht, cut_space_word by (by constructor).
  destruct (sc_detail c) as [d|]; cbn [cut_space fst snd]; rewrite ?app_nil_r; [|done].
  subst tail. done.
Qed.

Lemma or_undefined_ne l : l <> [] -> or_undefined l = Some (encode l).
Proof. by destruct l. Qed.

Definition first_of (ff : option string) (c : SubprocessCheck) : option string :=
  if sc_pass c then ff else
  match ff with Some f => if str_empty f then Some (sc_name c) else ff | None => Some (sc_name c) end.

Lemma parse_line_check checks ff c pad : printable c ->
  parse_line (checks, ff) (report_line c pad) = (checks ++ [c], first_of ff c).
Proof.
  intros Hp. pose proof (trim_rest c pad Hp) as Hcut. destruct Hp as (Hname & Hne & Hw & Hd).
  destruct c as [name pass detail]. cbn [sc_name sc_pass sc_detail] in *.
  set (rest := [32] ++ points name ++ _) in Hcut.
  assert (Hline : report_line {| sc_name := name; sc_pass := pass; sc_detail := detail |} pad =
                  (if pass then marker_ok else marker_fail) ++ rest) by done.
  rewrite Hline. clearbody rest. unfold parse_line, first_of. cbn [sc_pass sc_name].
  destruct pass; [|]; cbn [app marker_ok marker_fail];
    [change marker_ok with [91; 32; 111; 107; 32; 93] | change marker_fail with [91; 70; 65; 73; 76; 93]];
    cbn [app prefixb negb]; change (points "[") with [91];
    cbn [prefixb]; rewrite bool_decide_true by done; cbn [andb negb drop take];
    rewrite ?drop_0, ?take_0, Hcut; repeat (rewrite decide_False by done); rewrite decide_True by done; rewrite Hname;
    destruct detail as [d|]; try done.
  - destruct Hd as (Hd & Ht & Hdne & _).
    assert (trim (repeat 32 (S pad) ++ points d) = points d) as ->.
    { unfold trim at 1. rewrite trim_start_blanks. exact Ht. }
    by rewrite or_undefined_ne, Hd.
  - destruct Hd as (Hd & Ht & Hdne & _).
    assert (trim (repeat 32 (S pad) ++ points d) = points d) as ->.
    { unfold trim at 1. rewrite trim_start_blanks. exact Ht. }
    by rewrite or_undefined_ne, Hd.
Qed.

Lemma no_newline_report_line c pad : printable c -> 10 ∉ report_line c pad.
Proof.
  intros (_ & _ & Hw & Hd). unfold report_line. rewrite !elem_of_app.
  intros [H|[H|[H|[H|H]]]].
  - destruct (sc_pass c); vm_compute in H; set_solver.
  - set_solver.
  - apply list_elem_of_In in H. pose proof (proj1 (List.Forall_forall _ _) Hw _ H). discriminate.
  - apply list_elem_of_In, repeat_spec in H. discriminate.
  - destruct (sc_detail c); [naive_solver|set_solver].
Qed.

Lemma fold_noise r ls : Forall noise ls -> fold_left parse_line ls r = r.
Proof. revert r; induction ls as [|l ls IH]; intros r; [done|]. inversion_clear 1. simpl. rewrite parse_line_noise by done. auto. Qed.

Lemma fold_checks items checks ff :
  Forall (fun i => printable i.1) items -> (forall f, ff = Some f -> str_empty f = false) ->
  fold_left parse_line ((fun i => report_line i.1 i.2) <$> items) (checks, ff) =
  (checks ++ items.*1, match ff with Some f => Some f | None => failing items.*1 end).
Proof.
  revert checks ff; induction items as [|[c pad] items IH]; intros checks ff Hi Hff.
  { simpl. rewrite app_nil_r. by destruct ff. }
  inversion_clear Hi as [|?? Hc Hi']. cbn [fmap list_fmap fold_left fst snd].
  rewrite parse_line_check by done.
  assert (Hne : str_empty (sc_name c) = false).
  { destruct Hc as (_ & Hne & _). cbn [fst] in Hne. destruct (sc_name c); [by destruct (Hne eq_refl)|done]. }
  rewrite IH; [|done|].
  - rewrite <-app_assoc. f_equal. unfold first_of, failing. cbn [List.filter].
    destruct (sc_pass c); cbn [negb]; [done|].
    destruct ff as [f|]; [|done]. by rewrite (Hff f).
  - intros f. unfold first_of. destruct (sc_pass c); [apply Hff|].
    destruct ff as [g|]; [|naive_solver]. rewrite (Hff g) by done. naive_solver.
Qed.

(** Reading the report back: whatever other lines the verifier prints around
    them, [parseReport] returns exactly the checks it printed, in order, with
    their verdicts and details, and the first failing one as [firstFailure]. *)
Lemma parseReport_roundtrip before items after stdout :
  Forall noise before -> Forall noise after -> Forall (fun i => printable i.1) items ->
  points stdout = join [10] (before ++ ((fun i => report_line i.1 i.2) <$> items) ++ after) ->
  parseReport stdout = (items.*1, failing items.*1).
Proof.
  intros Hb Ha Hi Hs. unfold parseReport. rewrite Hs.
  destruct (decide (before ++ ((fun i => report_line i.1 i.2) <$> items) ++ after = [])) as [Hnil|Hne].
  { apply app_nil in Hnil as [-> Hnil]. apply app_nil in Hnil as [Hnil ->]. by destruct items. }
  rewrite split_on_join; [|done|].
  - rewrite !fold_left_app, (fold_noise _ before) by done.
    rewrite (fold_checks _ [] None) by done. by apply fold_noise.
  - rewrite !Forall_app. split_and!.
    + eapply Forall_impl; [exact Hb|]. by intros ? [].
    + apply Forall_fmap. eapply Forall_impl; [exact Hi|]. intros i. apply no_newline_report_line.
    + eapply Forall_impl; [exact Ha|]. by intros ? [].
Qed.

Definition ex_checks : list (SubprocessCheck * nat) :=
  [({| sc_name := "seal"; sc_pass := true; sc_detail := Some "STARK verified" |}, 3%nat);
   ({| sc_name := "decision"; sc_pass := false; sc_detail := None |}, 1%nat)].
Definition ex_report : string :=
  encode (join [10] ([points "prover-verify"] ++ ((fun i => report_line i.1 i.2) <$> ex_checks) ++ [[]])).

Lemma parseReport_roundtrip_witness : parseReport ex_report = (ex_checks.*1, Some "decision").
Proof.
  apply (parseReport_roundtrip [points "prover-verify"] ex_checks [[]]).
  - constructor; [|constructor]. split; [reflexivity|]. vm_compute. set_solver.
  - constructor; [|constructor]. split; [reflexivity|]. set_solver.
  - constructor; [|constructor; [|constructor]]; (split; [reflexivity|split; [discriminate|split]]).
    + vm_compute. repeat constructor.
    + split; [reflexivity|split; [reflexivity|split; [discriminate|]]]. vm_compute. set_solver.
    + vm_compute. repeat constructor.
    + exact I.
  - vm_compute. reflexivity.
Defined.
