(* ===== verification/Hpke.v ===== *)
(** * HPKE envelopes (packages/protocol/src/hpke.ts)

    The suite DHKEM(X25519, HKDF-SHA256) + HKDF-SHA256 + AES-128-GCM of @hpke is
    the class [Hpke]; the base64 framing around it is the code's.  The randomness
    of a key pair and of a sender context is an argument. *)

From S2P Require Import Prelude JsNum Utf8 Json Unicode Canonical Types Crypto.
Local Open Scope Z_scope.

Class Hpke := {
  (** serialized public and private key *)
  kem_generate : string -> string * string;
  (** [createSenderContext] and [seal]: [enc] and ciphertext; [None] when it throws *)
  seal_raw : string -> string -> string -> string -> option (string * string);
  (** [createRecipientContext] and [open] *)
  open_raw : string -> string -> string -> string -> option string;
}.

Class HpkeOk (H : Hpke) : Prop := {
  hpke_correct : forall seed eph plaintext aad, exists enc ct,
    seal_raw (kem_generate seed).1 eph plaintext aad = Some (enc, ct) /\
    open_raw (kem_generate seed).2 enc ct aad = Some plaintext;
}.

Section Hpke.
Context `{H : Hpke}.

(** public key and private key, in base64 *)
Definition generateHpkeKeyPair (seed : string) : string * string :=
  let '(pub, priv) := kem_generate seed in (toB64 pub, toB64 priv).

(** An absent [aad] is the suite's empty one. *)
Definition hpkeSeal (recipientPublicKeyB64 eph plaintext : string) (aad : option string) : option SealedBox :=
  '(enc, ct) ← seal_raw (fromB64 recipientPublicKeyB64) eph plaintext (default "" aad);
  Some {| sb_enc := toB64 enc; sb_ciphertext := toB64 ct |}.

Definition hpkeOpen (recipientPrivateKeyB64 : string) (box : SealedBox) (aad : option string) : option string :=
  open_raw (fromB64 recipientPrivateKeyB64) (fromB64 (sb_enc box)) (fromB64 (sb_ciphertext box)) (default "" aad).

Context `{!HpkeOk H}.

Lemma hpke_roundtrip seed eph plaintext aad :
  let '(pub, priv) := generateHpkeKeyPair seed in
  exists box, hpkeSeal pub eph plaintext aad = Some box /\ hpkeOpen priv box aad = Some plaintext.
Proof.
  unfold generateHpkeKeyPair, hpkeSeal, hpkeOpen.
  destruct (hpke_correct seed eph plaintext (default "" aad)) as (enc & ct & Hs & Ho).
  destruct (kem_generate seed) as [pub priv]. simpl in *.
  rewrite fromB64_toB64, Hs. simpl. eexists; split; [done|]. simpl. by rewrite !fromB64_toB64.
Qed.
End Hpke.

(** A concrete suite for the examples: the keys are the seed and the ciphertext is
    the plaintext under a keyed tag. *)
Definition toy_tag (k eph aad plaintext : string) : string := toy_hash (str_app [k; eph; aad; plaintext]).
Definition split_tag (s : string) : string * string := (String.substring 0 32 s, String.substring 32 (String.length s - 32) s).

#[export] Instance toy_hpke : Hpke := {|
  kem_generate := fun seed => (seed, seed);
  seal_raw := fun pk eph plaintext aad => Some (eph, toy_tag pk eph aad plaintext +:+ plaintext);
  open_raw := fun sk enc ct aad =>
    let '(tag, plaintext) := split_tag ct in
    if String.eqb tag (toy_tag sk enc aad plaintext) then Some plaintext else None;
|}.

Lemma substring_all s : String.substring 0 (String.length s) s = s.
Proof. induction s as [|c s IH]; simpl; [done|]. by rewrite IH. Qed.

Lemma substring_app_l a b : String.substring 0 (String.length a) (a +:+ b) = a.
Proof. induction a as [|c a IH]; simpl; [by destruct b|]. by rewrite IH. Qed.

Lemma substring_app_r a b n : String.substring (String.length a) n (a +:+ b) = String.substring 0 n b.
Proof. induction a as [|c a IH]; simpl; [done|]. exact IH. Qed.

Lemma substring_drop a b k n : String.length a = k -> String.substring k n (a +:+ b) = String.substring 0 n b.
Proof. intros <-. apply substring_app_r. Qed.

Lemma substring_take a b k : String.length a = k -> String.substring 0 k (a +:+ b) = a.
Proof. intros <-. apply substring_app_l. Qed.

Lemma split_tag_app t p : String.length t = 32%nat -> split_tag (t +:+ p) = (t, p).
Proof.
  intros Ht. unfold split_tag. rewrite str_length_app, Ht.
  replace (32 + String.length p - 32)%nat with (String.length p) by lia.
  rewrite <-Ht, substring_app_l, substring_app_r. by rewrite substring_all.
Qed.

#[export] Instance toy_hpke_ok : HpkeOk toy_hpke.
Proof.
  split. intros seed eph plaintext aad. eexists _, _. split; [done|].
  unfold open_raw, toy_hpke. rewrite split_tag_app by apply (sha256_length (C := toy_crypto)).
  by rewrite String.eqb_refl.
Qed.
