(* ===== verification/Tee.v ===== *)
(** * The trusted environment (services/tee-sim/src/tee.ts)

    [SimulatedTEE]: its keys and measurements, the attestation it issues, the
    vault key it unseals and the encryption of credentials at rest.  Randomness
    and the clock are arguments; node:crypto is the class [NodeCrypto].  The two
    files of the vault are the record [Disk]: their contents as the code writes
    them, the wrapped key as the object its JSON text denotes. *)

From S2P Require Import Prelude JsNum Utf8 Json Unicode Canonical Types Crypto Hpke.
Local Open Scope Z_scope.

Class NodeCrypto := {
  sha384 : string -> string;
  hmac_sha256 : string -> string -> string;
  (** AES-256-GCM: ciphertext and tag, [None] when the key has the wrong size *)
  gcm_encrypt : string -> string -> string -> option (string * string);
  (** key, iv, tag, ciphertext; [None] when it throws *)
  gcm_decrypt : string -> string -> string -> string -> option string;
}.

Class NodeCryptoOk (N : NodeCrypto) : Prop := {
  gcm_correct : forall key iv plaintext, String.length key = 32%nat -> exists ct tag,
    gcm_encrypt key iv plaintext = Some (ct, tag) /\ String.length tag = 16%nat /\
    gcm_decrypt key iv tag ct = Some plaintext;
}.

Definition SIMULATION_WARNING : string := "SIMULATED TEE — NO HARDWARE CONFIDENTIALITY".
Definition nul : string := String (byte_of 0) EmptyString.

Record KmsPolicy : Type := { approvedPcr0 : string }.
Record WrappedDek : Type := { wd_iv : string; wd_ciphertext : string; wd_tag : string; wd_kmsPolicy : KmsPolicy }.
Record Disk : Type := { kms_key : option string; wrapped_dek : option WrappedDek }.

Inductive VaultError : Type :=
| KMS_REFUSED
| VaultFileError      (** a vault file is missing *)
| VaultCipherError.   (** the cipher threw *)

Record SimulatedTEE : Type := {
  tee_mode : teeMode;
  tee_buildId : string;
  tee_enclaveKeyId : string;
  tee_ingressPublicKey : string;
  tee_signingPublicKey : string;
  tee_proverPublicKey : string;
  tee_ingressPrivateKey : string;
  tee_signingPrivateKey : string;
  tee_proverPrivateKey : string;
  tee_pcrs : list (string * string);
  tee_policyIds : list string;
  tee_vaultKey : option string;
}.

Record AttestationBundle : Type := {
  ab_teeMode : teeMode;
  ab_document : list (string * jsval);
  ab_enclaveSigningPublicKey : string;
  ab_ingressPublicKey : string;
  ab_enclaveKeyId : string;
  ab_enclaveBuildId : string;
  ab_policyIds : list string;
  ab_issuedAt : string;
  ab_nonce : option string;
}.

(** [nonce ?? null] *)
Definition nonce_val (n : option string) : jsval := match n with Some s => VStr s | None => VNull end.

(** [delete o.k], as rest patterns do *)
Definition obj_without (o : list (string * jsval)) (k : string) : list (string * jsval) :=
  List.filter (fun kv => negb (String.eqb kv.1 k)) o.

(** The bytes that are signed: the document without its signature, with the nonce. *)
Definition attested_val (document : list (string * jsval)) (nonce : option string) : jsval :=
  VObj (obj_set (obj_set document "platformSignature" VUndef) "nonce" (nonce_val nonce)).

(** [JSON.stringify] of an object whose member texts are known *)
Definition object_text (members : list (string * string)) : string :=
  "{" +:+ str_join "," ((fun kv => quote kv.1 +:+ ":" +:+ kv.2) <$> members) +:+ "}".

Section Tee.
Context `{U : Unicode} `{C : Crypto} `{H : Hpke} `{N : NodeCrypto}.

Definition computePcrs (buildId policyId : string) : list (string * string) :=
  let h label := toHex (sha384 (str_app [label; nul; buildId; nul; policyId])) in
  [("0", h "pcr0-image"); ("1", h "pcr1-kernel"); ("2", h "pcr2-application")].

Definition pcr0 (t : SimulatedTEE) : string := default "" (snd <$> head (tee_pcrs t)).

Definition new_SimulatedTEE (buildId : string) (policyIds : list string)
    (ingressPublicKey ingressPrivateKey signingKey proverKey : string) : SimulatedTEE := {|
  tee_mode := simulation;
  tee_buildId := buildId;
  tee_enclaveKeyId := "ek_" +:+ String.substring 0 16 (sha256Hex ingressPublicKey);
  tee_ingressPublicKey := ingressPublicKey;
  tee_signingPublicKey := toHex (ed_public signingKey);
  tee_proverPublicKey := toHex (ed_public proverKey);
  tee_ingressPrivateKey := ingressPrivateKey;
  tee_signingPrivateKey := signingKey;
  tee_proverPrivateKey := proverKey;
  tee_pcrs := computePcrs buildId (default "none" (head policyIds));
  tee_policyIds := policyIds;
  tee_vaultKey := None;
|}.

Definition kmsWrap (master iv dek : string) : option (string * string * string) :=
  '(ct, tag) ← gcm_encrypt master iv dek;
  Some (toB64 iv, toB64 ct, toB64 tag).

(** [provisionVault]; [kms], [dek] and [iv] are the random bytes it draws. *)
Definition provisionVault (t : SimulatedTEE) (kms dek iv : string) (d : Disk) : option Disk :=
  let key_file := match kms_key d with Some k => k | None => toB64 kms end in
  match wrapped_dek d with
  | Some w => Some {| kms_key := Some key_file; wrapped_dek := Some w |}
  | None =>
      '(iv', ct, tag) ← kmsWrap (fromB64 key_file) iv dek;
      Some {| kms_key := Some key_file;
              wrapped_dek := Some {| wd_iv := iv'; wd_ciphertext := ct; wd_tag := tag;
                                     wd_kmsPolicy := {| approvedPcr0 := pcr0 t |} |} |}
  end.

Definition boot (policyIds : list string) (policyId ingressSeed signingKey proverKey : string)
    (kms dek iv : string) (d : Disk) : option (SimulatedTEE * Disk) :=
  let '(pub, priv) := generateHpkeKeyPair ingressSeed in
  let buildId := String.substring 0 32 (sha256Hex (str_app ["ctn-enclave-sim-v0.1"; nul; policyId])) in
  let t := new_SimulatedTEE buildId policyIds pub priv signingKey proverKey in
  d' ← provisionVault t kms dek iv d;
  Some (t, d').

Definition unsealVaultKey (d : Disk) (t : SimulatedTEE) : res VaultError string * SimulatedTEE :=
  match tee_vaultKey t with
  | Some k => (Ok k, t)
  | None =>
      match wrapped_dek d with
      | None => (Err VaultFileError, t)
      | Some w =>
          if negb (String.eqb (approvedPcr0 (wd_kmsPolicy w)) (pcr0 t)) then (Err KMS_REFUSED, t)
          else match kms_key d with
               | None => (Err VaultFileError, t)
               | Some file =>
                   match gcm_decrypt (fromB64 file) (fromB64 (wd_iv w)) (fromB64 (wd_tag w)) (fromB64 (wd_ciphertext w)) with
                   | None => (Err VaultCipherError, t)
                   | Some k =>
                       (Ok k, {| tee_mode := tee_mode t; tee_buildId := tee_buildId t;
                                 tee_enclaveKeyId := tee_enclaveKeyId t;
                                 tee_ingressPublicKey := tee_ingressPublicKey t;
                                 tee_signingPublicKey := tee_signingPublicKey t;
                                 tee_proverPublicKey := tee_proverPublicKey t;
                                 tee_ingressPrivateKey := tee_ingressPrivateKey t;
                                 tee_signingPrivateKey := tee_signingPrivateKey t;
                                 tee_proverPrivateKey := tee_proverPrivateKey t;
                                 tee_pcrs := tee_pcrs t; tee_policyIds := tee_policyIds t;
                                 tee_vaultKey := Some k |})
                   end
               end
      end
  end.

Definition signReceipt (t : SimulatedTEE) (value : jsval) : res CryptoError string :=
  signCanonical value (tee_signingPrivateKey t).
Definition signProofJournal (t : SimulatedTEE) (value : jsval) : res CryptoError string :=
  signCanonical value (tee_proverPrivateKey t).

Definition fingerprint (t : SimulatedTEE) (credentialId secret : string) : string :=
  String.substring 0 16 (toHex (hmac_sha256 (tee_signingPrivateKey t)
    (str_app ["ctn-credential-fingerprint"; nul; credentialId; nul; secret]))).

Definition openIngress (t : SimulatedTEE) (box : SealedBox) (aad : option string) : option string :=
  hpkeOpen (tee_ingressPrivateKey t) box aad.

Definition unsigned_document (t : SimulatedTEE) (now : Z) : list (string * jsval) :=
  [("moduleId", VStr ("i-sim-enclave-" +:+ String.substring 0 12 (tee_buildId t)));
   ("digest", VStr "SHA384");
   ("pcrs", VObj ((fun kv => (kv.1, VStr kv.2)) <$> tee_pcrs t));
   ("userData", VObj [("ingressPublicKey", VStr (tee_ingressPublicKey t));
                      ("signingPublicKey", VStr (tee_signingPublicKey t))]);
   ("timestamp", vint now);
   ("platformSignature", VStr "");
   ("warning", VStr SIMULATION_WARNING)].

(** [attestation(nonce)] at the time [now], which prints as [iso]. *)
Definition attestation (t : SimulatedTEE) (nonce : option string) (now : Z) (iso : string)
    : res CryptoError AttestationBundle :=
  let document := unsigned_document t now in
  sig ← signCanonical (attested_val document nonce) (tee_signingPrivateKey t);
  Ok {| ab_teeMode := tee_mode t;
        ab_document := obj_set document "platformSignature" (VStr sig);
        ab_enclaveSigningPublicKey := tee_signingPublicKey t;
        ab_ingressPublicKey := tee_ingressPublicKey t;
        ab_enclaveKeyId := tee_enclaveKeyId t;
        ab_enclaveBuildId := tee_buildId t;
        ab_policyIds := tee_policyIds t;
        ab_issuedAt := iso;
        ab_nonce := nonce |}.

(** [attestationDigest()]: over the measurements and the bound keys of a fresh document *)
Definition attestationDigest (t : SimulatedTEE) : string :=
  "0x" +:+ sha256Hex (object_text
    [("pcrs", object_text ((fun kv => (kv.1, quote kv.2)) <$> tee_pcrs t));
     ("userData", object_text [("ingressPublicKey", quote (tee_ingressPublicKey t));
                               ("signingPublicKey", quote (tee_signingPublicKey t))])]).

(** ** Credentials at rest *)
Definition vaultEncrypt (dek iv plaintext : string) : option string :=
  '(ct, tag) ← gcm_encrypt dek iv plaintext;
  Some (toB64 (str_app [iv; tag; ct])).

(** [Buffer.toString("utf8")], which keeps a byte-order mark *)
Definition buffer_text (s : string) : string := encode (points s).

Definition vaultDecrypt (dek blob : string) : option string :=
  let raw := fromB64 blob in
  let iv := String.substring 0 12 raw in
  let tag := String.substring 12 16 raw in
  let ct := String.substring 28 (String.length raw - 28) raw in
  plaintext ← gcm_decrypt dek iv tag ct;
  Some (buffer_text plaintext).

(** ** Custody *)
Context `{!NodeCryptoOk N}.

(** The disk after the first boot of a vault: [dek] under the master key, released
    to the measurement of [t]. *)
Definition sealed_for (t : SimulatedTEE) (dek : string) (d : Disk) : Prop :=
  exists file w, kms_key d = Some file /\ wrapped_dek d = Some w /\
    approvedPcr0 (wd_kmsPolicy w) = pcr0 t /\
    gcm_decrypt (fromB64 file) (fromB64 (wd_iv w)) (fromB64 (wd_tag w)) (fromB64 (wd_ciphertext w)) = Some dek.

Lemma provision_seals t kms dek iv d :
  wrapped_dek d = None -> String.length (fromB64 (default (toB64 kms) (kms_key d))) = 32%nat ->
  exists d', provisionVault t kms dek iv d = Some d' /\ sealed_for t dek d'.
Proof.
  intros Hd Hk. unfold provisionVault, kmsWrap. rewrite Hd.
  set (file := match kms_key d with Some k => k | None => toB64 kms end).
  assert (Hf : String.length (fromB64 file) = 32%nat) by (subst file; by destruct (kms_key d)).
  destruct (gcm_correct _ iv dek Hf) as (ct & tag & He & _ & Hdec). rewrite He. simpl.
  eexists; split; [done|]. eexists _, _. split_and!; try done. simpl. by rewrite !fromB64_toB64.
Qed.

Lemma provision_keeps t t' dek kms dek' iv d : sealed_for t dek d -> provisionVault t' kms dek' iv d = Some d.
Proof.
  intros (file & w & Hf & Hw & _). unfold provisionVault. rewrite Hf, Hw. simpl. f_equal.
  destruct d; simpl in *. congruence.
Qed.

Lemma unseal_sealed t dek d t' : sealed_for t dek d -> tee_vaultKey t' = None ->
  (unsealVaultKey d t').1 = (if decide (pcr0 t' = pcr0 t) then Ok dek else Err KMS_REFUSED).
Proof.
  intros (file & w & Hf & Hw & Hp & Hdec) Hk. unfold unsealVaultKey. rewrite Hk, Hw, Hp.
  destruct (String.eqb_spec (pcr0 t) (pcr0 t')) as [He|Hne]; simpl.
  - rewrite Hf, Hdec. by rewrite decide_True.
  - by rewrite decide_False.
Qed.

Lemma unseal_caches d d' t k :
  (unsealVaultKey d t).1 = Ok k -> (unsealVaultKey d' (unsealVaultKey d t).2).1 = Ok k.
Proof.
  unfold unsealVaultKey. destruct (tee_vaultKey t) as [k'|] eqn:Hk; [simpl; by rewrite Hk|].
  destruct (wrapped_dek d) as [w|]; [|done]. destruct (negb _); [done|].
  destruct (kms_key d) as [f|]; [|done]. destruct (gcm_decrypt _ _ _ _) as [k'|]; [|done].
  simpl. congruence.
Qed.

Lemma vault_roundtrip dek iv plaintext :
  String.length dek = 32%nat -> String.length iv = 12%nat ->
  exists blob, vaultEncrypt dek iv plaintext = Some blob /\ vaultDecrypt dek blob = Some (buffer_text plaintext).
Proof.
  intros Hd Hi. unfold vaultEncrypt, vaultDecrypt.
  destruct (gcm_correct dek iv plaintext Hd) as (ct & tag & He & Ht & Hdec). rewrite He. simpl.
  eexists; split; [done|]. rewrite fromB64_toB64.
  cbn [str_app foldr].
  rewrite (substring_take iv) by done. rewrite (substring_drop iv) by done. rewrite (substring_take tag) by done.
  rewrite <-!str_app_assoc, str_app_nil, (substring_drop (iv +:+ tag)) by (rewrite str_length_app; lia).
  rewrite !str_length_app, Hi, Ht. replace (12 + 16 + String.length ct - 28)%nat with (String.length ct) by lia.
  rewrite substring_all, Hdec. done.
Qed.

(** C35. Custody of the vault key is conditional on the measurement.  Once a first
    boot of [t] has sealed a vault, later boots leave it as it is, and an enclave
    gets the key exactly when its PCR0 is the one [t] had: any other is refused
    before the cipher runs.  What one enclave stored, the next with that
    measurement reads back. *)
Theorem vault_custody t kms dek iv d :
  wrapped_dek d = None -> String.length (fromB64 (default (toB64 kms) (kms_key d))) = 32%nat ->
  String.length dek = 32%nat ->
  exists d', provisionVault t kms dek iv d = Some d' /\
    (forall t' kms' dek' iv', provisionVault t' kms' dek' iv' d' = Some d') /\
    (forall t', tee_vaultKey t' = None ->
       (unsealVaultKey d' t').1 = (if decide (pcr0 t' = pcr0 t) then Ok dek else Err KMS_REFUSED)) /\
    (forall t' k d'', (unsealVaultKey d' t').1 = Ok k -> (unsealVaultKey d'' (unsealVaultKey d' t').2).1 = Ok k) /\
    (forall secret iv', String.length iv' = 12%nat -> encode (points secret) = secret ->
       exists blob, vaultEncrypt dek iv' secret = Some blob /\ vaultDecrypt dek blob = Some secret).
Proof.
  intros Hd Hk Hl. destruct (provision_seals t kms dek iv d Hd Hk) as (d' & Hp & Hs).
  exists d'. split; [done|]. split_and!; intros.
  - by eapply provision_keeps.
  - by apply unseal_sealed.
  - by eapply unseal_caches.
  - match goal with H : encode (points _) = _ |- _ => rename H into Hw end.
    destruct (vault_roundtrip dek iv' secret) as (blob & He & Hdec); [done..|].
    exists blob. unfold buffer_text in Hdec. by rewrite Hw in Hdec.
Qed.
End Tee.

(** ** A concrete cipher for the examples *)
#[export] Instance toy_node : NodeCrypto := {|
  sha384 := toy_hash;
  hmac_sha256 := fun k m => toy_hash (k +:+ m);
  gcm_encrypt := fun key iv p =>
    if (String.length key =? 32)%nat then Some (p, String.substring 0 16 (toy_hash (str_app [key; iv; p]))) else None;
  gcm_decrypt := fun key iv tag ct =>
    if String.eqb tag (String.substring 0 16 (toy_hash (str_app [key; iv; ct]))) then Some ct else None;
|}.

Lemma substring_length n s : (n <= String.length s)%nat -> String.length (String.substring 0 n s) = n.
Proof. revert s; induction n as [|n IH]; intros [|c s]; simpl; intros; try lia. f_equal. apply IH. lia. Qed.

#[export] Instance toy_node_ok : NodeCryptoOk toy_node.
Proof.
  split. intros key iv p Hk. exists p, (String.substring 0 16 (toy_hash (str_app [key; iv; p]))).
  unfold gcm_encrypt, gcm_decrypt, toy_node. rewrite Hk. split_and!; [done| |by rewrite String.eqb_refl].
  apply substring_length. pose proof (sha256_length (C := toy_crypto) (str_app [key; iv; p])) as Hl.
  unfold sha256, toy_crypto in Hl. rewrite Hl. lia.
Qed.

Definition ex_tee : SimulatedTEE :=
  new_SimulatedTEE "build" ["policy"] (toB64 "ingress") (toB64 "ingress") "signing" "prover".
Definition ex_disk : Disk := {| kms_key := None; wrapped_dek := None |}.
Definition ex_dek : string := toy_hash "dek".

Lemma vault_custody_witness : exists d',
  provisionVault ex_tee (toy_hash "kms") ex_dek "123456789012" ex_disk = Some d' /\
  (unsealVaultKey d' ex_tee).1 = Ok ex_dek.
Proof.
  destruct (vault_custody ex_tee (toy_hash "kms") ex_dek "123456789012" ex_disk) as (d' & Hp & _ & Hu & _);
    [reflexivity|vm_compute; reflexivity|vm_compute; reflexivity|].
  exists d'. split; [exact Hp|]. rewrite Hu by reflexivity. rewrite decide_True by reflexivity. reflexivity.
Defined.
