(* ===== verification/EnclaveVerify.v ===== *)
(** * Check-list verification (services/tee-sim/src/verify.ts)

    What a third party can check of a proof receipt, a compute receipt and an
    attestation.  The artifacts under verification come from anywhere, so they
    are [jsval]s; a property read off [null] or [undefined] throws. *)

From S2P Require Import Prelude JsNum Utf8 Json Unicode Canonical Types Crypto Authorize Hpke Tee.
Local Open Scope Z_scope.

Record VerificationCheck : Type := { vc_name : string; vc_pass : bool; vc_detail : jsval }.
Record VerificationResult : Type := { vr_valid : bool; vr_checks : list VerificationCheck }.

Definition chk (name : string) (pass : bool) (detail : jsval) : VerificationCheck :=
  {| vc_name := name; vc_pass := pass; vc_detail := detail |}.

Definition all_pass (checks : list VerificationCheck) : bool := forallb vc_pass checks.

(** [a === b] on parsed JSON: two objects are never the same one. *)
Definition js_strict_eq (a b : jsval) : bool :=
  match a, b with
  | VUndef, VUndef | VNull, VNull => true
  | VBool x, VBool y => Bool.eqb x y
  | VNum x, VNum y => num_eqb x y
  | VStr x, VStr y => String.eqb x y
  | _, _ => false
  end.

(** [Object.keys]: [None] is the TypeError of [null] and [undefined]. *)
Definition index_keys (n : nat) : list string := (fun i => num_to_string (Z.of_nat i)) <$> seq 0 n.
Definition Object_keys (v : jsval) : option (list string) :=
  match v with
  | VObj o => Some o.*1
  | VArr l => Some (index_keys (length l))
  | VStr s => Some (index_keys (Z.to_nat (js_length s)))
  | VBool _ | VNum _ => Some []
  | VNull | VUndef => None
  end.

Section EnclaveVerify.
Context `{U : Unicode} `{C : Crypto} `{H : Hpke} `{N : NodeCrypto}.

(** [verifyCanonical] with a signature read off a JSON value: [verifyDigestHex]
    catches what a non-string does to [fromHex]. *)
Definition verifyCanonical_js (value signature : jsval) (publicKeyHex : string) : res Throw bool :=
  match signature with
  | VStr s => lift_crypto (verifyCanonical value s publicKeyHex)
  | _ => _ ← lift_crypto (canonicalHash value); Ok false
  end.

Record expected_proof : Type := {
  xp_guestImageId : string;
  xp_policyId : string;
  xp_commitment : option string;
  xp_decision : option PolicyDecision;
  xp_proverPublicKey : string;
}.

Definition allowedKeys : list string :=
  ["protocolVersion"; "requestCommitment"; "policyId"; "decision"; "proofNonce"].

Definition verifyProof (proof : jsval) (expected : expected_proof) : res Throw VerificationResult :=
  guestImageId ← lift_get (js_get proof "guestImageId");
  journal ← lift_get (js_get proof "journal");
  let sealed := VObj [("guestImageId", guestImageId); ("journal", journal)] in
  sealValid ← verifyCanonical_js sealed (js_get_opt proof "seal") (xp_proverPublicKey expected);
  policyId ← lift_get (js_get journal "policyId");
  requestCommitment ← lift_get (js_get journal "requestCommitment");
  decision ← lift_get (js_get journal "decision");
  keys ← lift_get (Object_keys journal);
  let expectedDecision := default ALLOW (xp_decision expected) in
  let extraneous := List.filter (fun k => negb (bool_decide (k ∈ allowedKeys))) keys in
  let checks :=
    [chk "proof seal valid" sealValid
       (VStr (if str_is (js_get_opt proof "proofSystem") "risc0" then "RISC Zero receipt"
              else "simulated re-execution seal"));
     chk "guest image id matches Safety Policy v1" (str_is guestImageId (xp_guestImageId expected)) guestImageId;
     chk "journal policy id matches expected policy" (str_is policyId (xp_policyId expected)) policyId] ++
    match xp_commitment expected with
    | Some c => [chk "request commitment matches receipt" (str_is requestCommitment c) requestCommitment]
    | None => []
    end ++
    [chk ("decision is " +:+ decision_str expectedDecision) (str_is decision (decision_str expectedDecision)) VUndef;
     chk "journal contains no prompt-derived fields" (match extraneous with [] => true | _ => false end)
       (match extraneous with [] => VUndef | _ => VStr ("unexpected keys: " +:+ str_join ", " extraneous) end)] in
  Ok {| vr_valid := all_pass checks; vr_checks := checks |}.

(** The checks of the binding that accompanies an artifact. *)
Definition binding_checks (binding signature : jsval) (receiptPolicyId : jsval) (artifactDigest enclaveKey : string)
    : res Throw (list VerificationCheck) :=
  sig_ok ← verifyCanonical_js binding signature enclaveKey;
  digest ← lift_get (js_get binding "artifactDigest");
  let policyId := js_get_opt binding "policyId" in
  let dr := js_get_opt binding "decisionReceiptDigest" in
  Ok [chk "proof binding signature valid under attested enclave signing key" sig_ok VUndef;
      chk "proof binding commits to this artifact digest" (str_is digest artifactDigest) digest;
      chk "proof binding decision id matches the receipt policy id"
        (js_strict_eq policyId receiptPolicyId) VUndef;
      chk "proof binding carries a decision-receipt digest"
        (match dr with VStr s => negb (str_empty s) | _ => false end) VUndef;
      chk "proof binding reports the proof verified"
        (match js_get_opt binding "proofVerified" with VBool true => true | _ => false end &&
         str_is (js_get_opt binding "decision") "ALLOW") VUndef].

(** The checks that tie a receipt to its artifact. *)
Definition artifact_checks (artifact : ProofArtifactV1) (requestCommitment receiptPolicyId embedded : jsval)
    : list VerificationCheck :=
  let journal := pa_decodedJournal artifact in
  let artifactDigest := zkArtifactDigest (pa_receiptBytes artifact) in
  [chk "proof journal commitment equals receipt commitment"
     (str_is requestCommitment (j_requestCommitment journal)) requestCommitment;
   chk "proof policy id equals receipt policy id" (str_is receiptPolicyId (j_policyId journal)) VUndef;
   if str_is embedded "pending" then
     chk "receipt was signed before proving finished" true
       (VStr "expected: proving runs in parallel with inference; the digest is bound by the ProofBindingV2")
   else chk "receipt zkReceiptDigest matches the artifact digest" (str_is embedded artifactDigest) (VStr artifactDigest)].

(** [signed] is the receipt with its signature, [binding] the signed binding. *)
Definition verifyComputeReceipt (signed : jsval) (enclaveKey : string)
    (artifact : option ProofArtifactV1) (binding : option jsval) : res Throw VerificationResult :=
  receipt ← lift_get (js_get signed "receipt");
  sig_ok ← verifyCanonical_js receipt (js_get_opt signed "enclaveSignature") enclaveKey;
  policy ← lift_get (js_get receipt "policy");
  decision ← lift_get (js_get policy "decision");
  let base := [chk "receipt signature valid under attested enclave signing key" sig_ok VUndef;
               chk "receipt policy decision is ALLOW" (str_is decision "ALLOW") VUndef] in
  match artifact with
  | None => Ok {| vr_valid := all_pass base; vr_checks := base |}
  | Some a =>
      let policyId := js_get_opt policy "policyId" in
      let ac := artifact_checks a (js_get_opt receipt "requestCommitment") policyId (js_get_opt policy "zkReceiptDigest") in
      bc ← match binding with
           | None => Ok []
           | Some sb =>
               b ← lift_get (js_get sb "binding");
               binding_checks b (js_get_opt sb "enclaveSignature") policyId
                 (zkArtifactDigest (pa_receiptBytes a)) enclaveKey
           end;
      let checks := base ++ ac ++ bc in
      Ok {| vr_valid := all_pass checks; vr_checks := checks |}
  end.

Record attestation_input : Type := {
  at_document : list (string * jsval);
  at_teeMode : string;
  at_ingressPublicKey : string;
  at_enclaveSigningPublicKey : string;
  at_nonce : option string;
}.

(** A bundle as its recipient holds it. *)
Definition bundle_input (b : AttestationBundle) : attestation_input := {|
  at_document := ab_document b;
  at_teeMode := tee_mode_str (ab_teeMode b);
  at_ingressPublicKey := ab_ingressPublicKey b;
  at_enclaveSigningPublicKey := ab_enclaveSigningPublicKey b;
  at_nonce := ab_nonce b;
|}.

Definition verifyAttestation (bundle : attestation_input) (approvedPcr0 : option string)
    : res Throw VerificationResult :=
  let document := at_document bundle in
  let unsigned := obj_without document "platformSignature" in
  sig_ok ← verifyCanonical_js (attested_val unsigned (at_nonce bundle)) (obj_get document "platformSignature")
             (at_enclaveSigningPublicKey bundle);
  ingress ← lift_get (js_get (obj_get document "userData") "ingressPublicKey");
  signing ← lift_get (js_get (obj_get document "userData") "signingPublicKey");
  let keys :=
    [chk "attestation document signature valid" sig_ok VUndef;
     chk "attested ingress key equals presented ingress key" (str_is ingress (at_ingressPublicKey bundle)) VUndef;
     chk "attested signing key equals presented signing key" (str_is signing (at_enclaveSigningPublicKey bundle)) VUndef] in
  pcr ← match approvedPcr0 with
        | Some p => if str_empty p then Ok []
                    else measured ← lift_get (js_get (obj_get document "pcrs") "0");
                         Ok [chk "PCR0 matches approved measurement" (str_is measured p) measured]
        | None => Ok []
        end;
  let nitro_ := String.eqb (at_teeMode bundle) "nitro" in
  let hw := chk "hardware root of trust" nitro_
              (VStr (if nitro_ then "AWS Nitro attestation chain"
                     else "SIMULATED — key binding verified, but no hardware isolation")) in
  let checks := keys ++ pcr ++ [hw] in
  let cryptographic := List.filter (fun c => negb (String.eqb (vc_name c) "hardware root of trust")) checks in
  Ok {| vr_valid := all_pass cryptographic; vr_checks := checks |}.

(** ** What the checks mean *)

(** The enclave key signed this very value: its canonical text is what was hashed. *)
Definition signed_by (publicKeyHex : string) (value signature : jsval) : Prop :=
  exists text s sig pk,
    canonicalJson value = Ok text /\ signature = VStr s /\ fromHex s = Some sig /\
    fromHex publicKeyHex = Some pk /\ ed_verify sig (sha256 text) pk = Some true.

Lemma verifyCanonical_js_true value signature pk b :
  verifyCanonical_js value signature pk = Ok b -> (b = true <-> signed_by pk value signature).
Proof.
  unfold verifyCanonical_js, signed_by, verifyCanonical, canonicalHash.
  destruct (canonicalJson value) as [text|e]; simpl; [|by destruct signature].
  destruct signature; simpl; intros [= <-]; try (split; [done|]; naive_solver).
  unfold verifyDigestHex, sha256Hex. rewrite fromHex_toHex.
  destruct (fromHex s) as [sig|] eqn:Hs; simpl; [|split; [done|]; naive_solver].
  destruct (fromHex pk) as [k|] eqn:Hk; simpl; [|split; [done|]; naive_solver].
  split.
  - intros Hv. exists text, s, sig, k. split_and!; try done. by destruct (ed_verify _ _ _) as [[]|].
  - intros (? & ? & ? & ? & [= <-] & [= <-] & ? & ? & Hv). simplify_eq. by rewrite Hv.
Qed.

Lemma all_pass_app a b : all_pass (a ++ b) = all_pass a && all_pass b.
Proof. apply forallb_app. Qed.

(** What [verifyComputeReceipt] establishes of a receipt, an artifact and a binding. *)
Definition receipt_ok (signed : jsval) (pk : string) : Prop :=
  signed_by pk (js_get_opt signed "receipt") (js_get_opt signed "enclaveSignature") /\
  js_get_opt (js_get_opt (js_get_opt signed "receipt") "policy") "decision" = VStr "ALLOW".
Definition artifact_ok (signed : jsval) (a : ProofArtifactV1) : Prop :=
  let receipt := js_get_opt signed "receipt" in
  let policy := js_get_opt receipt "policy" in
  js_get_opt receipt "requestCommitment" = VStr (j_requestCommitment (pa_decodedJournal a)) /\
  js_get_opt policy "policyId" = VStr (j_policyId (pa_decodedJournal a)) /\
  (js_get_opt policy "zkReceiptDigest" = VStr "pending" \/
   js_get_opt policy "zkReceiptDigest" = VStr (zkArtifactDigest (pa_receiptBytes a))).
Definition binding_ok (signed sb : jsval) (a : ProofArtifactV1) (pk : string) : Prop :=
  let b := js_get_opt sb "binding" in
  signed_by pk b (js_get_opt sb "enclaveSignature") /\
  js_get_opt b "artifactDigest" = VStr (zkArtifactDigest (pa_receiptBytes a)) /\
  js_strict_eq (js_get_opt b "policyId") (js_get_opt (js_get_opt (js_get_opt signed "receipt") "policy") "policyId") = true /\
  (exists d, js_get_opt b "decisionReceiptDigest" = VStr d /\ d <> "") /\
  js_get_opt b "proofVerified" = VBool true /\
  js_get_opt b "decision" = VStr "ALLOW".

Lemma artifact_checks_pass signed a : 
  let receipt := js_get_opt signed "receipt" in
  let policy := js_get_opt receipt "policy" in
  all_pass (artifact_checks a (js_get_opt receipt "requestCommitment") (js_get_opt policy "policyId")
              (js_get_opt policy "zkReceiptDigest")) = true <-> artifact_ok signed a.
Proof.
  simpl. unfold artifact_checks, artifact_ok, all_pass. simpl.
  rewrite !andb_true_iff, !str_is_true.
  destruct (str_is _ "pending") eqn:Hp; simpl; [apply str_is_true in Hp|apply not_true_iff_false in Hp; rewrite str_is_true in Hp];
    rewrite ?str_is_true; intuition congruence.
Qed.

Lemma binding_checks_pass signed sb a pk checks :
  binding_checks (js_get_opt sb "binding") (js_get_opt sb "enclaveSignature")
    (js_get_opt (js_get_opt (js_get_opt signed "receipt") "policy") "policyId")
    (zkArtifactDigest (pa_receiptBytes a)) pk = Ok checks ->
  (all_pass checks = true <-> binding_ok signed sb a pk).
Proof.
  unfold binding_checks, binding_ok. set (b := js_get_opt sb "binding").
  intros (ok & Hs & (d & Hd & [= <-])%res_bind_Ok)%res_bind_Ok.
  assert (js_get_opt b "artifactDigest" = d) as Hd'.
  { unfold js_get_opt. by destruct (js_get b "artifactDigest"); simplify_eq/=. }
  unfold all_pass. simpl. rewrite !andb_true_iff, !str_is_true, Hd', (verifyCanonical_js_true _ _ _ _ Hs).
  destruct (js_get_opt b "decisionReceiptDigest") as [| | | |dr| |]; simpl; try naive_solver.
  destruct (js_get_opt b "proofVerified") as [| |[]| | | |]; simpl; try naive_solver.
  destruct dr; simpl; naive_solver.
Qed.

(** [verifyComputeReceipt] is valid exactly when the enclave key signed the
    receipt's canonical text and it records an ALLOW, and, as far as they are
    presented, the artifact is about the same commitment and policy and under the
    digest the receipt embeds (or was pending), and the binding is a signed
    statement that this artifact's proof verified for an ALLOW of that policy. *)
Lemma verifyComputeReceipt_spec signed pk artifact binding r :
  verifyComputeReceipt signed pk artifact binding = Ok r ->
  (vr_valid r = true <->
   receipt_ok signed pk /\
   match artifact with
   | None => True
   | Some a => artifact_ok signed a /\
               match binding with None => True | Some sb => binding_ok signed sb a pk end
   end).
Proof.
  unfold verifyComputeReceipt, receipt_ok.
  intros (rec & Hrec & (sok & Hs & (pol & Hpol & (dec & Hdec & Hr)%res_bind_Ok)%res_bind_Ok)%res_bind_Ok)%res_bind_Ok.
  assert (Eget : forall v k x, lift_get (js_get v k) = Ok x -> js_get_opt v k = x).
  { intros v k x. unfold js_get_opt. by destruct (js_get v k); intros; simplify_eq/=. }
  apply Eget in Hrec, Hpol, Hdec. rewrite Hrec, Hpol, Hdec.
  apply verifyCanonical_js_true in Hs.
  destruct artifact as [a|]; simpl in Hr; [|simplify_eq; unfold all_pass; simpl; rewrite !andb_true_iff, str_is_true; tauto].
  apply res_bind_Ok in Hr as (bc & Hbc & [= <-]).
  pose proof (artifact_checks_pass signed a) as Ha. cbv zeta in Ha. rewrite Hrec, Hpol in Ha.
  unfold artifact_checks, all_pass in Ha. simpl in Ha |- *. fold (all_pass bc).
  rewrite !andb_true_iff in Ha. rewrite !andb_true_iff, (str_is_true dec), Hs.
  destruct binding as [sb|]; [|injection Hbc as <-; simpl; tauto].
  apply res_bind_Ok in Hbc as (b & Hb%Eget & Hbc).
  pose proof (binding_checks_pass signed sb a pk bc) as Hbp. rewrite Hb, Hrec, Hpol in Hbp.
  rewrite (Hbp Hbc). tauto.
Qed.

(** [verifyProof], as one list of facts *)
Definition proof_receipt_ok (proof : jsval) (x : expected_proof) : Prop :=
  let journal := js_get_opt proof "journal" in
  signed_by (xp_proverPublicKey x) (VObj [("guestImageId", js_get_opt proof "guestImageId"); ("journal", journal)])
            (js_get_opt proof "seal") /\
  js_get_opt proof "guestImageId" = VStr (xp_guestImageId x) /\
  js_get_opt journal "policyId" = VStr (xp_policyId x) /\
  (forall c, xp_commitment x = Some c -> js_get_opt journal "requestCommitment" = VStr c) /\
  js_get_opt journal "decision" = VStr (decision_str (default ALLOW (xp_decision x))) /\
  (forall keys, Object_keys journal = Some keys -> keys ⊆ allowedKeys).

Lemma extraneous_nil keys :
  match List.filter (fun k => negb (bool_decide (k ∈ allowedKeys))) keys with [] => true | _ => false end = true
  <-> keys ⊆ allowedKeys.
Proof.
  induction keys as [|k keys IH]; simpl; [set_solver|].
  case_bool_decide; simpl; [|set_solver]. rewrite IH. set_solver.
Qed.

(** [verifyProof] is valid exactly when the prover key sealed the image id
    together with the journal, the image, policy, commitment and decision are the
    expected ones (ALLOW unless another decision is expected), and the journal has
    no field beyond the five public ones. *)
Lemma verifyProof_spec proof x r :
  verifyProof proof x = Ok r -> (vr_valid r = true <-> proof_receipt_ok proof x).
Proof.
  unfold verifyProof, proof_receipt_ok.
  assert (Eget : forall v k x, lift_get (js_get v k) = Ok x -> js_get_opt v k = x).
  { intros v k y. unfold js_get_opt. by destruct (js_get v k); intros; simplify_eq/=. }
  intros (g & Hg%Eget & (j & Hj%Eget & (s & Hs & (p & Hp%Eget & (c & Hc%Eget & (d & Hd%Eget & (ks & Hks & Hr)%res_bind_Ok)%res_bind_Ok)%res_bind_Ok)%res_bind_Ok)%res_bind_Ok)%res_bind_Ok)%res_bind_Ok.
  rewrite Hj, Hg, Hp, Hc, Hd. apply verifyCanonical_js_true in Hs.
  assert (Object_keys j = Some ks) as -> by (by destruct (Object_keys j); simplify_eq/=).
  injection Hr as <-. cbn [vr_valid].
  rewrite !all_pass_app. unfold all_pass. cbn [forallb vc_pass chk].
  rewrite !andb_true_iff, !str_is_true, extraneous_nil, Hs.
  destruct (xp_commitment x) as [c'|]; cbn [forallb vc_pass chk];
    rewrite ?andb_true_iff, ?str_is_true; naive_solver.
Qed.

(** ** Attestation *)
Context `{!CryptoOk C}.

Definition hardware_check (r : VerificationResult) : option bool :=
  vc_pass <$> head (List.filter (fun c => String.eqb (vc_name c) "hardware root of trust") (vr_checks r)).

(** A bundle whose keys are the attested ones and whose document, nonce included,
    the presented key signed. *)
Definition attested (b : attestation_input) (approvedPcr0 : option string) : Prop :=
  let document := at_document b in
  signed_by (at_enclaveSigningPublicKey b)
    (attested_val (obj_without document "platformSignature") (at_nonce b)) (obj_get document "platformSignature") /\
  js_get_opt (obj_get document "userData") "ingressPublicKey" = VStr (at_ingressPublicKey b) /\
  js_get_opt (obj_get document "userData") "signingPublicKey" = VStr (at_enclaveSigningPublicKey b) /\
  (forall p, approvedPcr0 = Some p -> p <> "" -> js_get_opt (obj_get document "pcrs") "0" = VStr p).

Lemma verifyAttestation_sound b approved r :
  verifyAttestation b approved = Ok r ->
  (vr_valid r = true <-> attested b approved) /\
  hardware_check r = Some (String.eqb (at_teeMode b) "nitro").
Proof.
  unfold verifyAttestation, attested.
  assert (Eget : forall v k x, lift_get (js_get v k) = Ok x -> js_get_opt v k = x).
  { intros v k y. unfold js_get_opt. by destruct (js_get v k); intros; simplify_eq/=. }
  intros (s & Hs%verifyCanonical_js_true & (i & Hi%Eget & (g & Hg%Eget & (pcr & Hpcr & Hr)%res_bind_Ok)%res_bind_Ok)%res_bind_Ok)%res_bind_Ok.
  rewrite Hi, Hg, <-Hs. injection Hr as <-.
  assert (Hp : (pcr = [] /\ (forall p, approved = Some p -> p = "")) \/
               exists p, approved = Some p /\ p <> "" /\
                 pcr = [chk "PCR0 matches approved measurement"
                          (str_is (js_get_opt (obj_get (at_document b) "pcrs") "0") p)
                          (js_get_opt (obj_get (at_document b) "pcrs") "0")]).
  { destruct approved as [p|]; [|left; by simplify_eq].
    destruct (str_empty p) eqn:Hp; [left; destruct p; naive_solver|].
    right. apply res_bind_Ok in Hpcr as (m & Hm%Eget & [= <-]). exists p. rewrite Hm. destruct p; naive_solver. }
  unfold hardware_check, all_pass.
  destruct Hp as [[-> Hp]|(p & -> & Hne & ->)]; cbn; rewrite ?andb_true_r, ?andb_true_iff, ?str_is_true.
  - split; [|done]. split; [|tauto]. intros Hv. split_and!; try tauto. intros p Hap Hnp. by destruct (Hnp (Hp p Hap)).
  - split; [|done]. split; [|naive_solver]. intros Hv. split_and!; try tauto. intros p' [= <-] _. tauto.
Qed.

Lemma pcrs_ok (l : list (string * string)) :
  is_ok (canonicalJson (VObj ((fun kv => (kv.1, VStr kv.2)) <$> l))) = true.
Proof.
  apply canonicalJson_obj_ok, Forall_fmap, Forall_forall. intros kv _. by right.
Qed.

(** The bytes the enclave signs are the bytes a verifier reconstructs. *)
Lemma attested_text t nonce now sig : Z.abs now <= MAX_SAFE -> exists text,
  canonicalJson (attested_val (unsigned_document t now) nonce) = Ok text /\
  canonicalJson (attested_val (obj_without (obj_set (unsigned_document t now) "platformSignature" sig) "platformSignature") nonce)
    = Ok text.
Proof.
  intros Hn. destruct (canonicalJson (VObj ((fun kv => (kv.1, VStr kv.2)) <$> tee_pcrs t))) as [p|e] eqn:Hp;
    [|by pose proof (pcrs_ok (tee_pcrs t)) as Hk; rewrite Hp in Hk].
  pose proof (canonicalJson_vint now Hn) as Ht.
  unfold unsigned_document, attested_val, obj_without.
  set (m := "i-sim-enclave-" +:+ _). clearbody m. set (w := SIMULATION_WARNING). clearbody w.
  generalize dependent (VObj ((fun kv => (kv.1, VStr kv.2)) <$> tee_pcrs t)). intros pv Hpv.
  generalize dependent (vint now). intros nv Hnv.
  assert (Hu : is_undef pv = false) by (by destruct pv). assert (Hu' : is_undef nv = false) by (by destruct nv).
  destruct nonce as [n|]; cbn -[cle]; rewrite Hpv, Hnv, Hu, Hu'; cbn -[cle];
    repeat (sort_keys; cbn -[cle]); eexists; split; reflexivity.
Qed.

Definition issued_by (t : SimulatedTEE) : Prop :=
  tee_mode t = simulation /\ tee_signingPublicKey t = toHex (ed_public (tee_signingPrivateKey t)) /\
  exists rest, tee_pcrs t = ("0", pcr0 t) :: rest.

Lemma new_tee_issues buildId policyIds pub priv sk pk : issued_by (new_SimulatedTEE buildId policyIds pub priv sk pk).
Proof. split_and!; [done..|]. by eexists. Qed.

Ltac fold_bundle := cbn [bundle_input at_document at_nonce at_teeMode at_ingressPublicKey at_enclaveSigningPublicKey].

(** The bundle the enclave issues, as its recipients check it. *)
Lemma issued_signature t nonce now iso : issued_by t -> Z.abs now <= MAX_SAFE ->
  exists b, attestation t nonce now iso = Ok b /\ ab_nonce b = nonce /\ ab_teeMode b = tee_mode t /\
    ab_ingressPublicKey b = tee_ingressPublicKey t /\ ab_enclaveSigningPublicKey b = tee_signingPublicKey t /\
    ab_enclaveKeyId b = tee_enclaveKeyId t /\
    (forall k, k <> "platformSignature" -> obj_get (ab_document b) k = obj_get (unsigned_document t now) k) /\
    verifyCanonical_js (attested_val (obj_without (ab_document b) "platformSignature") nonce)
      (obj_get (ab_document b) "platformSignature") (ab_enclaveSigningPublicKey b) = Ok true.
Proof.
  intros (_ & Hpub & _) Hn.
  destruct (attested_text t nonce now VUndef Hn) as (text & Htext & _).
  destruct (signCanonical_correct _ (tee_signingPrivateKey t) _ Htext) as (sig & Hsig & _ & _).
  unfold attestation. rewrite Hsig. cbn [mbind res_bind]. eexists; split_and!; [done..| |].
  - intros k Hk. cbn [ab_document]. rewrite obj_get_set. by rewrite (proj2 (String.eqb_neq _ _) Hk).
  - cbn [ab_document ab_enclaveSigningPublicKey].
    change (verifyCanonical_js (attested_val (obj_without (obj_set (unsigned_document t now) "platformSignature" (VStr sig))
                                                          "platformSignature") nonce)
              (VStr sig) (tee_signingPublicKey t) = Ok true).
    destruct (attested_text t nonce now (VStr sig) Hn) as (text' & Htext1 & Htext2).
    pose proof (signCanonical_verify _ _ _ Hsig) as Hver. rewrite Hpub.
    unfold verifyCanonical_js, verifyCanonical, canonicalHash in Hver |- *.
    rewrite Htext1 in Hver. rewrite Htext2. by rewrite Hver.
Qed.

(** C29. An attestation the enclave issues, with or without a freshness nonce,
    verifies for whoever reconstructs the signed bytes from the bundle, exactly
    when no other PCR0 is demanded of it; and the simulation never passes the
    hardware check.  Conversely, whatever bundle verifies was signed, document and
    nonce, under the key it presents, and attests the very keys it presents. *)
Theorem attestation_correct t nonce now iso : issued_by t -> Z.abs now <= MAX_SAFE ->
  (exists b, attestation t nonce now iso = Ok b /\ ab_nonce b = nonce /\
     forall approved, exists r, verifyAttestation (bundle_input b) approved = Ok r /\
       hardware_check r = Some false /\
       (vr_valid r = true <-> forall p, approved = Some p -> p <> "" -> p = pcr0 t)) /\
  (forall b approved r, verifyAttestation b approved = Ok r ->
     (vr_valid r = true <-> attested b approved) /\ hardware_check r = Some (String.eqb (at_teeMode b) "nitro")).
Proof.
  intros (Hmode & Hpub & rest & Hpcrs) Hn. split; [|by apply verifyAttestation_sound].
  destruct (issued_signature t nonce now iso) as (bundle & Hb & Hnonce & Hm & Hi & Hs & _ & Hdoc & Hver); [split_and!; eauto|done|].
  exists bundle. split; [done|split; [done|]]. intros approved.
  assert (Hud : obj_get (ab_document bundle) "userData" = obj_get (unsigned_document t now) "userData") by (by apply Hdoc).
  assert (Hup : obj_get (ab_document bundle) "pcrs" = obj_get (unsigned_document t now) "pcrs") by (by apply Hdoc).
  assert (exists r, verifyAttestation (bundle_input bundle) approved = Ok r) as [r Hr].
  { unfold verifyAttestation. fold_bundle. rewrite Hnonce, Hver, Hud, Hup. cbn.
    destruct approved as [p|]; [|by eexists]. destruct (str_empty p); cbn; by eexists. }
  exists r. split; [done|]. destruct (verifyAttestation_sound _ _ _ Hr) as [Hv Hh].
  split; [by rewrite Hh; fold_bundle; rewrite Hm, Hmode|].
  rewrite Hv. unfold attested. fold_bundle. rewrite Hud, Hup, Hnonce, <-(verifyCanonical_js_true _ _ _ _ Hver), Hi, Hs. cbn. rewrite Hpcrs. cbn.
  split; [|intros Ha; split_and!; try done].
  - intros (_ & _ & _ & Hp) p -> Hne. specialize (Hp p eq_refl Hne). congruence.
  - intros p Hap Hne. by rewrite (Ha p Hap Hne).
Qed.
End EnclaveVerify.

(** The presented bundle, for the clients of this file. *)
Ltac fold_bundle := cbn [bundle_input at_document at_nonce at_teeMode at_ingressPublicKey at_enclaveSigningPublicKey].

Lemma attestation_correct_witness :
  exists b, attestation ex_tee (Some "n") 1700000000000 "t" = Ok b /\ ab_nonce b = Some "n".
Proof.
  destruct (attestation_correct ex_tee (Some "n") 1700000000000 "t") as [(b & Hb & Hn & _) _].
  - apply new_tee_issues.
  - vm_compute. discriminate.
  - exists b. split; [exact Hb|exact Hn].
Defined.
