(* ===== verification/ProverClient.v ===== *)
(** * The client of the prover daemon (services/tee-sim/src/prover-client.ts)

    One HTTP exchange per call, no retry.  [fetch] and the timer are the function
    [net] from a request to what comes back; what the code makes of every outcome
    is modelled.  A request body is the value given to [JSON.stringify]. *)

From S2P Require Import Prelude JsNum Utf8 Json Types Unicode Canonical Crypto.
Local Open Scope Z_scope.

(** [ProverUnavailableError] is the daemon being down; a daemon that answers with a
    fault is a plain error. *)
Inductive ProverError : Type :=
| ProverUnavailableError (message : string)
| ProverFault (message : string).

Definition prover_message (e : ProverError) : string :=
  match e with ProverUnavailableError m | ProverFault m => m end.

Record fetch_request : Type := {
  fr_url : string;
  fr_method : string;
  fr_contentType : option string;
  fr_body : option jsval;
  fr_redirect : string;
  fr_timeoutMs : Z;
}.

Inductive body_result : Type := body_json (v : jsval) | body_aborted | body_unparseable.
Inductive fetch_result : Type :=
| fetch_rejected
| fetch_response (status : Z) (body : body_result).

Definition DEFAULT_TIMEOUT_MS : Z := 3000.
Definition DEFAULT_POLL_TIMEOUT_MS : Z := 20000.

Record ProverClient : Type := { pc_baseUrl : string; pc_timeoutMs : Z }.

(** [replace(/\/+$/, "")] *)
Fixpoint strip_slashes (l : list Ascii.ascii) : list Ascii.ascii :=
  match l with
  | c :: l' => if Ascii.eqb c (byte_of 47) then strip_slashes l' else l
  | [] => []
  end.
Definition strip_trailing (s : string) : string := unchars (rev (strip_slashes (rev (chars s)))).

Definition new_ProverClient (baseUrl : string) (timeoutMs : option Z) : ProverClient :=
  {| pc_baseUrl := strip_trailing baseUrl; pc_timeoutMs := default DEFAULT_TIMEOUT_MS timeoutMs |}.

(** [encodeURIComponent] *)
Definition uri_unreserved (c : Ascii.ascii) : bool :=
  let n := code c in
  (48 <=? n) && (n <=? 57) || (65 <=? n) && (n <=? 90) || (97 <=? n) && (n <=? 122) ||
  bool_decide (n ∈ code <$> chars "-_.!~*'()").
Definition upper_hex (d : Z) : Ascii.ascii := byte_of (if d <? 10 then 48 + d else 55 + d).
Definition uri_byte (c : Ascii.ascii) : list Ascii.ascii :=
  if uri_unreserved c then [c]
  else [byte_of 37; upper_hex (Z.shiftr (code c) 4); upper_hex (Z.land (code c) 15)].
Definition encodeURIComponent (s : string) : string := unchars (chars (encode (points s)) ≫= uri_byte).

(** [toBase64]: the string's UTF-8 bytes *)
Definition toBase64 (s : string) : string := toB64 s.

Section ProverClient.
Context (net : fetch_request -> fetch_result).

Definition build_request (c : ProverClient) (method path : string) (body : option jsval) (timeoutMs : Z) : fetch_request := {|
  fr_url := pc_baseUrl c +:+ path;
  fr_method := method;
  fr_contentType := match body with Some _ => Some "application/json" | None => None end;
  fr_body := body;
  fr_redirect := "manual";
  fr_timeoutMs := timeoutMs;
|}.

Definition request (c : ProverClient) (method path : string) (body : option jsval) (timeoutMs : Z)
    : res ProverError jsval :=
  match net (build_request c method path body timeoutMs) with
  | fetch_rejected => Err (ProverUnavailableError (str_app ["prover "; method; " "; path; " unreachable"]))
  | fetch_response status b =>
      if negb ((200 <=? status) && (status <=? 299))
      then Err (ProverFault (str_app ["prover "; method; " "; path; " responded "; num_to_string status]))
      else match b with
           | body_json v => Ok v
           | body_aborted => Err (ProverUnavailableError (str_app ["prover "; method; " "; path; " timed out"]))
           | body_unparseable => Err (ProverFault (str_app ["prover "; method; " "; path; " returned an unparseable body"]))
           end
  end.

Definition health (c : ProverClient) : res ProverError jsval :=
  request c "GET" "/health" None (pc_timeoutMs c).

Definition execute_body (canonicalRequestBytes requestNonceHex proofNonce : string) (emitScores : bool) : jsval :=
  VObj [("protocolVersion", vint 1);
        ("canonicalRequestBytesB64", VStr (toBase64 canonicalRequestBytes));
        ("requestNonceHex", VStr requestNonceHex);
        ("proofNonce", VStr proofNonce);
        ("emitScores", VBool emitScores)].

Definition execute (c : ProverClient) (canonicalRequestBytes requestNonceHex proofNonce : string) (emitScores : bool)
    : res ProverError jsval :=
  request c "POST" "/execute" (Some (execute_body canonicalRequestBytes requestNonceHex proofNonce emitScores))
    (pc_timeoutMs c).

Definition prove_body (canonicalRequestBytes requestNonceHex proofNonce : string) : jsval :=
  VObj [("protocolVersion", vint 1);
        ("canonicalRequestBytesB64", VStr (toBase64 canonicalRequestBytes));
        ("requestNonceHex", VStr requestNonceHex);
        ("proofNonce", VStr proofNonce)].

Definition prove (c : ProverClient) (canonicalRequestBytes requestNonceHex proofNonce : string) : res ProverError jsval :=
  request c "POST" "/prove" (Some (prove_body canonicalRequestBytes requestNonceHex proofNonce)) (pc_timeoutMs c).

Definition pollJob (c : ProverClient) (jobId : string) : res ProverError jsval :=
  request c "GET" ("/jobs/" +:+ encodeURIComponent jobId) None (Z.max (pc_timeoutMs c) DEFAULT_POLL_TIMEOUT_MS).
End ProverClient.

(** ** Outcomes *)
Definition daemon_answered (r : fetch_result) (v : jsval) : Prop :=
  exists status, 200 <= status <= 299 /\ r = fetch_response status (body_json v).
Definition daemon_down (r : fetch_result) : Prop :=
  r = fetch_rejected \/ exists status, 200 <= status <= 299 /\ r = fetch_response status body_aborted.

(** A call of the prover client sends one request and classifies its outcome:
    a value exactly for a parsed 2xx, [PROVER_UNAVAILABLE] exactly when the
    transport failed or the body read timed out, and a plain fault otherwise, a
    redirect included.  What was sent never reaches the error: the message is the
    same for any two bodies that meet the same outcome. *)
Lemma prover_request_outcome net c method path body timeoutMs :
  let r := net (build_request c method path body timeoutMs) in
  let o := request net c method path body timeoutMs in
  (forall v, o = Ok v <-> daemon_answered r v) /\
  ((exists m, o = Err (ProverUnavailableError m)) <-> daemon_down r) /\
  (forall net' body', net' (build_request c method path body' timeoutMs) = r ->
     request net' c method path body' timeoutMs = o) /\
  fr_redirect (build_request c method path body timeoutMs) = "manual".
Proof.
  simpl. unfold request, daemon_answered, daemon_down.
  split_and!; [| |by intros net' body' ->|done];
    destruct (net _) as [|status [v| |]]; simpl;
    try destruct (Z.leb_spec 200 status), (Z.leb_spec status 299); simpl; naive_solver lia.
Qed.

(** ** Addressing a job *)
Definition uri_digit (c : Ascii.ascii) : option Z :=
  let n := code c in
  if (48 <=? n) && (n <=? 57) then Some (n - 48) else
  if (65 <=? n) && (n <=? 70) then Some (n - 55) else None.

(** [decodeURIComponent] on the bytes, as the daemon's router undoes the encoding *)
Fixpoint uri_decode (l : list Ascii.ascii) : list Ascii.ascii :=
  match l with
  | c :: ((a :: b :: l') as l'') =>
      if Ascii.eqb c (byte_of 37)
      then match uri_digit a, uri_digit b with
           | Some x, Some y => byte_of (16 * x + y) :: uri_decode l'
           | _, _ => c :: uri_decode l''
           end
      else c :: uri_decode l''
  | c :: l' => c :: uri_decode l'
  | [] => []
  end.

Definition safe_in_path (c : Ascii.ascii) : Prop := code c ∉ code <$> chars "/?#&=+:;@ \".

Lemma all_ascii_safe : forallb (fun c => forallb (fun d => negb (bool_decide (code d ∈ code <$> chars "/?#&=+:;@ \"))) (uri_byte c))
  (byte_of ∘ Z.of_nat <$> seq 0 256) = true.
Proof. vm_compute. reflexivity. Qed.

Lemma all_ascii_decode : forallb (fun c => match uri_byte c with
    | [d] => negb (Ascii.eqb d (byte_of 37)) && Ascii.eqb d c
    | [p; a; b] => Ascii.eqb p (byte_of 37) && bool_decide ((x ← uri_digit a; y ← uri_digit b; Some (byte_of (16 * x + y))) = Some c)
    | _ => false end)
  (byte_of ∘ Z.of_nat <$> seq 0 256) = true.
Proof. vm_compute. reflexivity. Qed.

Lemma ascii_in_table (c : Ascii.ascii) : In c (byte_of ∘ Z.of_nat <$> seq 0 256).
Proof.
  apply list_elem_of_In, list_elem_of_fmap. exists (Z.to_nat (code c)). pose proof (code_range c).
  split; [|apply elem_of_seq; lia]. simpl. rewrite Z2Nat.id by lia. unfold byte_of, code.
  rewrite N2Z.id. symmetry. apply Ascii.ascii_N_embedding.
Qed.

Lemma uri_byte_safe c : Forall safe_in_path (uri_byte c).
Proof.
  pose proof (proj1 (forallb_forall _ _) all_ascii_safe c (ascii_in_table c)) as Hc. cbv beta in Hc.
  apply Forall_forall. intros d Hd%list_elem_of_In.
  pose proof (proj1 (forallb_forall _ _) Hc d Hd) as Hs. cbv beta in Hs.
  apply negb_true_iff, bool_decide_eq_false in Hs. exact Hs.
Qed.

Lemma uri_decode_byte c l : uri_decode (uri_byte c ++ l) = c :: uri_decode l.
Proof.
  pose proof (proj1 (forallb_forall _ _) all_ascii_decode c (ascii_in_table c)) as Hc. cbv beta in Hc.
  destruct (uri_byte c) as [|d [|a [|b [|]]]]; try done.
  - apply andb_true_iff in Hc as [Hp Hd%Ascii.eqb_eq]. subst d. apply negb_true_iff in Hp.
    cbn [app uri_decode]. destruct l as [|a [|b l]]; [done|done|]. cbn [uri_decode]. by rewrite Hp.
  - apply andb_true_iff in Hc as [Hp Hd]. apply bool_decide_eq_true in Hd.
    cbn [app uri_decode]. rewrite Hp. destruct (uri_digit a) as [x|]; [|done]. destruct (uri_digit b) as [y|]; [|done].
    simpl in Hd. by injection Hd as ->.
Qed.

Lemma uri_decode_encode l : uri_decode (l ≫= uri_byte) = l.
Proof. induction l as [|c l IH]; [done|]. cbn [mbind list_bind]. rewrite uri_decode_byte. by f_equal. Qed.

(** A job id, which the daemon chose, is one path segment: whatever its bytes,
    the address polled is the daemon's base address
    without trailing slashes, then "/jobs/", then an encoding without any
    delimiter that decodes back to the id (a dot segment is left to the URL
    parser); and the request bytes of a prove or
    execute call decode back to the canonical request. *)
Lemma job_address_confined (c : ProverClient) jobId timeoutMs canonicalRequest nonce proofNonce emit :
  encode (points jobId) = jobId ->
  let segment := encodeURIComponent jobId in
  fr_url (build_request c "GET" ("/jobs/" +:+ segment) None timeoutMs) = pc_baseUrl c +:+ "/jobs/" +:+ segment /\
  Forall safe_in_path (chars segment) /\
  unchars (uri_decode (chars segment)) = jobId /\
  (exists b64,
     js_get_opt (execute_body canonicalRequest nonce proofNonce emit) "canonicalRequestBytesB64" = VStr b64 /\
     js_get_opt (prove_body canonicalRequest nonce proofNonce) "canonicalRequestBytesB64" = VStr b64 /\
     fromB64 b64 = canonicalRequest).
Proof.
  intros Hw. simpl. unfold encodeURIComponent. rewrite Hw, chars_unchars. split_and!; [done| | |].
  - rewrite Forall_bind. apply Forall_forall. intros x _. apply uri_byte_safe.
  - rewrite uri_decode_encode. apply unchars_chars.
  - exists (toBase64 canonicalRequest). split_and!; [done..|]. apply fromB64_toB64.
Qed.

Lemma job_address_confined_witness :
  encodeURIComponent "../a?b é" = "..%2Fa%3Fb%20%C3%A9" /\
  Forall safe_in_path (chars (encodeURIComponent "../a?b é")).
Proof.
  split; [vm_compute; reflexivity|].
  apply (job_address_confined (new_ProverClient "http://127.0.0.1:4500//" None) "../a?b é" 3000 "{}" "0x1" "0x2" false).
  vm_compute. reflexivity.
Defined.
