(* ===== verification/Prover.v ===== *)
(** * Proof generation (services/tee-sim/src/prover.ts)

    [Prover.run] is an asynchronous function: it runs to an [await], and resumes
    with what it awaited.  A task is such a function stopped at one of its awaits
    ([pc]); [begin] and [resume] are its synchronous segments.  Every started
    request has its own task, and a run of the prover is any interleaving of their
    resumptions over one shared map of records.  The clock is in microseconds,
    read once per segment. *)

From S2P Require Import Prelude JsNum Utf8 Json Unicode Canonical Types Crypto Policy JsMap Hpke Tee ProofVerify ProverClient.
Local Open Scope Z_scope.

Record ProofWitness : Type := {
  wt_canonicalRequest : string;
  wt_requestNonce : string;
  wt_requestCommitment : string;
  wt_decision : PolicyDecision;
  wt_decisionReceipt : PolicyDecisionReceiptV1;
}.

Inductive ProofState : Type :=
| PQueued (startedAt : Z)
| PProving (startedAt : Z)
| PGenerated (artifact : ProofArtifactV1) (artifactDigest : string) (proofMs : Z)
| PVerified (artifact : ProofArtifactV1) (artifactDigest decisionReceiptDigest : string)
    (binding : SignedProofBindingV2) (verification : SubprocessVerification) (proofMs : Z)
| PFailed (error : string) (proofMs : Z).

Definition status (s : ProofState) : ProofStatus :=
  match s with
  | PQueued _ => QUEUED
  | PProving _ => PROVING
  | PGenerated _ _ _ => GENERATED
  | PVerified _ _ _ _ _ _ => VERIFIED
  | PFailed _ _ => FAILED
  end.

Record ProofRecord : Type := { rec_state : ProofState; rec_proofNonce : string }.

(** A job as the daemon reports it; its status is any string. *)
Record JobStatus : Type := {
  job_status : string;
  job_receiptB64 : option string;
  job_error : option string;
  job_devMode : bool;
}.

Record ReleaseManifest : Type := {
  mf_imageIdHex : string; mf_policyId : string; mf_journalVersion : Z; mf_risc0Version : string;
}.

Record Prover : Type := {
  pv_tee : SimulatedTEE;
  pv_rules : PolicyRules;
  pv_manifest : ReleaseManifest;
  pv_verifierPaths : VerifierPaths;
  pv_ceilingMs : Z;
  pv_pollIntervalMs : Z;
}.
Definition DEFAULT_CEILING_MS : Z := 15 * 60 * 1000.
Definition DEFAULT_POLL_INTERVAL_MS : Z := 1000.

(** The map of records, and the calls of [onState] so far. *)
Record PState : Type := { ps_records : list (string * ProofRecord); ps_trace : list (string * ProofStatus) }.

(** What a task waits for. *)
Inductive pc : Type :=
| Enqueuing
| Polling (jobId : string)
| Sleeping (jobId : string)
| Verifying (artifact : ProofArtifactV1) (artifactDigest : string).

Record Task : Type := {
  tk_requestId : string;
  tk_witness : ProofWitness;
  tk_startedAt : Z;
  tk_proofNonce : string;
  tk_pc : pc;
}.
Definition at_pc (t : Task) (c : pc) : Task :=
  {| tk_requestId := tk_requestId t; tk_witness := tk_witness t; tk_startedAt := tk_startedAt t;
     tk_proofNonce := tk_proofNonce t; tk_pc := c |}.

(** What it is resumed with. *)
Inductive Wake : Type :=
| WProve (r : res ProverError string)
| WPoll (r : res ProverError JobStatus)
| WSlept
| WVerify (env : subprocess_env).

(** [Math.round(now - startedAt)], in milliseconds *)
Definition elapsedMs (now startedAt : Z) : Z := (now - startedAt + 500) / 1000.

Definition get (ps : PState) (requestId : string) : option ProofRecord := map_get (ps_records ps) requestId.

Definition setState (requestId : string) (state : ProofState) (proofNonce : string) (ps : PState) : PState :=
  let prev := status ∘ rec_state <$> get ps requestId in
  {| ps_records := map_set (ps_records ps) requestId {| rec_state := state; rec_proofNonce := proofNonce |};
     ps_trace := if decide (prev = Some (status state)) then ps_trace ps
                 else ps_trace ps ++ [(requestId, status state)] |}.

Section Prover.
Context `{U : Unicode} `{C : Crypto} `{H : Hpke} `{N : NodeCrypto}.
(** The messages of the errors thrown by the engine and by the protocol library. *)
Context (json_error type_error : string -> string) (crypto_message : CryptoError -> string).
Context (p : Prover).

Definition fail (t : Task) (error : string) (now : Z) (ps : PState) : PState :=
  setState (tk_requestId t) (PFailed error (elapsedMs now (tk_startedAt t))) (tk_proofNonce t) ps.

(** The contents of the messages, which the cast types as strings. *)
Definition parsed_contents (text : string) : res string (list string) :=
  match JSON_parse text with
  | None => Err (json_error text)
  | Some parsed =>
      match js_get_opt parsed "messages" with
      | VArr ms => mapM_res (fun m => match js_get_opt m "content" with
                                      | VStr s => Ok s
                                      | _ => Err (type_error text)
                                      end) ms
      | _ => Err (type_error text)
      end
  end.

Definition reexec (w : ProofWitness) : res string PolicyDecision :=
  contents ← parsed_contents (wt_canonicalRequest w);
  Ok (pe_decision (evaluateRequest (pv_rules p) contents)).

Definition begin (t : Task) (now : Z) (ps : PState) : PState * option pc :=
  match reexec (tk_witness t) with
  | Err m => (fail t m now ps, None)
  | Ok d => if decide (d = wt_decision (tk_witness t)) then (ps, Some Enqueuing)
            else (fail t "guest re-execution disagreed with the gate verdict (non-determinism)" now ps, None)
  end.

Definition minutes (ms : Z) : string := num_to_string ((ms + 30000) / 60000).

Definition loop_head (t : Task) (jobId : string) (now : Z) (ps : PState) : PState * option pc :=
  if pv_ceilingMs p * 1000 <? now - tk_startedAt t
  then (fail t (str_app ["proving exceeded the "; minutes (pv_ceilingMs p); "-minute ceiling"]) now ps, None)
  else (ps, Some (Polling jobId)).

Definition artifact_of (t : Task) (receiptBytes : string) : ProofArtifactV1 := {|
  pa_risc0Version := mf_risc0Version (pv_manifest p);
  pa_receiptBytes := receiptBytes;
  pa_imageId := mf_imageIdHex (pv_manifest p);
  pa_journalVersion := mf_journalVersion (pv_manifest p);
  pa_decodedJournal := {| j_protocolVersion := 1;
                          j_requestCommitment := wt_requestCommitment (tk_witness t);
                          j_policyId := mf_policyId (pv_manifest p);
                          j_decision := wt_decision (tk_witness t);
                          j_proofNonce := tk_proofNonce t |};
|}.

Definition on_poll (t : Task) (jobId : string) (job : JobStatus) (now : Z) (ps : PState) : PState * option pc :=
  if job_devMode job then (fail t "dev-mode receipt rejected (RISC0_DEV_MODE)" now ps, None) else
  if String.eqb (job_status job) "QUEUED" then
    (setState (tk_requestId t) (PQueued (tk_startedAt t)) (tk_proofNonce t) ps, Some (Sleeping jobId)) else
  if String.eqb (job_status job) "PROVING" then
    (setState (tk_requestId t) (PProving (tk_startedAt t)) (tk_proofNonce t) ps, Some (Sleeping jobId)) else
  if String.eqb (job_status job) "FAILED" then
    (fail t ("prover daemon reported FAILED: " +:+ default "unknown" (job_error job)) now ps, None) else
  match job_receiptB64 job with
  | Some b64 =>
      if str_empty b64 then (fail t "daemon reported GENERATED without a receipt" now ps, None) else
      let receiptBytes := fromB64 b64 in
      let artifact := artifact_of t receiptBytes in
      let artifactDigest := zkArtifactDigest receiptBytes in
      (setState (tk_requestId t) (PGenerated artifact artifactDigest (elapsedMs now (tk_startedAt t))) (tk_proofNonce t) ps,
       Some (Verifying artifact artifactDigest))
  | None => (fail t "daemon reported GENERATED without a receipt" now ps, None)
  end.

Definition expectations (t : Task) : ProofExpectations :=
  {| ex_commitment := wt_requestCommitment (tk_witness t);
     ex_decision := wt_decision (tk_witness t); ex_proofNonce := tk_proofNonce t |}.

Definition binding_of (t : Task) (artifactDigest receiptDigest : string) : ProofBindingV2 := {|
  pb_decisionReceiptDigest := receiptDigest;
  pb_artifactDigest := artifactDigest;
  pb_imageId := mf_imageIdHex (pv_manifest p);
  pb_policyId := mf_policyId (pv_manifest p);
  pb_decision := wt_decision (tk_witness t);
  pb_proofVerified := true;
|}.

Definition sign_binding (t : Task) (artifactDigest : string) : res CryptoError (string * SignedProofBindingV2) :=
  receiptDigest ← decisionReceiptDigest (wt_decisionReceipt (tk_witness t));
  let binding := binding_of t artifactDigest receiptDigest in
  sig ← signReceipt (pv_tee p) (proof_binding_val binding);
  Ok (receiptDigest, {| spb_binding := binding; spb_enclaveSignature := sig |}).

Definition on_verified (t : Task) (artifact : ProofArtifactV1) (artifactDigest : string)
    (verification : SubprocessVerification) (now : Z) (ps : PState) : PState :=
  if negb (sv_ok verification) then
    fail t (str_app ["server-side verification rejected the proof (";
                     default "unknown check" (sv_firstFailure verification); ")"]) now ps
  else
    match sign_binding t artifactDigest with
    | Err e => fail t (crypto_message e) now ps
    | Ok (receiptDigest, signed) =>
        setState (tk_requestId t)
          (PVerified artifact artifactDigest receiptDigest signed verification (elapsedMs now (tk_startedAt t)))
          (tk_proofNonce t) ps
    end.

(** The segment after an await; [None] when the task is over. *)
Definition resume (t : Task) (w : Wake) (now : Z) (ps : PState) : PState * option pc :=
  match tk_pc t, w with
  | Enqueuing, WProve (Ok jobId) => loop_head t jobId now ps
  | Enqueuing, WProve (Err (ProverUnavailableError _)) =>
      (fail t "PROVER_UNAVAILABLE: the prover daemon was unreachable at enqueue" now ps, None)
  | Enqueuing, WProve (Err (ProverFault m)) => (fail t m now ps, None)
  | Polling jobId, WPoll (Ok job) => on_poll t jobId job now ps
  | Polling jobId, WPoll (Err (ProverUnavailableError _)) =>
      (fail t "PROVER_UNAVAILABLE: the prover daemon became unreachable during proving" now ps, None)
  | Polling jobId, WPoll (Err (ProverFault m)) => (fail t m now ps, None)
  | Sleeping jobId, WSlept => loop_head t jobId now ps
  | Verifying artifact digest, WVerify env =>
      let v := runReferenceVerify env (pa_receiptBytes artifact) (expectations t) (pv_verifierPaths p) in
      (on_verified t artifact digest v now ps, None)
  | c, _ => (ps, Some c)
  end.

(** ** The prover as a whole *)
Inductive Event : Type :=
| Start (requestId : string) (w : ProofWitness) (proofNonce : string) (now : Z)
| Resume (task : nat) (w : Wake) (now : Z).

Record System : Type := { sy_state : PState; sy_tasks : list (option Task) }.
Definition sys_init : System := {| sy_state := {| ps_records := []; ps_trace := [] |}; sy_tasks := [] |}.

(** [start]: the record, the notification, and the first segment of [run]. [onState]
    is called here whatever the record was. *)
Definition start (requestId : string) (w : ProofWitness) (proofNonce : string) (now : Z) (ps : PState)
    : PState * option Task :=
  let t := {| tk_requestId := requestId; tk_witness := w; tk_startedAt := now; tk_proofNonce := proofNonce; tk_pc := Enqueuing |} in
  let ps := {| ps_records := map_set (ps_records ps) requestId
                               {| rec_state := PQueued now; rec_proofNonce := proofNonce |};
               ps_trace := ps_trace ps ++ [(requestId, QUEUED)] |} in
  let '(ps, c) := begin t now ps in (ps, at_pc t <$> c).

Definition sys_step (s : System) (e : Event) : System :=
  match e with
  | Start requestId w proofNonce now =>
      let '(ps, t) := start requestId w proofNonce now (sy_state s) in
      {| sy_state := ps; sy_tasks := sy_tasks s ++ [t] |}
  | Resume i w now =>
      match sy_tasks s !! i with
      | Some (Some t) =>
          let '(ps, c) := resume t w now (sy_state s) in
          {| sy_state := ps; sy_tasks := <[i := at_pc t <$> c]> (sy_tasks s) |}
      | _ => s
      end
  end.
Definition sys_run (evs : list Event) : System := fold_left sys_step evs sys_init.

(** ** What a recorded proof rests on *)
Definition mk_task (requestId : string) (w : ProofWitness) (proofNonce : string) (now : Z) : Task :=
  {| tk_requestId := requestId; tk_witness := w; tk_startedAt := now; tk_proofNonce := proofNonce; tk_pc := Enqueuing |}.

(** The artifact is the pinned identity and the gate's journal around the receipt
    bytes the daemon returned. *)
Definition artifact_built (t : Task) (a : ProofArtifactV1) (digest : string) : Prop :=
  a = artifact_of t (pa_receiptBytes a) /\ digest = zkArtifactDigest (pa_receiptBytes a).

(** The task [t] was started by an event, and its re-execution agreed with the gate. *)
Definition started (evs : list Event) (t : Task) : Prop :=
  Start (tk_requestId t) (tk_witness t) (tk_proofNonce t) (tk_startedAt t) ∈ evs /\
  reexec (tk_witness t) = Ok (wt_decision (tk_witness t)).

Definition verified_by_reference (evs : list Event) (t : Task) (a : ProofArtifactV1) : Prop :=
  exists i env now, Resume i (WVerify env) now ∈ evs /\
    verifier_accepts env (pa_receiptBytes a) (expectations t) (pv_verifierPaths p).

Definition record_ok (evs : list Event) (requestId : string) (r : ProofRecord) : Prop :=
  match rec_state r with
  | PGenerated a d _ =>
      exists w now, let t := mk_task requestId w (rec_proofNonce r) now in
        started evs t /\ artifact_built t a d
  | PVerified a d rd b v _ =>
      exists w now, let t := mk_task requestId w (rec_proofNonce r) now in
        started evs t /\ artifact_built t a d /\ verified_by_reference evs t a /\
        decisionReceiptDigest (wt_decisionReceipt w) = Ok rd /\
        spb_binding b = binding_of t d rd /\
        verifyCanonical (proof_binding_val (spb_binding b)) (spb_enclaveSignature b)
          (toHex (ed_public (tee_signingPrivateKey (pv_tee p)))) = Ok true
  | _ => True
  end.

Definition records_ok (evs : list Event) (ps : PState) : Prop :=
  forall requestId r, get ps requestId = Some r -> record_ok evs requestId r.

Definition task_ok (evs : list Event) (t : Task) : Prop :=
  started evs t /\
  match tk_pc t with Verifying a d => artifact_built t a d | _ => True end.

Lemma started_more evs evs' t : evs ⊆ evs' -> started evs t -> started evs' t.
Proof. intros Hs [H1 H2]. split; auto. Qed.

Lemma record_ok_more evs evs' k r : evs ⊆ evs' -> record_ok evs k r -> record_ok evs' k r.
Proof.
  intros Hs. unfold record_ok, verified_by_reference. destruct (rec_state r); try done.
  - intros (w & now & H1 & H2). exists w, now. split; [by eapply started_more|done].
  - intros (w & now & H1 & H2 & (i & env & now' & H3 & H4) & H5). exists w, now.
    split; [by eapply started_more|]. split; [done|]. split; [|done]. exists i, env, now'. auto.
Qed.

Lemma get_setState k st n ps k' :
  get (setState k st n ps) k' = if decide (k' = k) then Some {| rec_state := st; rec_proofNonce := n |} else get ps k'.
Proof.
  unfold get, setState. simpl. case_decide as Hk; [subst; apply map_get_set|]. apply map_get_set_ne. congruence.
Qed.

Lemma setState_ok evs k st n ps :
  record_ok evs k {| rec_state := st; rec_proofNonce := n |} -> records_ok evs ps -> records_ok evs (setState k st n ps).
Proof.
  intros Hr Hps k' r'. rewrite get_setState. case_decide as Hk; [intros [= <-]; by subst|apply Hps].
Qed.

Lemma fail_ok evs t m now ps : records_ok evs ps -> records_ok evs (fail t m now ps).
Proof. by apply setState_ok. Qed.

Lemma task_as_started t : mk_task (tk_requestId t) (tk_witness t) (tk_proofNonce t) (tk_startedAt t) = at_pc t Enqueuing.
Proof. done. Qed.

Context `{!CryptoOk C}.

Lemma on_verified_ok evs t a d env now ps i :
  task_ok evs (at_pc t (Verifying a d)) -> Resume i (WVerify env) now ∈ evs -> records_ok evs ps ->
  records_ok evs (on_verified t a d
    (runReferenceVerify env (pa_receiptBytes a) (expectations t) (pv_verifierPaths p)) now ps).
Proof.
  intros [Hst Ha] Hev Hps. unfold on_verified.
  pose proof (runReferenceVerify_ok env (pa_receiptBytes a) (expectations t) (pv_verifierPaths p)) as (Hok & _).
  destruct (sv_ok _) eqn:Hv; cbn [negb]; [|by apply fail_ok].
  destruct (sign_binding t d) as [[rd b]|e] eqn:Hb; [|by apply fail_ok].
  apply setState_ok; [|done]. unfold record_ok. cbn [rec_state rec_proofNonce].
  exists (tk_witness t), (tk_startedAt t). cbv zeta. rewrite task_as_started.
  split; [exact Hst|]. split; [exact Ha|]. split; [by exists i, env, now; split; [|apply Hok]|].
  unfold sign_binding in Hb. apply res_bind_Ok in Hb as (rd' & Hrd & (sig & Hsig & [= <- <-])%res_bind_Ok).
  split; [done|]. split; [done|]. by apply signCanonical_verify.
Qed.

Lemma loop_head_ok evs t j now ps :
  task_ok evs t -> records_ok evs ps ->
  records_ok evs (loop_head t j now ps).1 /\
  (forall c, (loop_head t j now ps).2 = Some c -> task_ok evs (at_pc t c)).
Proof.
  intros [Hst _] Hps. unfold loop_head. destruct (_ <? _); simpl.
  - split; [by apply fail_ok|done].
  - split; [done|]. intros c [= <-]. by split.
Qed.

Lemma on_poll_ok evs t j job now ps :
  task_ok evs t -> records_ok evs ps ->
  records_ok evs (on_poll t j job now ps).1 /\
  (forall c, (on_poll t j job now ps).2 = Some c -> task_ok evs (at_pc t c)).
Proof.
  intros [Hst _] Hps. unfold on_poll.
  destruct (job_devMode job); [split; [by apply fail_ok|done]|].
  destruct (String.eqb (job_status job) "QUEUED"); [split; [by apply setState_ok|intros c [= <-]; by split]|].
  destruct (String.eqb (job_status job) "PROVING"); [split; [by apply setState_ok|intros c [= <-]; by split]|].
  destruct (String.eqb (job_status job) "FAILED"); [split; [by apply fail_ok|done]|].
  destruct (job_receiptB64 job) as [b64|]; [|split; [by apply fail_ok|done]].
  destruct (str_empty b64); [split; [by apply fail_ok|done]|]. split.
  - apply setState_ok; [|done]. exists (tk_witness t), (tk_startedAt t). by split.
  - intros c [= <-]. split; [done|]. by split.
Qed.

Lemma resume_ok evs t w now ps i :
  task_ok evs t -> Resume i w now ∈ evs -> records_ok evs ps ->
  records_ok evs (resume t w now ps).1 /\
  (forall c, (resume t w now ps).2 = Some c -> task_ok evs (at_pc t c)).
Proof.
  intros Ht Hev Hps.
  assert (Hsame : forall c, tk_pc t = c -> task_ok evs (at_pc t c)) by (intros c <-; by destruct t).
  unfold resume. destruct (tk_pc t) as [|j|j|a d] eqn:Hpc;
    destruct w as [[jid|[m|m]]|[job|[m|m]]| |env]; simpl;
    try (split; [by apply fail_ok|done]);
    try (split; [done|intros c [= <-]; by apply Hsame]).
  - by apply loop_head_ok.
  - by apply on_poll_ok.
  - by apply loop_head_ok.
  - split; [|done]. eapply on_verified_ok; [by apply Hsame|done|done].
Qed.

Definition system_ok (evs : list Event) (s : System) : Prop :=
  records_ok evs (sy_state s) /\ (forall i t, sy_tasks s !! i = Some (Some t) -> task_ok evs t).

Lemma system_ok_more evs evs' s : evs ⊆ evs' -> system_ok evs s -> system_ok evs' s.
Proof.
  intros Hs [H1 H2]. split.
  - intros k r Hk. eapply record_ok_more; [done|by apply H1].
  - intros i t Hi. destruct (H2 i t Hi) as [Hst Hpc]. split; [by eapply started_more|done].
Qed.

Lemma sys_step_ok evs s e : e ∈ evs -> system_ok evs s -> system_ok evs (sys_step s e).
Proof.
  intros He [Hrec Htasks]. destruct e as [k w n now|i w now]; simpl.
  - unfold start, begin. cbn [tk_witness].
    set (t0 := {| tk_requestId := k |}).
    set (ps0 := {| ps_records := _; ps_trace := _ |}).
    assert (Hps0 : records_ok evs ps0).
    { intros k' r. unfold get, ps0. simpl. destruct (decide (k' = k)) as [->|Hne].
      - rewrite map_get_set. by intros [= <-].
      - rewrite map_get_set_ne by done. apply Hrec. }
    assert (Happ : forall o, (forall t, o = Some t -> task_ok evs t) ->
              forall i t, (sy_tasks s ++ [o]) !! i = Some (Some t) -> task_ok evs t).
    { intros o Ho i t Hi. apply lookup_app_Some in Hi as [Hi|[_ Hi]]; [by eapply Htasks|].
      apply list_lookup_singleton_Some in Hi as [_ Hi]. by apply Ho. }
    destruct (reexec w) as [d|m] eqn:Hre; simpl.
    + case_decide as Hd; simpl.
      * split; [done|]. apply Happ. intros t [= <-]. split; [split; [done|by subst d]|done].
      * split; [by apply fail_ok|]. by apply Happ.
    + split; [by apply fail_ok|]. by apply Happ.
  - destruct (sy_tasks s !! i) as [[t|]|] eqn:Hi; [|done|done].
    destruct (resume_ok evs t w now (sy_state s) i) as [H1 H2]; [by eapply Htasks|done|done|].
    destruct (resume t w now (sy_state s)) as [ps c]. split; [done|]. simpl.
    intros i' t' Hi'. destruct (decide (i' = i)) as [->|Hne].
    + rewrite list_lookup_insert_eq in Hi' by (by eapply lookup_lt_Some). destruct c as [c|]; [|done].
      injection Hi' as <-. by apply H2.
    + rewrite list_lookup_insert_ne in Hi' by done. by eapply Htasks.
Qed.

Lemma sys_run_ok evs : system_ok evs (sys_run evs).
Proof.
  unfold sys_run. induction evs as [|e evs IH] using rev_ind.
  - split; [by intros ??|by intros ??].
  - rewrite fold_left_app. simpl. apply sys_step_ok; [set_solver|].
    eapply system_ok_more; [|exact IH]. set_solver.
Qed.

(** C22. However the tasks of the prover interleave, a record says GENERATED or
    VERIFIED only of a request that was started with that nonce and whose verdict
    an independent re-execution confirmed, and it carries the pinned identity, the
    gate's own journal and the digest of the receipt bytes.  It says VERIFIED only
    if the reference verifier, run on those bytes and the gate's commitment,
    decision and nonce, exited 0; only then does a binding exist, it is about this
    very decision receipt and artifact, and it verifies under the enclave key. *)
Theorem prover_sound evs requestId r :
  get (sy_state (sys_run evs)) requestId = Some r -> record_ok evs requestId r.
Proof. destruct (sys_run_ok evs) as [H1 _]. apply H1. Qed.

(** ** The life of a record *)
Definition terminal (s : ProofStatus) : bool := match s with VERIFIED | FAILED => true | _ => false end.

(** The transitions a record may make. *)
Definition next (a b : ProofStatus) : bool :=
  match a, b with
  | QUEUED, (PROVING | GENERATED | FAILED) => true
  | PROVING, (QUEUED | GENERATED | FAILED) => true
  | GENERATED, (VERIFIED | FAILED) => true
  | _, _ => false
  end.

Fixpoint lifecycle (l : list ProofStatus) : Prop :=
  match l with
  | a :: ((b :: _) as l') => next a b = true /\ lifecycle l'
  | _ => True
  end.

Lemma lifecycle_snoc l a b : lifecycle (l ++ [a]) -> next a b = true -> lifecycle (l ++ [a; b]).
Proof.
  induction l as [|x l IH]; simpl; [done|]. destruct l as [|y l]; simpl in *.
  - tauto.
  - intros [H1 H2] Hn. split; [exact H1|by apply IH].
Qed.

Definition notified (requestId : string) (ps : PState) : list ProofStatus :=
  snd <$> List.filter (fun e => String.eqb e.1 requestId) (ps_trace ps).

(** The state a waiting task's record has. *)
Definition agrees (c : pc) (s : ProofState) : Prop :=
  match c with
  | Enqueuing => status s = QUEUED
  | Polling _ | Sleeping _ => status s = QUEUED \/ status s = PROVING
  | Verifying a d => exists ms, s = PGenerated a d ms
  end.

Definition may_become (s s' : ProofStatus) : Prop := s' = s \/ next s s' = true.

(** A segment leaves its record where it is or moves it once, and where it ends
    the record is terminal. *)
Definition moves (t : Task) (s : ProofState) (ps : PState) (out : PState * option pc) : Prop :=
  (out.1 = ps /\ exists c, out.2 = Some c /\ agrees c s) \/
  (exists st, out.1 = setState (tk_requestId t) st (tk_proofNonce t) ps /\ may_become (status s) (status st) /\
     match out.2 with Some c => agrees c st | None => terminal (status st) = true end).

Lemma moves_fail t s m now ps : status s <> VERIFIED -> status s <> FAILED ->
  moves t s ps (fail t m now ps, None).
Proof. intros. right. eexists. split; [done|]. split; [|done]. right. by destruct s. Qed.

Lemma resume_moves t w now ps s : agrees (tk_pc t) s -> moves t s ps (resume t w now ps).
Proof.
  intros Ha. assert (status s <> VERIFIED /\ status s <> FAILED) as (H1 & H2).
  { destruct (tk_pc t); simpl in Ha; try (destruct Ha as [? ->]; done); intuition congruence. }
  assert (Hloop : forall j, (status s = QUEUED \/ status s = PROVING) -> moves t s ps (loop_head t j now ps)).
  { intros j Hs. unfold loop_head. destruct (_ <? _); [by apply moves_fail|]. left. split; [done|]. by eexists. }
  assert (Hset : forall st j, (status s = QUEUED \/ status s = PROVING) -> status st = QUEUED \/ status st = PROVING ->
            moves t s ps (setState (tk_requestId t) st (tk_proofNonce t) ps, Some (Sleeping j))).
  { intros st j Hs Hst. right. exists st. split; [done|]. split; [|done]. unfold may_become.
    destruct Hs as [-> | ->], Hst as [-> | ->]; auto. }
  unfold resume. destruct (tk_pc t) as [|j|j|a d] eqn:Hpc; simpl in Ha;
    destruct w as [[jid|[m|m]]|[job|[m|m]]| |env];
    try (by apply moves_fail); try (left; split; [done|]; eexists; split; [done|exact Ha]).
  - by apply Hloop; left.
  - unfold on_poll. destruct (job_devMode job); [by apply moves_fail|].
    destruct (String.eqb (job_status job) "QUEUED"); [apply Hset; auto|].
    destruct (String.eqb (job_status job) "PROVING"); [apply Hset; auto|].
    destruct (String.eqb (job_status job) "FAILED"); [by apply moves_fail|].
    destruct (job_receiptB64 job) as [b64|]; [|by apply moves_fail].
    destruct (str_empty b64); [by apply moves_fail|]. right. eexists. split; [done|]. split; [|by eexists].
    right. by destruct Ha as [-> | ->].
  - by apply Hloop.
  - unfold on_verified. destruct (negb _); [by apply moves_fail|].
    destruct (sign_binding t d) as [[rd b]|e]; [|by apply moves_fail].
    right. eexists. split; [done|]. split; [|done]. right. by destruct Ha as [? ->].
Qed.

Lemma notified_setState k st n ps r :
  notified r (setState k st n ps) =
  if decide (r = k /\ status ∘ rec_state <$> get ps k <> Some (status st)) then notified r ps ++ [status st] else notified r ps.
Proof.
  unfold notified, setState. simpl. destruct (decide (_ <$> get ps k = Some (status st))) as [He|Hne].
  - rewrite decide_False by (intros [_ Hx]; by rewrite He in Hx). done.
  - rewrite List.filter_app, fmap_app. simpl. destruct (String.eqb_spec k r) as [->|Hk]; simpl.
    + by rewrite decide_True.
    + rewrite app_nil_r, decide_False by (intros [Hx _]; by rewrite Hx in Hk). done.
Qed.

(** The record of [r], its notifications and the task that drives it agree. *)
Definition tracked (r : string) (s : System) : Prop :=
  exists rc, get (sy_state s) r = Some rc /\
    (exists l, notified r (sy_state s) = l ++ [status (rec_state rc)] /\ head (l ++ [status (rec_state rc)]) = Some QUEUED) /\
    lifecycle (notified r (sy_state s)) /\
    exists i0, (forall i t, sy_tasks s !! i = Some (Some t) -> tk_requestId t = r -> i = i0) /\
      match sy_tasks s !! i0 with
      | Some (Some t) => tk_requestId t = r /\ agrees (tk_pc t) (rec_state rc)
      | Some None => terminal (status (rec_state rc)) = true
      | None => False
      end.

Definition untouched (r : string) (s : System) : Prop :=
  get (sy_state s) r = None /\ notified r (sy_state s) = [] /\
  (forall i t, sy_tasks s !! i = Some (Some t) -> tk_requestId t <> r).

Lemma setState_tracks t s ps st rc l :
  get ps (tk_requestId t) = Some rc -> status (rec_state rc) = s ->
  notified (tk_requestId t) ps = l ++ [s] -> head (l ++ [s]) = Some QUEUED -> lifecycle (notified (tk_requestId t) ps) ->
  may_become s (status st) ->
  let ps' := setState (tk_requestId t) st (tk_proofNonce t) ps in
  (exists l', notified (tk_requestId t) ps' = l' ++ [status st] /\ head (l' ++ [status st]) = Some QUEUED) /\
  lifecycle (notified (tk_requestId t) ps').
Proof.
  intros Hg Hs Hn Hh Hl Hm. cbv zeta. rewrite notified_setState, Hg. simpl. rewrite Hs.
  destruct (decide (s = status st)) as [He|Hne].
  - rewrite decide_False by (intros [_ Hx]; by rewrite He in Hx). rewrite <-He. split; [by exists l|done].
  - rewrite decide_True by (split; [done|congruence]). rewrite Hn. split.
    + exists (l ++ [s]). split; [done|]. destruct l; [done|exact Hh].
    + rewrite <-app_assoc. simpl. apply lifecycle_snoc; [by rewrite <-Hn|]. destruct Hm as [Hm|Hm]; [congruence|done].
Qed.

(** A segment touches no record but its own. *)
Definition own (t : Task) (ps ps' : PState) : Prop :=
  ps' = ps \/ exists st, ps' = setState (tk_requestId t) st (tk_proofNonce t) ps.

Lemma own_fail t m now ps : own t ps (fail t m now ps).
Proof. right. by eexists. Qed.

Lemma resume_own t w now ps : own t ps (resume t w now ps).1.
Proof.
  assert (Hloop : forall j, own t ps (loop_head t j now ps).1).
  { intros j. unfold loop_head. destruct (_ <? _); [apply own_fail|by left]. }
  unfold resume. destruct (tk_pc t), w as [[jid|[m|m]]|[job|[m|m]]| |env]; simpl;
    try apply own_fail; try apply Hloop; try by left.
  - unfold on_poll. repeat case_match; simpl; try apply own_fail; right; by eexists.
  - unfold on_verified. repeat case_match; simpl; try apply own_fail; right; by eexists.
Qed.

Lemma own_other t ps ps' r : own t ps ps' -> r <> tk_requestId t -> get ps' r = get ps r /\ notified r ps' = notified r ps.
Proof.
  intros [->|[st ->]] Hr; [done|]. rewrite get_setState, notified_setState.
  rewrite !decide_False; [done|naive_solver|done].
Qed.

Lemma start_other k w n now ps r : r <> k ->
  get (start k w n now ps).1 r = get ps r /\ notified r (start k w n now ps).1 = notified r ps.
Proof.
  intros Hr. unfold start. set (t := {| tk_requestId := k |}). set (ps0 := {| ps_records := _ |}).
  assert (H0 : get ps0 r = get ps r /\ notified r ps0 = notified r ps).
  { unfold get, notified, ps0. simpl. rewrite map_get_set_ne by done. split; [done|].
    rewrite List.filter_app. simpl. destruct (String.eqb_spec k r); [congruence|]. by rewrite app_nil_r. }
  assert (Hb : own t ps0 (begin t now ps0).1).
  { unfold begin. repeat case_match; simpl; try apply own_fail. by left. }
  destruct (begin t now ps0) as [ps' c]. simpl in *.
  destruct (own_other _ _ _ r Hb Hr) as [-> ->]. exact H0.
Qed.

Lemma start_task k w n now ps t : (start k w n now ps).2 = Some t -> tk_requestId t = k.
Proof.
  unfold start. destruct (begin _ now _) as [ps' [c|]]; [|done]. simpl. by intros [= <-].
Qed.

Definition starts (r : string) (e : Event) : bool :=
  match e with Start k _ _ _ => String.eqb k r | Resume _ _ _ => false end.

Lemma sys_step_other r s e : starts r e = false ->
  (forall i w now t, e = Resume i w now -> sy_tasks s !! i = Some (Some t) -> tk_requestId t <> r) ->
  get (sy_state (sys_step s e)) r = get (sy_state s) r /\
  notified r (sy_state (sys_step s e)) = notified r (sy_state s) /\
  (forall i t, tk_requestId t = r -> sy_tasks (sys_step s e) !! i = Some (Some t) -> sy_tasks s !! i = Some (Some t)).
Proof.
  intros Hs Ht. destruct e as [k w n now|i w now]; simpl in *.
  - apply String.eqb_neq in Hs. pose proof (start_other k w n now (sy_state s) r) as Ho.
    pose proof (start_task k w n now (sy_state s)) as Hk.
    destruct (start k w n now (sy_state s)) as [ps o]. simpl in *. destruct Ho as [-> ->]; [done|].
    split_and!; [done..|]. intros i t Hr Hi. apply lookup_app_Some in Hi as [Hi|[_ Hi]]; [done|].
    apply list_lookup_singleton_Some in Hi as [_ ->]. specialize (Hk t eq_refl). congruence.
  - destruct (sy_tasks s !! i) as [[t|]|] eqn:Hi; [|done|done].
    pose proof (resume_own t w now (sy_state s)) as Ho. destruct (resume t w now (sy_state s)) as [ps c]. simpl in *.
    assert (Hne : r <> tk_requestId t) by (intros ->; by eapply Ht).
    destruct (own_other _ _ _ r Ho Hne) as [-> ->]. split_and!; [done..|].
    intros i' t' Hr Hi'. destruct (decide (i' = i)) as [->|Hni].
    + rewrite list_lookup_insert_eq in Hi' by (by eapply lookup_lt_Some). destruct c; [|done].
      injection Hi' as <-. simpl in Hr. congruence.
    + by rewrite list_lookup_insert_ne in Hi'.
Qed.

(** Once its task is gone, a record stays as it is. *)
Definition settled (r : string) (rc : ProofRecord) (s : System) : Prop :=
  get (sy_state s) r = Some rc /\ (forall i t, sy_tasks s !! i = Some (Some t) -> tk_requestId t <> r).

Lemma settled_step r rc s e : starts r e = false -> settled r rc s -> settled r rc (sys_step s e).
Proof.
  intros He [Hg Ht]. destruct (sys_step_other r s e He) as (H1 & _ & H3).
  { intros; by eapply Ht. }
  split; [by rewrite H1|]. intros i t Hi Hr. by eapply Ht, Hr; apply (H3 i t Hr Hi).
Qed.

Lemma settled_run r rc s evs : Forall (fun e => starts r e = false) evs ->
  settled r rc s -> settled r rc (fold_left sys_step evs s).
Proof.
  revert s; induction evs as [|e evs IH]; intros s; [done|]. inversion_clear 1. simpl.
  intros Hs. apply IH; [done|]. by apply settled_step.
Qed.

Lemma untouched_step r s e : starts r e = false -> untouched r s -> untouched r (sys_step s e).
Proof.
  intros He (Hg & Hn & Ht). destruct (sys_step_other r s e He) as (H1 & H2 & H3).
  { intros; by eapply Ht. }
  split_and!; [by rewrite H1|by rewrite H2|]. intros i t Hi Hr. by eapply Ht, Hr; apply (H3 i t Hr Hi).
Qed.

Lemma tracked_start r s w n now : untouched r s -> tracked r (sys_step s (Start r w n now)).
Proof.
  intros (Hg & Hn & Ht). simpl. unfold start.
  set (t := {| tk_requestId := r |}). set (ps0 := {| ps_records := _ |}).
  assert (H0 : get ps0 r = Some {| rec_state := PQueued now; rec_proofNonce := n |}) by apply map_get_set.
  assert (Hn0 : notified r ps0 = [QUEUED]).
  { unfold notified, ps0 in *. simpl. rewrite List.filter_app, fmap_app, Hn. simpl. by rewrite String.eqb_refl. }
  assert (Hlast : forall o i t', (sy_tasks s ++ [o]) !! i = Some (Some t') -> tk_requestId t' = r -> i = length (sy_tasks s)).
  { intros o i t' Hi Hr. apply lookup_app_Some in Hi as [Hi|[Hl Hi]]; [by destruct (Ht _ _ Hi)|].
    apply list_lookup_singleton_Some in Hi as [Hi _]. lia. }
  assert (Hfail : forall m, tracked r {| sy_state := fail t m now ps0; sy_tasks := sy_tasks s ++ [None] |}).
  { intros m. unfold fail. eexists. split; [by apply map_get_set|]. cbn [sy_state sy_tasks rec_state status].
    destruct (setState_tracks t QUEUED ps0 (PFailed m (elapsedMs now (tk_startedAt t)))
                {| rec_state := PQueued now; rec_proofNonce := n |} []) as [Hl Hc]; try done.
    { change (tk_requestId t) with r. by rewrite Hn0. }
    { by right. }
    split; [exact Hl|]. split; [exact Hc|]. exists (length (sy_tasks s)). split; [apply Hlast|].
    by rewrite list_lookup_middle. }
  unfold begin. destruct (reexec _) as [d|m]; simpl; [|apply Hfail].
  case_decide; simpl; [|apply Hfail].
  eexists. split; [exact H0|]. cbn [sy_state sy_tasks rec_state status]. rewrite Hn0. split; [by exists []|]. split; [done|].
  exists (length (sy_tasks s)). split; [apply Hlast|]. by rewrite list_lookup_middle.
Qed.

Lemma tracked_resume r s i w now : tracked r s -> tracked r (sys_step s (Resume i w now)).
Proof.
  intros (rc & Hg & (l & Hn & Hh) & Hl & i0 & Huniq & Hi0).
  destruct (sy_tasks s !! i) as [[t|]|] eqn:Hi; [|simpl; rewrite Hi; by exists rc; eauto 10..].
  destruct (decide (tk_requestId t = r)) as [Hr|Hr].
  - pose proof (Huniq i t Hi Hr) as ->. rewrite Hi in Hi0. destruct Hi0 as [_ Ha].
    simpl. rewrite Hi. pose proof (resume_moves t w now (sy_state s) _ Ha) as Hm.
    assert (Hlen : (i0 < length (sy_tasks s))%nat) by (by eapply lookup_lt_Some).
    destruct (resume t w now (sy_state s)) as [ps c]. cbn [sy_state sy_tasks].
    assert (Hu : forall i t', <[i0:=at_pc t <$> c]> (sy_tasks s) !! i = Some (Some t') -> tk_requestId t' = r -> i = i0).
    { intros i t' Hi' Hr'. destruct (decide (i = i0)) as [->|Hne]; [done|].
      rewrite list_lookup_insert_ne in Hi' by done. by eapply Huniq. }
    destruct Hm as [[Hps (c' & Hc & Ha')]|(st & Hps & Hmay & Hc)]; cbn [fst snd] in *; subst ps.
    + exists rc. split; [done|]. split; [by exists l|]. split; [done|]. exists i0. split; [exact Hu|].
      cbn [sy_state sy_tasks]. rewrite list_lookup_insert_eq by done. by rewrite Hc.
    + subst r. eexists. split; [by apply map_get_set|]. cbn [rec_state].
      destruct (setState_tracks t (status (rec_state rc)) (sy_state s) st rc l) as [H1 H2]; try done.
      split; [exact H1|]. split; [exact H2|]. exists i0. split; [exact Hu|].
      cbn [sy_state sy_tasks]. rewrite list_lookup_insert_eq by done. by destruct c.
  - destruct (sys_step_other r s (Resume i w now)) as (H1 & H2 & H3); [done|intros; simplify_eq; congruence|].
    exists rc. rewrite H1, H2. split; [done|]. split; [by exists l|]. split; [done|]. exists i0. split.
    + intros i' t' Hi' Hr'. eapply Huniq; [|done]. by apply H3.
    + simpl. rewrite Hi. destruct (resume t w now (sy_state s)) as [ps c]. simpl.
      rewrite list_lookup_insert_ne; [exact Hi0|]. intros ->. rewrite Hi in Hi0. by destruct Hi0.
Qed.

Lemma tracked_step r s e : starts r e = false -> tracked r s -> tracked r (sys_step s e).
Proof.
  destruct e as [k w n now|i w now]; [|intros _; apply tracked_resume].
  intros Hk. cbn [starts] in Hk. apply String.eqb_neq in Hk.
  intros (rc & Hg & Hn & Hl & i0 & Huniq & Hi0).
  destruct (sys_step_other r s (Start k w n now)) as (H1 & H2 & H3); [by apply String.eqb_neq|done|].
  exists rc. rewrite H1, H2. split; [done|]. split; [done|]. split; [done|]. exists i0. split.
  - intros i' t' Hi' Hr'. eapply Huniq; [|done]. by apply H3.
  - simpl. destruct (start k w n now (sy_state s)) as [ps o]. simpl.
    destruct (sy_tasks s !! i0) as [o'|] eqn:Ho; [|done]. by rewrite (lookup_app_l_Some _ _ _ _ Ho).
Qed.

Lemma run_split evs r : length (List.filter (starts r) evs) = 1%nat ->
  exists a w n now b, evs = a ++ Start r w n now :: b /\
    Forall (fun e => starts r e = false) a /\ Forall (fun e => starts r e = false) b.
Proof.
  induction evs as [|e evs IH]; simpl; [done|]. destruct (starts r e) eqn:He; simpl.
  - intros [= Hnil%nil_length_inv]. destruct e as [k w n now|]; [|done]. apply String.eqb_eq in He as ->.
    exists [], w, n, now, evs. split_and!; [done..|]. apply Forall_forall. intros x Hx.
    destruct (starts r x) eqn:Hs; [|done].
    assert (In x (List.filter (starts r) evs)) as Hin by (apply filter_In; split; [by apply list_elem_of_In|done]).
    by rewrite Hnil in Hin.
  - intros H1. destruct (IH H1) as (a & w & n & now & b & -> & Ha & Hb). exists (e :: a), w, n, now, b.
    split_and!; [done|by constructor|done].
Qed.

Lemma fold_untouched r evs s : Forall (fun e => starts r e = false) evs ->
  untouched r s -> untouched r (fold_left sys_step evs s).
Proof.
  revert s; induction evs as [|e evs IH]; intros s; [done|]. inversion_clear 1. simpl.
  intros Hs. apply IH; [done|]. by apply untouched_step.
Qed.
Lemma fold_tracked r evs s : Forall (fun e => starts r e = false) evs ->
  tracked r s -> tracked r (fold_left sys_step evs s).
Proof.
  revert s; induction evs as [|e evs IH]; intros s; [done|]. inversion_clear 1. simpl.
  intros Hs. apply IH; [done|]. by apply tracked_step.
Qed.

Lemma sys_run_tracked evs r : length (List.filter (starts r) evs) = 1%nat -> tracked r (sys_run evs).
Proof.
  intros H1. destruct (run_split evs r H1) as (a & w & n & now & b & -> & Ha & Hb).
  unfold sys_run. rewrite fold_left_app. cbn [fold_left]. apply fold_tracked; [done|]. apply tracked_start.
  apply fold_untouched; [done|]. by split_and!; [| |intros i t Hi; destruct i].
Qed.

(** The five-state life of a proof: for a request started once, in any
    interleaving with any others, the notifications start at QUEUED, follow only
    the transitions QUEUED <-> PROVING, to GENERATED, to VERIFIED, and to FAILED
    from any of the others, and the last one is the record's status.  A terminal
    record is never rewritten by anything that happens later. *)
Lemma prover_lifecycle evs r :
  length (List.filter (starts r) evs) = 1%nat ->
  exists rc, get (sy_state (sys_run evs)) r = Some rc /\
    let l := notified r (sy_state (sys_run evs)) in
    head l = Some QUEUED /\ last l = Some (status (rec_state rc)) /\ lifecycle l /\
    (terminal (status (rec_state rc)) = true ->
     forall later, Forall (fun e => starts r e = false) later ->
       get (sy_state (sys_run (evs ++ later))) r = Some rc).
Proof.
  intros H1. destruct (sys_run_tracked evs r H1) as (rc & Hg & (l & Hn & Hh) & Hl & i0 & Hu & Hi0).
  exists rc. split; [done|]. cbv zeta. rewrite Hn. split; [done|]. split; [by rewrite last_snoc|].
  split; [by rewrite <-Hn|]. intros Hterm later Hlater. unfold sys_run. rewrite fold_left_app.
  apply (settled_run r rc); [done|]. split; [done|]. intros i t Hi Hr. pose proof (Hu i t Hi Hr) as ->.
  unfold sys_run in Hi0. rewrite Hi in Hi0. destruct Hi0 as [_ Ha]. revert Ha Hterm.
  destruct (tk_pc t); simpl; destruct (rec_state rc); naive_solver.
Qed.

(** ** The digest of a proof

    Once a record has an artifact, every later state of it is about that artifact,
    or FAILED. *)
Definition digest_kept (r digest : string) (s : System) : Prop := forall rc, get (sy_state s) r = Some rc ->
  match rec_state rc with
  | PGenerated _ d _ | PVerified _ d _ _ _ _ => d = digest
  | PFailed _ _ => True
  | PQueued _ | PProving _ => False
  end.

Lemma digest_kept_step r digest s e : starts r e = false -> tracked r s -> digest_kept r digest s -> digest_kept r digest (sys_step s e).
Proof.
  intros He (rc & Hg & _ & _ & i0 & Hu & Hi0) Hd.
  assert (Hother : (forall i w now t, e = Resume i w now -> sy_tasks s !! i = Some (Some t) -> tk_requestId t <> r) ->
    digest_kept r digest (sys_step s e)).
  { intros Ht. destruct (sys_step_other r s e He Ht) as [Heq _]. unfold digest_kept. by rewrite Heq. }
  destruct e as [k w n now|i w now]; [by apply Hother|].
  destruct (sy_tasks s !! i) as [[t|]|] eqn:Hi; [|by simpl; rewrite Hi..].
  destruct (decide (tk_requestId t = r)) as [Hr|Hr]; [|apply Hother; intros ???? [= <- _ _]; rewrite Hi; by intros [= <-]].
  pose proof (Hu i t Hi Hr) as ->. rewrite Hi in Hi0. destruct Hi0 as [_ Ha]. specialize (Hd rc Hg) as Hrc.
  assert (exists a ms, tk_pc t = Verifying a digest /\ rec_state rc = PGenerated a digest ms) as (a & ms & Hpc & _).
  { destruct (tk_pc t); simpl in Ha; [destruct (rec_state rc); naive_solver..|]. destruct Ha as [ms Ha]. rewrite Ha in Hrc. subst. by eexists _, _. }
  simpl. rewrite Hi. unfold resume. rewrite Hpc. destruct w as [?|?| |env]; cbn [sy_state]; [exact Hd..|].
  unfold on_verified, fail. repeat case_match; intros rc'; cbn [sy_state]; rewrite get_setState, decide_True by done; by intros [= <-].
Qed.

Lemma digest_kept_run r digest evs s : Forall (fun e => starts r e = false) evs -> tracked r s -> digest_kept r digest s ->
  digest_kept r digest (fold_left sys_step evs s).
Proof.
  revert s; induction evs as [|e evs IH]; intros s; [done|]. inversion_clear 1. simpl. intros Ht Hd.
  apply IH; [done|by apply tracked_step|by apply digest_kept_step].
Qed.

(** What was recorded earlier agrees with the artifact verified in the end. *)
Lemma earlier_digest evs later r a dg rd b v ms nonce : length (List.filter (starts r) (evs ++ later)) = 1%nat ->
  get (sy_state (sys_run (evs ++ later))) r = Some {| rec_state := PVerified a dg rd b v ms; rec_proofNonce := nonce |} ->
  forall rc, get (sy_state (sys_run evs)) r = Some rc ->
    match rec_state rc with PGenerated _ d _ | PVerified _ d _ _ _ _ => d = dg | _ => True end.
Proof.
  intros H1 Hend rc Hrc. rewrite List.filter_app, List.length_app in H1.
  assert (Hnone : forall l, length (List.filter (starts r) l) = 0%nat -> Forall (fun e => starts r e = false) l).
  { intros l Hl%nil_length_inv. apply List.Forall_forall. intros e He. destruct (starts r e) eqn:Hs; [|done].
    assert (Hin : In e (List.filter (starts r) l)) by (by apply filter_In). by rewrite Hl in Hin. }
  destruct (decide (length (List.filter (starts r) evs) = 0%nat)) as [H0|Hne].
  - exfalso. assert (Hu : untouched r (sys_run evs)).
    { apply fold_untouched; [by apply Hnone|]. split_and!; [done|done|intros i t Hi; by destruct i]. }
    destruct Hu as [Hn _]. congruence.
  - assert (Ht : tracked r (sys_run evs)) by (apply sys_run_tracked; lia).
    assert (Hl : Forall (fun e => starts r e = false) later) by (apply Hnone; lia).
    assert (Hk : forall d, digest_kept r d (sys_run evs) -> d = dg).
    { intros d Hd. pose proof (digest_kept_run r d later _ Hl Ht Hd) as Hd'. unfold sys_run in Hend. rewrite fold_left_app in Hend.
      specialize (Hd' _ Hend). by simpl in Hd'. }
    destruct (rec_state rc) eqn:Hst; try done; apply Hk; intros rc' Hrc'; rewrite Hrc in Hrc'; injection Hrc' as <-; by rewrite Hst.
Qed.

(** ** Termination *)

(** [script] answers each await of the task in turn; the clock does not go back,
    and a sleep takes at least the poll interval. *)
Definition awaited (c : pc) (w : Wake) : bool :=
  match c, w with
  | Enqueuing, WProve _ | Polling _, WPoll _ | Sleeping _, WSlept | Verifying _ _, WVerify _ => true
  | _, _ => false
  end.

Fixpoint drive (t : Task) (script : list (Wake * Z)) (ps : PState) : PState * option Task :=
  match script with
  | [] => (ps, Some t)
  | (w, now) :: script =>
      match resume t w now ps with
      | (ps', None) => (ps', None)
      | (ps', Some c) => drive (at_pc t c) script ps'
      end
  end.

Fixpoint timely (t : Task) (last_ : Z) (script : list (Wake * Z)) (ps : PState) : Prop :=
  match script with
  | [] => True
  | (w, now) :: script =>
      awaited (tk_pc t) w = true /\
      last_ + (match w with WSlept => pv_pollIntervalMs p * 1000 | _ => 0 end) <= now /\
      match resume t w now ps with
      | (_, None) => True
      | (ps', Some c) => timely (at_pc t c) now script ps'
      end
  end.

(** How many segments are left, at most. *)
Definition polls_left (t : Task) (now : Z) : Z :=
  Z.max 0 ((pv_ceilingMs p * 1000 - (now - tk_startedAt t)) / (pv_pollIntervalMs p * 1000)).
Definition fuel_left (t : Task) (now : Z) : Z :=
  match tk_pc t with
  | Enqueuing => 2 * polls_left t now + 4
  | Polling _ => 2 * polls_left t now + 3
  | Sleeping _ => 2 * polls_left t now + 2
  | Verifying _ _ => 1
  end.

Lemma polls_left_mono t c now now' : 0 < pv_pollIntervalMs p -> now <= now' ->
  polls_left (at_pc t c) now' <= polls_left t now.
Proof.
  intros Hi Hn. unfold polls_left. simpl. apply Z.max_le_compat_l. apply Z.div_le_mono; lia.
Qed.

Lemma polls_left_sleep t c now now' : 0 < pv_pollIntervalMs p -> now + pv_pollIntervalMs p * 1000 <= now' ->
  now' - tk_startedAt t <= pv_ceilingMs p * 1000 ->
  polls_left (at_pc t c) now' + 1 <= polls_left t now.
Proof.
  intros Hi Hn Hc. unfold polls_left. simpl.
  set (i := pv_pollIntervalMs p * 1000) in *. set (a := pv_ceilingMs p * 1000 - (now - tk_startedAt t)).
  set (a' := pv_ceilingMs p * 1000 - (now' - tk_startedAt t)).
  assert (Hii : 0 < i) by lia. assert (0 <= a' / i) by (apply Z.div_pos; lia).
  assert (a' / i + 1 <= a / i); [|lia].
  replace (a' / i + 1) with ((a' + 1 * i) / i) by (rewrite Z.div_add; lia). apply Z.div_le_mono; lia.
Qed.

Lemma on_poll_next t j job now ps c : (on_poll t j job now ps).2 = Some c ->
  (exists j', c = Sleeping j') \/ (exists a d, c = Verifying a d).
Proof. unfold on_poll. repeat case_match; simpl; naive_solver. Qed.

Lemma loop_head_next t j now ps c : (loop_head t j now ps).2 = Some c ->
  c = Polling j /\ now - tk_startedAt t <= pv_ceilingMs p * 1000.
Proof. unfold loop_head. destruct (Z.ltb_spec (pv_ceilingMs p * 1000) (now - tk_startedAt t)); simpl; naive_solver lia. Qed.

Lemma resume_progress t w last_ now ps ps' c : 0 < pv_pollIntervalMs p ->
  awaited (tk_pc t) w = true ->
  last_ + (match w with WSlept => pv_pollIntervalMs p * 1000 | _ => 0 end) <= now ->
  resume t w now ps = (ps', Some c) -> fuel_left (at_pc t c) now + 1 <= fuel_left t last_.
Proof.
  intros Hi Hw Hn Hr. apply (f_equal snd) in Hr. unfold resume in Hr. unfold fuel_left at 2.
  destruct (tk_pc t) as [|j|j|a d], w as [[jid|[m|m]]|[job|[m|m]]| |env]; simpl in Hw, Hr; try done.
  - apply loop_head_next in Hr as [-> Hc]. pose proof (polls_left_mono t (Polling jid) last_ now).
    unfold fuel_left. simpl. lia.
  - pose proof (polls_left_mono t c last_ now). pose proof (Z.le_max_l 0 ((pv_ceilingMs p * 1000 - (last_ - tk_startedAt t)) / (pv_pollIntervalMs p * 1000))).
    apply on_poll_next in Hr as [[j' ->]|(a & d & ->)]; unfold fuel_left; simpl; [lia|]. unfold polls_left. lia.
  - apply loop_head_next in Hr as [-> Hc]. pose proof (polls_left_sleep t (Polling j) last_ now).
    unfold fuel_left. simpl. lia.
Qed.

Lemma fuel_left_pos t now : 1 <= fuel_left t now.
Proof. unfold fuel_left, polls_left. destruct (tk_pc t); lia. Qed.

Lemma drive_terminates script t last_ ps : 0 < pv_pollIntervalMs p ->
  timely t last_ script ps -> fuel_left t last_ <= Z.of_nat (length script) -> (drive t script ps).2 = None.
Proof.
  intros Hi. revert t last_ ps; induction script as [|[w now] script IH]; intros t last_ ps Ht Hf.
  { pose proof (fuel_left_pos t last_). simpl in Hf. lia. }
  simpl in Ht |- *. destruct Ht as (Hw & Hn & Ht). destruct (resume t w now ps) as [ps' [c|]] eqn:Hr; [|done].
  eapply IH; [exact Ht|]. pose proof (resume_progress _ _ _ _ _ _ _ Hi Hw Hn Hr). cbn [length] in Hf. lia.
Qed.

Lemma drive_terminal script t ps s rc :
  get ps (tk_requestId t) = Some rc -> rec_state rc = s -> agrees (tk_pc t) s ->
  (drive t script ps).2 = None ->
  exists rc', get (drive t script ps).1 (tk_requestId t) = Some rc' /\ terminal (status (rec_state rc')) = true.
Proof.
  revert t ps s rc; induction script as [|[w now] script IH]; intros t ps s rc Hg Hs Ha Hd; [done|].
  simpl in Hd |- *. pose proof (resume_moves t w now ps s Ha) as Hm. unfold moves in Hm.
  destruct (resume t w now ps) as [ps' [c|]]; cbn [fst snd] in *.
  - destruct Hm as [[-> (c' & [= <-] & Hc)]|(st & -> & _ & Hc)].
    + by apply (IH (at_pc t c) ps s rc).
    + eapply (IH (at_pc t c)); [by apply map_get_set|done|exact Hc|done].
  - destruct Hm as [[_ (c' & ? & _)]|(st & -> & _ & Hc)]; [done|].
    eexists. split; [by apply map_get_set|exact Hc].
Qed.

(** C21. Proving ends.  A started task whose awaits are answered, one poll interval
    apart while the daemon says QUEUED or PROVING, is over after at most two
    segments per interval that fits the ceiling, and four more; and then its
    record is VERIFIED or FAILED, whatever the daemon said. *)
Theorem prover_terminates requestId w proofNonce now ps t ps' script :
  0 < pv_pollIntervalMs p -> 0 <= pv_ceilingMs p ->
  start requestId w proofNonce now ps = (ps', Some t) ->
  timely t now script ps' ->
  2 * (pv_ceilingMs p / pv_pollIntervalMs p) + 4 <= Z.of_nat (length script) ->
  (drive t script ps').2 = None /\
  exists rc, get (drive t script ps').1 requestId = Some rc /\ terminal (status (rec_state rc)) = true.
Proof.
  intros Hi Hc Hst Ht Hlen.
  assert (t = mk_task requestId w proofNonce now /\
          get ps' requestId = Some {| rec_state := PQueued now; rec_proofNonce := proofNonce |}) as [-> Hg].
  { unfold start in Hst. set (ps0 := {| ps_records := _ |}) in Hst. unfold begin in Hst.
    destruct (reexec _) as [d|]; [|done]. case_decide; [|done]. simpl in Hst. injection Hst as <- <-.
    split; [done|]. apply map_get_set. }
  assert (Hd : (drive (mk_task requestId w proofNonce now) script ps').2 = None).
  { eapply drive_terminates; [done|exact Ht|]. unfold fuel_left, polls_left, mk_task. cbn [tk_pc tk_startedAt].
    rewrite Z.sub_diag, Z.sub_0_r, Z.div_mul_cancel_r by lia.
    pose proof (Z.div_pos (pv_ceilingMs p) (pv_pollIntervalMs p) Hc Hi). lia. }
  split; [exact Hd|]. by apply (drive_terminal script (mk_task requestId w proofNonce now) ps' (PQueued now) _ Hg).
Qed.
End Prover.

(** ** An example: one request proved, another refused by a daemon in dev mode. *)
Definition ex_rules : PolicyRules := {|
  pr_version := ""; pr_normalizer := ""; pr_intentBonus := 0; pr_constructionBonus := 0; pr_intentPhrases := [];
  pr_constructionVerbs := []; pr_modifierSuppressors := []; pr_categories := []; pr_targets := []; pr_hardBlocks := []; pr_modifiers := [] |}.
Definition ex_manifest : ReleaseManifest :=
  {| mf_imageIdHex := "img"; mf_policyId := "0xp"; mf_journalVersion := 1; mf_risc0Version := "3.0.6" |}.
Definition ex_prover : Prover := {|
  pv_tee := ex_tee; pv_rules := ex_rules; pv_manifest := ex_manifest;
  pv_verifierPaths := {| vp_binPath := "/bin/v"; vp_releasePath := "/r.json"; vp_policyDir := "/p" |};
  pv_ceilingMs := 2000; pv_pollIntervalMs := 1000 |}.
Definition ex_witness : ProofWitness := {|
  wt_canonicalRequest := unchars (chars "{" ++ quote_chars "messages" ++ chars ":[]}");
  wt_requestNonce := "0x1"; wt_requestCommitment := "0xc"; wt_decision := ALLOW;
  wt_decisionReceipt := {| dr_requestId := "r1"; dr_requestCommitment := "0xc"; dr_policyId := "0xp";
                           dr_decision := ALLOW; dr_imageId := "img"; dr_gateWallMs := 7 |} |}.
Definition ex_env : subprocess_env := {|
  se_mkdtemp := Ok "/tmp/x"; se_writeFile := fun _ _ => Ok tt;
  se_execFile := fun _ _ => Ok {| er_err := None; er_out := Some "[ ok ] seal" |} |}.
Definition ex_job (s : string) (dev : bool) : JobStatus :=
  {| job_status := s; job_receiptB64 := Some (toB64 "receipt"); job_error := None; job_devMode := dev |}.
Definition ex_evs : list Event :=
  [Start "r1" ex_witness "0xn" 0;
   Start "r2" ex_witness "0xm" 10;
   Resume 0 (WProve (Ok "j1")) 20;
   Resume 1 (WProve (Ok "j2")) 30;
   Resume 0 (WPoll (Ok (ex_job "PROVING" false))) 40;
   Resume 1 (WPoll (Ok (ex_job "GENERATED" true))) 50;
   Resume 0 WSlept 1000040;
   Resume 0 (WPoll (Ok (ex_job "GENERATED" false))) 1000050;
   Resume 0 (WVerify ex_env) 1000060].
Definition ex_run : System := sys_run (fun s => s) (fun s => s) (fun _ => "") ex_prover ex_evs.

Lemma prover_sound_witness : exists r,
  get (sy_state ex_run) "r1" = Some r /\ status (rec_state r) = VERIFIED /\
  record_ok (fun s => s) (fun s => s) ex_prover ex_evs "r1" r.
Proof.
  exists (default {| rec_state := PQueued 0; rec_proofNonce := "" |} (get (sy_state ex_run) "r1")).
  split; [vm_compute; reflexivity|split; [vm_compute; reflexivity|]].
  apply (prover_sound (fun s => s) (fun s => s) (fun _ => "") ex_prover ex_evs "r1").
  vm_compute. reflexivity.
Defined.

(** A daemon that stays QUEUED: the ceiling ends the task. *)
Definition ex_script : list (Wake * Z) :=
  (WProve (Ok "j"), 0) ::
  concat ((fun i => [(WPoll (Ok (ex_job "QUEUED" false)), i * 1000000); (WSlept, (i + 1) * 1000000)]) <$> [0; 1; 2]) ++
  [(WPoll (Ok (ex_job "QUEUED" false)), 3000000)].

Lemma prover_terminates_witness :
  match start (fun s => s) (fun s => s) ex_prover "r1" ex_witness "0xn" 0 {| ps_records := []; ps_trace := [] |} with
  | (ps, Some t) => (drive (fun _ => "") ex_prover t ex_script ps).2 = None
  | _ => False
  end.
Proof.
  eapply (proj1 (prover_terminates (fun s => s) (fun s => s) (fun _ => "") ex_prover "r1" ex_witness "0xn" 0
    {| ps_records := []; ps_trace := [] |} _ _ ex_script ltac:(vm_compute; reflexivity) ltac:(vm_compute; discriminate)
    ltac:(vm_compute; reflexivity) _ _)).
  Unshelve.
  - vm_compute. repeat split; discriminate.
  - vm_compute. discriminate.
Defined.
