(* ===== verification/ReceiptVerify.v ===== *)
(** * The receipt verifier of clients (packages/verify/src/verify.ts)

    [verifyReceipt] checks everything a receipt reveals short of the seal, against
    a pinned manifest; the seal, the image id and the rules digest are reported as
    delegated.  Receipt bytes are a string of bytes. *)

From S2P Require Import Prelude JsNum Utf8 Json Unicode Canonical Types EnclaveVerify.
Local Open Scope Z_scope.

(** Pinned identity; the fields are whatever the manifest's JSON holds. *)
Record VerifyManifest : Type := {
  vm_imageIdHex : jsval;
  vm_policyId : jsval;
  vm_rulesDigest : jsval;
  vm_journalVersion : jsval;
  vm_receiptCodec : jsval;
}.

(** What the caller expects, [VUndef] for nothing; a caller may pass on fields of a
    JSON, so they are not always strings. *)
Record VerifyExpect : Type := {
  xe_commitment : jsval;
  xe_decision : jsval;
  xe_proofNonce : jsval;
}.

Record VerifyCheck : Type := { ck_name : string; ck_ok : bool; ck_detail : string; ck_delegated : bool }.
Record VerifyResult : Type := { res_ok : bool; res_checks : list VerifyCheck; res_delegated : list string }.

Record DecodedJournal : Type := {
  dj_protocolVersion : Z;
  dj_requestCommitment : string;
  dj_policyId : string;
  dj_decision : PolicyDecision;
  dj_proofNonce : string;
}.

Definition RECEIPT_CODEC_BINCODE_V1 : string := "bincode-v1".
Definition DEFAULT_JOURNAL_VERSION : Z := 1.
Definition META_LEN : Z := 32.
Definition INNER_TAG_GROTH16 : Z := 2.
Definition INNER_TAG_FAKE : Z := 3.
Definition JOURNAL_KEYS : list string := ["decision"; "policyId"; "proofNonce"; "protocolVersion"; "requestCommitment"].

(** ** The shapes *)
Definition lower_hex (c : Ascii.ascii) : bool :=
  let n := code c in (48 <=? n) && (n <=? 57) || (97 <=? n) && (n <=? 102).

Definition HEX_64 (s : string) : bool := forallb lower_hex (chars s) && (String.length s =? 64)%nat.
Definition HEX_0X_64 (s : string) : bool :=
  match chars s with
  | c :: d :: l => Ascii.eqb c (byte_of 48) && Ascii.eqb d (byte_of 120) && forallb lower_hex l && (length l =? 64)%nat
  | _ => false
  end.
Definition PROOF_NONCE_RE (s : string) : bool :=
  let digits := match chars s with
                | c :: d :: l => if Ascii.eqb c (byte_of 48) && Ascii.eqb d (byte_of 120) then l else chars s
                | l => l
                end in
  forallb lower_hex digits && (1 <=? length digits)%nat && (length digits <=? 64)%nat.

Definition isImageIdHex (v : jsval) : bool := match v with VStr s => HEX_64 s | _ => false end.
Definition is0xSha256 (v : jsval) : bool := match v with VStr s => HEX_0X_64 s | _ => false end.

Definition not_sha (what : string) : string :=
  str_app [what; " is not "; quote "0x"; " followed by 64 lowercase hex digits"].

(** ** Framing *)

(** [bytes[i]] inside a bitwise expression: 0 out of range *)
Definition byte_at (bs : list Z) (i : Z) : Z := if i <? 0 then 0 else nth (Z.to_nat i) bs 0.

Definition readU32LE (bs : list Z) (offset : Z) : Z :=
  Z.land (Z.lor (Z.lor (Z.lor (byte_at bs offset) (Z.shiftl (byte_at bs (offset + 1)) 8))
                       (Z.shiftl (byte_at bs (offset + 2)) 16))
                (Z.shiftl (byte_at bs (offset + 3)) 24)) 0xFFFFFFFF.

Definition u64LEEquals (bs : list Z) (offset expected : Z) : bool :=
  (readU32LE bs (offset + 4) =? 0) && (readU32LE bs offset =? expected).

Definition of_bytes (l : list Z) : string := unchars (byte_of <$> l).

(** [bytes.subarray(a, b)] *)
Definition subarray (bs : list Z) (a b : Z) : list Z := take (Z.to_nat (b - a)) (drop (Z.to_nat a) bs).

(** One candidate length. *)
Definition try_len (bs : list Z) (journalEnd len : Z) : option jsval :=
  let start := journalEnd - len in
  if negb (byte_at bs start =? 0x7b) then None else
  if negb (u64LEEquals bs (start - 8) len) then None else
  text ← decode_fatal (of_bytes (subarray bs start journalEnd));
  JSON_parse (encode text).

(** The lengths [len], [len + 1], ... in turn, [n] of them. *)
Fixpoint scan (bs : list Z) (journalEnd len : Z) (n : nat) : option jsval :=
  match n with
  | O => None
  | S n => match try_len bs journalEnd len with
           | Some j => Some j
           | None => scan bs journalEnd (len + 1) n
           end
  end.

(** The inner tag and the journal, or the reason there is none. *)
Definition frameJournal (receiptBytes : string) : (Z * jsval) + string :=
  let bs := bytes receiptBytes in
  let n := Z.of_nat (length bs) in
  if n <? META_LEN + 8 + 2 then inr "shorter than the smallest possible receipt" else
  let innerTag := readU32LE bs 0 in
  let journalEnd := n - META_LEN in
  if negb (byte_at bs (journalEnd - 1) =? 0x7d)
  then inr "no journal frame at len-32: not a bincode-v1 risc0 receipt, or it has trailing/truncated bytes" else
  let maxLen := Z.min 65536 (journalEnd - 8) in
  match scan bs journalEnd 2 (Z.to_nat (maxLen - 1)) with
  | Some journal => inl (innerTag, journal)
  | None => inr "the journal frame does not close cleanly: malformed, truncated, or appended bincode-v1 receipt"
  end.

(** ** The check list *)
Definition pass_check (name detail : string) : VerifyCheck :=
  {| ck_name := name; ck_ok := true; ck_detail := detail; ck_delegated := false |}.
Definition fail_check (name detail : string) : VerifyCheck :=
  {| ck_name := name; ck_ok := false; ck_detail := detail; ck_delegated := false |}.
Definition delegate_check (name detail : string) : VerifyCheck :=
  {| ck_name := name; ck_ok := false; ck_detail := "DELEGATED — " +:+ detail; ck_delegated := true |}.

Definition finish (localFailed : bool) (checks : list VerifyCheck) : VerifyResult :=
  {| res_ok := negb localFailed; res_checks := checks;
     res_delegated := ck_name <$> List.filter ck_delegated checks |}.

(** [if (!ok) { fail(...); return finish(); }], without the [pass]. *)
Definition demand (ok : bool) (name failDetail : string) (checks : list VerifyCheck)
    (k : list VerifyCheck -> VerifyResult) : VerifyResult :=
  if ok then k checks else finish true (checks ++ [fail_check name failDetail]).
(** ... followed by [pass(...)]. *)
Definition require (ok : bool) (name failDetail passDetail : string) (checks : list VerifyCheck)
    (k : list VerifyCheck -> VerifyResult) : VerifyResult :=
  demand ok name failDetail checks (fun checks => k (checks ++ [pass_check name passDetail])).
(** An expectation is checked only when it is given. *)
Definition expects (given : jsval) (actual name failDetail : string) (checks : list VerifyCheck)
    (k : list VerifyCheck -> VerifyResult) : VerifyResult :=
  match given with
  | VUndef => k checks
  | _ => require (str_is given actual) name failDetail actual checks k
  end.

Definition text_of (v : jsval) : string := default "" (as_str v).
Definition sorted_keys (o : list (string * jsval)) : list string := jsort js_compare o.*1.

Definition key_set_detail (o : list (string * jsval)) : string :=
  let missing := List.filter (fun k => negb (bool_decide (k ∈ o.*1))) JOURNAL_KEYS in
  let unexpected := Z.of_nat (length o) - (5 - Z.of_nat (length missing)) in
  str_app ["not the verifier allowlist: "; num_to_string (Z.of_nat (length missing)); " of 5 missing (";
           (match missing with [] => "none" | _ => str_join ", " missing end); "), ";
           num_to_string unexpected; " key(s) outside it"].

Definition decision_of (v : jsval) : option PolicyDecision :=
  match v with
  | VStr s => if String.eqb s "ALLOW" then Some ALLOW else if String.eqb s "DENY" then Some DENY else None
  | _ => None
  end.

(** From the journal on. *)
Definition verify_journal (journal : jsval) (manifest : VerifyManifest) (expect : VerifyExpect)
    (checks : list VerifyCheck) : VerifyResult :=
  match journal with
  | VObj obj =>
      let checks := checks ++ [pass_check "journal-parses" "JSON object"] in
      require (bool_decide (sorted_keys obj = JOURNAL_KEYS)) "journal-key-set" (key_set_detail obj)
        (str_app ["exactly {"; str_join ", " JOURNAL_KEYS; "}"]) checks (fun checks =>
      require (match obj_get obj "protocolVersion" with VNum n => num_is n DEFAULT_JOURNAL_VERSION | _ => false end)
        "journal-protocol-version" "protocolVersion is not the manifest's journalVersion (1)" "1" checks (fun checks =>
      match decision_of (obj_get obj "decision") with
      | None => finish true (checks ++ [fail_check "journal-decision" "decision is not one of ALLOW, DENY"])
      | Some decision =>
          let checks := checks ++ [pass_check "journal-decision" (decision_str decision)] in
          let commitment := obj_get obj "requestCommitment" in
          require (is0xSha256 commitment) "journal-request-commitment"
            (not_sha "requestCommitment") (text_of commitment) checks (fun checks =>
          let nonce := obj_get obj "proofNonce" in
          require (match nonce with VStr s => PROOF_NONCE_RE s | _ => false end) "journal-proof-nonce"
            "proofNonce is outside ^(0x)?[0-9a-f]{1,64}$, the bound the guest enforces before committing one"
            (text_of nonce) checks (fun checks =>
          let policyId := obj_get obj "policyId" in
          demand (is0xSha256 policyId) "policy-id"
            (not_sha "the journal policyId") checks (fun checks =>
          require (js_strict_eq policyId (vm_policyId manifest)) "policy-id"
            "the journal's policyId is not the policyId pinned in the manifest"
            ("journal and manifest agree: " +:+ text_of (vm_policyId manifest)) checks (fun checks =>
          let checks := checks ++ [delegate_check "rules-digest"
            ("re-derived from policy/v1 server-side; manifest pins " +:+ text_of (vm_rulesDigest manifest))] in
          expects (xe_commitment expect) (text_of commitment) "expect-commitment"
            "the journal commits to a different requestCommitment than expected" checks (fun checks =>
          expects (xe_decision expect) (decision_str decision) "expect-decision"
            (str_app ["the journal decision is "; decision_str decision; ", not the expected ";
                      text_of (xe_decision expect)]) checks (fun checks =>
          expects (xe_proofNonce expect) (text_of nonce) "expect-proof-nonce"
            "the journal echoes a different proofNonce than expected" checks (finish false)))))))
      end))
  | _ => finish true (checks ++ [fail_check "journal-parses" "the journal is JSON but not a JSON object"])
  end.

(** [a ?? b] *)
Definition nullish (a b : jsval) : jsval := match a with VUndef | VNull => b | _ => a end.

Definition verifyReceipt (receiptBytes : string) (manifest : VerifyManifest) (expect : VerifyExpect) : VerifyResult :=
  let journalVersion := nullish (vm_journalVersion manifest) (vint DEFAULT_JOURNAL_VERSION) in
  let receiptCodec := nullish (vm_receiptCodec manifest) (VStr RECEIPT_CODEC_BINCODE_V1) in
  demand (isImageIdHex (vm_imageIdHex manifest)) "manifest" "imageIdHex is not 64 lowercase hex digits" [] (fun checks =>
  demand (is0xSha256 (vm_policyId manifest)) "manifest"
    (not_sha "policyId") checks (fun checks =>
  demand (is0xSha256 (vm_rulesDigest manifest)) "manifest"
    (not_sha "rulesDigest") checks (fun checks =>
  require (match journalVersion with VNum n => num_is n DEFAULT_JOURNAL_VERSION | _ => false end) "manifest"
    "journalVersion is not 1, the only version this verifier reads"
    (str_app ["pins imageId "; text_of (vm_imageIdHex manifest); ", journalVersion 1"]) checks (fun checks =>
  require (str_is receiptCodec RECEIPT_CODEC_BINCODE_V1) "receipt-codec"
    "manifest names a codec this verifier cannot decode; it decodes only bincode-v1" RECEIPT_CODEC_BINCODE_V1
    checks (fun checks =>
  match frameJournal receiptBytes with
  | inr reason => finish true (checks ++ [fail_check "receipt-decodes" reason])
  | inl (innerTag, journal) =>
      let checks := checks ++
        [pass_check "receipt-decodes"
           "bincode-v1 framing decoded (journal + 32-byte metadata trailer, no trailing bytes); STARK body delegated";
         delegate_check "image-id"
           (str_app ["receipt claim compared to pinned imageId "; text_of (vm_imageIdHex manifest);
                     " server-side by prover/verify"])] in
      demand (negb (innerTag =? INNER_TAG_FAKE)) "seal"
        "dev-mode stub: InnerReceipt::Fake carries no proof at all (produced with RISC0_DEV_MODE=1)" checks (fun checks =>
      verify_journal journal manifest expect
        (checks ++ [delegate_check "seal"
           (if innerTag =? INNER_TAG_GROTH16
            then "Groth16 seal cryptographically verified server-side by prover/verify"
            else "STARK seal cryptographically verified server-side by prover/verify against the pinned imageId")]))
  end))))).

Definition decodeJournal (receiptBytes : string) : option DecodedJournal :=
  match frameJournal receiptBytes with
  | inr _ => None
  | inl (_, VObj o) =>
      if negb (bool_decide (sorted_keys o = JOURNAL_KEYS)) then None else
      if negb (match obj_get o "protocolVersion" with VNum n => num_is n DEFAULT_JOURNAL_VERSION | _ => false end) then None else
      match decision_of (obj_get o "decision") with
      | None => None
      | Some decision =>
          if negb (is0xSha256 (obj_get o "requestCommitment")) || negb (is0xSha256 (obj_get o "policyId")) then None else
          if negb (match obj_get o "proofNonce" with VStr s => PROOF_NONCE_RE s | _ => false end) then None else
          Some {| dj_protocolVersion := DEFAULT_JOURNAL_VERSION;
                  dj_requestCommitment := text_of (obj_get o "requestCommitment");
                  dj_policyId := text_of (obj_get o "policyId");
                  dj_decision := decision;
                  dj_proofNonce := text_of (obj_get o "proofNonce") |}
      end
  | inl _ => None
  end.

(** ** What a successful check list means *)
Lemma demand_ok ok name d checks k :
  res_ok (demand ok name d checks k) = true <-> ok = true /\ res_ok (k checks) = true.
Proof. unfold demand. destruct ok; simpl; naive_solver. Qed.

Lemma require_ok ok name d p checks k :
  res_ok (require ok name d p checks k) = true <-> ok = true /\ res_ok (k (checks ++ [pass_check name p])) = true.
Proof. exact (demand_ok _ _ _ _ _). Qed.

Definition expected (given : jsval) (actual : string) : Prop := given = VUndef \/ given = VStr actual.
Lemma expects_ok given actual name d checks k : exists checks',
  res_ok (expects given actual name d checks k) = true <->
  expected given actual /\ res_ok (k checks') = true.
Proof.
  unfold expects, expected. destruct given; try (exists checks; naive_solver);
    eexists; rewrite require_ok; simpl; rewrite ?bool_decide_eq_true; naive_solver.
Qed.

(** The five fields of the journal, and what they hold. *)
Record journal_is (o : list (string * jsval)) (j : DecodedJournal) : Prop := {
  ji_keys : o.*1 ≡ₚ JOURNAL_KEYS;
  ji_version : exists n, obj_get o "protocolVersion" = VNum n /\ num_is n 1 = true;
  ji_version' : dj_protocolVersion j = 1;
  ji_decision : obj_get o "decision" = VStr (decision_str (dj_decision j));
  ji_commitment : obj_get o "requestCommitment" = VStr (dj_requestCommitment j) /\ HEX_0X_64 (dj_requestCommitment j) = true;
  ji_nonce : obj_get o "proofNonce" = VStr (dj_proofNonce j) /\ PROOF_NONCE_RE (dj_proofNonce j) = true;
  ji_policy : obj_get o "policyId" = VStr (dj_policyId j) /\ HEX_0X_64 (dj_policyId j) = true;
}.

Lemma JOURNAL_KEYS_sorted : jsort js_compare JOURNAL_KEYS = JOURNAL_KEYS.
Proof. vm_compute. reflexivity. Qed.

Lemma JOURNAL_KEYS_separated :
  forallb (fun x => forallb (fun y => String.eqb x y || negb (jle x y && jle y x)) JOURNAL_KEYS) JOURNAL_KEYS = true.
Proof. vm_compute. reflexivity. Qed.

Lemma sorted_keys_spec o : sorted_keys o = JOURNAL_KEYS <-> o.*1 ≡ₚ JOURNAL_KEYS.
Proof.
  unfold sorted_keys. split; intros Hk.
  - rewrite <-Hk. symmetry. apply jsort_perm.
  - rewrite <-JOURNAL_KEYS_sorted. apply jsort_unique; [apply jle_total|apply jle_trans| |done].
    intros x y Hx Hy Hxy Hyx. rewrite Hk in Hx, Hy.
    pose proof (proj1 (forallb_forall _ _) JOURNAL_KEYS_separated x (proj1 (list_elem_of_In _ _) Hx)) as Hs.
    pose proof (proj1 (forallb_forall _ _) Hs y (proj1 (list_elem_of_In _ _) Hy)) as He. cbv beta in He.
    unfold jle in He. rewrite Hxy, Hyx in He. simpl in He. rewrite orb_false_r in He. by apply String.eqb_eq.
Qed.

Lemma decision_of_Some v d : decision_of v = Some d <-> v = VStr (decision_str d).
Proof.
  destruct v as [| | | |s| |]; simpl; try (split; discriminate).
  destruct (String.eqb_spec s "ALLOW") as [->|H1]; [destruct d; simpl; naive_solver|].
  destruct (String.eqb_spec s "DENY") as [->|H2]; destruct d; simpl; naive_solver.
Qed.

Lemma is0xSha256_spec v : is0xSha256 v = true <-> exists s, v = VStr s /\ HEX_0X_64 s = true.
Proof. destruct v; simpl; naive_solver. Qed.

Lemma version_spec v :
  match v with VNum n => num_is n DEFAULT_JOURNAL_VERSION | _ => false end = true <-> exists n, v = VNum n /\ num_is n 1 = true.
Proof. destruct v; naive_solver. Qed.

Lemma nonce_spec v :
  match v with VStr s => PROOF_NONCE_RE s | _ => false end = true <-> exists s, v = VStr s /\ PROOF_NONCE_RE s = true.
Proof. destruct v; naive_solver. Qed.

Lemma decodeJournal_spec r j :
  decodeJournal r = Some j <-> exists tag o, frameJournal r = inl (tag, VObj o) /\ journal_is o j.
Proof.
  unfold decodeJournal. destruct (frameJournal r) as [[tag v]|m]; [|naive_solver].
  destruct v as [| | | | | |o]; try (split; [done|naive_solver]).
  split.
  - intros Hd. exists tag, o. split; [done|]. revert Hd.
    case_bool_decide as Hk; simpl; [|done]. apply sorted_keys_spec in Hk.
    destruct (match obj_get o "protocolVersion" with VNum n => _ | _ => _ end) eqn:Hv; simpl; [|done].
    apply version_spec in Hv.
    destruct (decision_of _) as [d|] eqn:Hd; [|done]. apply decision_of_Some in Hd.
    destruct (is0xSha256 (obj_get o "requestCommitment")) eqn:Hc; simpl; [|done].
    destruct (is0xSha256 (obj_get o "policyId")) eqn:Hp; simpl; [|done].
    apply is0xSha256_spec in Hc as (c & Hc & Hc'), Hp as (p & Hp & Hp').
    destruct (match obj_get o "proofNonce" with VStr s => _ | _ => _ end) eqn:Hn; simpl; [|done].
    apply nonce_spec in Hn as (n & Hn & Hn'). rewrite Hc, Hp, Hn. intros [= <-]. by split.
  - intros (? & ? & [= <- <-] & [Hk Hv Hv' Hd [Hc Hc'] [Hn Hn'] [Hp Hp']]).
    apply sorted_keys_spec in Hk. rewrite bool_decide_true by done. simpl.
    apply version_spec in Hv. rewrite Hv. simpl. apply decision_of_Some in Hd. rewrite Hd, Hc, Hp, Hn. simpl.
    rewrite Hc', Hp', Hn'. simpl. destruct j; simpl in *; by subst.
Qed.

Definition meets (e : VerifyExpect) (j : DecodedJournal) : Prop :=
  expected (xe_commitment e) (dj_requestCommitment j) /\
  expected (xe_decision e) (decision_str (dj_decision j)) /\
  expected (xe_proofNonce e) (dj_proofNonce j).

Lemma decision_str_inj d d' : decision_str d = decision_str d' -> d = d'.
Proof. by destruct d, d'. Qed.

Lemma verify_journal_ok v m e checks :
  res_ok (verify_journal v m e checks) = true <->
  exists o j, v = VObj o /\ journal_is o j /\ vm_policyId m = VStr (dj_policyId j) /\ meets e j.
Proof.
  unfold verify_journal. destruct v as [| | | | | |o]; try (split; [done|naive_solver]).
  rewrite !require_ok, bool_decide_eq_true, sorted_keys_spec, version_spec.
  destruct (decision_of (obj_get o "decision")) as [d|] eqn:Hd; cycle 1.
  { split; [naive_solver|]. intros (? & j & [= <-] & [_ _ _ Hd' _ _ _] & _). apply decision_of_Some in Hd'. congruence. }
  apply decision_of_Some in Hd.
  rewrite !require_ok, demand_ok, require_ok, nonce_spec, !is0xSha256_spec.
  match goal with |- context [expects ?a ?b ?c ?d ?l ?k] => destruct (expects_ok a b c d l k) as [c1 ->] end.
  match goal with |- context [expects ?a ?b ?c ?d ?l ?k] => destruct (expects_ok a b c d l k) as [c2 ->] end.
  match goal with |- context [expects ?a ?b ?c ?d ?l ?k] => destruct (expects_ok a b c d l k) as [c3 ->] end.
  split.
  - intros (Hk & Hv & (c & Hc & Hc') & (n & Hn & Hn') & (p & Hp & Hp') & Heq & He1 & He2 & He3 & _).
    rewrite Hc in He1. rewrite Hn in He3. rewrite Hp in Heq.
    exists o, {| dj_protocolVersion := 1; dj_requestCommitment := c; dj_policyId := p; dj_decision := d; dj_proofNonce := n |}.
    split; [done|]. split; [by split|]. simpl. split.
    + destruct (vm_policyId m); try done. simpl in Heq. by apply String.eqb_eq in Heq as ->.
    + by split_and!.
  - intros (? & j & [= <-] & [Hk Hv _ Hd' [Hc Hc'] [Hn Hn'] [Hp Hp']] & Hm & He1 & He2 & He3).
    rewrite Hd in Hd'. injection Hd' as Hd'%decision_str_inj. subst d. rewrite Hc, Hn, Hp, Hm. cbn [js_strict_eq text_of as_str default].
    rewrite String.eqb_refl. split_and!; try done; by eexists.
Qed.

(** The report is honest: no delegated check ever passes, [ok] says every local
    check passed, and [delegated] names what was delegated. *)
Definition clean (names : list string) (checks : list VerifyCheck) : Prop :=
  Forall (fun c => ck_ok c = negb (ck_delegated c)) checks /\
  ck_name <$> List.filter ck_delegated checks = names.

Definition honest (names : list string) (r : VerifyResult) : Prop :=
  (forall c, c ∈ res_checks r -> ck_delegated c = true -> ck_ok c = false) /\
  res_ok r = forallb (fun c => ck_ok c || ck_delegated c) (res_checks r) /\
  res_delegated r = ck_name <$> List.filter ck_delegated (res_checks r) /\
  (res_ok r = true -> res_delegated r = names).

Lemma clean_app a b l l' : clean a l -> clean b l' -> clean (a ++ b) (l ++ l').
Proof.
  intros [H1 <-] [H2 <-]. split; [by apply Forall_app|]. by rewrite List.filter_app, fmap_app.
Qed.
Lemma clean_pass name d : clean [] [pass_check name d].
Proof. by split; [constructor|]. Qed.
Lemma clean_delegate name d : clean [name] [delegate_check name d].
Proof. by split; [constructor|]. Qed.

Lemma clean_local names checks : clean names checks -> forallb (fun c => ck_ok c || ck_delegated c) checks = true.
Proof.
  intros [Hc _]. induction Hc as [|c l Hc _ IH]; [done|]. simpl. rewrite Hc, IH. by destruct (ck_delegated c).
Qed.

Lemma clean_delegated names checks c : clean names checks -> c ∈ checks -> ck_delegated c = true -> ck_ok c = false.
Proof.
  intros [Hc _] Hin%list_elem_of_In Hd. rewrite (proj1 (List.Forall_forall _ _) Hc _ Hin). by rewrite Hd.
Qed.

Lemma honest_failed names' names checks name d :
  clean names checks -> honest names' (finish true (checks ++ [fail_check name d])).
Proof.
  intros Hc. split; [|split; [|split; [done|done]]]; simpl.
  - intros c [Hin|Hin%list_elem_of_singleton]%elem_of_app; [by eapply clean_delegated|by subst].
  - rewrite forallb_app. simpl. by rewrite andb_false_r.
Qed.

Lemma honest_passed names checks : clean names checks -> honest names (finish false checks).
Proof.
  intros Hc. split; [|split; [|split; [done|]]]; simpl.
  - intros c. by eapply clean_delegated.
  - symmetry. by eapply clean_local.
  - by destruct Hc.
Qed.

Lemma demand_honest names names' ok name d checks k :
  clean names checks -> honest names' (k checks) -> honest names' (demand ok name d checks k).
Proof. intros Hc Hk. unfold demand. destruct ok; [done|by eapply honest_failed]. Qed.

Lemma require_honest names names' ok name d p checks k :
  clean names checks -> (forall checks', clean names checks' -> honest names' (k checks')) ->
  honest names' (require ok name d p checks k).
Proof.
  intros Hc Hk. eapply demand_honest; [done|]. apply Hk. rewrite <-(app_nil_r names). by apply clean_app, clean_pass.
Qed.

Lemma expects_honest names names' given actual name d checks k :
  clean names checks -> (forall checks', clean names checks' -> honest names' (k checks')) ->
  honest names' (expects given actual name d checks k).
Proof. intros Hc Hk. unfold expects. destruct given; by apply Hk || eapply require_honest. Qed.

Lemma clean_snoc_pass names checks name d : clean names checks -> clean names (checks ++ [pass_check name d]).
Proof. intros Hc. rewrite <-(app_nil_r names). by apply clean_app, clean_pass. Qed.

Lemma verify_journal_honest v m e checks names :
  clean names checks -> honest (names ++ ["rules-digest"]) (verify_journal v m e checks).
Proof.
  intros Hc. unfold verify_journal. destruct v; try (by eapply honest_failed).
  eapply require_honest; [by apply clean_snoc_pass|]. intros c1 H1.
  eapply require_honest; [done|]. intros c2 H2.
  destruct (decision_of _) as [dec|]; [|by eapply honest_failed].
  eapply require_honest; [by apply clean_snoc_pass|]. intros c3 H3.
  eapply require_honest; [done|]. intros c4 H4.
  eapply demand_honest; [done|]. eapply require_honest; [done|]. intros c5 H5.
  eapply expects_honest; [by apply clean_app, clean_delegate|]. intros c6 H6.
  eapply expects_honest; [done|]. intros c7 H7.
  eapply expects_honest; [done|]. intros c8 H8. by apply honest_passed.
Qed.

Definition manifest_ok (m : VerifyManifest) : Prop :=
  isImageIdHex (vm_imageIdHex m) = true /\ is0xSha256 (vm_policyId m) = true /\ is0xSha256 (vm_rulesDigest m) = true /\
  (exists n, nullish (vm_journalVersion m) (vint 1) = VNum n /\ num_is n 1 = true) /\
  nullish (vm_receiptCodec m) (VStr RECEIPT_CODEC_BINCODE_V1) = VStr RECEIPT_CODEC_BINCODE_V1.

Definition inner_tag (receiptBytes : string) : Z := readU32LE (bytes receiptBytes) 0.

Lemma frameJournal_tag r tag j : frameJournal r = inl (tag, j) -> tag = inner_tag r.
Proof. unfold frameJournal, inner_tag. repeat case_match; naive_solver. Qed.

Lemma verifyReceipt_honest receiptBytes manifest expect : honest ["image-id"; "seal"; "rules-digest"] (verifyReceipt receiptBytes manifest expect).
Proof.
  unfold verifyReceipt. assert (H0 : clean [] []) by (by split).
  do 3 (eapply demand_honest; [exact H0|]).
  eapply require_honest; [exact H0|]. intros c1 H1. eapply require_honest; [exact H1|]. intros c2 H2.
  destruct (frameJournal receiptBytes) as [[tag v]|m]; [|by eapply honest_failed].
  assert (H3 : clean ["image-id"] (c2 ++ [pass_check "receipt-decodes"
    "bincode-v1 framing decoded (journal + 32-byte metadata trailer, no trailing bytes); STARK body delegated";
    delegate_check "image-id" (str_app ["receipt claim compared to pinned imageId "; text_of (vm_imageIdHex manifest);
                   " server-side by prover/verify"])])).
  { apply (clean_app [] ["image-id"]); [done|]. apply (clean_app [] ["image-id"] [_] [_]); [apply clean_pass|apply clean_delegate]. }
  eapply demand_honest; [exact H3|]. apply (verify_journal_honest _ _ _ _ ["image-id"; "seal"]).
  apply (clean_app ["image-id"] ["seal"]); [exact H3|apply clean_delegate].
Qed.

(** C33. [verifyReceipt] is ok exactly when the manifest is well formed, the receipt
    frames a journal that [decodeJournal] accepts, it is no dev-mode stub, and that
    journal has the pinned policy and what the caller expected.  Its report is
    honest about the seal: delegated checks never pass and never decide [ok], and
    an ok result always delegates the image id, the seal and the rules digest. *)
Theorem verifyReceipt_spec receiptBytes manifest expect :
  let r := verifyReceipt receiptBytes manifest expect in
  (res_ok r = true <->
     manifest_ok manifest /\ inner_tag receiptBytes <> INNER_TAG_FAKE /\
     exists j, decodeJournal receiptBytes = Some j /\ vm_policyId manifest = VStr (dj_policyId j) /\ meets expect j) /\
  honest ["image-id"; "seal"; "rules-digest"] r.
Proof.
  cbv zeta. split.
  - unfold verifyReceipt, manifest_ok. rewrite !demand_ok, !require_ok, version_spec.
    assert (Hs : forall v s, str_is v s = true <-> v = VStr s).
    { intros v s. destruct v; simpl; rewrite ?bool_decide_eq_true; naive_solver. }
    rewrite Hs. destruct (frameJournal receiptBytes) as [[tag v]|m] eqn:Hf.
    + rewrite demand_ok, verify_journal_ok, negb_true_iff, Z.eqb_neq, (frameJournal_tag _ _ _ Hf).
      split.
      * intros (? & ? & ? & ? & ? & ? & o & j & -> & Hj & Hp & He). split_and!; try done.
        exists j. split; [|done]. apply decodeJournal_spec. eauto.
      * intros ((? & ? & ? & ? & ?) & ? & j & (? & o & Hf' & Hj)%decodeJournal_spec & Hp & He).
        rewrite Hf in Hf'. simplify_eq. split_and!; try done. by exists o, j.
    + split; [naive_solver|]. intros (_ & _ & j & (? & ? & Hf' & _)%decodeJournal_spec & _). congruence.
  - apply verifyReceipt_honest.
Qed.

(** ** The frame *)
Definition is_bytes (l : list Z) : Prop := Forall (fun b => 0 <= b < 256) l.

Definition le64 (n : Z) : list Z :=
  [n mod 256; n / 256 mod 256; n / 65536 mod 256; n / 16777216 mod 256; 0; 0; 0; 0].

Lemma lor_shift a b n : 0 <= n -> 0 <= a < 2 ^ n -> Z.lor a (Z.shiftl b n) = a + b * 2 ^ n.
Proof.
  intros Hn Ha. rewrite <-Z.shiftl_mul_pow2 by done.
  assert (Hl : Z.land a (Z.shiftl b n) = 0).
  { apply Z.bits_inj'. intros i Hi. rewrite Z.land_spec, Z.bits_0, Z.shiftl_spec by done.
    destruct (Z.lt_ge_cases i n) as [Hlt|Hge].
    - by rewrite (Z.testbit_neg_r b) by lia; rewrite andb_false_r.
    - destruct (decide (a = 0)) as [->|Hne]; [by rewrite Z.bits_0|].
      rewrite (Z.bits_above_log2 a i); [done|lia|].
      apply Z.log2_lt_pow2; [lia|]. eapply Z.lt_le_trans; [apply Ha|]. apply Z.pow_le_mono_r; lia. }
  rewrite <-Z.add_lor_land, Hl. lia.
Qed.

Lemma byte_at_range bs i : is_bytes bs -> 0 <= byte_at bs i < 256.
Proof.
  intros Hb. unfold byte_at. destruct (i <? 0); [lia|].
  destruct (nth_in_or_default (Z.to_nat i) bs 0) as [Hin| ->]; [|lia].
  by apply (proj1 (List.Forall_forall _ _) Hb).
Qed.

Lemma readU32LE_sum bs o : is_bytes bs ->
  readU32LE bs o = byte_at bs o + 2 ^ 8 * byte_at bs (o + 1) + 2 ^ 16 * byte_at bs (o + 2) + 2 ^ 24 * byte_at bs (o + 3).
Proof.
  intros Hb. unfold readU32LE.
  pose proof (byte_at_range bs o Hb). pose proof (byte_at_range bs (o + 1) Hb).
  pose proof (byte_at_range bs (o + 2) Hb). pose proof (byte_at_range bs (o + 3) Hb).
  rewrite (lor_shift (byte_at bs o)) by lia.
  rewrite (lor_shift _ (byte_at bs (o + 2)) 16) by lia. rewrite (lor_shift _ (byte_at bs (o + 3)) 24) by lia.
  change 0xFFFFFFFF with (Z.ones 32). rewrite Z.land_ones by lia. rewrite Z.mod_small by lia. lia.
Qed.

Lemma byte_at_app a b i : 0 <= i -> byte_at (a ++ b) (Z.of_nat (length a) + i) = byte_at b i.
Proof.
  intros Hi. unfold byte_at. destruct (Z.ltb_spec (Z.of_nat (length a) + i) 0), (Z.ltb_spec i 0); try lia.
  rewrite app_nth2 by lia. f_equal. lia.
Qed.
Lemma byte_at_app_l a b i : i < Z.of_nat (length a) -> byte_at (a ++ b) i = byte_at a i.
Proof.
  intros Hi. unfold byte_at. destruct (Z.ltb_spec i 0); [done|]. apply app_nth1. lia.
Qed.

(** A prefix that reads as [n] is the encoding of [n]. *)
Lemma u64LEEquals_spec a l b n : is_bytes (a ++ l ++ b) -> length l = 8%nat -> 0 <= n < 2 ^ 32 ->
  u64LEEquals (a ++ l ++ b) (Z.of_nat (length a)) n = true <-> l = le64 n.
Proof.
  intros Hb Hl Hn. unfold u64LEEquals. rewrite andb_true_iff, !Z.eqb_eq, !readU32LE_sum by done.
  replace (Z.of_nat (length a)) with (Z.of_nat (length a) + 0) at 5 by lia.
  rewrite <-!Z.add_assoc, !byte_at_app by lia. apply Forall_app in Hb as [_ [Hb _]%Forall_app].
  do 8 (destruct l as [|? l]; [done|]). destruct l; [|done].
  repeat match goal with H : Forall _ (_ :: _) |- _ => inversion_clear H end.
  repeat match goal with |- context [byte_at ?l ?i] =>
    let v := eval vm_compute in (byte_at l i) in change (byte_at l i) with v end.
  unfold le64.
  split.
  - intros [Hhi Hlo]. assert (z3 = 0 /\ z4 = 0 /\ z5 = 0 /\ z6 = 0) as (-> & -> & -> & ->) by lia.
    rewrite <-Hlo. repeat f_equal; Z.div_mod_to_equations; lia.
  - intros [= -> -> -> -> -> -> -> ->]. split; [lia|]. Z.div_mod_to_equations. lia.
Qed.

Lemma bytes_is_bytes s : is_bytes (bytes s).
Proof. unfold bytes. apply Forall_fmap, Forall_forall. intros c _. apply code_range. Qed.

Lemma bytes_of_bytes l : is_bytes l -> bytes (of_bytes l) = l.
Proof.
  intros Hl. unfold bytes, of_bytes. rewrite chars_unchars.
  induction Hl as [|b l Hb _ IH]; [done|]. simpl. rewrite code_byte_of by done. by f_equal.
Qed.

(** A receipt: the inner receipt, the length prefix, the journal, the metadata. *)
Definition framed (inner text meta : list Z) : list Z :=
  inner ++ le64 (Z.of_nat (length text)) ++ text ++ meta.

Definition journal_text (text : list Z) (v : jsval) : Prop :=
  exists pts, decode_fatal (of_bytes text) = Some pts /\ JSON_parse (encode pts) = Some v.

Lemma le64_length n : length (le64 n) = 8%nat.
Proof. done. Qed.

Lemma try_len_framed inner text meta n : is_bytes (framed inner text meta) -> n = Z.of_nat (length text) -> n < 2 ^ 32 ->
  try_len (framed inner text meta) (Z.of_nat (length inner) + 8 + n) n =
  (if byte_at text 0 =? 0x7b then pts ← decode_fatal (of_bytes text); JSON_parse (encode pts) else None).
Proof.
  intros Hb Hn Hlt. unfold try_len.
  replace (Z.of_nat (length inner) + 8 + n - n) with (Z.of_nat (length (inner ++ le64 n)) + 0)
    by (rewrite length_app, le64_length; lia).
  assert (Hf : framed inner text meta = (inner ++ le64 n) ++ text ++ meta) by (unfold framed; by rewrite Hn, <-app_assoc).
  assert (H0 : byte_at (framed inner text meta) (Z.of_nat (length (inner ++ le64 n)) + 0) = byte_at (text ++ meta) 0).
  { rewrite Hf. by apply byte_at_app. }
  rewrite H0.
  assert (Hu : u64LEEquals (framed inner text meta) (Z.of_nat (length (inner ++ le64 n)) + 0 - 8) n = true).
  { replace (Z.of_nat (length (inner ++ le64 n)) + 0 - 8) with (Z.of_nat (length inner)) by (rewrite length_app, le64_length; lia).
    unfold framed in *. rewrite <-Hn in *. apply u64LEEquals_spec; [done|done|lia|done]. }
  rewrite Hu. cbn [negb].
  assert (Hs : subarray (framed inner text meta) (Z.of_nat (length (inner ++ le64 n)) + 0) (Z.of_nat (length inner) + 8 + n) = text).
  { unfold subarray. rewrite Hf. rewrite Z.add_0_r, Nat2Z.id, drop_app_length.
    replace (Z.to_nat _) with (length text) by (rewrite length_app, le64_length; lia). apply take_app_length. }
  rewrite Hs. destruct text as [|b text]; [|by destruct (Z.eqb_spec b 0x7b) as [->|Hne];
    [|change (byte_at ((b :: text) ++ meta) 0) with b; change (byte_at (b :: text) 0) with b;
      destruct (Z.eqb_spec b 0x7b); [congruence|]]].
  destruct (byte_at ([] ++ meta) 0 =? 0x7b); done.
Qed.

Lemma try_len_sound bs je len v : is_bytes bs -> 0 <= len -> len < 2 ^ 32 -> len + 8 <= je -> je <= Z.of_nat (length bs) ->
  try_len bs je len = Some v ->
  exists inner text meta, bs = framed inner text meta /\ len = Z.of_nat (length text) /\
    je = Z.of_nat (length inner) + 8 + len /\ byte_at text 0 = 0x7b /\ journal_text text v.
Proof.
  intros Hb H0 Hlt Hle Hje. set (a := Z.to_nat (je - len - 8)).
  set (inner := take a bs). set (pre := take 8 (drop a bs)). set (text := take (Z.to_nat len) (drop (a + 8) bs)).
  set (meta := drop (a + 8 + Z.to_nat len) bs).
  assert (Hsplit : bs = inner ++ pre ++ text ++ meta).
  { unfold inner, pre, text, meta. rewrite <-(drop_drop bs (Z.to_nat len) (a + 8)), take_drop, <-(drop_drop bs 8 a), take_drop.
    by rewrite take_drop. }
  assert (Hli : length inner = a) by (unfold inner; rewrite length_take; lia).
  assert (Hlp : length pre = 8%nat) by (unfold pre; rewrite length_take, length_drop; lia).
  assert (Hlt' : length text = Z.to_nat len) by (unfold text; rewrite length_take, length_drop; lia).
  clearbody inner pre text meta. intros Ht.
  assert (Hpre : pre = le64 len).
  { revert Ht. unfold try_len. destruct (negb _); [done|].
    destruct (u64LEEquals bs (je - len - 8) len) eqn:Hu; [|done]. intros _.
    rewrite Hsplit in Hu, Hb. replace (je - len - 8) with (Z.of_nat (length inner)) in Hu by lia.
    by apply u64LEEquals_spec in Hu. }
  assert (Hlen : len = Z.of_nat (length text)) by lia.
  exists inner, text, meta. split; [unfold framed; by rewrite <-Hlen, <-Hpre|]. split; [done|]. split; [lia|].
  assert (Hbs : bs = framed inner text meta) by (unfold framed; by rewrite <-Hlen, <-Hpre).
  rewrite Hbs in Ht, Hb. replace je with (Z.of_nat (length inner) + 8 + len) in Ht by lia.
  rewrite try_len_framed in Ht by done. destruct (Z.eqb_spec (byte_at text 0) 0x7b) as [Hh|]; [|done].
  split; [done|]. apply bind_Some in Ht as (pts & H1 & H2). by exists pts.
Qed.

Lemma scan_Some bs je len n v : scan bs je len n = Some v ->
  exists len', len <= len' < len + Z.of_nat n /\ try_len bs je len' = Some v.
Proof.
  revert len; induction n as [|n IH]; intros len; simpl; [done|].
  destruct (try_len bs je len) eqn:Ht; [intros [= <-]; exists len; split; [lia|done]|].
  intros (len' & Hr & Hl)%IH. exists len'. split; [lia|done].
Qed.

Lemma scan_first bs je len n k v : try_len bs je (len + Z.of_nat k) = Some v -> (k < n)%nat ->
  (forall i, (i < k)%nat -> try_len bs je (len + Z.of_nat i) = None) -> scan bs je len n = Some v.
Proof.
  revert len k; induction n as [|n IH]; intros len k Hk Hlt Hno; [lia|]. simpl.
  destruct k as [|k].
  - rewrite Z.add_0_r in Hk. by rewrite Hk.
  - rewrite <-(Z.add_0_r len) at 1. change 0 with (Z.of_nat 0). rewrite (Hno 0%nat) by lia.
    apply (IH (len + 1) k); [by replace (len + 1 + Z.of_nat k) with (len + Z.of_nat (S k)) by lia|lia|].
    intros i Hi. replace (len + 1 + Z.of_nat i) with (len + Z.of_nat (S i)) by lia. apply Hno. lia.
Qed.

Lemma framed_length inner text meta :
  length (framed inner text meta) = (length inner + 8 + length text + length meta)%nat.
Proof. unfold framed. rewrite !length_app, le64_length. lia. Qed.

Lemma byte_at_text inner text meta i : 0 <= i < Z.of_nat (length text) ->
  byte_at (framed inner text meta) (Z.of_nat (length inner) + 8 + i) = byte_at text i.
Proof.
  intros Hi. unfold framed. rewrite app_assoc.
  replace (Z.of_nat (length inner) + 8 + i) with (Z.of_nat (length (inner ++ le64 (Z.of_nat (length text)))) + i)
    by (rewrite length_app, le64_length; lia).
  rewrite byte_at_app by lia. apply byte_at_app_l. lia.
Qed.

(** A text without zero bytes holds no second frame. *)
Lemma shorter_rejected inner text meta i : is_bytes (framed inner text meta) -> 0 ∉ text ->
  0 <= i < Z.of_nat (length text) ->
  try_len (framed inner text meta) (Z.of_nat (length inner) + 8 + Z.of_nat (length text)) i = None.
Proof.
  intros Hb H0 Hi. unfold try_len. destruct (negb _); [done|].
  set (bs := framed inner text meta) in *. set (s := Z.of_nat (length inner) + 8 + Z.of_nat (length text) - i).
  assert (Hu : u64LEEquals bs (s - 8) i = false); [|by rewrite Hu].
  unfold u64LEEquals. apply andb_false_iff. left. apply Z.eqb_neq. rewrite readU32LE_sum by done.
  pose proof (byte_at_range bs (s - 8 + 4) Hb). pose proof (byte_at_range bs (s - 8 + 4 + 1) Hb).
  pose proof (byte_at_range bs (s - 8 + 4 + 2) Hb). pose proof (byte_at_range bs (s - 8 + 4 + 3) Hb).
  assert (byte_at bs (s - 8 + 4 + 3) <> 0); [|lia].
  replace (s - 8 + 4 + 3) with (Z.of_nat (length inner) + 8 + (Z.of_nat (length text) - i - 1)) by (unfold s; lia).
  unfold bs. rewrite byte_at_text by lia. intros Hz. apply H0. unfold byte_at in Hz.
  destruct (Z.ltb_spec (Z.of_nat (length text) - i - 1) 0); [lia|]. rewrite <-Hz. apply list_elem_of_In, nth_In. lia.
Qed.

(** C34. Framing is exact.  The journal of a receipt laid out as inner receipt,
    64-bit little-endian length, journal text and 32 bytes of metadata is found
    and parsed, whatever the inner receipt holds, provided the text is an object
    of at most 64 KiB without zero bytes.  Conversely whatever is framed has that
    layout: appended or missing bytes, or a length that is off, frame nothing. *)
Theorem frameJournal_exact :
  (forall inner text meta v,
     is_bytes (framed inner text meta) -> length meta = 32%nat -> 2 <= Z.of_nat (length text) <= 65536 ->
     byte_at text 0 = 0x7b -> byte_at text (Z.of_nat (length text) - 1) = 0x7d -> 0 ∉ text -> journal_text text v ->
     frameJournal (of_bytes (framed inner text meta)) = inl (inner_tag (of_bytes (framed inner text meta)), v)) /\
  (forall r tag v, frameJournal r = inl (tag, v) -> exists inner text meta,
     bytes r = framed inner text meta /\ length meta = 32%nat /\ 2 <= Z.of_nat (length text) <= 65536 /\
     byte_at text 0 = 0x7b /\ byte_at text (Z.of_nat (length text) - 1) = 0x7d /\ journal_text text v /\
     tag = inner_tag r).
Proof.
  split.
  - intros inner text meta v Hb Hm Hl Hh He H0 (pts & Hp & Hj). unfold frameJournal, inner_tag.
    rewrite bytes_of_bytes by done. set (bs := framed inner text meta) in *.
    assert (Hlen : Z.of_nat (length bs) = Z.of_nat (length inner) + 8 + Z.of_nat (length text) + 32).
    { unfold bs. rewrite framed_length. lia. }
    rewrite Hlen. unfold META_LEN.
    destruct (Z.ltb_spec (Z.of_nat (length inner) + 8 + Z.of_nat (length text) + 32) (32 + 8 + 2)); [lia|].
    replace (Z.of_nat (length inner) + 8 + Z.of_nat (length text) + 32 - 32)
      with (Z.of_nat (length inner) + 8 + Z.of_nat (length text)) by lia.
    replace (Z.of_nat (length inner) + 8 + Z.of_nat (length text) - 1)
      with (Z.of_nat (length inner) + 8 + (Z.of_nat (length text) - 1)) by lia.
    unfold bs at 1. rewrite byte_at_text, He by lia. cbn [Z.eqb Pos.eqb negb].
    rewrite (scan_first _ _ _ _ (length text - 2) v); [done| |lia|].
    + replace (2 + Z.of_nat (length text - 2)) with (Z.of_nat (length text)) by lia.
      unfold bs. rewrite try_len_framed by (done || lia). rewrite Hh, Hp. done.
    + intros i Hi. apply shorter_rejected; [done|done|lia].
  - intros r tag v. unfold frameJournal. set (bs := bytes r).
    assert (Hb : is_bytes bs) by apply bytes_is_bytes. unfold META_LEN.
    destruct (Z.ltb_spec (Z.of_nat (length bs)) (32 + 8 + 2)); [done|].
    destruct (Z.eqb_spec (byte_at bs (Z.of_nat (length bs) - 32 - 1)) 0x7d) as [He|]; [|done]. cbn [negb].
    destruct (scan _ _ _ _) as [v'|] eqn:Hs; [|done]. intros [= <- <-].
    apply scan_Some in Hs as (len & Hr & Ht).
    destruct (try_len_sound bs (Z.of_nat (length bs) - 32) len v') as (inner & text & meta & Hbs & Hlen & Hje & Hh & Hj);
      [done|lia|lia|lia|lia|done|].
    exists inner, text, meta. split; [done|]. rewrite Hbs in Hje, He. rewrite framed_length in Hje, He.
    split; [lia|]. split; [lia|]. split; [done|]. split; [|done].
    replace (Z.of_nat (length inner + 8 + length text + length meta) - 32 - 1)
      with (Z.of_nat (length inner) + 8 + (Z.of_nat (length text) - 1)) in He by lia.
    by rewrite byte_at_text in He by lia.
Qed.

(** ** A receipt for the examples *)
Definition ex_hash : string := "0x" +:+ unchars (repeat (byte_of 97) 64).
Definition ex_journal_text : string :=
  str_app ["{"; quote "decision"; ":"; quote "ALLOW"; ","; quote "policyId"; ":"; quote ex_hash; ",";
           quote "proofNonce"; ":"; quote "0xabc"; ","; quote "protocolVersion"; ":1,";
           quote "requestCommitment"; ":"; quote ex_hash; "}"].
Definition ex_receipt (tag : Z) : string :=
  of_bytes (framed (tag :: repeat 0 11) (bytes ex_journal_text) (repeat 7 32)).
Definition ex_release : VerifyManifest := {|
  vm_imageIdHex := VStr (unchars (repeat (byte_of 98) 64)); vm_policyId := VStr ex_hash; vm_rulesDigest := VStr ex_hash;
  vm_journalVersion := VUndef; vm_receiptCodec := VUndef |}.
Definition ex_expect (d : PolicyDecision) : VerifyExpect :=
  {| xe_commitment := VStr ex_hash; xe_decision := VStr (decision_str d); xe_proofNonce := VUndef |}.

Example verify_examples :
  res_ok (verifyReceipt (ex_receipt 1) ex_release (ex_expect ALLOW)) = true /\
  res_ok (verifyReceipt (ex_receipt 1) ex_release (ex_expect DENY)) = false /\
  res_ok (verifyReceipt (ex_receipt 3) ex_release (ex_expect ALLOW)) = false /\
  res_ok (verifyReceipt (ex_receipt 1 +:+ "x") ex_release (ex_expect ALLOW)) = false.
Proof. vm_compute. repeat split. Qed.
