(* ===== verification/GateRequest.v ===== *)
(** * The gate of the enclave (services/tee-sim/src/index.ts)

    The module-level state of the enclave service, [gateRequest], [witnessFor] and
    the mapping of its throws to HTTP replies.  The guest executor behind [fetch]
    is the record [Daemon] of what its two calls return; the clock and the random
    proof nonce are inputs of each call. *)

From S2P Require Import Prelude JsNum Utf8 Json Unicode Canonical Types Crypto Policy Authorize Insights JsMap Gates Hpke Tee ProofVerify ProverClient Prover.
Local Open Scope Z_scope.

Record ProverHealth : Type := { ph_imageIdHex : string; ph_policyId : string }.

(** The journal of an execution and its private scores (category, score, threshold). *)
Record ExecuteResult : Type := {
  xr_journal : PolicyJournal;
  xr_privateScores : option (list (string * Z * Z));
}.

Record Daemon : Type := {
  dm_execute : string -> string -> string -> res ProverError ExecuteResult;
  dm_health : res ProverError ProverHealth;
}.

(** The opened payload: the request as it came, and the two strings. *)
Record opened_payload : Type := {
  op_request : jsval;
  op_requestNonce : string;
  op_responsePublicKey : jsval;
}.

Record GateOutcome : Type := {
  go_requestId : string;
  go_canonical : CanonicalRequestV1;
  go_payload : opened_payload;
  go_commitment : string;
  go_decision : PolicyDecision;
  go_authorized : option AuthorizedRequest;
  go_decisionReceipt : SignedPolicyDecisionReceiptV1;
  go_gateWallMs : Z;
  go_decryptMs : Z;
}.

Definition PENDING_TTL_MS : Z := 60 * 1000.
Definition PENDING_MAX : nat := 10000.
Definition pending_opts : PendingGatesOptions := {| po_ttlMs := PENDING_TTL_MS; po_max := PENDING_MAX |}.

(** The module-level variables of the service. *)
Record EState : Type := {
  es_seenNonces : nonces;
  es_guestHealth : option ProverHealth;
  es_insights : Accumulator;
  es_pendingGates : gates GateOutcome;
  es_consumedIntentDigests : list string;
  es_prover : System;
}.
Definition es_init : EState := {|
  es_seenNonces := []; es_guestHealth := None; es_insights := acc_init; es_pendingGates := [];
  es_consumedIntentDigests := []; es_prover := sys_init |}.

Definition with_nonces (m : nonces) (s : EState) : EState := {|
  es_seenNonces := m; es_guestHealth := es_guestHealth s; es_insights := es_insights s;
  es_pendingGates := es_pendingGates s; es_consumedIntentDigests := es_consumedIntentDigests s; es_prover := es_prover s |}.
Definition with_health (h : ProverHealth) (s : EState) : EState := {|
  es_seenNonces := es_seenNonces s; es_guestHealth := Some h; es_insights := es_insights s;
  es_pendingGates := es_pendingGates s; es_consumedIntentDigests := es_consumedIntentDigests s; es_prover := es_prover s |}.
Definition with_insights (a : Accumulator) (s : EState) : EState := {|
  es_seenNonces := es_seenNonces s; es_guestHealth := es_guestHealth s; es_insights := a;
  es_pendingGates := es_pendingGates s; es_consumedIntentDigests := es_consumedIntentDigests s; es_prover := es_prover s |}.
Definition with_pending (g : gates GateOutcome) (s : EState) : EState := {|
  es_seenNonces := es_seenNonces s; es_guestHealth := es_guestHealth s; es_insights := es_insights s;
  es_pendingGates := g; es_consumedIntentDigests := es_consumedIntentDigests s; es_prover := es_prover s |}.
Definition with_consumed (d : list string) (s : EState) : EState := {|
  es_seenNonces := es_seenNonces s; es_guestHealth := es_guestHealth s; es_insights := es_insights s;
  es_pendingGates := es_pendingGates s; es_consumedIntentDigests := d; es_prover := es_prover s |}.
Definition with_prover (p : System) (s : EState) : EState := {|
  es_seenNonces := es_seenNonces s; es_guestHealth := es_guestHealth s; es_insights := es_insights s;
  es_pendingGates := es_pendingGates s; es_consumedIntentDigests := es_consumedIntentDigests s; es_prover := p |}.

(** What [gateRequest] throws. *)
Inductive GateThrow : Type :=
| GateError (httpStatus : Z) (code message : string)
| GateUnavailable
| GateMismatch
| GateOther.       (** any other exception: the error handler's 500 *)

(** [/health] answered by the cache once it has answered. *)
Definition getGuestHealth (d : Daemon) : SE EState ProverError ProverHealth := fun s =>
  match es_guestHealth s with
  | Some h => (s, Ok h)
  | None => match dm_health d with
            | Ok h => (with_health h s, Ok h)
            | Err e => (s, Err e)
            end
  end.

Definition of_prover_error (e : ProverError) : GateThrow :=
  match e with ProverUnavailableError _ => GateUnavailable | ProverFault _ => GateOther end.
Definition of_throw (e : Throw) : GateThrow :=
  match e with CommitmentMismatchError => GateMismatch | _ => GateOther end.

(** The inputs of one gate. *)
Record gate_env : Type := {
  gv_daemon : Daemon;
  gv_now : Z;               (** [Date.now()] when the nonce is remembered *)
  gv_decryptMs : Z;         (** rounded time of the decryption *)
  gv_gateMs : Z;            (** rounded time of the execution *)
  gv_proofNonce : string;   (** [randomHex(32)] *)
}.

(** An envelope as it is posted: [None] when the body has none. *)
Definition posted_envelope : Type := option (string * SecureRequestEnvelope).

Definition bad_decryption : GateThrow :=
  GateError 400 "CTN_INVALID_ENVELOPE" "envelope failed authenticated decryption".

Section GateRequest.
Context `{U : Unicode} `{C : Crypto} `{H : Hpke} `{N : NodeCrypto}.
Context (canonical_message : CanonicalizationError -> string).
Context (tee : SimulatedTEE).

(** The decrypted JSON; reading [requestNonce] off [null] throws outside the
    [try].  A nonce that is not a string is treated as that TypeError: the code
    would remember it first and fail in the executor or the commitment. *)
Definition open_payload (envelope : SecureRequestEnvelope) (aad : string) : res GateThrow opened_payload :=
  match openIngress tee (env_box envelope) (Some aad) ≫= fun opened => JSON_parse (text_decode opened) with
  | None => Err bad_decryption
  | Some v =>
      match js_get v "requestNonce" with
      | Some (VStr n) => Ok {| op_request := js_get_opt v "request"; op_requestNonce := n;
                               op_responsePublicKey := js_get_opt v "responsePublicKey" |}
      | _ => Err GateOther
      end
  end.

Definition remember_nonce (now : Z) (nonce : string) : SE EState GateThrow bool := fun s =>
  let '(fresh, m) := rememberNonce NONCE_MAX now nonce (es_seenNonces s) in (with_nonces m s, Ok fresh).

(** [requestText(payload.request.messages)]; [None] when it throws. *)
Definition raw_contents (request : jsval) : option (list string) :=
  match js_get_opt request "messages" with
  | VArr ms => mapM (fun m => as_str (js_get_opt m "content")) ms
  | _ => None
  end.

(** The best-effort classification. *)
Definition record_insight (request : jsval) (decision : PolicyDecision)
    (scores : option (list (string * Z * Z))) (a : Accumulator) : Accumulator :=
  match raw_contents request with
  | None => a
  | Some contents =>
      let cats := default [] scores in
      let facet := classify {|
        in_normalizedPrompt := normalize (requestText contents);
        in_decision := decision;
        in_categoryScores := fold_left (fun m c => map_set m c.1.1 c.1.2) cats [];
        in_categoryThresholds := fold_left (fun m c => map_set m c.1.1 c.2) cats [] |} in
      record_one a facet decision
  end.

Definition decision_receipt (requestId : string) (gate : GateResult) (journal : PolicyJournal)
    (health : ProverHealth) (gateWallMs : Z) : PolicyDecisionReceiptV1 := {|
  dr_requestId := requestId;
  dr_requestCommitment := gate_commitment gate;
  dr_policyId := j_policyId journal;
  dr_decision := gate_decision gate;
  dr_imageId := ph_imageIdHex health;
  dr_gateWallMs := gateWallMs;
|}.

Definition authorized_of (g : GateResult) : option AuthorizedRequest :=
  match g with GateAllow a _ => Some a | GateDeny _ => None end.

(** From the opened payload to the signed verdict. *)
Definition evaluate_gate (v : gate_env) (envelope : SecureRequestEnvelope) (payload : opened_payload)
    (canonical : CanonicalRequestV1) : SE EState GateThrow GateOutcome :=
  canonicalRequestBytes ← se_lift (map_err (fun _ => GateOther) (canonicalJson (request_val canonical)));
  execResult ← se_lift (map_err (fun e => match e with
                  | ProverUnavailableError _ => GateUnavailable
                  | ProverFault _ => GateError 500 "CTN_INTERNAL" "the guest executor rejected the gate request"
                  end) (dm_execute (gv_daemon v) canonicalRequestBytes (op_requestNonce payload) (gv_proofNonce v)));
  let gateWallMs := Z.max 1 (gv_gateMs v) in
  let journal := xr_journal execResult in
  gate ← se_lift (map_err of_throw (fromGuestJournal canonical (op_requestNonce payload)
           (j_requestCommitment journal) (j_decision journal) (j_policyId journal) gateWallMs));
  health ← se_map_err of_prover_error (getGuestHealth (gv_daemon v));
  let receipt := decision_receipt (env_requestId envelope) gate journal health gateWallMs in
  signature ← se_lift (map_err (fun _ => GateOther) (signReceipt tee (decision_receipt_val receipt)));
  _ ← se_modify (fun s => with_insights
        (record_insight (op_request payload) (gate_decision gate) (xr_privateScores execResult) (es_insights s)) s);
  mret {| go_requestId := env_requestId envelope;
          go_canonical := canonical;
          go_payload := payload;
          go_commitment := gate_commitment gate;
          go_decision := gate_decision gate;
          go_authorized := authorized_of gate;
          go_decisionReceipt := {| sdr_receipt := receipt; sdr_enclaveSignature := signature |};
          go_gateWallMs := gateWallMs;
          go_decryptMs := Z.max 1 (gv_decryptMs v) |}.

Definition gateRequest (v : gate_env) (posted : posted_envelope) : SE EState GateThrow GateOutcome :=
  match posted with
  | None => se_throw (GateError 400 "CTN_INVALID_ENVELOPE" "bad envelope version")
  | Some (version, envelope) =>
      _ ← se_guard (String.eqb version "ctn-1") (GateError 400 "CTN_INVALID_ENVELOPE" "bad envelope version");
      _ ← se_guard (String.eqb (env_enclaveKeyId envelope) (tee_enclaveKeyId tee))
            (GateError 400 "CTN_INVALID_ENVELOPE" "envelope encrypted to an unknown enclave key id");
      aad ← se_lift (map_err (fun _ => GateOther) (canonicalJson (aad_val envelope)));
      payload ← se_lift (open_payload envelope aad);
      fresh ← remember_nonce (gv_now v) (op_requestNonce payload);
      _ ← se_guard fresh (GateError 409 "CTN_INVALID_ENVELOPE" "request nonce already used (replay rejected)");
      canonical ← se_lift (map_err (fun e => GateError 400 "CTN_INVALID_ENVELOPE" (canonical_message e))
                             (toCanonicalRequest (op_request payload)));
      _ ← se_guard (String.eqb (env_model envelope) (cr_model canonical))
            (GateError 400 "CTN_INVALID_ENVELOPE" "routing header model does not match the sealed request model");
      evaluate_gate v envelope payload canonical
  end.

(** [witnessFor] *)
Definition witnessFor (o : GateOutcome) : res CanonicalizationError ProofWitness :=
  text ← canonicalJson (request_val (go_canonical o));
  Ok {| wt_canonicalRequest := text;
        wt_requestNonce := op_requestNonce (go_payload o);
        wt_requestCommitment := go_commitment o;
        wt_decision := go_decision o;
        wt_decisionReceipt := sdr_receipt (go_decisionReceipt o) |}.

(** [replyGateError] and, for what it does not know, the error handler: the status
    and the code of the reply. *)
Definition gate_reply (e : GateThrow) : Z * string :=
  match e with
  | GateUnavailable => (503, "PROVER_UNAVAILABLE")
  | GateMismatch => (500, "CTN_COMMITMENT_MISMATCH")
  | GateError status code _ => (status, code)
  | GateOther => (500, "CTN_INTERNAL")
  end.

(** ** What an outcome rests on *)
Context `{!CryptoOk C}.

(** The evidence behind an outcome: the sealed request that was opened under its
    own header, the executor's journal about those very bytes, and the receipt
    that says so. *)
Definition gate_evidence (v : gate_env) (posted : posted_envelope) (seen : nonces) (o : GateOutcome) : Prop :=
  exists envelope aad opened parsed bytes x,
    posted = Some ("ctn-1", envelope) /\
    env_enclaveKeyId envelope = tee_enclaveKeyId tee /\
    (* opened under the header *)
    canonicalJson (aad_val envelope) = Ok aad /\
    openIngress tee (env_box envelope) (Some aad) = Some opened /\
    JSON_parse (text_decode opened) = Some parsed /\
    js_get_opt parsed "request" = op_request (go_payload o) /\
    js_get_opt parsed "requestNonce" = VStr (op_requestNonce (go_payload o)) /\
    map_has seen (op_requestNonce (go_payload o)) = false /\
    toCanonicalRequest (op_request (go_payload o)) = Ok (go_canonical o) /\
    env_model envelope = cr_model (go_canonical o) /\
    (* the executor's verdict on those bytes *)
    canonicalBytes (go_canonical o) = Ok bytes /\
    dm_execute (gv_daemon v) bytes (op_requestNonce (go_payload o)) (gv_proofNonce v) = Ok x /\
    request_commitment_of (go_canonical o) (op_requestNonce (go_payload o)) = Ok (go_commitment o) /\
    j_requestCommitment (xr_journal x) = go_commitment o /\
    j_decision (xr_journal x) = go_decision o /\
    (* the receipt *)
    sdr_receipt (go_decisionReceipt o) = {|
      dr_requestId := env_requestId envelope; dr_requestCommitment := go_commitment o;
      dr_policyId := j_policyId (xr_journal x); dr_decision := go_decision o;
      dr_imageId := dr_imageId (sdr_receipt (go_decisionReceipt o)); dr_gateWallMs := go_gateWallMs o |} /\
    go_requestId o = env_requestId envelope.

Definition receipt_verifies (o : GateOutcome) : Prop :=
  verifyCanonical (decision_receipt_val (sdr_receipt (go_decisionReceipt o)))
    (sdr_enclaveSignature (go_decisionReceipt o)) (toHex (ed_public (tee_signingPrivateKey tee))) = Ok true.

(** ALLOW is the authorized request, DENY is its absence. *)
Definition authorizes (o : GateOutcome) : Prop :=
  match go_authorized o with
  | Some a => go_decision o = ALLOW /\ ar_request a = go_canonical o /\ ar_requestCommitment a = go_commitment o /\
              ar_requestNonce a = op_requestNonce (go_payload o) /\
              ar_policyId a = dr_policyId (sdr_receipt (go_decisionReceipt o))
  | None => go_decision o = DENY
  end.

Lemma fromGuestJournal_Ok r n jc d pol ms g : fromGuestJournal r n jc d pol ms = Ok g ->
  request_commitment_of r n = Ok jc /\ gate_commitment g = jc /\ gate_decision g = d /\
  authorized_of g = (match d with
    | ALLOW => Some {| ar_request := r; ar_requestCommitment := jc; ar_requestNonce := n; ar_policyId := pol; ar_policyMs := ms |}
    | DENY => None end).
Proof.
  unfold fromGuestJournal. intros (c & Hc & (u & Hu & [= <-])%res_bind_Ok)%res_bind_Ok.
  unfold assertGuestCommitment in Hu. apply guard_ok_Ok, String.eqb_eq in Hu. subst c. by destruct d.
Qed.

Lemma evaluate_gate_Ok v envelope payload canonical s s' o :
  evaluate_gate v envelope payload canonical s = (s', Ok o) ->
  exists bytes x gate health sig,
    canonicalBytes canonical = Ok bytes /\
    dm_execute (gv_daemon v) bytes (op_requestNonce payload) (gv_proofNonce v) = Ok x /\
    fromGuestJournal canonical (op_requestNonce payload) (j_requestCommitment (xr_journal x))
      (j_decision (xr_journal x)) (j_policyId (xr_journal x)) (Z.max 1 (gv_gateMs v)) = Ok gate /\
    signReceipt tee (decision_receipt_val (decision_receipt (env_requestId envelope) gate (xr_journal x) health
                                             (Z.max 1 (gv_gateMs v)))) = Ok sig /\
    o = {| go_requestId := env_requestId envelope; go_canonical := canonical; go_payload := payload;
           go_commitment := gate_commitment gate; go_decision := gate_decision gate; go_authorized := authorized_of gate;
           go_decisionReceipt := {| sdr_receipt := decision_receipt (env_requestId envelope) gate (xr_journal x) health
                                                    (Z.max 1 (gv_gateMs v)); sdr_enclaveSignature := sig |};
           go_gateWallMs := Z.max 1 (gv_gateMs v); go_decryptMs := Z.max 1 (gv_decryptMs v) |} /\
    es_seenNonces s' = es_seenNonces s.
Proof.
  unfold evaluate_gate.
  intros (s1 & bytes & [-> Hb%map_err_Ok]%se_lift_Ok & H1)%se_bind_Ok.
  apply se_bind_Ok in H1 as (s2 & x & [-> Hx%map_err_Ok]%se_lift_Ok & H1).
  apply se_bind_Ok in H1 as (s3 & gate & [-> Hg%map_err_Ok]%se_lift_Ok & H1).
  apply se_bind_Ok in H1 as (s4 & health & Hh & H1).
  apply se_bind_Ok in H1 as (s5 & sig & [-> Hs%map_err_Ok]%se_lift_Ok & H1).
  apply se_bind_Ok in H1 as (s6 & u & Hm & H1). injection Hm as <-. injection H1 as <- <-.
  exists bytes, x, gate, health, sig. split_and!; try done.
  unfold se_map_err, getGuestHealth in Hh. destruct (es_guestHealth s) as [h|]; [injection Hh as <- _; done|].
  destruct (dm_health _); [|done]. by injection Hh as <- _.
Qed.

Lemma open_payload_Ok envelope aad payload : open_payload envelope aad = Ok payload ->
  exists opened parsed, openIngress tee (env_box envelope) (Some aad) = Some opened /\
    JSON_parse (text_decode opened) = Some parsed /\ js_get_opt parsed "request" = op_request payload /\
    js_get_opt parsed "requestNonce" = VStr (op_requestNonce payload).
Proof.
  unfold open_payload. destruct (openIngress _ _ _) as [opened|]; [|done]. simpl.
  destruct (JSON_parse _) as [v|] eqn:Hj; [|done]. destruct (js_get v "requestNonce") as [[| | | |n| |]|] eqn:Hn; try done.
  intros [= <-]. exists opened, v. split_and!; try done. unfold js_get_opt. by rewrite Hn.
Qed.

(** C3. The gate fails closed.  An outcome exists only for an envelope of this
    enclave that opened under its own routing header, whose nonce was fresh, whose
    request is canonical and names the header's model, and for which the guest
    executor committed to exactly those bytes; it carries the executor's verdict,
    a decision receipt that verifies under the enclave key and says the same, and
    an authorized request exactly when the verdict is ALLOW.  The envelope cannot
    be gated a second time. *)
Theorem gateRequest_sound v posted s s' o :
  gateRequest v posted s = (s', Ok o) ->
  gate_evidence v posted (es_seenNonces s) o /\ receipt_verifies o /\ authorizes o /\
  (forall v', gateRequest v' posted s' =
     (s', Err (GateError 409 "CTN_INVALID_ENVELOPE" "request nonce already used (replay rejected)"))).
Proof.
  unfold gateRequest at 1. destruct posted as [[version envelope]|]; [|done].
  intros (s1 & u1 & [-> Hver]%se_guard_Ok & H1)%se_bind_Ok. apply String.eqb_eq in Hver as ->.
  apply se_bind_Ok in H1 as (s2 & u2 & [-> Hkey]%se_guard_Ok & H1).
  apply se_bind_Ok in H1 as (s3 & aad & [-> Haad]%se_lift_Ok & H1).
  apply se_bind_Ok in H1 as (s4 & payload & [-> Hopen]%se_lift_Ok & H1).
  apply se_bind_Ok in H1 as (s5 & fresh & Hnonce & H1).
  apply se_bind_Ok in H1 as (s6 & u3 & [-> ->]%se_guard_Ok & H1).
  apply se_bind_Ok in H1 as (s7 & canonical & [-> Hcan%map_err_Ok]%se_lift_Ok & H1).
  apply se_bind_Ok in H1 as (s8 & u4 & [-> Hmodel%String.eqb_eq]%se_guard_Ok & H1).
  apply evaluate_gate_Ok in H1 as (bytes & x & gate & health & sig & Hb & Hx & Hg & Hs & -> & Hseen).
  apply fromGuestJournal_Ok in Hg as (Hc & Hgc & Hgd & Hga).
  pose proof (open_payload_Ok _ _ _ Hopen) as (opened & parsed & Ho & Hp & Hreq & Hn).
  unfold remember_nonce in Hnonce. destruct (rememberNonce NONCE_MAX _ _ _) as [fresh m] eqn:Hr.
  injection Hnonce as <- ->.
  assert (Hfresh : map_has (es_seenNonces s) (op_requestNonce payload) = false).
  { unfold rememberNonce in Hr. by destruct (map_has _ _). }
  split; [|split; [|split]].
  - exists envelope, aad, opened, parsed, bytes, x. cbn [go_payload go_canonical go_commitment go_decision go_decisionReceipt
      sdr_receipt go_requestId go_gateWallMs]. apply map_err_Ok in Haad. apply String.eqb_eq in Hkey.
    rewrite Hgc, Hgd. split_and!; try done. unfold decision_receipt. by rewrite Hgc, Hgd.
  - by apply signCanonical_verify.
  - unfold authorizes. cbn. rewrite Hga, Hgc, Hgd. by destruct (j_decision _).
  - intros v'. cbn [gateRequest]. unfold gateRequest.
    rewrite (se_bind_run _ _ s' s' tt) by done. rewrite (se_bind_run _ _ s' s' tt) by (unfold se_guard; by rewrite Hkey).
    rewrite (se_bind_run _ _ s' s' aad) by (unfold se_lift; by rewrite Haad).
    rewrite (se_bind_run _ _ s' s' payload) by (unfold se_lift; by rewrite Hopen).
    assert (Hin : map_has (es_seenNonces s') (op_requestNonce payload) = true).
    { rewrite Hseen. cbn [with_nonces es_seenNonces]. unfold rememberNonce in Hr. rewrite Hfresh in Hr. injection Hr as <-.
      unfold map_has. rewrite map_get_set. by apply bool_decide_eq_true. }
    rewrite (se_bind_run _ _ s' s' false); [by apply se_bind_fail|].
    unfold remember_nonce, rememberNonce. rewrite Hin. by destruct s'.
Qed.

(** ** A faithful executor *)

(** What the guest documents: the commitment of the bytes it was given, and the
    verdict of the policy program on their messages. *)
Definition faithful (rules : PolicyRules) (policyId : string) (d : Daemon) : Prop :=
  (exists h, dm_health d = Ok h) /\
  forall r bytes nonce proofNonce c, request_ok r -> canonicalBytes r = Ok bytes -> request_commitment_of r nonce = Ok c ->
    exists x, dm_execute d bytes nonce proofNonce = Ok x /\
      j_requestCommitment (xr_journal x) = c /\ j_policyId (xr_journal x) = policyId /\
      j_decision (xr_journal x) = pe_decision (evaluateRequest rules (cm_content <$> cr_messages r)).

Lemma decision_receipt_ok r : Z.abs (dr_gateWallMs r) <= MAX_SAFE ->
  exists text, canonicalJson (decision_receipt_val r) = Ok text.
Proof.
  intros Hw. pose proof (canonicalJson_vint _ Hw) as Hv.
  assert (Hok : is_ok (canonicalJson (decision_receipt_val r)) = true).
  { apply canonicalJson_obj_ok. rewrite !Forall_cons. split_and!; try (by right); [right|by constructor].
    apply canonicalJson_obj_ok. constructor; [right|constructor]. cbn [snd]. by rewrite Hv. }
  destruct (canonicalJson (decision_receipt_val r)) as [text|e]; [by exists text|done].
Qed.

Lemma getGuestHealth_faithful rules policyId d s : faithful rules policyId d ->
  exists s' h, getGuestHealth d s = (s', Ok h).
Proof.
  intros [[h Hh] _]. unfold getGuestHealth. destruct (es_guestHealth s) as [h'|]; [by exists s, h'|].
  rewrite Hh. by eexists _, _.
Qed.

(** A request that ought to be gated: sealed to this enclave under its header. *)
Record well_sealed (envelope : SecureRequestEnvelope) (payload : opened_payload) (canonical : CanonicalRequestV1)
    (commitment : string) : Prop := {
  ws_key : env_enclaveKeyId envelope = tee_enclaveKeyId tee;
  ws_open : forall aad, canonicalJson (aad_val envelope) = Ok aad -> open_payload envelope aad = Ok payload;
  ws_request : toCanonicalRequest (op_request payload) = Ok canonical;
  ws_model : env_model envelope = cr_model canonical;
  ws_commitment : request_commitment_of canonical (op_requestNonce payload) = Ok commitment;
}.

Lemma aad_ok envelope : exists aad, canonicalJson (aad_val envelope) = Ok aad.
Proof.
  assert (Hok : is_ok (canonicalJson (aad_val envelope)) = true).
  { apply canonicalJson_obj_ok. rewrite !Forall_cons. split_and!; try (by right). by constructor. }
  destruct (canonicalJson (aad_val envelope)) as [text|e]; [by exists text|done].
Qed.

Context `{!UnicodeOk U}.

(** With an executor that does what it documents, the gate decides: a request
    sealed to this enclave, with a fresh nonce and timings within a safe integer,
    gets an outcome, and its verdict is the policy engine's on its messages under
    the guest's policy identity; it is authorized when that verdict is ALLOW. *)
Lemma gateRequest_complete rules policyId v envelope payload canonical commitment s :
  faithful rules policyId (gv_daemon v) -> Z.abs (gv_gateMs v) <= MAX_SAFE ->
  well_sealed envelope payload canonical commitment ->
  map_has (es_seenNonces s) (op_requestNonce payload) = false ->
  exists s' o, gateRequest v (Some ("ctn-1", envelope)) s = (s', Ok o) /\
    go_canonical o = canonical /\ go_commitment o = commitment /\
    go_decision o = pe_decision (evaluateRequest rules (cm_content <$> cr_messages canonical)) /\
    dr_policyId (sdr_receipt (go_decisionReceipt o)) = policyId /\
    go_requestId o = env_requestId envelope /\ go_payload o = payload /\
    (go_decision o = ALLOW -> exists a, go_authorized o = Some a /\ ar_request a = canonical /\ ar_requestCommitment a = commitment).
Proof.
  intros Hf Hms [Hkey Hopen Hreq Hmodel Hc] Hfresh.
  destruct (aad_ok envelope) as [aad Haad].
  pose proof (toCanonicalRequest_valid _ _ Hreq) as Hok.
  destruct (canonicalBytes_total _ Hok) as [bytes Hb].
  destruct (proj2 Hf canonical bytes (op_requestNonce payload) (gv_proofNonce v) commitment Hok Hb Hc)
    as (x & Hx & Hxc & Hxp & Hxd).
  unfold gateRequest. rewrite (se_bind_run _ _ s s tt) by done.
  rewrite (se_bind_run _ _ s s tt) by (unfold se_guard; by rewrite Hkey, String.eqb_refl).
  rewrite (se_bind_run _ _ s s aad) by (unfold se_lift; by rewrite Haad).
  rewrite (se_bind_run _ _ s s payload) by (unfold se_lift; by rewrite (Hopen aad Haad)).
  destruct (rememberNonce NONCE_MAX (gv_now v) (op_requestNonce payload) (es_seenNonces s)) as [b m] eqn:Hr.
  assert (b = true) as -> by (unfold rememberNonce in Hr; rewrite Hfresh in Hr; by injection Hr).
  set (s1 := with_nonces m s).
  rewrite (se_bind_run _ _ s s1 true) by (unfold remember_nonce; by rewrite Hr).
  rewrite (se_bind_run _ _ s1 s1 tt) by done.
  rewrite (se_bind_run _ _ s1 s1 canonical) by (unfold se_lift; by rewrite Hreq).
  rewrite (se_bind_run _ _ s1 s1 tt) by (unfold se_guard; by rewrite Hmodel, String.eqb_refl).
  unfold evaluate_gate. rewrite (se_bind_run _ _ s1 s1 bytes) by (unfold se_lift; unfold canonicalBytes in Hb; by rewrite Hb).
  rewrite (se_bind_run _ _ s1 s1 x) by (unfold se_lift; by rewrite Hx).
  set (gate := match j_decision (xr_journal x) with
    | ALLOW => GateAllow {| ar_request := canonical; ar_requestCommitment := commitment;
        ar_requestNonce := op_requestNonce payload; ar_policyId := policyId; ar_policyMs := Z.max 1 (gv_gateMs v) |} commitment
    | DENY => GateDeny commitment end).
  rewrite (se_bind_run _ _ s1 s1 gate).
  2: { unfold se_lift, fromGuestJournal. rewrite Hc, Hxc, Hxp. cbn [mbind res_bind]. unfold assertGuestCommitment.
       by rewrite String.eqb_refl. }
  assert (Hgc : gate_commitment gate = commitment) by (unfold gate; by destruct (j_decision _)).
  assert (Hgd : gate_decision gate = j_decision (xr_journal x)) by (unfold gate; by destruct (j_decision _)).
  destruct (getGuestHealth_faithful _ _ _ s1 Hf) as (s2 & h & Hh).
  rewrite (se_bind_run _ _ s1 s2 h) by (unfold se_map_err; by rewrite Hh).
  set (rc := decision_receipt _ _ _ _ _).
  destruct (decision_receipt_ok rc) as [text Htext]; [unfold rc, decision_receipt, MAX_SAFE in *; cbn [dr_gateWallMs]; lia|].
  destruct (signCanonical_correct _ (tee_signingPrivateKey tee) _ Htext) as (sig & Hsig & _).
  rewrite (se_bind_run _ _ s2 s2 sig) by (unfold se_lift, signReceipt; by rewrite Hsig).
  rewrite (se_bind_run _ _ s2 _ tt) by done.
  eexists _, _. split; [done|]. cbn. split_and!; [done|done|by rewrite Hgd|done..|].
  rewrite Hgd. unfold gate. intros ->. by eexists.
Qed.
End GateRequest.

(** ** An example: a faithful executor that re-reads the bytes it is given. *)
Definition reexec_daemon `{Unicode} `{Crypto} (rules : PolicyRules) (policyId : string) : Daemon := {|
  dm_execute := fun bytes nonce proofNonce =>
    match JSON_parse bytes with
    | Some v =>
        match toCanonicalRequest v with
        | Ok r => match request_commitment_of r nonce with
                  | Ok c => Ok {| xr_journal := {| j_protocolVersion := 1; j_requestCommitment := c; j_policyId := policyId;
                                    j_decision := pe_decision (evaluateRequest rules (cm_content <$> cr_messages r));
                                    j_proofNonce := proofNonce |};
                                  xr_privateScores := None |}
                  | Err _ => Err (ProverFault "commitment")
                  end
        | Err _ => Err (ProverFault "request")
        end
    | None => Err (ProverFault "bytes")
    end;
  dm_health := Ok {| ph_imageIdHex := "img"; ph_policyId := policyId |};
|}.

Lemma reexec_faithful `{U : Unicode} `{C : Crypto} `{!UnicodeOk U} rules policyId :
  faithful rules policyId (reexec_daemon rules policyId).
Proof.
  split; [by eexists|]. intros r bytes nonce proofNonce c Hr Hb Hc. cbn [dm_execute reexec_daemon].
  rewrite (JSON_parse_canonicalJson _ _ (wf_request r) Hb), toCanonicalRequest_canon by done. rewrite Hc. by eexists.
Qed.

Definition ex_sealed_request : jsval :=
  VObj [("model", VStr "m"); ("messages", VArr [VObj [("role", VStr "user"); ("content", VStr "hi")]]);
        ("temperature", vint 0); ("max_tokens", vint 16)].
Definition ex_payload : opened_payload :=
  {| op_request := ex_sealed_request; op_requestNonce := ex_nonce; op_responsePublicKey := VStr (toB64 "client") |}.
Definition ex_plaintext : string := str_app
  ["{"; quote "request"; ":{"; quote "model"; ":"; quote "m"; ","; quote "messages"; ":[{"; quote "role"; ":"; quote "user"; ",";
   quote "content"; ":"; quote "hi"; "}],"; quote "temperature"; ":0,"; quote "max_tokens"; ":16},"; quote "requestNonce"; ":";
   quote ex_nonce; ","; quote "responsePublicKey"; ":"; quote (toB64 "client"); "}"].
Definition ex_header (box : SealedBox) : SecureRequestEnvelope := {|
  env_requestId := "r1"; env_enclaveKeyId := tee_enclaveKeyId ex_tee; env_box := box;
  env_apiVersion := "1"; env_requestedPolicy := "safety-v1"; env_model := "m" |}.
Definition ex_aad : string :=
  match canonicalJson (aad_val (ex_header {| sb_enc := ""; sb_ciphertext := "" |})) with Ok s => s | Err _ => "" end.
Definition ex_envelope : SecureRequestEnvelope :=
  ex_header (default {| sb_enc := ""; sb_ciphertext := "" |}
    (hpkeSeal (tee_ingressPublicKey ex_tee) "eph" ex_plaintext (Some ex_aad))).
Definition ex_canonical : CanonicalRequestV1 := {|
  cr_model := "m"; cr_messages := [{| cm_role := user; cm_content := "hi" |}]; cr_temperature_millis := 0; cr_max_tokens := 16 |}.
Definition ex_request_commitment : string :=
  match request_commitment_of ex_canonical ex_nonce with Ok c => c | Err _ => "" end.
Definition ex_gate_env : gate_env := {|
  gv_daemon := reexec_daemon ex_rules "0xguest"; gv_now := 1000; gv_decryptMs := 0; gv_gateMs := 7; gv_proofNonce := "00" |}.

Lemma ex_well_sealed : well_sealed ex_tee ex_envelope ex_payload ex_canonical ex_request_commitment.
Proof.
  assert (canonicalJson (aad_val ex_envelope) = Ok ex_aad) as He by (vm_compute; reflexivity).
  split; [vm_compute; reflexivity| |vm_compute; reflexivity..].
  intros aad Haad. rewrite He in Haad. injection Haad as <-. vm_compute. reflexivity.
Qed.

Lemma gateRequest_complete_witness :
  exists s' o, gateRequest (fun _ => "") ex_tee ex_gate_env (Some ("ctn-1", ex_envelope)) es_init = (s', Ok o) /\
    go_canonical o = ex_canonical /\ go_commitment o = ex_request_commitment /\
    go_decision o = pe_decision (evaluateRequest ex_rules ["hi"]) /\
    dr_policyId (sdr_receipt (go_decisionReceipt o)) = "0xguest".
Proof.
  destruct (gateRequest_complete (fun _ => "") ex_tee ex_rules "0xguest" ex_gate_env ex_envelope ex_payload ex_canonical
           ex_request_commitment es_init) as (s' & o & H1 & H2 & H3 & H4 & H5 & _).
  - apply reexec_faithful.
  - vm_compute. discriminate.
  - apply ex_well_sealed.
  - reflexivity.
  - exists s', o. by split_and!.
Defined.

Local Abbreviation ex_gated :=
  (gateRequest (fun _ => "") ex_tee ex_gate_env (Some ("ctn-1", ex_envelope)) es_init).
Lemma gateRequest_sound_witness : exists s' o,
  ex_gated = (s', Ok o) /\ receipt_verifies ex_tee o /\ authorizes o.
Proof.
  assert (Hc : is_ok ex_gated.2 = true) by (vm_compute; reflexivity).
  destruct ex_gated as [s' [o|e]] eqn:He; [|discriminate Hc].
  destruct (gateRequest_sound (fun _ => "") ex_tee ex_gate_env (Some ("ctn-1", ex_envelope)) es_init s' o He)
    as (_ & Hr & Ha & _).
  exists s', o. split; [reflexivity|split; [exact Hr|exact Ha]].
Defined.
