(* ===== verification/Dispatch.v ===== *)
(** * Dispatching an authorized request (services/tee-sim/src/index.ts)

    [runDispatch]: the loop over the coordinator's candidates, the error it maps to
    when none answered, the compute receipt and the sealed response.  The network
    is an input of each attempt; the loop state records every HTTP request that
    left the enclave. *)

From S2P Require Import Prelude JsNum Utf8 Json Unicode Canonical Stringify Types Crypto Policy Authorize Pricing Providers Insights JsMap Gates Hpke Tee EnclaveVerify ProofVerify ProverClient Prover GateRequest.
Local Open Scope Z_scope.

Record AttemptRecord : Type := {
  at_credentialId : string;
  at_contributorId : string;
  at_attemptNumber : Z;
  at_success : bool;
  at_httpStatus : Z;
  at_latencyMs : Z;
  at_classification : option classification;
  at_upstreamOutcomeUnknown : bool;
  at_assumedSpendMicroUsd : option jsnum;
}.

Record Selected : Type := {
  sl_credentialId : string;
  sl_contributorId : string;
  sl_provider : string;
  sl_attempt : Z;
}.

Inductive DispatchThrow : Type :=
| ThrowAuth (t : Throw)
| ThrowPricing (e : PricingError)
| ThrowSign (e : CryptoError)
| ThrowSeal.

(** The local variables of the loop, and the requests sent so far. *)
Record Dispatch : Type := {
  ds_calls : list http_call;
  ds_attempts : list AttemptRecord;
  ds_failures : list AuthorizationFailure;
  ds_success : option (ProviderResponse * Selected);
  ds_lastFailure : option ProviderFailure;
  ds_attemptNumber : Z;
}.
Definition dispatch_init : Dispatch :=
  {| ds_calls := []; ds_attempts := []; ds_failures := []; ds_success := None; ds_lastFailure := None; ds_attemptNumber := 0 |}.

Definition push_failure (f : AuthorizationFailure) (d : Dispatch) : Dispatch := {|
  ds_calls := ds_calls d; ds_attempts := ds_attempts d; ds_failures := ds_failures d ++ [f];
  ds_success := ds_success d; ds_lastFailure := ds_lastFailure d; ds_attemptNumber := ds_attemptNumber d |}.

Definition attempt_record (candidate : CandidateRecord) (n : Z) (o : ProviderOutcome) : AttemptRecord := {|
  at_credentialId := cd_credentialId candidate;
  at_contributorId := cd_contributorId candidate;
  at_attemptNumber := n;
  at_success := match o with POk _ => true | PFail _ => false end;
  at_httpStatus := match o with POk r => rs_httpStatus r | PFail f => pf_httpStatus f end;
  at_latencyMs := match o with POk r => rs_latencyMs r | PFail f => pf_latencyMs f end;
  at_classification := match o with POk _ => None | PFail f => Some (pf_classification f) end;
  at_upstreamOutcomeUnknown := match o with POk _ => false | PFail f => pf_upstreamOutcomeUnknown f end;
  at_assumedSpendMicroUsd := match o with POk _ => None | PFail f => pf_assumedSpendMicroUsd f end |}.

Definition selected_of (candidate : CandidateRecord) (n : Z) : Selected := {|
  sl_credentialId := cd_credentialId candidate; sl_contributorId := cd_contributorId candidate;
  sl_provider := cd_provider candidate; sl_attempt := n |}.

(** Bookkeeping of an attempt that made the requests [calls] and ended in [o]. *)
Definition push_attempt (candidate : CandidateRecord) (calls : list http_call) (o : ProviderOutcome)
    (d : Dispatch) : Dispatch :=
  let n := ds_attemptNumber d + 1 in {|
  ds_calls := ds_calls d ++ calls;
  ds_attempts := ds_attempts d ++ [attempt_record candidate n o];
  ds_failures := ds_failures d;
  ds_success := match o with POk r => Some (r, selected_of candidate n) | PFail _ => ds_success d end;
  ds_lastFailure := match o with POk _ => ds_lastFailure d | PFail f => Some f end;
  ds_attemptNumber := n |}.

(** An attempt whose [complete] rejected: the requests were made all the same. *)
Definition push_calls (calls : list http_call) (d : Dispatch) : Dispatch := {|
  ds_calls := ds_calls d ++ calls;
  ds_attempts := ds_attempts d; ds_failures := ds_failures d; ds_success := ds_success d;
  ds_lastFailure := ds_lastFailure d; ds_attemptNumber := ds_attemptNumber d + 1 |}.

(** [true] when the loop breaks after this outcome. *)
Definition stops (o : ProviderOutcome) : bool :=
  match o with POk _ => true | PFail f => negb (bool_decide (pf_classification f ∈ PRE_DISPATCH_CLASSIFICATIONS)) end.

(** What the network does during the n-th attempt. *)
Record network : Type := { nw_fetch : Z -> http_call -> Providers.fetch_result; nw_latencyMs : Z -> Z }.

Section loop.
Context `{U : Unicode} `{C : Crypto} `{W : Url}.
Context (egress_env : string) (registry : list (string * ProviderAdapter)).
Context (enclaveSigningPublicKey : string) (decryptBlob : string -> option string).
Context (net : network) (authorized : AuthorizedRequest).

Definition attempt (candidate : CandidateRecord) (adapter : ProviderAdapter) (credential : AuthorizedCredential)
    : SE Dispatch DispatchThrow ProviderOutcome := fun d =>
  let n := ds_attemptNumber d + 1 in
  match complete egress_env (nw_fetch net n) (nw_latencyMs net n) adapter authorized credential with
  | (calls, Ok o) => (push_attempt candidate calls o d, Ok o)
  | (calls, Err e) => (push_calls calls d, Err (ThrowPricing e))
  end.

Definition serves (candidate : CandidateRecord) : option ProviderAdapter :=
  adapter ← registry_get registry (cd_provider candidate);
  if supportsModel adapter (cr_model (ar_request authorized)) then Some adapter else None.

Fixpoint dispatch (candidates : list CandidateRecord) : SE Dispatch DispatchThrow unit :=
  match candidates with
  | [] => mret tt
  | candidate :: rest =>
      authz ← se_lift (map_err ThrowAuth (authorizeCandidate candidate authorized enclaveSigningPublicKey decryptBlob));
      match authz with
      | inl failure => _ ← se_modify (push_failure failure); dispatch rest
      | inr credential =>
          match serves candidate with
          | None =>
              _ ← se_modify (push_failure {| af_credentialId := cd_credentialId candidate; af_reason := model_not_allowed |});
              dispatch rest
          | Some adapter =>
              outcome ← attempt candidate adapter credential;
              if stops outcome then mret tt else dispatch rest
          end
      end
  end.
End loop.

(** ** The result *)
Definition failure_code (last : option ProviderFailure) : string :=
  match last with
  | Some f => match pf_classification f with
              | auth_failed => "CTN_PROVIDER_AUTH_FAILED"
              | rate_limited => "CTN_PROVIDER_RATE_LIMITED"
              | _ => "CTN_PROVIDER_ERROR"
              end
  | None => "CTN_NO_CAPACITY"
  end.
Definition failure_message (code : string) : string :=
  if String.eqb code "CTN_NO_CAPACITY"
  then "No eligible contributed capacity is available for this model and policy."
  else "All eligible credentials failed for this request.".

Inductive BodyStatus : Type := COMPLETE | DENIED | FAILED_.

Record ComputeReceipt : Type := {
  cpr_requestId : string;
  cpr_requestCommitment : string;
  cpr_teeMode : teeMode;
  cpr_buildId : string;
  cpr_attestationDigest : string;
  cpr_policyId : string;
  cpr_zkReceiptDigest : string;
  cpr_provider : string;
  cpr_model : string;
  cpr_credentialId : string;
  cpr_contributorId : string;
  cpr_attempt : Z;
  cpr_inputTokens : Z;
  cpr_outputTokens : Z;
  cpr_estimatedCostMicroUsd : jsnum;
  cpr_pricingTableDigest : string;
  cpr_receivedAt : string;
  cpr_policyMs : Z;
  cpr_providerTotalMs : Z;
  cpr_upstreamRequestHash : string;
  cpr_upstreamResponseHash : string;
}.

Record SignedComputeReceipt : Type := { scr_receipt : ComputeReceipt; scr_enclaveSignature : string }.

Record ExecuteBody : Type := {
  eb_requestId : string;
  eb_status : BodyStatus;
  eb_commitment : string;
  eb_policyId : string;
  eb_policyDecision : PolicyDecision;
  eb_policyMs : Z;
  eb_model : string;
  eb_encryptedResponse : option SealedBox;
  eb_receipt : option SignedComputeReceipt;
  eb_attempts : list AttemptRecord;
  eb_selected : option Selected;
  eb_authorizationFailures : list AuthorizationFailure;
  eb_decisionReceipt : SignedPolicyDecisionReceiptV1;
  eb_usage : option (Z * Z * jsnum);           (** input and output tokens, micro-USD *)
  eb_providerTotalMs : option Z;
  eb_totalMs : Z;
  eb_error : option (string * string);
}.

Definition deniedBody (o : GateOutcome) : ExecuteBody := {|
  eb_requestId := go_requestId o; eb_status := DENIED; eb_commitment := go_commitment o;
  eb_policyId := dr_policyId (sdr_receipt (go_decisionReceipt o)); eb_policyDecision := DENY;
  eb_policyMs := go_gateWallMs o; eb_model := cr_model (go_canonical o);
  eb_encryptedResponse := None; eb_receipt := None; eb_attempts := []; eb_selected := None;
  eb_authorizationFailures := []; eb_decisionReceipt := go_decisionReceipt o; eb_usage := None;
  eb_providerTotalMs := None; eb_totalMs := go_gateWallMs o;
  eb_error := Some ("CTN_POLICY_DENIED", "Request was not eligible under Safety Policy v1.") |}.

(** The digest the receipt embeds: the artifact's when it is already there. *)
Definition zk_receipt_digest (record : option ProofRecord) : string :=
  match record with
  | Some {| rec_state := PGenerated _ d _ |} | Some {| rec_state := PVerified _ d _ _ _ _ |} => d
  | _ => "pending"
  end.

Definition compute_receipt_val (r : ComputeReceipt) : jsval := VObj [
  ("version", VStr "ctn-receipt-1");
  ("requestId", VStr (cpr_requestId r));
  ("requestCommitment", VStr (cpr_requestCommitment r));
  ("tee", VObj [("mode", VStr (tee_mode_str (cpr_teeMode r))); ("buildId", VStr (cpr_buildId r));
                ("attestationDigest", VStr (cpr_attestationDigest r))]);
  ("policy", VObj [("policyId", VStr (cpr_policyId r)); ("decision", VStr "ALLOW");
                   ("zkReceiptDigest", VStr (cpr_zkReceiptDigest r))]);
  ("route", VObj [("provider", VStr (cpr_provider r)); ("model", VStr (cpr_model r));
                  ("credentialId", VStr (cpr_credentialId r)); ("contributorId", VStr (cpr_contributorId r));
                  ("attempt", vint (cpr_attempt r))]);
  ("usage", VObj [("inputTokens", vint (cpr_inputTokens r)); ("outputTokens", vint (cpr_outputTokens r));
                  ("estimatedCostMicroUsd", VNum (cpr_estimatedCostMicroUsd r));
                  ("pricingTableDigest", VStr (cpr_pricingTableDigest r))]);
  ("timing", VObj [("receivedAt", VStr (cpr_receivedAt r)); ("policyMs", vint (cpr_policyMs r));
                   ("providerTotalMs", vint (cpr_providerTotalMs r))]);
  ("upstreamRequestHash", VStr (cpr_upstreamRequestHash r));
  ("upstreamResponseHash", VStr (cpr_upstreamResponseHash r))].

Definition signed_receipt_val (r : jsval) (sig : string) : jsval :=
  VObj [("receipt", r); ("enclaveSignature", VStr sig)].

(** The pair as it travels. *)
Definition signed_val (s : SignedComputeReceipt) : jsval :=
  signed_receipt_val (compute_receipt_val (scr_receipt s)) (scr_enclaveSignature s).

(** [JSON.stringify] of what is sealed to the client. *)
Definition response_text (requestId model : string) (r : ProviderResponse) : string :=
  json_fields [("requestId", quote requestId); ("model", quote model); ("content", quote (rs_content r));
               ("usage", json_fields [("inputTokens", num_to_string (rs_inputTokens r));
                                      ("outputTokens", num_to_string (rs_outputTokens r))])].

(** The inputs of one dispatch. *)
Record dispatch_env : Type := {
  dv_net : network;
  dv_receivedAt : string;   (** [new Date().toISOString()] on entry *)
  dv_totalMs : Z;           (** rounded elapsed time *)
  dv_eph : string;          (** randomness of the sealed response *)
}.

Section runDispatch.
Context `{U : Unicode} `{C : Crypto} `{W : Url} `{H : Hpke} `{N : NodeCrypto}.
Context (egress_env : string) (registry : list (string * ProviderAdapter)) (vaultKey : string) (tee : SimulatedTEE).

Definition failed_body (o : GateOutcome) (authorized : AuthorizedRequest) (d : Dispatch) (v : dispatch_env) : ExecuteBody :=
  let code := failure_code (ds_lastFailure d) in {|
  eb_requestId := go_requestId o; eb_status := FAILED_; eb_commitment := ar_requestCommitment authorized;
  eb_policyId := dr_policyId (sdr_receipt (go_decisionReceipt o)); eb_policyDecision := ALLOW;
  eb_policyMs := go_gateWallMs o; eb_model := cr_model (go_canonical o);
  eb_encryptedResponse := None; eb_receipt := None; eb_attempts := ds_attempts d; eb_selected := None;
  eb_authorizationFailures := ds_failures d; eb_decisionReceipt := go_decisionReceipt o; eb_usage := None;
  eb_providerTotalMs := None; eb_totalMs := dv_totalMs v;
  eb_error := Some (code, failure_message code) |}.

Definition compute_receipt (o : GateOutcome) (authorized : AuthorizedRequest) (r : ProviderResponse) (s : Selected)
    (record : option ProofRecord) (v : dispatch_env) : ComputeReceipt := {|
  cpr_requestId := go_requestId o;
  cpr_requestCommitment := ar_requestCommitment authorized;
  cpr_teeMode := tee_mode tee; cpr_buildId := tee_buildId tee; cpr_attestationDigest := attestationDigest tee;
  cpr_policyId := dr_policyId (sdr_receipt (go_decisionReceipt o));
  cpr_zkReceiptDigest := zk_receipt_digest record;
  cpr_provider := sl_provider s; cpr_model := cr_model (ar_request authorized);
  cpr_credentialId := sl_credentialId s; cpr_contributorId := sl_contributorId s; cpr_attempt := sl_attempt s;
  cpr_inputTokens := rs_inputTokens r; cpr_outputTokens := rs_outputTokens r;
  cpr_estimatedCostMicroUsd := rs_estimatedCostMicroUsd r; cpr_pricingTableDigest := rs_pricingTableDigest r;
  cpr_receivedAt := dv_receivedAt v; cpr_policyMs := go_gateWallMs o; cpr_providerTotalMs := rs_latencyMs r;
  cpr_upstreamRequestHash := rs_upstreamRequestHash r; cpr_upstreamResponseHash := rs_upstreamResponseHash r |}.

Definition seal_response (o : GateOutcome) (model : string) (r : ProviderResponse) (v : dispatch_env) : res DispatchThrow SealedBox :=
  match as_str (op_responsePublicKey (go_payload o)) ≫= fun pk =>
          hpkeSeal pk (dv_eph v) (response_text (go_requestId o) model r) None with
  | Some box => Ok box
  | None => Err ThrowSeal
  end.

Definition complete_body (o : GateOutcome) (authorized : AuthorizedRequest) (d : Dispatch) (r : ProviderResponse)
    (s : Selected) (record : option ProofRecord) (v : dispatch_env) : res DispatchThrow ExecuteBody :=
  let receipt := compute_receipt o authorized r s record v in
  signature ← map_err ThrowSign (signReceipt tee (compute_receipt_val receipt));
  sealed ← seal_response o (cr_model (ar_request authorized)) r v;
  Ok {|
  eb_requestId := go_requestId o; eb_status := COMPLETE; eb_commitment := ar_requestCommitment authorized;
  eb_policyId := dr_policyId (sdr_receipt (go_decisionReceipt o)); eb_policyDecision := ALLOW;
  eb_policyMs := go_gateWallMs o; eb_model := cr_model (ar_request authorized);
  eb_encryptedResponse := Some sealed; eb_receipt := Some {| scr_receipt := receipt; scr_enclaveSignature := signature |};
  eb_attempts := ds_attempts d; eb_selected := Some s; eb_authorizationFailures := ds_failures d;
  eb_decisionReceipt := go_decisionReceipt o;
  eb_usage := Some (rs_inputTokens r, rs_outputTokens r, rs_estimatedCostMicroUsd r);
  eb_providerTotalMs := Some (rs_latencyMs r); eb_totalMs := dv_totalMs v; eb_error := None |}.

(** [runDispatch]; [record] is what [prover.get] answers when the provider has.
    The handlers call it for ALLOW outcomes, whose [authorized] is present. *)
Definition runDispatch (o : GateOutcome) (authorized : AuthorizedRequest) (candidates : list CandidateRecord)
    (record : option ProofRecord) (v : dispatch_env) : Dispatch * res DispatchThrow ExecuteBody :=
  let '(d, run) := dispatch egress_env registry (tee_signingPublicKey tee) (vaultDecrypt vaultKey) (dv_net v)
                     authorized candidates dispatch_init in
  (d, _ ← run;
      match ds_success d with
      | None => Ok (failed_body o authorized d v)
      | Some (r, s) => complete_body o authorized d r s record v
      end).
End runDispatch.

(** ** The loop *)
Section loop_facts.
Context `{U : Unicode} `{C : Crypto} `{W : Url}.
Context (egress_env : string) (registry : list (string * ProviderAdapter)).
Context (pk : string) (dec : string -> option string) (net : network) (authorized : AuthorizedRequest).
Local Abbreviation run := (dispatch egress_env registry pk dec net authorized).

(** A request that left the enclave for a credential: made for a candidate with that
    id which the enclave authorized, to the endpoint of the adapter that serves it,
    which is allowlisted, with the key decrypted from that candidate's blob in the
    headers and the authorized request as body. *)
Definition sent_for (cands : list CandidateRecord) (credentialId : string) (c : http_call) : Prop :=
  exists candidate credential secret adapter target,
    candidate ∈ cands /\ cd_credentialId candidate = credentialId /\
    authorizeCandidate candidate authorized pk dec = Ok (inr credential) /\
    dec (cd_encryptedBlob candidate) = Some secret /\ serves registry authorized candidate = Some adapter /\
    hc_url c = wire_url adapter /\ egress_target (hc_url c) = Some target /\ target ∈ allowlist egress_env /\
    hc_headers c = wire_headers adapter secret /\ hc_body c = wire_body adapter (ar_request authorized).

(** Nothing was sent for this attempt. *)
Definition pre_dispatch (a : AttemptRecord) : Prop :=
  exists c, at_classification a = Some c /\ c ∈ PRE_DISPATCH_CLASSIFICATIONS /\
    at_upstreamOutcomeUnknown a = false /\ at_assumedSpendMicroUsd a = None.
Definition post_dispatch (a : AttemptRecord) : Prop :=
  (at_success a = true /\ at_classification a = None) \/
  exists c, at_success a = false /\ at_classification a = Some c /\ c ∉ PRE_DISPATCH_CLASSIFICATIONS.

(** How the loop can have ended. *)
Inductive dispatched (cands : list CandidateRecord) (d : Dispatch) : Prop :=
| NothingSent :
    ds_calls d = [] -> Forall pre_dispatch (ds_attempts d) -> ds_success d = None -> dispatched cands d
| OneSent pre c a :
    ds_calls d = [c] -> sent_for cands (at_credentialId a) c ->
    ds_attempts d = pre ++ [a] -> Forall pre_dispatch pre -> post_dispatch a ->
    at_success a = bool_decide (is_Some (ds_success d)) ->
    match ds_success d with
    | Some (r, s) => exists candidate, candidate ∈ cands /\ s = selected_of candidate (at_attemptNumber a) /\
                       at_credentialId a = cd_credentialId candidate /\
                       0 <= rs_inputTokens r <= MAX_SAFE /\ 0 <= rs_outputTokens r <= MAX_SAFE
    | None => exists f, ds_lastFailure d = Some f /\ at_classification a = Some (pf_classification f)
    end -> dispatched cands d.

(** The loop state between two candidates, when nothing was sent yet. *)
Definition idle (d : Dispatch) : Prop :=
  ds_calls d = [] /\ Forall pre_dispatch (ds_attempts d) /\ ds_success d = None.

Lemma idle_push f d : idle d -> idle (push_failure f d).
Proof. done. Qed.

Lemma sent_for_tl c cands id x : sent_for cands id x -> sent_for (c :: cands) id x.
Proof. intros (a & b & e & t & g & ? & H). exists a, b, e, t, g. split; [set_solver|done]. Qed.

Lemma dispatched_tl c cands d : dispatched cands d -> dispatched (c :: cands) d.
Proof.
  intros [Hc Hp Hn|pre x a Hc Hs Ha Hp Hpo Hsu Hm]; [by apply NothingSent|].
  apply (OneSent _ _ pre x a); try done; [by apply sent_for_tl|].
  destruct (ds_success d) as [[r s]|]; [|done]. destruct Hm as (y & Hy & Hm). exists y. split; [by right|done].
Qed.

Lemma attempt_spec candidate adapter credential d :
  exists calls o, attempt egress_env net authorized candidate adapter credential d = (push_attempt candidate calls o d, Ok o) /\
    ((calls = [] /\ stops o = false /\ pre_dispatch (attempt_record candidate (ds_attemptNumber d + 1) o) /\
      match o with POk _ => False | PFail _ => True end) \/
     (exists call target, calls = [call] /\ stops o = true /\
        hc_url call = wire_url adapter /\ egress_target (hc_url call) = Some target /\ target ∈ allowlist egress_env /\
        hc_headers call = wire_headers adapter (ac_secret credential) /\ hc_body call = wire_body adapter (ar_request authorized) /\
        post_dispatch (attempt_record candidate (ds_attemptNumber d + 1) o) /\
        match o with POk r => 0 <= rs_inputTokens r <= MAX_SAFE /\ 0 <= rs_outputTokens r <= MAX_SAFE | PFail _ => True end)).
Proof.
  unfold attempt.
  destruct (complete_dispatch egress_env (nw_fetch net (ds_attemptNumber d + 1)) (nw_latencyMs net (ds_attemptNumber d + 1))
              adapter authorized credential) as (calls & o & -> & Ho).
  exists calls, o. split; [done|].
  destruct Ho as [(-> & c & Hc & ->)|(call & target & -> & Hu & Ht & Ha & Hh & Hb & _ & Ho)]; [left|right].
  - split_and!; [done| | |done].
    + simpl. by rewrite bool_decide_eq_true_2.
    + exists c. by split_and!.
  - exists call, target. destruct o as [r|f]; simpl in *.
    + destruct Ho as (? & ? & _ & _ & _ & Hi & Hou & _). split_and!; try done; [by left|lia..].
    + destruct Ho as [Hf _]. split_and!; try done; [by rewrite bool_decide_eq_false_2|].
      right. by exists (pf_classification f).
Qed.

Lemma dispatch_loop cands d d' r : idle d -> run cands d = (d', r) ->
  dispatched cands d' /\ (ds_failures d `prefix_of` ds_failures d') /\
  (r = Ok tt \/ exists t, r = Err (ThrowAuth t) /\ ds_calls d' = []).
Proof.
  revert d. induction cands as [|c cands IH]; intros d Hi Hr.
  { injection Hr as <- <-. destruct Hi as (? & ? & ?). split; [by constructor|]. eauto. }
  cbn [dispatch] in Hr. unfold se_lift, se_modify in Hr. unfold mbind, SE_bind in Hr.
  destruct (authorizeCandidate c authorized pk dec) as [[f|cred]|t] eqn:Ha; simpl in Hr.
  - apply IH in Hr as (Hd & Hf & Hr); [|by apply idle_push].
    split_and!; [by apply dispatched_tl| |done]. etrans; [|exact Hf]. simpl. by exists [f].
  - destruct (serves registry authorized c) as [adapter|] eqn:Hs.
    2: { apply IH in Hr as (Hd & Hf & Hr); [|by apply idle_push].
         split_and!; [by apply dispatched_tl| |done]. etrans; [|exact Hf]. by eexists. }
    destruct (attempt_spec c adapter cred d) as (calls & o & Hat & Ho).
    rewrite Hat in Hr. destruct Hi as (Hc & Hp & Hn).
    destruct Ho as [(-> & Hst & Hpre & Hf)|(call & target & -> & Hst & Hurl & Ht & Hal & Hhd & Hb & Hpo & Htok)]; rewrite Hst in Hr.
    + destruct o as [|f]; [done|]. apply IH in Hr as (Hd & Hfl & Hr).
      * split_and!; [by apply dispatched_tl|done|done].
      * split_and!; simpl; [by rewrite Hc|apply Forall_app; by repeat constructor|done].
    + injection Hr as <- <-. split_and!; [|done|by left].
      apply (OneSent _ _ (ds_attempts d) call (attempt_record c (ds_attemptNumber d + 1) o)).
      all: simpl; try done.
      * by rewrite Hc.
      * pose proof Ha as (_ & secret & Hsec & Hcr)%authorizeCandidate_iff. rewrite Hcr in Hhd.
        exists c, cred, secret, adapter, target. split_and!; try done. by left.
      * destruct o; simpl; [done|by rewrite Hn].
      * destruct o as [p|f]; simpl; [exists c; split_and!; [by left|done|done|apply Htok..]|].
        rewrite Hn. by exists f.
  - injection Hr as <- <-. destruct Hi as (? & ? & ?). split_and!; [by constructor|done|right]. by exists t.
Qed.

Lemma idle_init : idle dispatch_init.
Proof. by split_and!. Qed.
End loop_facts.

(** ** What the client and the coordinator get *)
Section results.
Context `{U : Unicode} `{C : Crypto} `{W : Url} `{H : Hpke} `{N : NodeCrypto}.
Context (egress_env : string) (registry : list (string * ProviderAdapter)) (vaultKey : string) (tee : SimulatedTEE).
Local Abbreviation run := (runDispatch egress_env registry vaultKey tee).

(** C1. Single dispatch.  Whatever the candidates and the network, one request
    sends at most one HTTP request upstream: for a candidate the enclave itself
    authorized, to its provider's endpoint, which is allowlisted, with the key
    decrypted from that candidate's blob in the headers and the authorized request
    as its body.  A second candidate is only ever tried after attempts that
    sent nothing and assume no spend; the attempts reported to the coordinator are
    the attempts made, and the one that sent is the last of them.  When no
    exception is thrown the answer is COMPLETE exactly if that attempt succeeded,
    and after a request was sent the only exceptions left are those of signing the
    receipt and sealing the response. *)
Theorem single_dispatch o authorized cands record v d r :
  run o authorized cands record v = (d, r) ->
  (length (ds_calls d) <= 1)%nat /\
  dispatched egress_env registry (tee_signingPublicKey tee) (vaultDecrypt vaultKey) authorized cands d /\
  match r with
  | Ok b => eb_attempts b = ds_attempts d /\ eb_authorizationFailures b = ds_failures d /\
            eb_selected b = snd <$> ds_success d /\ (eb_status b = COMPLETE <-> is_Some (ds_success d)) /\
            (ds_success d = None -> eb_error b = Some (failure_code (ds_lastFailure d), failure_message (failure_code (ds_lastFailure d))))
  | Err (ThrowAuth _) => ds_calls d = []
  | Err (ThrowPricing _) => False
  | Err _ => is_Some (ds_success d)
  end.
Proof.
  unfold runDispatch. destruct (dispatch _ _ _ _ _ _ _ _) as [d' l] eqn:He. intros [= <- <-].
  destruct (dispatch_loop _ _ _ _ _ _ _ _ _ _ idle_init He) as (Hd & _ & Hl).
  split_and!; [destruct Hd as [Hc _ _|pre c a Hc _ _ _ _ _ _]; rewrite Hc; simpl; lia|done|].
  destruct Hl as [->|(t & -> & Hc)]; simpl; [|done].
  destruct (ds_success d') as [[p s]|] eqn:Hs; [|split_and!; try done; by split; [done|intros [??]]].
  unfold complete_body. destruct (signReceipt _ _) as [sig|e]; simpl; [|done].
  unfold seal_response. destruct (as_str _ ≫= _) as [box|]; simpl; [|done]. by split_and!.
Qed.

Lemma complete_body_Ok o authorized d r s record v b :
  complete_body tee o authorized d r s record v = Ok b ->
  exists sig box, let receipt := compute_receipt_val (compute_receipt tee o authorized r s record v) in
    signReceipt tee receipt = Ok sig /\
    seal_response o (cr_model (ar_request authorized)) r v = Ok box /\
    eb_status b = COMPLETE /\ eb_receipt b = Some {| scr_receipt := compute_receipt tee o authorized r s record v; scr_enclaveSignature := sig |} /\ eb_encryptedResponse b = Some box /\
    eb_usage b = Some (rs_inputTokens r, rs_outputTokens r, rs_estimatedCostMicroUsd r).
Proof.
  unfold complete_body. intros (sig & Hs%map_err_Ok & (box & Hb & [= <-])%res_bind_Ok)%res_bind_Ok.
  by exists sig, box.
Qed.

Lemma run_complete_Ok o authorized cands record v d b :
  run o authorized cands record v = (d, Ok b) -> eb_status b = COMPLETE ->
  exists r s, ds_success d = Some (r, s) /\ complete_body tee o authorized d r s record v = Ok b.
Proof.
  unfold runDispatch. destruct (dispatch _ _ _ _ _ _ _ _) as [d' l]. intros [= <- (u & _ & Hr)%res_bind_Ok] Hc.
  destruct (ds_success d') as [[r s]|]; [eauto|]. by injection Hr as <-.
Qed.

Definition signed_binding_val (b : SignedProofBindingV2) : jsval :=
  VObj [("binding", proof_binding_val (spb_binding b)); ("enclaveSignature", VStr (spb_enclaveSignature b))].

Context `{!CryptoOk C} `{!HpkeOk H}.

(** [verifyComputeReceipt] on a receipt of this enclave, alone and with a proof. *)
Lemma verify_signed_receipt cr sig :
  tee_signingPublicKey tee = toHex (ed_public (tee_signingPrivateKey tee)) ->
  signReceipt tee (compute_receipt_val cr) = Ok sig ->
  verifyCanonical (compute_receipt_val cr) sig (tee_signingPublicKey tee) = Ok true.
Proof. intros -> Hs. by apply signCanonical_verify. Qed.

Lemma signed_receipt_alone cr sig pk :
  verifyCanonical (compute_receipt_val cr) sig pk = Ok true ->
  exists r, verifyComputeReceipt (signed_receipt_val (compute_receipt_val cr) sig) pk None None = Ok r /\ vr_valid r = true.
Proof.
  intros Hv. unfold verifyComputeReceipt.
  change (js_get_opt (signed_receipt_val (compute_receipt_val cr) sig) "enclaveSignature") with (VStr sig).
  change (js_get (signed_receipt_val (compute_receipt_val cr) sig) "receipt") with (Some (compute_receipt_val cr)).
  unfold verifyCanonical_js. cbn [lift_get mbind res_bind]. rewrite Hv. cbn. by eexists.
Qed.

Lemma decisionReceiptDigest_nonempty dr rd : decisionReceiptDigest dr = Ok rd -> rd <> "".
Proof. unfold decisionReceiptDigest. intros (? & _ & [= <-])%res_bind_Ok. done. Qed.

(** The receipt with the artifact and the binding of a verified proof. *)
Lemma signed_receipt_with_proof cr sig pk a sb :
  verifyCanonical (compute_receipt_val cr) sig pk = Ok true ->
  verifyCanonical (proof_binding_val (spb_binding sb)) (spb_enclaveSignature sb) pk = Ok true ->
  pb_artifactDigest (spb_binding sb) = zkArtifactDigest (pa_receiptBytes a) ->
  pb_decisionReceiptDigest (spb_binding sb) <> "" -> pb_proofVerified (spb_binding sb) = true ->
  pb_decision (spb_binding sb) = ALLOW ->
  j_requestCommitment (pa_decodedJournal a) = cpr_requestCommitment cr ->
  j_policyId (pa_decodedJournal a) = pb_policyId (spb_binding sb) ->
  cpr_zkReceiptDigest cr = "pending" \/ cpr_zkReceiptDigest cr = zkArtifactDigest (pa_receiptBytes a) ->
  exists r, verifyComputeReceipt (signed_receipt_val (compute_receipt_val cr) sig) pk (Some a) (Some (signed_binding_val sb)) = Ok r /\
    (vr_valid r = true <-> cpr_policyId cr = pb_policyId (spb_binding sb)).
Proof.
  intros Hv Hb Hd Hne Hpv Hdec Hcm Hpol Hzk.
  assert (exists r, verifyComputeReceipt (signed_receipt_val (compute_receipt_val cr) sig) pk (Some a)
                      (Some (signed_binding_val sb)) = Ok r) as [r Hr].
  { unfold verifyComputeReceipt.
    change (js_get_opt (signed_receipt_val (compute_receipt_val cr) sig) "enclaveSignature") with (VStr sig).
    change (js_get (signed_receipt_val (compute_receipt_val cr) sig) "receipt") with (Some (compute_receipt_val cr)).
    change (js_get (signed_binding_val sb) "binding") with (Some (proof_binding_val (spb_binding sb))).
    change (js_get_opt (signed_binding_val sb) "enclaveSignature") with (VStr (spb_enclaveSignature sb)).
    unfold binding_checks, verifyCanonical_js. cbn [lift_get mbind res_bind]. rewrite Hv, Hb. cbn. by eexists. }
  exists r. split; [done|]. rewrite (verifyComputeReceipt_spec _ _ _ _ _ Hr).
  assert (Hs1 : receipt_ok (signed_receipt_val (compute_receipt_val cr) sig) pk).
  { split; [|done]. by apply (verifyCanonical_js_true _ _ _ true); [cbn; rewrite Hv|]. }
  assert (Hs2 : signed_by pk (proof_binding_val (spb_binding sb)) (VStr (spb_enclaveSignature sb))).
  { by apply (verifyCanonical_js_true _ _ _ true); [cbn; rewrite Hb|]. }
  unfold artifact_ok, binding_ok. cbn. rewrite Hcm, Hpol, Hd, Hpv, Hdec.
  split.
  - intros (_ & (_ & [= ->] & _) & _). done.
  - intros ->. split_and!; try done.
    + destruct Hzk as [-> | ->]; eauto.
    + apply String.eqb_refl.
    + eauto.
Qed.

(** The opened response, as the client parses it. *)
Definition response_val (requestId model : string) (r : ProviderResponse) : jsval :=
  VObj [("requestId", VStr requestId); ("model", VStr model); ("content", VStr (rs_content r));
        ("usage", VObj [("inputTokens", vint (rs_inputTokens r)); ("outputTokens", vint (rs_outputTokens r))])].

Lemma response_text_parses requestId model r :
  0 <= rs_inputTokens r <= MAX_SAFE -> 0 <= rs_outputTokens r <= MAX_SAFE ->
  JSON_parse (response_text requestId model r) = Some (response_val requestId model r).
Proof.
  intros Hi Ho. apply JSON_parse_prints. unfold response_text, json_fields, response_val.
  apply prints_obj; [simpl; by apply (bool_decide_unpack _)|].
  repeat constructor; (eexists; split; [done|]); try apply prints_str.
  apply prints_obj; [simpl; by apply (bool_decide_unpack _)|].
  repeat constructor; (eexists; split; [done|]); apply prints_int; simpl; lia.
Qed.

(** A COMPLETE answer is what it should be: its receipt is signed by the enclave
    and verifies, it names the authorized commitment, the policy of the decision
    receipt, the candidate that served and the usage the provider reported; and the
    sealed response opens for the holder of the response key to exactly the
    provider's content and that usage, under this request's id. *)
Lemma dispatch_receipt o authorized cands record v d b seed :
  run o authorized cands record v = (d, Ok b) -> eb_status b = COMPLETE ->
  tee_signingPublicKey tee = toHex (ed_public (tee_signingPrivateKey tee)) ->
  op_responsePublicKey (go_payload o) = VStr (generateHpkeKeyPair seed).1 ->
  exists r s sig box text,
    ds_success d = Some (r, s) /\
    eb_receipt b = Some {| scr_receipt := compute_receipt tee o authorized r s record v; scr_enclaveSignature := sig |} /\
    (exists vr, verifyComputeReceipt (default VUndef (signed_val <$> eb_receipt b)) (tee_signingPublicKey tee) None None = Ok vr /\ vr_valid vr = true) /\
    eb_encryptedResponse b = Some box /\
    hpkeOpen (generateHpkeKeyPair seed).2 box None = Some text /\
    text = response_text (go_requestId o) (cr_model (ar_request authorized)) r /\
    JSON_parse text = Some (response_val (go_requestId o) (cr_model (ar_request authorized)) r) /\
    eb_usage b = Some (rs_inputTokens r, rs_outputTokens r, rs_estimatedCostMicroUsd r).
Proof.
  intros Hr Hc Hk Hpk. destruct (run_complete_Ok _ _ _ _ _ _ _ Hr Hc) as (r & s & Hs & Hb).
  apply complete_body_Ok in Hb as (sig & box & Hsig & Hseal & _ & Hrec & Hbox & Hu).
  unfold seal_response in Hseal. rewrite Hpk in Hseal. cbn [as_str mbind option_bind] in Hseal.
  pose proof (hpke_roundtrip seed (dv_eph v) (response_text (go_requestId o) (cr_model (ar_request authorized)) r) None) as Hrt.
  destruct (generateHpkeKeyPair seed) as [pub priv]. destruct Hrt as (box' & Hs' & Ho). cbn [fst snd] in *.
  rewrite Hs' in Hseal. injection Hseal as <-.
  exists r, s, sig, box', (response_text (go_requestId o) (cr_model (ar_request authorized)) r).
  assert (Htok : 0 <= rs_inputTokens r <= MAX_SAFE /\ 0 <= rs_outputTokens r <= MAX_SAFE).
  { unfold runDispatch in Hr. destruct (dispatch _ _ _ _ _ _ _ _) as [d' l] eqn:He. injection Hr as <- _.
    destruct (dispatch_loop _ _ _ _ _ _ _ _ _ _ idle_init He) as ([_ _ Hn|pre c a _ _ _ _ _ _ Hm] & _ & _);
      [by rewrite Hn in Hs|]. rewrite Hs in Hm. destruct Hm as (y & _ & _ & _ & H1 & H2). by split. }
  split_and!; try done; [|apply response_text_parses; tauto].
  rewrite Hrec. by apply signed_receipt_alone, verify_signed_receipt.
Qed.

(** C15. The trust chain closes.  A request is proved by one task of the prover, on the
    witness of this gate's outcome, and its dispatch completes at some moment [evs] of
    the prover's life - before, while or after the proof is made -; later its record
    is VERIFIED.  Then the compute receipt handed out at that moment and the artifact
    and binding of the end verify together exactly when the policy the executor
    committed to is the pinned one; and the receipt carries the digest of that very
    artifact if there was one already, and "pending" otherwise. *)
Theorem receipt_and_proof_verify json_error type_error crypto_message p evs later o authorized cands v d b w nonce a dg rd sb ver ms t0 n0 :
  let record := get (sy_state (sys_run json_error type_error crypto_message p evs)) (go_requestId o) in
  run o authorized cands record v = (d, Ok b) -> eb_status b = COMPLETE ->
  tee_signingPublicKey tee = toHex (ed_public (tee_signingPrivateKey tee)) -> pv_tee p = tee ->
  authorizes o -> go_authorized o = Some authorized -> witnessFor o = Ok w ->
  List.filter (starts (go_requestId o)) (evs ++ later) = [Start (go_requestId o) w n0 t0] ->
  get (sy_state (sys_run json_error type_error crypto_message p (evs ++ later))) (go_requestId o) =
    Some {| rec_state := PVerified a dg rd sb ver ms; rec_proofNonce := nonce |} ->
  exists signed r,
    eb_receipt b = Some signed /\
    verifyComputeReceipt (signed_val signed) (tee_signingPublicKey tee) (Some a) (Some (signed_binding_val sb)) = Ok r /\
    (vr_valid r = true <-> dr_policyId (sdr_receipt (go_decisionReceipt o)) = mf_policyId (pv_manifest p)) /\
    cpr_zkReceiptDigest (scr_receipt signed) =
      match status ∘ rec_state <$> record with
      | Some GENERATED | Some VERIFIED => zkArtifactDigest (pa_receiptBytes a)
      | _ => "pending"
      end.
Proof.
  intros record Hr Hc Hk Hp Ha Hau Hw Hst Hget.
  destruct (run_complete_Ok _ _ _ _ _ _ _ Hr Hc) as (r & s & _ & Hb).
  apply complete_body_Ok in Hb as (sig & box & Hsig & _ & _ & Hrec & _ & _).
  pose proof (earlier_digest json_error type_error crypto_message p evs later _ _ _ _ _ _ _ _ ltac:(by rewrite Hst) Hget) as Hearly.
  apply (proj1 (sys_run_ok json_error type_error crypto_message p (evs ++ later))) in Hget as (w' & now & [Hs _] & [Hart Hdg] & _ & Hrd & Hbd & Hver).
  simpl in Hs, Hart, Hrd.
  assert (w' = w) as ->.
  { assert (Hin : Start (go_requestId o) w' nonce now ∈ List.filter (starts (go_requestId o)) (evs ++ later)).
    { apply list_elem_of_In, filter_In. split; [by apply list_elem_of_In|]. simpl. apply String.eqb_refl. }
    rewrite Hst in Hin. apply list_elem_of_singleton in Hin. by injection Hin. }
  assert (Hzk : zk_receipt_digest record =
    match status ∘ rec_state <$> record with Some GENERATED | Some VERIFIED => zkArtifactDigest (pa_receiptBytes a) | _ => "pending" end).
  { fold record in Hearly. destruct record as [[st n]|]; [|done]. specialize (Hearly _ eq_refl). rewrite <-Hdg. by destruct st. }
  unfold authorizes in Ha. rewrite Hau in Ha. destruct Ha as (Hd & _ & Hcm & _ & _).
  unfold witnessFor in Hw. apply res_bind_Ok in Hw as (text & _ & [= <-]).
  eexists. rewrite Hrec.
  destruct (signed_receipt_with_proof (compute_receipt tee o authorized r s record v) sig (tee_signingPublicKey tee) a sb)
    as (res & Hres & Hv).
  - by apply verify_signed_receipt.
  - by rewrite Hk, <-Hp.
  - by rewrite Hbd.
  - rewrite Hbd. simpl. by eapply decisionReceiptDigest_nonempty.
  - by rewrite Hbd.
  - by rewrite Hbd.
  - rewrite Hart. simpl. done.
  - by rewrite Hart, Hbd.
  - change (cpr_zkReceiptDigest _) with (zk_receipt_digest record). rewrite Hzk. destruct (status ∘ rec_state <$> record) as [[]|]; auto.
  - exists res. split_and!; [done|exact Hres| |exact Hzk]. rewrite Hv, Hbd. done.
Qed.
End results.

(** ** An example: one contributed OpenAI credential *)
Definition ex_secret_blob : string := default "" (vaultEncrypt ex_dek "123456789012" "sk").
Definition ex_cap : CredentialCapability := {|
  cap_credentialId := "cred_1"; cap_provider := openai; cap_allowedModels := ["gpt-4o-2024-08-06"];
  cap_allowedPolicyIds := ["0xp"]; cap_contributorId := "u"; cap_createdAt := 5; cap_version := 1;
  cap_blobDigest := "0x" +:+ sha256Hex ex_secret_blob; cap_intentDigest := "0x00" |}.
Definition ex_contributed : CandidateRecord := {|
  cd_credentialId := "cred_1"; cd_contributorId := "u"; cd_provider := "openai"; cd_status := "ACTIVE";
  cd_encryptedBlob := ex_secret_blob; cd_capability := capability_val ex_cap;
  cd_capabilitySignature := match signCanonical (capability_val ex_cap) "signing" with Ok s => s | Err _ => "" end |}.
Definition ex_granted : AuthorizedRequest := {|
  ar_request := ar_request ex_gpt_request; ar_requestCommitment := "0xc"; ar_requestNonce := "0x1";
  ar_policyId := "0xp"; ar_policyMs := 7 |}.
Definition ex_outcome : GateOutcome := {|
  go_requestId := "r1"; go_canonical := ar_request ex_gpt_request;
  go_payload := {| op_request := VNull; op_requestNonce := "0x1"; op_responsePublicKey := VStr (toB64 "client") |};
  go_commitment := "0xc"; go_decision := ALLOW; go_authorized := Some ex_granted;
  go_decisionReceipt := {| sdr_receipt := wt_decisionReceipt ex_witness; sdr_enclaveSignature := "" |};
  go_gateWallMs := 7; go_decryptMs := 1 |}.
Definition ex_net (answer : Providers.fetch_result) : network := {| nw_fetch := fun _ _ => answer; nw_latencyMs := fun _ => 12 |}.
Definition ex_dispatch_env (answer : Providers.fetch_result) : dispatch_env := {|
  dv_net := ex_net answer; dv_receivedAt := "2026-01-01T00:00:00.000Z"; dv_totalMs := 20; dv_eph := "eph" |}.
Local Abbreviation ex_dispatch cands answer :=
  (runDispatch "" (buildRegistry "http://mock") ex_dek ex_tee ex_outcome ex_granted cands None (ex_dispatch_env answer)).

(** Which attempts have an unknown outcome, and the error. *)
Definition unknowns (r : res DispatchThrow ExecuteBody) : list bool * option string :=
  match r with Ok b => (at_upstreamOutcomeUnknown <$> eb_attempts b, fst <$> eb_error b) | Err _ => ([], None) end.

(** Two candidates and a provider that never answers: one request, assumed spent. *)
Lemma single_dispatch_witness : exists d b,
  ex_dispatch [ex_contributed; ex_contributed] (FetchThrows true) = (d, Ok b) /\
  (length (ds_calls d) <= 1)%nat /\ eb_attempts b = ds_attempts d /\ unknowns (Ok b) = ([true], Some "CTN_PROVIDER_ERROR").
Proof.
  assert (Hc : unknowns (ex_dispatch [ex_contributed; ex_contributed] (FetchThrows true)).2 = ([true], Some "CTN_PROVIDER_ERROR"))
    by (vm_compute; reflexivity).
  destruct (ex_dispatch [ex_contributed; ex_contributed] (FetchThrows true)) as [d [b|e]] eqn:He; [|discriminate Hc].
  destruct (single_dispatch _ _ _ _ _ _ _ _ _ _ _ He) as (H1 & _ & H2 & _). exists d, b.
  split; [reflexivity|split; [exact H1|split; [exact H2|exact Hc]]].
Defined.

Definition completed (r : res DispatchThrow ExecuteBody) : bool :=
  match r with Ok b => match eb_status b with COMPLETE => true | _ => false end | Err _ => false end.

(** The prover proves the same request, its daemon and verifier willing; the dispatch
    completes while the proof is being verified. *)
Definition ex_wit : ProofWitness :=
  match witnessFor ex_outcome with Ok w => w | Err _ => ex_witness end.
Definition ex_proof_evs : list Event :=
  [Start "r1" ex_wit "0xn" 0; Resume 0 (WProve (Ok "j1")) 20; Resume 0 (WPoll (Ok (ex_job "GENERATED" false))) 30].
Definition ex_proof_later : list Event := [Resume 0 (WVerify ex_env) 40].
Local Abbreviation ex_prove evs :=
  (get (sy_state (sys_run (fun s => s) (fun s => s) (fun _ => "") ex_prover evs)) "r1").
Local Abbreviation ex_served_with record :=
  (runDispatch "" (buildRegistry "http://mock") ex_dek ex_tee ex_outcome ex_granted [ex_contributed] record (ex_dispatch_env (ex_fetch ex_call))).
Definition is_verified (r : option ProofRecord) : bool :=
  match r with Some {| rec_state := PVerified _ _ _ _ _ _ |} => true | _ => false end.

Lemma receipt_and_proof_verify_witness : exists b signed r a sb,
  snd (ex_served_with (ex_prove ex_proof_evs)) = Ok b /\ eb_receipt b = Some signed /\
  verifyComputeReceipt (signed_val signed) (tee_signingPublicKey ex_tee) (Some a) (Some (signed_binding_val sb)) = Ok r /\ vr_valid r = true /\
  cpr_zkReceiptDigest (scr_receipt signed) = zkArtifactDigest (pa_receiptBytes a).
Proof.
  assert (Hc : completed (ex_served_with (ex_prove ex_proof_evs)).2 = true) by (vm_compute; reflexivity).
  assert (Hp : is_verified (ex_prove (ex_proof_evs ++ ex_proof_later)) = true) by (vm_compute; reflexivity).
  assert (Hg0 : status ∘ rec_state <$> ex_prove ex_proof_evs = Some GENERATED) by (vm_compute; reflexivity).
  destruct (ex_served_with (ex_prove ex_proof_evs)) as [d [b|e]] eqn:He; [|discriminate Hc].
  destruct (ex_prove (ex_proof_evs ++ ex_proof_later)) as [[[?|?|???|a dg rd sb ver ms|??] nonce]|] eqn:Hg; try discriminate Hp.
  destruct (receipt_and_proof_verify _ _ _ _ (fun s => s) (fun s => s) (fun _ => "") ex_prover ex_proof_evs ex_proof_later
    ex_outcome _ _ _ _ _ ex_wit nonce a dg rd sb ver ms 0 "0xn" He) as (signed & r & Hr & Hv & Hi & Hz).
  - clear -Hc. simpl in Hc. by destruct (eb_status b).
  - reflexivity.
  - reflexivity.
  - split_and!; reflexivity.
  - reflexivity.
  - vm_compute. reflexivity.
  - reflexivity.
  - exact Hg.
  - exists b, signed, r, a, sb. split; [reflexivity|split; [exact Hr|split; [exact Hv|split; [by apply Hi|]]]].
    match type of Hz with _ = match ?x with _ => _ end => assert (Hx : x = Some GENERATED) by exact Hg0; rewrite Hx in Hz end. exact Hz.
Defined.

(** A provider that reports a plausible but enormous usage: the counts pass
    [validUsage], the cost no longer fits a safe integer, and signing the receipt
    throws after the request was sent.  The attempt is never reported. *)
Definition ex_huge_json : jsval :=
  VObj [("choices", VArr [VObj [("message", VObj [("content", VStr "hello")])]]);
        ("usage", VObj [("prompt_tokens", vint MAX_SAFE); ("completion_tokens", vint MAX_SAFE)])].
Definition sent_then_threw (x : Dispatch * res DispatchThrow ExecuteBody) : bool :=
  match x with (d, Err (ThrowSign _)) => (length (ds_calls d) =? 1)%nat | _ => false end.
Lemma huge_usage_loses_attempt :
  sent_then_threw (ex_dispatch [ex_contributed] (FetchResponse 200 (Some ex_huge_json))) = true.
Proof. vm_compute. reflexivity. Qed.
