(* ===== verification/Enclave.v ===== *)
(** * The enclave service under concurrent requests (services/tee-sim/src/index.ts)

    [POST /gate] and [POST /execute] as tasks of one event loop.  A handler runs
    until it awaits the decryption, the guest executor or the providers; other
    handlers, the sweeper and the prover run in between.  [step] is one such
    segment; the outputs record the replies and every HTTP request that leaves the
    enclave.

    Two awaits are not points of their own, because the code around them shares
    nothing: between the executor's answer and the answer of [getGuestHealth] the
    handler only compares its own values - the health it then writes to the shared
    cache is read by nothing on the way -, so both arrive in [ExecutorAnswers]; and
    the loop over the candidates works on its own variables - the type of
    [dispatch] has no other state - until the last provider answered and the record
    of the prover is read, so the whole loop is [ProviderAnswers]. *)

From S2P Require Import Prelude JsNum Utf8 Json Unicode Canonical Types Crypto Policy Authorize Pricing Providers Insights JsMap Gates Hpke Tee ProofVerify ProverClient Prover GateRequest Dispatch.
Local Open Scope Z_scope.

(** What a handler is waiting for. *)
Inductive HTask : Type :=
| Opening (v : gate_env) (envelope : SecureRequestEnvelope) (aad : string) (inline : option (list CandidateRecord))
| Gating (v : gate_env) (envelope : SecureRequestEnvelope) (payload : opened_payload) (canonical : CanonicalRequestV1)
    (inline : option (list CandidateRecord))   (** [None] for [/gate], the candidates for [/execute] *)
| Dispatching (o : GateOutcome) (authorized : AuthorizedRequest) (candidates : list CandidateRecord).

Record World : Type := { wd_state : EState; wd_tasks : list (option HTask) }.
Definition world_init : World := {| wd_state := es_init; wd_tasks := [] |}.

Inductive EnclaveEvent : Type :=
| PostGate (v : gate_env) (posted : posted_envelope)
| PostExecute (v : gate_env) (posted : posted_envelope) (candidates : list CandidateRecord) (requestCommitment : option string)
| IngressOpens (task : nat)
| ExecutorAnswers (task : nat) (proverNonce : string) (now : Z)
| ProviderAnswers (task : nat) (dv : dispatch_env)
| Sweep (now : Z)
| ProverResumes (e : nat) (w : Wake) (now : Z).

Inductive Output : Type :=
| Refused (e : GateThrow)
| CommitmentRefused                     (** 400: execute does not match the parked gate *)
| Gated (o : GateOutcome)
| Answered (b : ExecuteBody)
| DispatchFailed (e : DispatchThrow)
| Sent (o : GateOutcome) (c : http_call).

Section Enclave.
Context `{U : Unicode} `{C : Crypto} `{W : Url} `{H : Hpke} `{N : NodeCrypto}.
Context (canonical_message : CanonicalizationError -> string).
Context (json_error type_error : string -> string) (crypto_message : CryptoError -> string).
Context (egress_env : string) (registry : list (string * ProviderAdapter)) (vaultKey : string).
Context (tee : SimulatedTEE) (p : Prover).

(** [gateRequest] up to the decryption. *)
Definition gate_header (posted : posted_envelope) : res GateThrow (SecureRequestEnvelope * string) :=
  match posted with
  | None => Err (GateError 400 "CTN_INVALID_ENVELOPE" "bad envelope version")
  | Some (version, envelope) =>
      _ ← guard_ok (String.eqb version "ctn-1") (GateError 400 "CTN_INVALID_ENVELOPE" "bad envelope version");
      _ ← guard_ok (String.eqb (env_enclaveKeyId envelope) (tee_enclaveKeyId tee))
            (GateError 400 "CTN_INVALID_ENVELOPE" "envelope encrypted to an unknown enclave key id");
      aad ← map_err (fun _ => GateOther) (canonicalJson (aad_val envelope));
      Ok (envelope, aad)
  end.

(** From the decryption to the call of the executor. *)
Definition gate_opened (v : gate_env) (envelope : SecureRequestEnvelope) (aad : string)
    : SE EState GateThrow (opened_payload * CanonicalRequestV1) :=
  payload ← se_lift (open_payload tee envelope aad);
  fresh ← remember_nonce (gv_now v) (op_requestNonce payload);
  _ ← se_guard fresh (GateError 409 "CTN_INVALID_ENVELOPE" "request nonce already used (replay rejected)");
  canonical ← se_lift (map_err (fun e => GateError 400 "CTN_INVALID_ENVELOPE" (canonical_message e))
                         (toCanonicalRequest (op_request payload)));
  _ ← se_guard (String.eqb (env_model envelope) (cr_model canonical))
        (GateError 400 "CTN_INVALID_ENVELOPE" "routing header model does not match the sealed request model");
  mret (payload, canonical).

(** [prover.start(outcome.requestId, witnessFor(outcome))] *)
Definition start_proof (proverNonce : string) (now : Z) (o : GateOutcome) : SE EState GateThrow unit :=
  w ← se_lift (map_err (fun _ => GateOther) (witnessFor o));
  se_modify (fun s => with_prover
    (sys_step json_error type_error crypto_message p (es_prover s) (Start (go_requestId o) w proverNonce now)) s).

Definition park (now : Z) (o : GateOutcome) (s : EState) : EState :=
  match go_decision o with
  | ALLOW => with_pending (remember pending_opts now (go_requestId o) (go_commitment o) o (es_pendingGates s)) s
  | DENY => s
  end.

(** The end of [gateRequest] and of its [/gate] or inline caller. *)
Definition gate_done (v : gate_env) (envelope : SecureRequestEnvelope) (payload : opened_payload)
    (canonical : CanonicalRequestV1) (inline : bool) (proverNonce : string) (now : Z) : SE EState GateThrow GateOutcome :=
  o ← evaluate_gate tee v envelope payload canonical;
  _ ← start_proof proverNonce now o;
  _ ← se_modify (if inline then id else park now o);
  mret o.

(** After the gate: the DENY body, or the dispatch. *)
Definition proceed (o : GateOutcome) (candidates : list CandidateRecord) : option HTask * list Output :=
  match go_decision o, go_authorized o with
  | DENY, _ => (None, [Answered (deniedBody o)])
  | ALLOW, Some authorized => (Some (Dispatching o authorized candidates), [])
  | ALLOW, None => (None, [Refused GateOther])
  end.

Definition spawn (s : EState) (tasks : list (option HTask)) (t : option HTask) : World :=
  {| wd_state := s; wd_tasks := tasks ++ [t] |}.

Definition open_task (v : gate_env) (posted : posted_envelope) (inline : option (list CandidateRecord)) (w : World)
    : World * list Output :=
  match gate_header posted with
  | Ok (envelope, aad) => (spawn (wd_state w) (wd_tasks w) (Some (Opening v envelope aad inline)), [])
  | Err e => (spawn (wd_state w) (wd_tasks w) None, [Refused e])
  end.

(** [pendingGates.consume] where the envelope names a request. *)
Definition consume_parked (now : Z) (posted : posted_envelope) (presented : option string) (s : EState)
    : @ConsumeResult GateOutcome * EState :=
  match posted with
  | Some (_, envelope) =>
      if str_empty (env_requestId envelope) then (MISS, s)
      else let '(r, m) := consume pending_opts now (env_requestId envelope) (default "" presented) (es_pendingGates s) in
           (r, with_pending m s)
  | None => (MISS, s)
  end.

Definition step (w : World) (e : EnclaveEvent) : World * list Output :=
  match e with
  | PostGate v posted => open_task v posted None w
  | PostExecute v posted candidates presented =>
      match consume_parked (gv_now v) posted presented (wd_state w) with
      | (MISMATCH, s) => (spawn s (wd_tasks w) None, [CommitmentRefused])
      | (HIT o, s) => let '(t, out) := proceed o candidates in (spawn s (wd_tasks w) t, out)
      | (MISS, s) => open_task v posted (Some candidates) {| wd_state := s; wd_tasks := wd_tasks w |}
      end
  | IngressOpens i =>
      match wd_tasks w !! i with
      | Some (Some (Opening v envelope aad inline)) =>
          match gate_opened v envelope aad (wd_state w) with
          | (s, Ok (payload, canonical)) =>
              ({| wd_state := s; wd_tasks := <[i := Some (Gating v envelope payload canonical inline)]> (wd_tasks w) |}, [])
          | (s, Err e) => ({| wd_state := s; wd_tasks := <[i := None]> (wd_tasks w) |}, [Refused e])
          end
      | _ => (w, [])
      end
  | ExecutorAnswers i proverNonce now =>
      match wd_tasks w !! i with
      | Some (Some (Gating v envelope payload canonical inline)) =>
          match gate_done v envelope payload canonical (bool_decide (is_Some inline)) proverNonce now (wd_state w) with
          | (s, Err e) => ({| wd_state := s; wd_tasks := <[i := None]> (wd_tasks w) |}, [Refused e])
          | (s, Ok o) =>
              match inline with
              | None => ({| wd_state := s; wd_tasks := <[i := None]> (wd_tasks w) |}, [Gated o])
              | Some candidates =>
                  let '(t, out) := proceed o candidates in ({| wd_state := s; wd_tasks := <[i := t]> (wd_tasks w) |}, out)
              end
          end
      | _ => (w, [])
      end
  | ProviderAnswers i dv =>
      match wd_tasks w !! i with
      | Some (Some (Dispatching o authorized candidates)) =>
          let record := get (sy_state (es_prover (wd_state w))) (go_requestId o) in
          let '(d, r) := runDispatch egress_env registry vaultKey tee o authorized candidates record dv in
          ({| wd_state := wd_state w; wd_tasks := <[i := None]> (wd_tasks w) |},
           (Sent o <$> ds_calls d) ++
           [match r with Ok b => Answered b | Err e => DispatchFailed e end])
      | _ => (w, [])
      end
  | Sweep now =>
      ({| wd_state := with_pending (sweep pending_opts now (es_pendingGates (wd_state w))) (wd_state w); wd_tasks := wd_tasks w |}, [])
  | ProverResumes i wk now =>
      ({| wd_state := with_prover (sys_step json_error type_error crypto_message p (es_prover (wd_state w)) (Resume i wk now)) (wd_state w);
          wd_tasks := wd_tasks w |}, [])
  end.

Definition run_from (w : World) (evs : list EnclaveEvent) : World * list Output :=
  fold_left (fun wo e => let '(w', out) := step wo.1 e in (w', wo.2 ++ out)) evs (w, []).
Definition enclave_run (evs : list EnclaveEvent) : World * list Output := run_from world_init evs.

(** [gateRequest] is the three segments in sequence. *)
Lemma gateRequest_segments v posted s :
  gateRequest canonical_message tee v posted s =
  (x ← se_lift (gate_header posted); y ← gate_opened v x.1 x.2; evaluate_gate tee v x.1 y.1 y.2) s.
Proof.
  unfold gateRequest, gate_header, gate_opened. destruct posted as [[version envelope]|]; [|done].
  unfold se_guard, remember_nonce, se_lift, se_throw. unfold mbind, SE_bind, mret, SE_ret, res_bind.
  repeat first [done | case_match; simplify_eq/=].
Qed.

(** ** Which requests are in flight *)
Definition post_env (e : EnclaveEvent) : option (gate_env * posted_envelope) :=
  match e with PostGate v posted | PostExecute v posted _ _ => Some (v, posted) | _ => None end.
Definition posts (evs : list EnclaveEvent) : list (gate_env * posted_envelope) := omap post_env evs.

(** The sealed request behind a task or an outcome was posted and opened. *)
Definition opened_for (ps : list (gate_env * posted_envelope)) (v : gate_env) (envelope : SecureRequestEnvelope)
    (payload : opened_payload) (canonical : CanonicalRequestV1) : Prop :=
  (v, Some ("ctn-1", envelope)) ∈ ps /\
  env_enclaveKeyId envelope = tee_enclaveKeyId tee /\
  (exists aad, canonicalJson (aad_val envelope) = Ok aad /\ open_payload tee envelope aad = Ok payload) /\
  toCanonicalRequest (op_request payload) = Ok canonical /\
  env_model envelope = cr_model canonical.

(** The executor committed, for that sealed request, to [authorized]. *)
Definition granted (ps : list (gate_env * posted_envelope)) (o : GateOutcome) (authorized : AuthorizedRequest) : Prop :=
  exists v envelope bytes x,
    opened_for ps v envelope (go_payload o) (go_canonical o) /\
    canonicalBytes (go_canonical o) = Ok bytes /\
    dm_execute (gv_daemon v) bytes (op_requestNonce (go_payload o)) (gv_proofNonce v) = Ok x /\
    j_decision (xr_journal x) = ALLOW /\
    request_commitment_of (go_canonical o) (op_requestNonce (go_payload o)) = Ok (j_requestCommitment (xr_journal x)) /\
    ar_request authorized = go_canonical o /\ ar_requestCommitment authorized = j_requestCommitment (xr_journal x) /\
    ar_policyId authorized = j_policyId (xr_journal x).

Definition grounded (ps : list (gate_env * posted_envelope)) (o : GateOutcome) : Prop :=
  forall a, go_authorized o = Some a -> granted ps o a.

Definition outcome_nonce (o : GateOutcome) : string := op_requestNonce (go_payload o).
(** The nonce a task has consumed; one that still decrypts has none. *)
Definition task_nonces (t : HTask) : list string :=
  match t with
  | Opening _ _ _ _ => []
  | Gating _ _ payload _ _ => [op_requestNonce payload]
  | Dispatching o _ _ => [outcome_nonce o]
  end.
Definition is_opening (t : HTask) : bool := match t with Opening _ _ _ _ => true | _ => false end.
Definition task_ok (ps : list (gate_env * posted_envelope)) (t : HTask) : Prop :=
  match t with
  | Opening v envelope aad _ =>
      (v, Some ("ctn-1", envelope)) ∈ ps /\ env_enclaveKeyId envelope = tee_enclaveKeyId tee /\ canonicalJson (aad_val envelope) = Ok aad
  | Gating v envelope payload canonical _ => opened_for ps v envelope payload canonical
  | Dispatching o a _ => granted ps o a
  end.
Definition live (w : World) : list HTask := omap id (wd_tasks w).
Definition openings (l : list HTask) : nat := length (List.filter is_opening l).
Definition parked_outcomes (s : EState) : list GateOutcome := (fun ke => pk_value ke.2) <$> es_pendingGates s.
Definition held (w : World) : list string :=
  (live w ≫= task_nonces) ++ (outcome_nonce <$> parked_outcomes (wd_state w)).
Definition sent_nonce (out : Output) : option string :=
  match out with Sent o _ => Some (outcome_nonce o) | _ => None end.
Definition sent (outs : list Output) : list string := omap sent_nonce outs.

Definition output_ok (ps : list (gate_env * posted_envelope)) (out : Output) : Prop :=
  match out with
  | Sent o c => exists authorized candidates credentialId, granted ps o authorized /\
      sent_for egress_env registry (tee_signingPublicKey tee) (vaultDecrypt vaultKey) authorized candidates credentialId c
  | _ => True
  end.

(** The seen nonces: at most one for each post whose decryption is over. *)
Record world_ok (ps : list (gate_env * posted_envelope)) (w : World) (outs : list Output) : Prop := {
  wo_tasks : Forall (task_ok ps) (live w);
  wo_parked : Forall (grounded ps) (parked_outcomes (wd_state w));
  wo_outs : Forall (output_ok ps) outs;
  wo_once : NoDup (sent outs ++ held w);
  wo_seen : Forall (fun n => map_has (es_seenNonces (wd_state w)) n = true) (sent outs ++ held w);
  wo_count : (length (es_seenNonces (wd_state w)) + openings (live w) <= length ps)%nat;
}.

(** *** What a segment does to the state *)
Definition frame (s s' : EState) : Prop :=
  es_seenNonces s' = es_seenNonces s /\ es_pendingGates s' = es_pendingGates s.
Definition grows (s s' : EState) : Prop :=
  (length (es_seenNonces s') <= S (length (es_seenNonces s)))%nat /\
  (forall n, map_has (es_seenNonces s) n = true -> map_has (es_seenNonces s') n = true) /\
  es_pendingGates s' = es_pendingGates s.

Lemma frame_refl s : frame s s.
Proof. done. Qed.
Lemma frame_trans s1 s2 s3 : frame s1 s2 -> frame s2 s3 -> frame s1 s3.
Proof. unfold frame. intuition congruence. Qed.
Lemma frame_grows s s' : frame s s' -> grows s s'.
Proof. intros [H1 H2]. unfold grows. rewrite H1, H2. split_and!; [lia|done|done]. Qed.

Lemma rememberNonce_grows now n m fresh m' :
  (length m < NONCE_MAX)%nat -> rememberNonce NONCE_MAX now n m = (fresh, m') ->
  (length m' <= S (length m))%nat /\ (forall k, map_has m k = true -> map_has m' k = true) /\
  (fresh = true -> map_has m n = false /\ map_has m' n = true).
Proof.
  intros Hl. unfold rememberNonce. destruct (map_has m n) eqn:Hn; [intros [= <- <-]; split_and!; [lia|done|done]|].
  unfold evict. rewrite (proj2 (Nat.leb_gt _ _) Hl). intros [= <- <-]. rewrite map_set_length, Hn. split_and!; [lia| |].
  - intros k Hk. unfold map_has in *. rewrite bool_decide_eq_true in *. destruct (decide (n = k)) as [->|Hne].
    + by rewrite map_get_set.
    + by rewrite map_get_set_ne.
  - intros _. split; [done|]. unfold map_has. by rewrite map_get_set, bool_decide_eq_true_2.
Qed.

Local Ltac refuse := intros ?; simplify_eq/=; (split; [apply frame_grows, frame_refl|done]).

Lemma gate_header_Ok posted envelope aad : gate_header posted = Ok (envelope, aad) ->
  posted = Some ("ctn-1", envelope) /\ env_enclaveKeyId envelope = tee_enclaveKeyId tee /\ canonicalJson (aad_val envelope) = Ok aad.
Proof.
  unfold gate_header. destruct posted as [[version e]|]; [|done].
  intros (? & Hv & (? & Hk & (a & Ha%map_err_Ok & [= <- <-])%res_bind_Ok)%res_bind_Ok)%res_bind_Ok.
  unfold guard_ok in Hv, Hk. destruct (String.eqb_spec version "ctn-1") as [->|]; [|done].
  by destruct (String.eqb_spec (env_enclaveKeyId e) (tee_enclaveKeyId tee)).
Qed.

Lemma gate_opened_spec v envelope aad s s' r :
  (length (es_seenNonces s) < NONCE_MAX)%nat -> gate_opened v envelope aad s = (s', r) ->
  grows s s' /\
  match r with
  | Ok (payload, canonical) =>
      map_has (es_seenNonces s) (op_requestNonce payload) = false /\
      map_has (es_seenNonces s') (op_requestNonce payload) = true /\
      open_payload tee envelope aad = Ok payload /\ toCanonicalRequest (op_request payload) = Ok canonical /\
      env_model envelope = cr_model canonical
  | Err _ => True
  end.
Proof.
  intros Hl. unfold gate_opened, se_guard, remember_nonce, se_lift. unfold mbind, SE_bind, mret, SE_ret.
  destruct (open_payload tee envelope aad) as [payload|] eqn:Hp; [|refuse].
  destruct (rememberNonce NONCE_MAX (gv_now v) (op_requestNonce payload) (es_seenNonces s)) as [fresh m] eqn:Hn.
  destruct (rememberNonce_grows _ _ _ _ _ Hl Hn) as (H1 & H2 & H3).
  assert (Hg : grows s (with_nonces m s)) by (split_and!; done).
  destruct fresh; cbn [map_err guard_ok]; [|by intros ?; simplify_eq/=]. destruct (toCanonicalRequest (op_request payload)) as [canonical|] eqn:Hc; cbn [map_err guard_ok]; [|by intros ?; simplify_eq/=].
  destruct (String.eqb_spec (env_model envelope) (cr_model canonical)) as [Hm|]; cbn [map_err guard_ok]; [|by intros ?; simplify_eq/=].
  intros [= <- <-]. destruct (H3 eq_refl). by split_and!.
Qed.

Lemma se_bind_cases {E A B} (m : SE EState E A) (f : A -> SE EState E B) s s' b :
  (m ≫= f) s = (s', b) ->
  (exists s1 a, m s = (s1, Ok a) /\ f a s1 = (s', b)) \/ (exists e, m s = (s', Err e) /\ b = Err e).
Proof. unfold mbind, SE_bind. destruct (m s) as [s1 [a|e]]; [by left; exists s1, a|]. intros [= <- <-]. right. eauto. Qed.

Lemma se_lift_frame {E A B} (r : res E A) (f : A -> SE EState E B) s s' b :
  (se_lift r ≫= f) s = (s', b) -> (exists a, f a s = (s', b)) \/ (s' = s /\ exists e, b = Err e).
Proof. unfold se_lift, mbind, SE_bind. destruct r as [a|e]; [by left; exists a|]. intros [= <- <-]. right. eauto. Qed.

Lemma evaluate_gate_frame v envelope payload canonical s s' r :
  evaluate_gate tee v envelope payload canonical s = (s', r) -> frame s s'.
Proof.
  unfold evaluate_gate. intros Hr.
  apply se_lift_frame in Hr as [(bytes & Hr)|[-> _]]; [|apply frame_refl].
  apply se_lift_frame in Hr as [(x & Hr)|[-> _]]; [|apply frame_refl]. cbv zeta in Hr.
  apply se_lift_frame in Hr as [(gate & Hr)|[-> _]]; [|apply frame_refl].
  assert (Hh : forall s1 rh, se_map_err of_prover_error (getGuestHealth (gv_daemon v)) s = (s1, rh) -> frame s s1).
  { unfold se_map_err, getGuestHealth. intros s1 rh. destruct (es_guestHealth s); [by intros [= <- _]|].
    by destruct (dm_health _); intros [= <- _]. }
  apply se_bind_cases in Hr as [(s1 & health & Eh%Hh & Hr)|(e & Eh%Hh & _)]; [|done].
  apply se_lift_frame in Hr as [(sig & Hr)|[-> _]]; [|done]. by injection Hr as <- _.
Qed.

Lemma start_proof_frame n now o s s' r : start_proof n now o s = (s', r) -> frame s s'.
Proof.
  unfold start_proof, se_lift, se_modify, mbind, SE_bind. destruct (map_err _ _); intros; simplify_eq/=; done.
Qed.

(** The end of a gate: the state is untouched but for parking the outcome. *)
Lemma gate_done_spec ps v envelope payload canonical inline n now s s' r :
  opened_for ps v envelope payload canonical ->
  gate_done v envelope payload canonical inline n now s = (s', r) ->
  match r with
  | Ok o => outcome_nonce o = op_requestNonce payload /\ grounded ps o /\
            exists s1, frame s s1 /\ s' = (if inline then s1 else park now o s1)
  | Err _ => frame s s'
  end.
Proof.
  intros Hop Hr. unfold gate_done in Hr.
  apply se_bind_cases in Hr as [(s1 & o & He & Hr)|(e & Hf%evaluate_gate_frame & ->)]; [|done].
  pose proof (evaluate_gate_frame _ _ _ _ _ _ _ He) as Hf.
  apply se_bind_cases in Hr as [(s2 & u & Hf2%start_proof_frame & Hr)|(e & Hf2%start_proof_frame & ->)]; [|by eapply frame_trans].
  unfold mbind, SE_bind, se_modify, mret, SE_ret in Hr. injection Hr as <- <-.
  apply evaluate_gate_Ok in He as (bytes & x & gate & health & sig & Hb & Hx & Hg & _ & -> & _).
  apply fromGuestJournal_Ok in Hg as (Hc & Hgc & Hgd & Hga).
  split; [done|]. split; [|exists s2; split; [by eapply frame_trans|by destruct inline]].
  intros a Ha. simpl in Ha. rewrite Hga in Ha. exists v, envelope, bytes, x.
  destruct (j_decision (xr_journal x)) eqn:Hd; [|done]. injection Ha as <-. by split_and!.
Qed.

(** *** Bookkeeping *)
Lemma opened_for_mono ps ps' v e pl c : ps ⊆ ps' -> opened_for ps v e pl c -> opened_for ps' v e pl c.
Proof. intros Hs [H1 H2]. split; [by apply Hs|done]. Qed.
Lemma granted_mono ps ps' o a : ps ⊆ ps' -> granted ps o a -> granted ps' o a.
Proof. intros Hs (v & e & b & x & H1 & H2). exists v, e, b, x. split; [by eapply opened_for_mono|done]. Qed.
Lemma task_ok_mono ps ps' t : ps ⊆ ps' -> task_ok ps t -> task_ok ps' t.
Proof. intros Hs. destruct t; cbn [task_ok]; [intros [H1 H2]; split; [by apply Hs|done]|by apply opened_for_mono|by apply granted_mono]. Qed.
Lemma grounded_mono ps ps' o : ps ⊆ ps' -> grounded ps o -> grounded ps' o.
Proof. intros Hs Hg a Ha. eapply granted_mono; [done|auto]. Qed.
Lemma output_ok_mono ps ps' o : ps ⊆ ps' -> output_ok ps o -> output_ok ps' o.
Proof. intros Hs. destruct o; simpl; try done. intros (a & c' & id & H1 & H2). exists a, c', id. split; [by eapply granted_mono|done]. Qed.

Lemma live_insert (tasks : list (option HTask)) i x y :
  tasks !! i = Some x -> omap id (<[i := y]> tasks) ++ option_list x ≡ₚ option_list y ++ omap id tasks.
Proof.
  intros Hi. pose proof (lookup_lt_Some _ _ _ Hi) as Hlt.
  rewrite <-(take_drop_middle tasks i x Hi) at 2. rewrite insert_take_drop by done.
  rewrite !omap_app. destruct x as [x|], y as [y|]; simpl; solve_Permutation.
Qed.

Lemma openings_app a b : openings (a ++ b) = (openings a + openings b)%nat.
Proof. unfold openings. by rewrite List.filter_app, List.length_app. Qed.
Lemma openings_perm a b : a ≡ₚ b -> openings a = openings b.
Proof. intros Hp. unfold openings. by apply Permutation_length, Permutation_filterb. Qed.
Lemma openings_insert tasks i x y : tasks !! i = Some x ->
  (openings (omap id (<[i := y]> tasks)) + openings (option_list x) = openings (option_list y) + openings (omap id tasks))%nat.
Proof. intros Hi. rewrite <-!openings_app. apply openings_perm. by apply live_insert. Qed.

Definition values (m : gates GateOutcome) : list GateOutcome := (fun ke => pk_value ke.2) <$> m.

Lemma values_set m k e : values (map_set m k e) ⊆+ pk_value e :: values m.
Proof.
  induction m as [|[k' e'] m IH]; simpl; [done|]. case_decide; simpl.
  - by apply submseteq_skip, submseteq_cons.
  - etrans; [by apply submseteq_skip, IH|]. apply Permutation_submseteq. apply perm_swap.
Qed.
Lemma values_sublist m m' : m `sublist_of` m' -> values m ⊆+ values m'.
Proof. intros Hs. apply sublist_submseteq. by apply fmap_sublist. Qed.
Lemma values_remember opts now k c v m : values (remember opts now k c v m) ⊆+ v :: values m.
Proof.
  unfold remember. etrans; [apply values_set|]. simpl. apply submseteq_skip, values_sublist.
  etrans; [apply drop_oldest_sublist|apply filterb_sublist].
Qed.
Lemma values_get_delete m k e : map_get m k = Some e -> pk_value e :: values (map_delete m k) ⊆+ values m.
Proof.
  induction m as [|[k' e'] m IH]; simpl; [done|]. unfold map_delete in *. rewrite filter_cons.
  destruct (decide (k = k')) as [->|Hne].
  - intros [= ->]. rewrite decide_False by (simpl; auto). simpl. apply submseteq_skip, values_sublist, sublist_filter.
  - intros Hg. rewrite decide_True by (simpl; auto). simpl.
    etrans; [apply Permutation_submseteq, perm_swap|]. by apply submseteq_skip, IH.
Qed.
Lemma values_consume opts now k c m r m' : consume opts now k c m = (r, m') ->
  match r with HIT v => v :: values m' ⊆+ values m | _ => values m' ⊆+ values m end.
Proof.
  unfold consume. destruct (map_get m k) as [e|] eqn:Hg; [|by intros [= <- <-]].
  destruct (expired _ _ _); [intros [= <- <-]; apply values_sublist, map_delete_sublist|].
  destruct (negb _); intros [= <- <-]; [done|]. by apply values_get_delete.
Qed.

Lemma Forall_submseteq_l {A} (P : A -> Prop) (l k : list A) : l ⊆+ k -> Forall P k -> Forall P l.
Proof. intros Hs. rewrite !Forall_forall. intros Hk x Hx. apply Hk. by eapply elem_of_submseteq. Qed.

Lemma NoDup_submseteq_l {A} (l k : list A) : l ⊆+ k -> NoDup k -> NoDup l.
Proof. intros [r ->]%submseteq_Permutation (? & _ & _)%NoDup_app. done. Qed.

(** One step, as a transfer of nonces: what is sent or held afterwards was held
    before, or is a nonce seen now for the first time. *)
Lemma world_ok_step ps ps' w w' outs out fresh :
  world_ok ps w outs -> ps ⊆ ps' ->
  Forall (task_ok ps') (live w') -> Forall (grounded ps') (parked_outcomes (wd_state w')) -> Forall (output_ok ps') out ->
  sent out ++ held w' ⊆+ fresh ++ held w ->
  NoDup fresh ->
  Forall (fun n => map_has (es_seenNonces (wd_state w)) n = false /\ map_has (es_seenNonces (wd_state w')) n = true) fresh ->
  (forall n, map_has (es_seenNonces (wd_state w)) n = true -> map_has (es_seenNonces (wd_state w')) n = true) ->
  (length (es_seenNonces (wd_state w')) + openings (live w') <= length ps')%nat ->
  world_ok ps' w' (outs ++ out).
Proof.
  intros [H1 H2 H3 H4 H5 H6] Hps Ht Hp Ho Hs Hnd Hf Hm Hl.
  assert (Hall : sent (outs ++ out) ++ held w' ⊆+ fresh ++ (sent outs ++ held w)).
  { unfold sent. rewrite omap_app, <-(assoc_L (++)). etrans; [apply submseteq_skips_l, Hs|].
    apply Permutation_submseteq. unfold sent. solve_Permutation. }
  split; try done.
  - apply Forall_app. split; [|done]. eapply Forall_impl; [exact H3|]. intros. by eapply output_ok_mono.
  - eapply NoDup_submseteq_l; [exact Hall|]. apply NoDup_app. split_and!; [done| |done].
    intros n Hn Hn'. rewrite Forall_forall in Hf, H5. destruct (Hf n Hn) as [Hx _]. apply H5 in Hn'. congruence.
  - eapply Forall_submseteq_l; [exact Hall|]. apply Forall_app. split; eapply Forall_impl; try done; naive_solver.
Qed.

Lemma world_ok_pending ps w outs m :
  world_ok ps w outs -> values m ⊆+ values (es_pendingGates (wd_state w)) ->
  world_ok ps {| wd_state := with_pending m (wd_state w); wd_tasks := wd_tasks w |} outs.
Proof.
  intros Hok Hm. rewrite <-(app_nil_r outs). destruct (Hok) as [H1 H2 H3 H4 H5 H6].
  apply (world_ok_step ps ps w _ outs [] []); try done.
  - by eapply Forall_submseteq_l.
  - simpl. apply submseteq_skips_l. by apply fmap_submseteq.
  - constructor.
Qed.

Lemma proceed_spec ps o cands t out : grounded ps o -> proceed o cands = (t, out) ->
  sent out = [] /\ Forall (output_ok ps) out /\ Forall (task_ok ps) (option_list t) /\
  (option_list t ≫= task_nonces) ⊆+ [outcome_nonce o] /\ openings (option_list t) = 0%nat.
Proof.
  intros Hg. unfold proceed. destruct (go_decision o); [destruct (go_authorized o) as [a|] eqn:Ha|]; intros [= <- <-]; simpl;
    (split_and!; [done|by repeat constructor| |try done; apply submseteq_nil_l|done]); try constructor. apply Hg, Ha. done.
Qed.

Lemma held_spawn s tasks t : held (spawn s tasks t) = (omap id tasks ≫= task_nonces) ++ (option_list t ≫= task_nonces) ++ (outcome_nonce <$> parked_outcomes s).
Proof. unfold held, live, spawn. simpl. rewrite omap_app, bind_app, <-(assoc_L (++)). by destruct t. Qed.
Lemma live_spawn s tasks t : live (spawn s tasks t) = omap id tasks ++ option_list t.
Proof. unfold live, spawn. simpl. rewrite omap_app. by destruct t. Qed.

Lemma open_task_ok ps v posted inline w outs w' out :
  world_ok ps w outs -> open_task v posted inline w = (w', out) -> world_ok (ps ++ [(v, posted)]) w' (outs ++ out).
Proof.
  intros Hok. destruct (Hok) as [H1 H2 H3 H4 H5 H6]. unfold open_task.
  assert (Hps : ps ⊆ ps ++ [(v, posted)]) by set_solver.
  assert (Hpar : Forall (grounded (ps ++ [(v, posted)])) (parked_outcomes (wd_state w))).
  { eapply Forall_impl; [exact H2|]. intros. by eapply grounded_mono. }
  assert (Hliv : Forall (task_ok (ps ++ [(v, posted)])) (omap id (wd_tasks w))).
  { eapply Forall_impl; [exact H1|]. intros. by eapply task_ok_mono. }
  assert (Hspawn : forall t out0, Forall (task_ok (ps ++ [(v, posted)])) (option_list t) -> (option_list t ≫= task_nonces) = [] ->
    Forall (output_ok (ps ++ [(v, posted)])) out0 -> sent out0 = [] ->
    world_ok (ps ++ [(v, posted)]) (spawn (wd_state w) (wd_tasks w) t) (outs ++ out0)).
  { intros t out0 Ht Hn Ho Hs. eapply (world_ok_step ps _ w _ outs out0 []); try done.
    - rewrite live_spawn. by apply Forall_app.
    - rewrite Hs, held_spawn, Hn. unfold held, live. done.
    - constructor.
    - rewrite live_spawn, openings_app, length_app. unfold live in H6. cbn [wd_state spawn length].
      assert (openings (option_list t) <= 1)%nat by (destruct t as [[]|]; cbn; lia). lia. }
  destruct (gate_header posted) as [[envelope aad]|e] eqn:Hg; intros [= <- <-].
  - apply gate_header_Ok in Hg as (-> & Hk & Ha). apply Hspawn; [|done|constructor|done].
    apply Forall_singleton. split_and!; [apply elem_of_app; right; by apply list_elem_of_singleton|done|done].
  - apply Hspawn; [constructor|done|by apply Forall_singleton|done].
Qed.

(** A task that ends a gate or a dispatch. *)
Lemma task_of ps w outs i t : world_ok ps w outs -> wd_tasks w !! i = Some (Some t) -> task_ok ps t.
Proof.
  intros [H1 _ _ _ _ _] Hi. rewrite Forall_forall in H1. apply H1. unfold live. apply list_elem_of_omap. exists (Some t).
  split; [by eapply list_elem_of_lookup_2|done].
Qed.

Lemma live_replace_ok ps w i t y : Forall (task_ok ps) (live w) -> wd_tasks w !! i = Some (Some t) ->
  Forall (task_ok ps) (option_list y) -> Forall (task_ok ps) (omap id (<[i := y]> (wd_tasks w))).
Proof.
  intros Hl Hi Hy. pose proof (live_insert _ _ _ y Hi) as Hp.
  assert (Hall : Forall (task_ok ps) (omap id (<[i := y]> (wd_tasks w)) ++ option_list (Some t))).
  { rewrite Hp. by apply Forall_app. }
  by apply Forall_app in Hall as [? _].
Qed.

Lemma held_replace s w i t y : wd_tasks w !! i = Some (Some t) ->
  task_nonces t ++ held {| wd_state := s; wd_tasks := <[i := y]> (wd_tasks w) |} ≡ₚ
  (option_list y ≫= task_nonces) ++ (live w ≫= task_nonces) ++ (outcome_nonce <$> parked_outcomes s).
Proof.
  intros Hi. pose proof (live_insert _ _ _ y Hi) as Hp. apply (bind_Permutation task_nonces) in Hp.
  rewrite !bind_app in Hp. unfold held, live. rewrite (assoc_L (++) (option_list y ≫= _)), <-Hp. cbn. rewrite app_nil_r. solve_Permutation.
Qed.

(** Segment [i] ends: its nonce, with those seen for the first time, passes to what
    replaces it. *)
Lemma world_ok_resume ps w outs s i t y out fresh :
  world_ok ps w outs -> wd_tasks w !! i = Some (Some t) ->
  Forall (task_ok ps) (option_list y) -> Forall (grounded ps) (parked_outcomes s) -> Forall (output_ok ps) out ->
  sent out ++ (option_list y ≫= task_nonces) ++ (outcome_nonce <$> parked_outcomes s) ⊆+
    fresh ++ task_nonces t ++ (outcome_nonce <$> parked_outcomes (wd_state w)) ->
  NoDup fresh ->
  Forall (fun n => map_has (es_seenNonces (wd_state w)) n = false /\ map_has (es_seenNonces s) n = true) fresh ->
  (forall n, map_has (es_seenNonces (wd_state w)) n = true -> map_has (es_seenNonces s) n = true) ->
  (length (es_seenNonces s) + openings (option_list y) <= length (es_seenNonces (wd_state w)) + openings [t])%nat ->
  world_ok ps {| wd_state := s; wd_tasks := <[i := y]> (wd_tasks w) |} (outs ++ out).
Proof.
  intros Hok Hi Hy Hp Ho Hn Hnd Hf Hm Hl. destruct (Hok) as [H1 _ _ _ _ H6].
  apply (world_ok_step ps ps w _ outs out fresh); try done.
  - by eapply live_replace_ok.
  - apply (submseteq_app_inv_l _ _ (task_nonces t)). pose proof (held_replace s w i t y Hi) as Hh.
    transitivity ((live w ≫= task_nonces) ++ (sent out ++ (option_list y ≫= task_nonces) ++ (outcome_nonce <$> parked_outcomes s))).
    + apply Permutation_submseteq. rewrite (Permutation_app_swap_app (task_nonces t)), Hh. solve_Permutation.
    + etrans; [apply submseteq_skips_l, Hn|]. apply Permutation_submseteq. unfold held. solve_Permutation.
  - unfold live in *. cbn [wd_state wd_tasks]. pose proof (openings_insert _ _ _ y Hi) as Ho'. change (option_list (Some t)) with [t] in Ho'. lia.
Qed.
(** The same, when no nonce is new. *)
Lemma world_ok_replace ps w outs s i t y out :
  world_ok ps w outs -> wd_tasks w !! i = Some (Some t) -> es_seenNonces s = es_seenNonces (wd_state w) ->
  Forall (task_ok ps) (option_list y) -> Forall (grounded ps) (parked_outcomes s) -> Forall (output_ok ps) out ->
  sent out ++ (option_list y ≫= task_nonces) ++ (outcome_nonce <$> parked_outcomes s) ⊆+
    task_nonces t ++ (outcome_nonce <$> parked_outcomes (wd_state w)) ->
  openings (option_list y) = 0%nat ->
  world_ok ps {| wd_state := s; wd_tasks := <[i := y]> (wd_tasks w) |} (outs ++ out).
Proof.
  intros Hok Hi Hs Hy Hp Ho Hn Hno. eapply (world_ok_resume _ _ _ _ _ _ _ _ []); try done; [constructor|by rewrite Hs|]. rewrite Hs, Hno. lia.
Qed.

Lemma step_ingress_ok ps w outs i w' out :
  world_ok ps w outs -> (length ps <= NONCE_MAX)%nat -> step w (IngressOpens i) = (w', out) -> world_ok ps w' (outs ++ out).
Proof.
  intros Hok Hl. destruct (Hok) as [_ H2 _ _ _ H6]. cbn [step].
  destruct (wd_tasks w !! i) as [[[v envelope aad inline| |]|]|] eqn:Hi; try (intros [= <- <-]; by rewrite app_nil_r).
  pose proof (task_of _ _ _ _ _ Hok Hi) as (Hin & Hk & Ha).
  assert (Hroom : (length (es_seenNonces (wd_state w)) < NONCE_MAX)%nat).
  { pose proof (openings_insert _ _ _ None Hi) as Ho. unfold live in H6. cbn in Ho. unfold openings in *. cbn in Ho. lia. }
  destruct (gate_opened v envelope aad (wd_state w)) as [s r] eqn:Hg.
  apply gate_opened_spec in Hg as ((Hlen & Hmono & Hpend) & Hr); [|done].
  assert (Hpar : Forall (grounded ps) (parked_outcomes s)) by (unfold parked_outcomes; by rewrite Hpend).
  destruct r as [[payload canonical]|e]; intros [= <- <-].
  - destruct Hr as (Hfresh & Hseen & Hop & Hc & Hm).
    eapply (world_ok_resume _ _ _ _ _ _ _ [] [op_requestNonce payload]); try done.
    + apply Forall_singleton. split_and!; try done. exists aad. by split.
    + unfold parked_outcomes. rewrite Hpend. done.
    + apply NoDup_singleton.
    + by apply Forall_singleton.
    + cbn. lia.
  - eapply (world_ok_resume _ _ _ _ _ _ _ [Refused e] []); try done.
    + by apply Forall_singleton.
    + unfold parked_outcomes. by rewrite Hpend.
    + constructor.
    + cbn. lia.
Qed.

Lemma step_executor_ok ps w outs i n now w' out :
  world_ok ps w outs -> step w (ExecutorAnswers i n now) = (w', out) -> world_ok ps w' (outs ++ out).
Proof.
  intros Hok. destruct (Hok) as [_ H2 _ _ _ _]. simpl.
  destruct (wd_tasks w !! i) as [[[|v envelope payload canonical inline|]|]|] eqn:Hi; try (intros [= <- <-]; by rewrite app_nil_r).
  pose proof (task_of _ _ _ _ _ Hok Hi) as Hop. simpl in Hop.
  destruct (gate_done _ _ _ _ _ _ _ _) as [s r] eqn:Hg. apply (gate_done_spec ps) in Hg; [|done].
  destruct r as [o|e].
  2: { destruct Hg as [Hf1 Hf2]. intros [= <- <-]. eapply world_ok_replace; try done; unfold parked_outcomes; rewrite ?Hf2;
       [done|by apply Forall_singleton|by apply submseteq_cons]. }
  destruct Hg as (Hn & Hgr & s1 & [Hf1 Hf2] & Hs). destruct inline as [cands|]; simpl in Hs; subst s.
  - destruct (proceed o cands) as [t out'] eqn:Hp. intros [= <- <-].
    destruct (proceed_spec ps _ _ _ _ Hgr Hp) as (Hs & Ho & Ht & Hsub & Hno).
    eapply world_ok_replace; try done; unfold parked_outcomes; rewrite Hf2; [done|].
    rewrite Hs. simpl. rewrite <-Hn. by apply (submseteq_skips_r _ _ [outcome_nonce o]).
  - intros [= <- <-]. unfold park. destruct (go_decision o).
    + eapply world_ok_replace; try done; simpl; rewrite ?Hf2; [|by apply Forall_singleton|].
      * eapply Forall_submseteq_l; [apply values_remember|]. by constructor.
      * rewrite <-Hn, <-fmap_cons.
        apply fmap_submseteq, values_remember.
    + eapply world_ok_replace; try done; unfold parked_outcomes; rewrite ?Hf2; [done|by apply Forall_singleton|by apply submseteq_cons].
Qed.

Lemma step_provider_ok ps w outs i dv w' out :
  world_ok ps w outs -> step w (ProviderAnswers i dv) = (w', out) -> world_ok ps w' (outs ++ out).
Proof.
  intros Hok. destruct (Hok) as [_ H2 _ _ _ _]. simpl.
  destruct (wd_tasks w !! i) as [[[| |o a cands]|]|] eqn:Hi; try (intros [= <- <-]; by rewrite app_nil_r).
  pose proof (task_of _ _ _ _ _ Hok Hi) as Hgr. simpl in Hgr.
  unfold runDispatch. destruct (dispatch _ _ _ _ _ _ _ _) as [d l] eqn:Hd.
  destruct (dispatch_loop _ _ _ _ _ _ _ _ _ _ idle_init Hd) as (Hdi & _ & _). intros [= <- <-].
  set (b := match _ with Ok b => Answered b | Err e => DispatchFailed e end).
  assert (Hb : sent [b] = [] /\ output_ok ps b) by (subst b; by case_match).
  destruct Hb as [Hb1 Hb2].
  destruct Hdi as [Hc _ _|pre c x Hc Hsf _ _ _ _ _]; rewrite Hc; cbn [fmap list_fmap app].
  - eapply world_ok_replace; try done; [by apply Forall_singleton|]. rewrite Hb1. by apply submseteq_cons.
  - eapply world_ok_replace; try done.
    + constructor; [|by apply Forall_singleton]. by exists a, cands, (at_credentialId x).
    + change (Sent o c :: [b]) with ([Sent o c] ++ [b]). unfold sent in *. rewrite omap_app, Hb1. done.
Qed.

Lemma consume_parked_ok ps w outs now posted presented r s :
  world_ok ps w outs -> consume_parked now posted presented (wd_state w) = (r, s) ->
  es_seenNonces s = es_seenNonces (wd_state w) /\
  match r with
  | HIT o => grounded ps o /\ o :: parked_outcomes s ⊆+ parked_outcomes (wd_state w)
  | _ => world_ok ps {| wd_state := s; wd_tasks := wd_tasks w |} outs
  end.
Proof.
  intros Hok. destruct (Hok) as [_ H2 _ _ _ _]. unfold consume_parked. destruct w as [sw tasks]. simpl in *.
  destruct posted as [[ver envelope]|]; [|by intros [= <- <-]].
  destruct (str_empty _); [by intros [= <- <-]|].
  destruct (consume _ _ _ _ _) as [r' m] eqn:Hc. apply values_consume in Hc. intros [= <- <-]. split; [done|].
  destruct r' as [| |o]; [by apply (world_ok_pending ps _ _ m Hok)..|].
  split; [|done]. eapply Forall_submseteq_l in H2; [|exact Hc]. by inversion_clear H2.
Qed.

Lemma step_execute_ok ps w outs v posted cands presented w' out :
  world_ok ps w outs ->
  step w (PostExecute v posted cands presented) = (w', out) -> world_ok (ps ++ [(v, posted)]) w' (outs ++ out).
Proof.
  intros Hok. simpl. destruct (consume_parked _ _ _ _) as [r s] eqn:Hc.
  apply (consume_parked_ok ps w outs) in Hc as [Hs Hr]; [|done].
  assert (Hps : ps ⊆ ps ++ [(v, posted)]) by set_solver.
  assert (Hmore : forall w1 outs1, world_ok ps w1 outs1 -> world_ok (ps ++ [(v, posted)]) w1 outs1).
  { intros w1 outs1 Hw. rewrite <-(app_nil_r outs1). destruct (Hw) as [G1 G2 _ _ _ G6].
    apply (world_ok_step ps _ w1 _ outs1 [] []); try done; [| |constructor|rewrite length_app; lia];
      eapply Forall_impl; try done; intros; by (eapply task_ok_mono || eapply grounded_mono). }
  destruct r as [| |o].
  - by apply open_task_ok.
  - intros [= <- <-]. apply Hmore in Hr as Hok'. destruct (Hok') as [G1 G2 _ _ _ G6].
    eapply (world_ok_step _ _ _ _ outs [CommitmentRefused] []); try done.
    + rewrite live_spawn. by rewrite app_nil_r.
    + by apply Forall_singleton.
    + rewrite held_spawn. simpl. done.
    + constructor.
    + rewrite live_spawn, openings_app. unfold live in G6. change (openings (option_list None)) with 0%nat.
      cbn [wd_tasks wd_state spawn] in *. lia.
  - destruct Hr as [Hg Hsub]. destruct (proceed o cands) as [t out'] eqn:Hp. intros [= <- <-].
    apply (proceed_spec ps) in Hp as (Hs' & Ho & Ht & Hn & Hno); [|done].
    apply Hmore. destruct (Hok) as [G1 G2 _ _ _ G6].
    apply (world_ok_step ps ps w _ outs out' []); try done; simpl; try by rewrite Hs.
    + rewrite live_spawn. by apply Forall_app.
    + eapply Forall_submseteq_l; [|exact G2]. etrans; [|exact Hsub]. by apply submseteq_cons.
    + rewrite Hs', held_spawn. simpl. unfold held, live. apply submseteq_skips_l.
      etrans; [apply submseteq_skips_r, Hn|]. simpl. rewrite <-fmap_cons. by apply fmap_submseteq.
    + constructor.
    + rewrite live_spawn, openings_app, Hno, Hs. unfold live in G6. lia.
Qed.

Lemma step_ok ps w outs e w' out :
  world_ok ps w outs -> (length (ps ++ option_list (post_env e)) <= NONCE_MAX)%nat ->
  step w e = (w', out) -> world_ok (ps ++ option_list (post_env e)) w' (outs ++ out).
Proof.
  intros Hok Hl Hs. rewrite length_app in Hl.
  destruct e as [v posted|v posted c pr|i|i n now|i dv|now|i wk now]; cbn [post_env option_list] in *.
  - by eapply open_task_ok.
  - by eapply step_execute_ok.
  - rewrite app_nil_r. eapply step_ingress_ok; [done|simpl in Hl; lia|exact Hs].
  - rewrite app_nil_r. by eapply step_executor_ok.
  - rewrite app_nil_r. by eapply step_provider_ok.
  - rewrite !app_nil_r. simpl in Hs. injection Hs as <- <-. rewrite app_nil_r.
    apply world_ok_pending; [done|]. apply values_sublist, filterb_sublist.
  - rewrite app_nil_r. simpl in Hs. injection Hs as <- <-. destruct (Hok) as [G1 G2 _ _ _ G6].
    apply (world_ok_step ps ps w _ outs [] []); try done. constructor.
Qed.

Lemma enclave_run_snoc evs e : enclave_run (evs ++ [e]) =
  let '(w, outs) := enclave_run evs in let '(w', out) := step w e in (w', outs ++ out).
Proof.
  unfold enclave_run, run_from. rewrite fold_left_app. simpl.
  destruct (fold_left _ evs _) as [w outs]. simpl. by destruct (step w e).
Qed.

Lemma enclave_run_ok evs : (length (posts evs) <= NONCE_MAX)%nat ->
  world_ok (posts evs) (enclave_run evs).1 (enclave_run evs).2.
Proof.
  induction evs as [|e evs IH] using rev_ind; intros Hl.
  - split; simpl; try constructor.
  - assert (Hp : posts (evs ++ [e]) = posts evs ++ option_list (post_env e)).
    { unfold posts. rewrite omap_app. simpl. by destruct (post_env e). }
    rewrite Hp in *. rewrite enclave_run_snoc. pose proof Hl as Hl'. rewrite length_app in Hl'.
    specialize (IH ltac:(lia)). destruct (enclave_run evs) as [w outs]. simpl in IH.
    destruct (step w e) as [w' out] eqn:Hs. simpl. by eapply step_ok.
Qed.

(** C2. The enclave's promise to contributors and clients, under any interleaving of
    gates, dispatches, sweeps and proofs.  As long as no more sealed requests
    arrived than the nonce window holds, every HTTP request that leaves the enclave
    was made for a sealed envelope posted to it that decrypted under its header,
    for which the guest executor committed to ALLOW over exactly those bytes and
    nonce; it carries that very request, with a credential the enclave authorized
    for its model and policy; and each sealed request (its nonce) is dispatched
    upstream at most once, however often it is posted to either endpoint. *)
Theorem enclave_dispatches_once evs :
  (length (posts evs) <= NONCE_MAX)%nat ->
  NoDup (sent (enclave_run evs).2) /\
  (forall o c, Sent o c ∈ (enclave_run evs).2 ->
     exists authorized candidates credentialId, granted (posts evs) o authorized /\
       sent_for egress_env registry (tee_signingPublicKey tee) (vaultDecrypt vaultKey) authorized candidates credentialId c).
Proof.
  intros Hl. destruct (enclave_run_ok evs Hl) as [_ _ H3 H4 _ _]. split.
  - by apply NoDup_app in H4 as (? & _ & _).
  - intros o c Hin. rewrite Forall_forall in H3. exact (H3 _ Hin).
Qed.
End Enclave.

(** ** An example: the same envelope gated, executed, replayed *)
Definition ex_gpt_plain : string := str_app
  ["{"; quote "request"; ":{"; quote "model"; ":"; quote "gpt-4o-2024-08-06"; ","; quote "messages"; ":[{"; quote "role"; ":"; quote "user"; ",";
   quote "content"; ":"; quote "hi"; "}],"; quote "temperature"; ":0,"; quote "max_tokens"; ":16},"; quote "requestNonce"; ":";
   quote ex_nonce; ","; quote "responsePublicKey"; ":"; quote (toB64 "client"); "}"].
Definition ex_gpt_header (box : SealedBox) : SecureRequestEnvelope := {|
  env_requestId := "r1"; env_enclaveKeyId := tee_enclaveKeyId ex_tee; env_box := box;
  env_apiVersion := "1"; env_requestedPolicy := "safety-v1"; env_model := "gpt-4o-2024-08-06" |}.
Definition ex_gpt_aad : string :=
  match canonicalJson (aad_val (ex_gpt_header {| sb_enc := ""; sb_ciphertext := "" |})) with Ok s => s | Err _ => "" end.
Definition ex_gpt_envelope : SecureRequestEnvelope :=
  ex_gpt_header (default {| sb_enc := ""; sb_ciphertext := "" |}
    (hpkeSeal (tee_ingressPublicKey ex_tee) "eph" ex_gpt_plain (Some ex_gpt_aad))).
Definition ex_gpt_gate : gate_env := {|
  gv_daemon := reexec_daemon ex_rules "0xp"; gv_now := 1000; gv_decryptMs := 0; gv_gateMs := 7; gv_proofNonce := "00" |}.
Definition ex_gpt_commitment : string :=
  match request_commitment_of {| cr_model := "gpt-4o-2024-08-06"; cr_messages := [{| cm_role := user; cm_content := "hi" |}];
                                 cr_temperature_millis := 0; cr_max_tokens := 16 |} ex_nonce with Ok c => c | Err _ => "" end.
Definition ex_posted : posted_envelope := Some ("ctn-1", ex_gpt_envelope).
Definition ex_enclave_evs : list EnclaveEvent :=
  [PostGate ex_gpt_gate ex_posted;
   PostExecute ex_gpt_gate ex_posted [ex_contributed] (Some "0xwrong");           (* nothing parked yet: gated inline *)
   IngressOpens 0; IngressOpens 1;                                                (* the second one is a replay *)
   ExecutorAnswers 0 "0xn" 1010;
   PostExecute ex_gpt_gate ex_posted [ex_contributed] (Some "0xwrong");           (* parked under another commitment *)
   PostExecute ex_gpt_gate ex_posted [ex_contributed] (Some ex_gpt_commitment);   (* consumed *)
   PostExecute ex_gpt_gate ex_posted [ex_contributed] (Some ex_gpt_commitment);   (* gone: gated inline, a replay *)
   IngressOpens 4;
   ProviderAnswers 4 (ex_dispatch_env (ex_fetch ex_call));
   ProviderAnswers 3 (ex_dispatch_env (ex_fetch ex_call));
   PostGate ex_gpt_gate ex_posted; IngressOpens 5].
Local Abbreviation ex_enclave :=
  (enclave_run (fun _ => "") (fun s => s) (fun s => s) (fun _ => "") "" (buildRegistry "http://mock") ex_dek ex_tee ex_prover).
(** The replies, as status codes; a sent request is 0. *)
Definition reply_code (o : Output) : Z :=
  match o with
  | Refused e => (gate_reply e).1 | CommitmentRefused => 400 | Gated _ => 200
  | Answered b => match eb_status b with COMPLETE => 200 | DENIED => 403 | FAILED_ => 502 end
  | DispatchFailed _ => 500 | Sent _ _ => 0
  end.

Lemma enclave_dispatches_once_witness :
  (length (posts ex_enclave_evs) <= NONCE_MAX)%nat /\
  reply_code <$> (ex_enclave ex_enclave_evs).2 = [409; 200; 400; 409; 0; 200; 409] /\
  NoDup (sent (ex_enclave ex_enclave_evs).2).
Proof.
  assert (Hl : (length (posts ex_enclave_evs) <= NONCE_MAX)%nat) by (apply Nat.leb_le; vm_compute; reflexivity).
  split; [exact Hl|split].
  - vm_compute. reflexivity.
  - apply (enclave_dispatches_once (fun _ => "") (fun s => s) (fun s => s) (fun _ => "") "" (buildRegistry "http://mock") ex_dek ex_tee ex_prover ex_enclave_evs Hl).
Defined.
