(* ===== verification/Ingest.v ===== *)
(** * Credential ingestion (services/tee-sim/src/index.ts, POST /credentials/ingest)

    A contributor's sealed intent becomes a vault ciphertext and a signed
    capability.  The handler awaits [/health] of the executor between the replay
    check and the minting, so it is two segments over the module state. *)

From S2P Require Import Prelude JsNum Utf8 Json Unicode Canonical Types Crypto Policy Authorize Pricing Providers Intent Insights JsMap Gates Hpke Tee ProofVerify ProverClient Prover GateRequest Dispatch.
Local Open Scope Z_scope.

Record IngestBody : Type := {
  ib_enclaveKeyId : string;
  ib_box : SealedBox;         (** [enc] and [encryptedSecret] *)
  ib_credentialId : string;
}.

Inductive IngestThrow : Type :=
| UnknownKeyId                      (** 400 CTN_INVALID_ENVELOPE *)
| InvalidIntent (e : InvalidIntentError)
| DecryptFailed                     (** 400 CTN_INVALID_ENVELOPE *)
| IntentMismatch                    (** 400 CTN_INTENT_MISMATCH *)
| IntentReplay                      (** 409 CTN_INTENT_REPLAY *)
| GateUnreachable                   (** 503 CTN_ENCLAVE_UNAVAILABLE *)
| IngestOther.                      (** the error handler's 500 *)

Record Minted : Type := {
  mi_credentialId : string;
  mi_encryptedBlob : string;
  mi_capability : CredentialCapability;
  mi_capabilitySignature : string;
  mi_keyFingerprint : string;
  mi_policyId : string;
}.

Definition resolve_policy (guestPolicyId p : string) : string :=
  if String.eqb p "safety-v1" then guestPolicyId else p.

Section Ingest.
Context `{U : Unicode} `{C : Crypto} `{H : Hpke} `{N : NodeCrypto}.
Context (vaultKey : string) (tee : SimulatedTEE).

(** Up to the await: the opened intent, its digest and the vault ciphertext.  [iv]
    is the random initialization vector. *)
Definition ingest_open (body : IngestBody) (iv : string) (s : EState)
    : res IngestThrow (CredentialIntentV1 * string * string) :=
  _ ← guard_ok (String.eqb (ib_enclaveKeyId body) (tee_enclaveKeyId tee)) UnknownKeyId;
  intent ← match openIngress tee (ib_box body) None with
           | Some opened => map_err InvalidIntent (parseIntent opened)
           | None => Err DecryptFailed
           end;
  _ ← guard_ok (String.eqb (ci_credentialId intent) (ib_credentialId body)) IntentMismatch;
  digest ← map_err (fun _ => IngestOther) (intentDigest intent);
  _ ← guard_ok (negb (bool_decide (digest ∈ es_consumedIntentDigests s))) IntentReplay;
  match vaultEncrypt vaultKey iv (ci_secret intent) with
  | Some blob => Ok (intent, digest, blob)
  | None => Err IngestOther
  end.

(** [consumedIntentDigests.add(digest)] *)
Definition consume_digest (digest : string) (s : EState) : EState :=
  if bool_decide (digest ∈ es_consumedIntentDigests s) then s
  else with_consumed (es_consumedIntentDigests s ++ [digest]) s.

(** From the answer of [/health] on. *)
Definition ingest_mint (d : Daemon) (now : Z) (opened : CredentialIntentV1 * string * string)
    : SE EState IngestThrow Minted :=
  let '(intent, digest, encryptedBlob) := opened in
  health ← se_map_err (fun _ => GateUnreachable) (getGuestHealth d);
  let guestPolicyId := ph_policyId health in
  capability ← se_lift (map_err (fun _ => IngestOther)
    (deriveCapability intent ("0x" +:+ sha256Hex encryptedBlob) (resolve_policy guestPolicyId) now));
  _ ← se_modify (consume_digest digest);
  signature ← se_lift (map_err (fun _ => IngestOther) (signReceipt tee (capability_val capability)));
  mret {| mi_credentialId := ci_credentialId intent;
          mi_encryptedBlob := encryptedBlob;
          mi_capability := capability;
          mi_capabilitySignature := signature;
          mi_keyFingerprint := "0x" +:+ fingerprint tee (ci_credentialId intent) (ci_secret intent);
          mi_policyId := guestPolicyId |}.

(** One ingestion with nothing in between. *)
Definition ingest (body : IngestBody) (iv : string) (d : Daemon) (now : Z) : SE EState IngestThrow Minted := fun s =>
  match ingest_open body iv s with
  | Err e => (s, Err e)
  | Ok opened => ingest_mint d now opened s
  end.

(** What the coordinator stores and sends back as a candidate. *)
Definition stored_candidate (m : Minted) : CandidateRecord := {|
  cd_credentialId := mi_credentialId m;
  cd_contributorId := cap_contributorId (mi_capability m);
  cd_provider := provider_str (cap_provider (mi_capability m));
  cd_status := "ACTIVE";
  cd_encryptedBlob := mi_encryptedBlob m;
  cd_capability := capability_val (mi_capability m);
  cd_capabilitySignature := mi_capabilitySignature m |}.

Lemma ingest_open_Ok body iv s intent digest blob :
  ingest_open body iv s = Ok (intent, digest, blob) ->
  ib_enclaveKeyId body = tee_enclaveKeyId tee /\
  (exists opened, openIngress tee (ib_box body) None = Some opened /\ parseIntent opened = Ok intent) /\
  ci_credentialId intent = ib_credentialId body /\ intentDigest intent = Ok digest /\
  digest ∉ es_consumedIntentDigests s /\ vaultEncrypt vaultKey iv (ci_secret intent) = Some blob.
Proof.
  unfold ingest_open. intros (u1 & H1%guard_ok_Ok%String.eqb_eq & Hr)%res_bind_Ok.
  apply res_bind_Ok in Hr as (i & Hi & Hr). apply res_bind_Ok in Hr as (u2 & H2%guard_ok_Ok%String.eqb_eq & Hr).
  apply res_bind_Ok in Hr as (dg & Hd%map_err_Ok & Hr). apply res_bind_Ok in Hr as (u3 & H3%guard_ok_Ok & Hr).
  apply negb_true_iff, bool_decide_eq_false in H3.
  destruct (vaultEncrypt _ _ _) as [b|] eqn:Hv; [|done]. injection Hr as <- <- <-.
  split_and!; try done. destruct (openIngress _ _ _) as [o|]; [|done]. exists o. split; [done|]. by apply map_err_Ok in Hi.
Qed.

Lemma ingest_mint_Ok d now intent digest blob s s' m :
  ingest_mint d now (intent, digest, blob) s = (s', Ok m) ->
  exists cap, deriveCapability intent ("0x" +:+ sha256Hex blob) (resolve_policy (mi_policyId m)) now = Ok cap /\
    signReceipt tee (capability_val cap) = Ok (mi_capabilitySignature m) /\
    mi_credentialId m = ci_credentialId intent /\ mi_encryptedBlob m = blob /\ mi_capability m = cap /\
    digest ∈ es_consumedIntentDigests s' /\ (forall x, x ∈ es_consumedIntentDigests s -> x ∈ es_consumedIntentDigests s').
Proof.
  unfold ingest_mint. intros (s1 & h & Hh & Hr)%se_bind_Ok.
  apply se_bind_Ok in Hr as (s2 & cap & [-> Hc%map_err_Ok]%se_lift_Ok & Hr).
  apply se_bind_Ok in Hr as (s3 & u & Hm & Hr). apply se_bind_Ok in Hr as (s4 & sig & [-> Hs%map_err_Ok]%se_lift_Ok & Hr).
  injection Hr as <- <-. injection Hm as <-. exists cap. simpl. split_and!; try done.
  - unfold consume_digest. case_bool_decide; simpl; set_solver.
  - assert (He : es_consumedIntentDigests s1 = es_consumedIntentDigests s).
    { unfold se_map_err, getGuestHealth in Hh. destruct (es_guestHealth s) as [h'|]; [by injection Hh as <- _|].
      destruct (dm_health d); [|done]. by injection Hh as <- _. }
    intros x Hx. unfold consume_digest. rewrite <-He in Hx. case_bool_decide; simpl; set_solver.
Qed.

Lemma parse_intent_secret plaintext i : parseIntent plaintext = Ok i ->
  intent_ok i /\ buffer_text (ci_secret i) = ci_secret i.
Proof.
  unfold parseIntent. destruct (JSON_parse _) as [v|]; [|done]. intros Hv. split; [by eapply parseIntentValue_ok|].
  unfold parseIntentValue in Hv. destruct v as [| | | | | |o]; try discriminate Hv. cbv zeta in Hv.
  do 9 (apply res_bind_Ok in Hv as (? & _ & Hv)). injection Hv as <-. cbn [ci_secret]. unfold str_trim, buffer_text.
  rewrite points_encode; [done|]. apply Forall_trim, points_scalar.
Qed.

Context `{!CryptoOk C} `{!NodeCryptoOk N}.

(** From a sealed key to a usable credential.  What an ingestion returns is
    exactly what the dispatch will accept: the stored candidate is authorized by
    the enclave, for any request under the executor's policy and one of the models
    of the intent the contributor sealed, with the secret the contributor sealed,
    attributed to the contributor the intent names, and the registry serves it; and
    it is refused for every other model and every other policy. *)
Lemma minted_authorized body iv d now s1 s2 s' intent digest blob m url :
  String.length vaultKey = 32%nat -> String.length iv = 12%nat ->
  tee_signingPublicKey tee = toHex (ed_public (tee_signingPrivateKey tee)) ->
  ingest_open body iv s1 = Ok (intent, digest, blob) -> ingest_mint d now (intent, digest, blob) s2 = (s', Ok m) ->
    forall authorized,
      (exists cred, authorizeCandidate (stored_candidate m) authorized (tee_signingPublicKey tee) (vaultDecrypt vaultKey) = Ok (inr cred) /\
         ac_secret cred = ci_secret intent /\ ac_contributorId cred = ci_contributorId intent /\
         serves (buildRegistry url) authorized (stored_candidate m) <> None)
      <-> cr_model (ar_request authorized) ∈ ci_allowedModels intent /\ ar_policyId authorized = mi_policyId m.
Proof.
  intros Hk Hiv Hpk Ho Hm.
  apply ingest_open_Ok in Ho as (_ & (text & Ht & Hp) & _ & _ & _ & Hv).
  apply ingest_mint_Ok in Hm as (cap & Hcap & Hsig & Hid & Hblob & Hmc & _).
  destruct (parse_intent_secret _ _ Hp) as [Hi Hsec].
  destruct (vault_roundtrip vaultKey iv (ci_secret intent) Hk Hiv) as (blob' & Hv' & Hdec).
  rewrite Hv in Hv'. injection Hv' as <-. rewrite Hsec in Hdec.
  unfold deriveCapability in Hcap. apply res_bind_Ok in Hcap as (dg & _ & [= Hcap]).
  apply signCanonical_verify in Hsig. rewrite <-Hpk in Hsig.
  intros authorized.
  assert (Hmod : js_includes (strs_val (cap_allowedModels cap)) (cr_model (ar_request authorized)) =
                 Some (bool_decide (cr_model (ar_request authorized) ∈ ci_allowedModels intent))).
  { rewrite includes_strs. f_equal. apply bool_decide_ext. subst cap. simpl. by rewrite elem_of_jsort. }
  assert (Hpol : js_includes (strs_val (cap_allowedPolicyIds cap)) (ar_policyId authorized) =
                 Some (bool_decide (ar_policyId authorized = mi_policyId m))).
  { rewrite includes_strs. f_equal. apply bool_decide_ext. subst cap. simpl. rewrite (io_policies _ Hi). simpl. set_solver. }
  split.
  - intros (cred & Ha & _). apply authorizeCandidate_iff in Ha as ((_ & _ & _ & _ & _ & _ & H5 & H6) & _).
    change (js_includes (strs_val (cap_allowedModels (mi_capability m))) (cr_model (ar_request authorized)) = Some true) in H5.
    change (js_includes (strs_val (cap_allowedPolicyIds (mi_capability m))) (ar_policyId authorized) = Some true) in H6.
    rewrite Hmc, Hmod in H5. rewrite Hmc, Hpol in H6. injection H5 as H5. injection H6 as H6.
    by apply bool_decide_eq_true in H5, H6.
  - intros [Hmodel Hpolicy]. rewrite bool_decide_eq_true_2 in Hmod, Hpol by done.
    eexists. split; [apply authorizeCandidate_iff; split; [|by exists (ci_secret intent); rewrite <-Hdec, <-Hblob]|].
    + unfold cleared, stored_candidate. rewrite Hmc.
      cbn [cd_status cd_capability cd_capabilitySignature cd_credentialId cd_contributorId cd_encryptedBlob cd_provider].
      rewrite Hblob, Hid. split_and!; first [exact Hmod|exact Hpol|done|by rewrite <-Hcap].
    + cbn [ac_secret ac_contributorId stored_candidate cd_contributorId]. rewrite Hmc.
      split_and!; [done|by rewrite <-Hcap|].
      unfold serves, stored_candidate. rewrite Hmc, <-Hcap. cbn [cd_provider cap_provider].
      destruct (registry_of_provider url (ci_provider intent)) as (a & -> & Ham). cbn [mbind option_bind].
      unfold supportsModel. pose proof (io_models _ Hi) as Hmods. rewrite Forall_forall in Hmods.
      specialize (Hmods _ Hmodel). rewrite Ham, bool_decide_eq_true_2 by done. cbn [andb].
      destruct (catalog_priced _ _ Hmods) as [pr Hpr]. unfold price in Hpr. unfold isPriced.
      destruct (table_get PRICING_TABLE _); [|done]. by rewrite bool_decide_eq_true_2.
Qed.

(** A minted intent is never minted again by a later ingestion, under whatever
    envelope, id and clock, as long as the enclave runs. *)
Lemma ingest_consumes d now intent digest blob s s' m :
  ingest_mint d now (intent, digest, blob) s = (s', Ok m) ->
  forall body iv s2, (forall x, x ∈ es_consumedIntentDigests s' -> x ∈ es_consumedIntentDigests s2) ->
    forall opened, ingest_open body iv s2 = Ok opened -> opened.1.2 <> digest.
Proof.
  intros (cap & _ & _ & _ & _ & _ & Hin & _)%ingest_mint_Ok body iv s2 Hs [[i dg] b] (_ & _ & _ & _ & Hn & _)%ingest_open_Ok.
  simpl. intros ->. by apply Hn, Hs.
Qed.
End Ingest.

(** ** Examples *)
Definition ex_ingest_body (eph : string) : IngestBody := {|
  ib_enclaveKeyId := tee_enclaveKeyId ex_tee;
  ib_box := default {| sb_enc := ""; sb_ciphertext := "" |} (hpkeSeal (tee_ingressPublicKey ex_tee) eph ex_sealed None);
  ib_credentialId := "cred_0123456789ab" |}.
Definition ex_health : Daemon := reexec_daemon ex_rules "0xguest".
Local Abbreviation ex_open eph s := (ingest_open ex_dek ex_tee (ex_ingest_body eph) "123456789012" s).

(** The replay check and the insertion are separated by the await: two handlers of
    one sealed intent that both check before either mints are both answered. *)
Definition both_minted : bool :=
  match ex_open "eph" es_init, ex_open "eph" es_init with
  | Ok o1, Ok o2 =>
      let '(s1, r1) := ingest_mint ex_tee ex_health 7 o1 es_init in
      let '(_, r2) := ingest_mint ex_tee ex_health 8 o2 s1 in is_ok r1 && is_ok r2
  | _, _ => false
  end.
Lemma ingest_race : both_minted = true.
Proof. vm_compute. reflexivity. Qed.
