(* ===== verification/Logs.v ===== *)
(** * What leaves through the logs (services/tee-sim/src/enclave-log.ts,
      services/coordinator/src/safe-log.ts)

    The credential patterns as matchers on code points, the enclave's scrubber,
    and the coordinator's redacting logger. *)

From S2P Require Import Prelude JsNum Utf8 Json Unicode.
Local Open Scope Z_scope.

(** [toLowerCase()], on code points: data of the JavaScript engine. *)
Class LowerCase := { to_lower : list Z -> list Z }.
#[export] Instance ascii_lowercase : LowerCase := {| to_lower := fun l => ascii_lower <$> l |}.

(** ** The patterns

    Every pattern begins with a word boundary and a word character, so it can start
    where the previous character is not a word character. *)
Definition lower_letter (c : Z) : bool := (97 <=? c) && (c <=? 122).
Definition ascii_digit (c : Z) : bool := (48 <=? c) && (c <=? 57).
Definition alnum (c : Z) : bool := lower_letter (ascii_lower c) || ascii_digit c.
Definition word_char (c : Z) : bool := alnum c || (c =? 95).

Fixpoint strip_points (p l : list Z) : option (list Z) :=
  match p, l with
  | [], l => Some l
  | c :: p, d :: l => if c =? d then strip_points p l else None
  | _ :: _, [] => None
  end.
(** How many characters of the class follow. *)
Fixpoint run_length (f : Z -> bool) (l : list Z) : nat :=
  match l with c :: l => if f c then S (run_length f l) else O | [] => O end.
Definition starts_nonspace (l : list Z) : bool := match l with c :: _ => negb (js_space c) | [] => false end.

(** [prefix[class]{n,}] *)
Definition pat_run (prefix : string) (f : Z -> bool) (n : nat) (l : list Z) : bool :=
  match strip_points (points prefix) l with Some r => Nat.leb n (run_length f r) | None => false end.
(** [prefix\S+] *)
Definition pat_nonspace (prefix : string) (l : list Z) : bool :=
  match strip_points (points prefix) l with Some r => starts_nonspace r | None => false end.
(** [Bearer\s+\S+] with the [i] flag *)
Definition pat_bearer (l : list Z) : bool :=
  match strip_points (points "bearer") (ascii_lower <$> take 6 l) with
  | Some _ => match drop 6 l with c :: r => js_space c && starts_nonspace (trim_start r) | [] => false end
  | None => false
  end.

Fixpoint search (p : list Z -> bool) (after_word : bool) (l : list Z) : bool :=
  match l with
  | [] => false
  | c :: r => (negb after_word && p l) || search p (word_char c) r
  end.

Definition key_char (c : Z) : bool := word_char c || (c =? 45).
Definition sk_pattern : list Z -> bool := pat_run "sk-" key_char 8.
Definition mock_pattern : list Z -> bool := pat_nonspace "mock-provider-key-".
Definition sk_live_pattern : list Z -> bool := pat_nonspace "sk_live_".
Definition ghp_pattern : list Z -> bool := pat_run "ghp_" alnum 20.

Definition matches (patterns : list (list Z -> bool)) (s : string) : bool :=
  existsb (fun p => search p false (points s)) patterns.

(** ** enclave-log.ts *)
Definition ENCLAVE_PATTERNS : list (list Z -> bool) := [sk_pattern; pat_bearer; mock_pattern].
Definition MAX_LENGTH : Z := 160.
Definition ellipsis : string := encode [0x2026].

Definition truncated_text (marker : string) (s : string) : string :=
  str_app [js_slice0 64 s; ellipsis; " "; marker; " ("; num_to_string (js_length s); " chars)"].

Definition enclaveSafe (text : string) : string :=
  if matches ENCLAVE_PATTERNS text then "[redacted-by-enclaveSafe]"
  else if MAX_LENGTH <? js_length text then truncated_text "[truncated-by-enclaveSafe]" text
  else text.

(** Values of [enclaveLog]: a string, or what prints as one. *)
Inductive LogField : Type := LText (s : string) | LPlain (printed : string).
Definition log_part (kv : string * LogField) : string :=
  str_app [kv.1; "="; match kv.2 with LText s => enclaveSafe s | LPlain p => p end].
Definition enclaveLog (event : string) (fields : list (string * LogField)) : string :=
  str_app ["[tee-sim] "; event;
           match fields with [] => "" | _ => str_app [" "; str_join " " (log_part <$> fields)] end].

(** ** safe-log.ts *)
Definition FORBIDDEN_KEYS : list string :=
  ["messages"; "prompt"; "prompttext"; "input"; "output"; "content"; "response"; "responsebody"; "body";
   "authorization"; "xapikey"; "apikey"; "key"; "secret"; "encryptedsecret"; "ciphertext"; "enc"; "plaintext";
   "sharedsecret"; "dek"; "privatekey"; "encryptedblob"].
Definition REDACTED : string := "[redacted-by-safeLog]".
Definition SECRET_VALUE_PATTERNS : list (list Z -> bool) :=
  [sk_pattern; pat_bearer; mock_pattern; sk_live_pattern; ghp_pattern].
Definition MAX_STRING_LENGTH : Z := 200.

Section SafeLog.
Context `{L : LowerCase}.

Definition normalizeKey (key : string) : string :=
  encode (List.filter (fun c => lower_letter c || ascii_digit c) (to_lower (points key))).
Definition forbidden (key : string) : bool := bool_decide (normalizeKey key ∈ FORBIDDEN_KEYS).

Definition scrubString (value : string) : string :=
  if matches SECRET_VALUE_PATTERNS value then REDACTED
  else if MAX_STRING_LENGTH <? js_length value then truncated_text "[truncated-by-safeLog]" value
  else value.

Fixpoint redact (value : jsval) (depth : nat) : jsval :=
  if Nat.ltb 8 depth then VStr "[depth-limit]"
  else match value with
       | VStr s => VStr (scrubString s)
       | VArr l => VArr (List.map (fun v => redact v (S depth)) l)
       | VObj o => VObj (List.map (fun kv => (kv.1, if forbidden kv.1 then VStr REDACTED else redact kv.2 (S depth))) o)
       | v => v
       end.

(** The line [safeLog] prints: the fields are spread over the envelope. *)
Definition safeLog (at_ level event : string) (fields : list (string * jsval)) : jsval :=
  match redact (VObj fields) 0 with
  | VObj o => VObj (fold_left (fun acc kv => obj_set acc kv.1 kv.2) o [("at", VStr at_); ("level", VStr level); ("event", VStr event)])
  | v => v
  end.

(** ** What an observer of the log can tell apart

    [hidden d v w]: the values differ only where the logger must not show
    anything: under a forbidden key, in strings that carry a credential, in the
    tail of an overlong string, and below the depth limit. *)
Definition same_text (s t : string) : Prop :=
  s = t \/ (matches SECRET_VALUE_PATTERNS s = true /\ matches SECRET_VALUE_PATTERNS t = true) \/
  (matches SECRET_VALUE_PATTERNS s = false /\ matches SECRET_VALUE_PATTERNS t = false /\
   MAX_STRING_LENGTH < js_length s /\ js_length s = js_length t /\ js_slice0 64 s = js_slice0 64 t).

Inductive hidden : nat -> jsval -> jsval -> Prop :=
| HiddenDeep d v w : (8 < d)%nat -> hidden d v w
| HiddenSame d v : hidden d v v
| HiddenStr d s t : same_text s t -> hidden d (VStr s) (VStr t)
| HiddenArr d l k : Forall2 (hidden (S d)) l k -> hidden d (VArr l) (VArr k)
| HiddenObj d o u :
    Forall2 (fun kv kw => kv.1 = kw.1 /\ (forbidden kv.1 = true \/ hidden (S d) kv.2 kw.2)) o u -> hidden d (VObj o) (VObj u).

Lemma scrub_same s t : same_text s t -> scrubString s = scrubString t.
Proof.
  unfold same_text, scrubString, truncated_text. intros [->|[[-> ->]|(-> & -> & Hl & Hlen & Hs)]]; [done|done|].
  rewrite <-Hlen, Hs. by rewrite (proj2 (Z.ltb_lt _ _) Hl).
Qed.

Lemma redact_deep v d : (8 < d)%nat -> redact v d = VStr "[depth-limit]".
Proof. intros Hd. by destruct v; cbn [redact]; rewrite (proj2 (Nat.ltb_lt 8 d) Hd). Qed.

Lemma redact_hidden v : forall d w, hidden d v w -> redact v d = redact w d.
Proof.
  induction v as [| |b|x|s|l IH|o IH] using jsval_ind; intros d w Hh;
    (inversion Hh as [? ? ? Hd|? ?|? ? ? Hs|? ? k Hf|? ? u Hf]; subst; [by rewrite !redact_deep by done|done|..]).
  - cbn [redact]. destruct (Nat.ltb 8 d); [done|]. by rewrite (scrub_same _ _ Hs).
  - cbn [redact]. destruct (Nat.ltb 8 d); [done|]. f_equal. clear Hh.
    induction Hf as [|x y l k Hxy Hf IHf]; [done|]. inversion_clear IH. simpl. f_equal; auto.
  - cbn [redact]. destruct (Nat.ltb 8 d); [done|]. f_equal. clear Hh.
    induction Hf as [|[k1 v1] [k2 v2] l k [Hk Hv] Hf IHf]; [done|]. simpl in *. subst k2.
    inversion_clear IH as [|?? Hx Hl]. simpl in *. f_equal; [|auto]. f_equal.
    destruct Hv as [->|Hv]; [done|]. destruct (forbidden k1); [done|]. auto.
Qed.

(** A value with nothing to hide: no forbidden key, no credential, no long string,
    at most eight levels. *)
Inductive plainly_shown : nat -> jsval -> Prop :=
| ShownStr d s : (d <= 8)%nat -> matches SECRET_VALUE_PATTERNS s = false -> js_length s <= MAX_STRING_LENGTH -> plainly_shown d (VStr s)
| ShownArr d l : (d <= 8)%nat -> Forall (plainly_shown (S d)) l -> plainly_shown d (VArr l)
| ShownObj d o : (d <= 8)%nat -> Forall (fun kv => forbidden kv.1 = false /\ plainly_shown (S d) kv.2) o -> plainly_shown d (VObj o)
| ShownAtom d v : (d <= 8)%nat -> match v with VUndef | VNull | VBool _ | VNum _ => True | _ => False end -> plainly_shown d v.

Lemma redact_shown v : forall d, plainly_shown d v -> redact v d = v.
Proof.
  induction v as [| |b|x|s|l IH|o IH] using jsval_ind; intros d Hs; inversion Hs as [? ? Hd H1 H2|? ? Hd Hl|? ? Hd Ho|? ? Hd Ha];
    subst; cbn [redact]; rewrite (proj2 (Nat.ltb_ge 8 d) Hd); try done.
  - unfold scrubString. rewrite H1. by rewrite (proj2 (Z.ltb_ge _ _) H2).
  - f_equal. clear Hs. induction Hl as [|x l Hx Hl IHl]; [done|]. inversion_clear IH. simpl. f_equal; auto.
  - f_equal. clear Hs. induction Ho as [|[k x] o [Hk Hx] Ho IHo]; [done|]. inversion_clear IH. simpl in *. rewrite Hk. f_equal; [|auto].
    f_equal. auto.
Qed.

(** C26. The coordinator's log refuses to carry secrets, and only those.  Two records
    that differ only under forbidden keys (whatever their casing and separators),
    in strings that match a credential pattern, in the tail of strings over the
    length cap, or below the depth limit, print the same line; and a record with
    none of these prints unchanged, apart from the envelope. *)
Theorem safeLog_noninterference at_ level event :
  (forall o u, hidden 0 (VObj o) (VObj u) -> safeLog at_ level event o = safeLog at_ level event u) /\
  (forall o, plainly_shown 0 (VObj o) -> safeLog at_ level event o =
     VObj (fold_left (fun acc kv => obj_set acc kv.1 kv.2) o [("at", VStr at_); ("level", VStr level); ("event", VStr event)])).
Proof.
  split.
  - intros o u Hh. unfold safeLog. by rewrite (redact_hidden _ _ _ Hh).
  - intros o Hs. unfold safeLog. by rewrite (redact_shown _ _ Hs).
Qed.
End SafeLog.

(** ** Examples *)
Example patterns_ex :
  matches SECRET_VALUE_PATTERNS <$> ["key sk-ant-api03-AbCdEfGh"; "risk-assessment-framework"; "Authorization: bearer   abc"; "Bearer ";
    "ghp_0123456789abcdefghij"; "ghp_0123"; "sk_live_x"; "mock-provider-key-1"] = [true; false; true; false; true; false; true; true].
Proof. vm_compute. reflexivity. Qed.
Definition ex_log : list (string * jsval) :=
  [("request_id", VStr "req_1"); ("X-Api-Key", VStr "hunter2"); ("detail", VObj [("note", VStr "sent sk-12345678"); ("n", vint 3)])].
Definition ex_log' : list (string * jsval) :=
  [("request_id", VStr "req_1"); ("X-Api-Key", vint 7); ("detail", VObj [("note", VStr "Bearer abc"); ("n", vint 3)])].
Lemma safeLog_noninterference_witness :
  safeLog "t" "info" "e" ex_log = safeLog "t" "info" "e" ex_log' /\
  safeLog "t" "info" "e" [("request_id", VStr "req_1")] =
    VObj [("at", VStr "t"); ("level", VStr "info"); ("event", VStr "e"); ("request_id", VStr "req_1")].
Proof.
  destruct (safeLog_noninterference "t" "info" "e") as [H1 H2]. split.
  - apply H1. unfold ex_log, ex_log'. apply HiddenObj.
    constructor; [split; [reflexivity|right; apply HiddenSame]|].
    constructor; [split; [reflexivity|left; vm_compute; reflexivity]|].
    constructor; [split; [reflexivity|right]|constructor]. apply HiddenObj.
    constructor; [split; [reflexivity|right; apply HiddenStr; right; left; split; vm_compute; reflexivity]|].
    constructor; [split; [reflexivity|right; apply HiddenSame]|constructor].
  - rewrite H2; [vm_compute; reflexivity|]. apply ShownObj; [lia|]. constructor; [|constructor].
    split; [vm_compute; reflexivity|]. apply ShownStr; [lia|vm_compute; reflexivity|vm_compute; discriminate].
Defined.
