(* ===== verification/Routing.v ===== *)
(** * Credentials, routing and usage accounting (services/coordinator/src/routing.ts,
      the credential endpoints of services/coordinator/src/index.ts, db.ts)

    The [credentials] and [usage] tables as lists in row order, with the primary
    keys the schema declares.  Columns that hold ISO texts of instants hold the
    instant in milliseconds, and [usage_day] the day number, since the code only
    writes and compares such texts.  [localeCompare] is a parameter. *)

From S2P Require Import Prelude JsNum Utf8 Json Unicode Canonical Types Crypto Authorize.
From Stdlib Require Import QArith.
Local Open Scope Z_scope.

Record CredentialRow : Type := {
  cw_id : string;
  cw_contributor_id : string;
  cw_provider : string;
  cw_label : string;
  cw_encrypted_blob : string;
  cw_capability_json : string;
  cw_capability_signature : string;
  cw_key_fingerprint : string;
  cw_status : string;
  cw_weight : Z;
  cw_last_used_at : option Z;
  cw_requests_today : Z;
  cw_cost_today : Q;
  cw_usage_day : option Z;
  cw_failure_count : Z;
  cw_cooldown_until : option Z;
  cw_daily_usd_limit : option Q;
  cw_daily_request_limit : option Z;
}.

Record UsageRow : Type := {
  us_id : string;
  us_request_id : string;
  us_credential_id : string;
  us_contributor_id : string;
  us_input_tokens : Z;
  us_output_tokens : Z;
  us_estimated_cost_usd : Q;
  us_created_at : Z;
}.

(** The tables this component reads and writes; of [contributors] and [requests]
    only the ids matter, for the foreign keys. *)
Record Ledger : Type := {
  lg_contributors : list string;
  lg_requests : list string;
  lg_credentials : list CredentialRow;
  lg_usage : list UsageRow;
}.
Definition with_credentials (rows : list CredentialRow) (l : Ledger) : Ledger := {|
  lg_contributors := lg_contributors l; lg_requests := lg_requests l; lg_credentials := rows; lg_usage := lg_usage l |}.
Definition with_usage (rows : list UsageRow) (l : Ledger) : Ledger := {|
  lg_contributors := lg_contributors l; lg_requests := lg_requests l; lg_credentials := lg_credentials l; lg_usage := rows |}.

(** [today()] of an instant *)
Definition day_of (now : Z) : Z := now / 86400000.

(** [UPDATE credentials SET ... WHERE id = ?] *)
Definition update_row (id : string) (f : CredentialRow -> CredentialRow) (rows : list CredentialRow) : list CredentialRow :=
  (fun r => if String.eqb (cw_id r) id then f r else r) <$> rows.
Definition find_row (id : string) (rows : list CredentialRow) : option CredentialRow :=
  List.find (fun r => String.eqb (cw_id r) id) rows.

Definition set_counters (n : Z) (c : Q) (day : Z) (r : CredentialRow) : CredentialRow := {|
  cw_id := cw_id r; cw_contributor_id := cw_contributor_id r; cw_provider := cw_provider r; cw_label := cw_label r;
  cw_encrypted_blob := cw_encrypted_blob r; cw_capability_json := cw_capability_json r;
  cw_capability_signature := cw_capability_signature r; cw_key_fingerprint := cw_key_fingerprint r; cw_status := cw_status r;
  cw_weight := cw_weight r; cw_last_used_at := cw_last_used_at r; cw_requests_today := n; cw_cost_today := c;
  cw_usage_day := Some day; cw_failure_count := cw_failure_count r; cw_cooldown_until := cw_cooldown_until r;
  cw_daily_usd_limit := cw_daily_usd_limit r; cw_daily_request_limit := cw_daily_request_limit r |}.
Definition set_health (status : string) (used : option Z) (failures : Z) (cooldown : option Z) (r : CredentialRow) : CredentialRow := {|
  cw_id := cw_id r; cw_contributor_id := cw_contributor_id r; cw_provider := cw_provider r; cw_label := cw_label r;
  cw_encrypted_blob := cw_encrypted_blob r; cw_capability_json := cw_capability_json r;
  cw_capability_signature := cw_capability_signature r; cw_key_fingerprint := cw_key_fingerprint r; cw_status := status;
  cw_weight := cw_weight r; cw_last_used_at := used; cw_requests_today := cw_requests_today r; cw_cost_today := cw_cost_today r;
  cw_usage_day := cw_usage_day r; cw_failure_count := failures; cw_cooldown_until := cooldown;
  cw_daily_usd_limit := cw_daily_usd_limit r; cw_daily_request_limit := cw_daily_request_limit r |}.
Definition set_terms (weight : Z) (usd : option Q) (requests : option Z) (r : CredentialRow) : CredentialRow := {|
  cw_id := cw_id r; cw_contributor_id := cw_contributor_id r; cw_provider := cw_provider r; cw_label := cw_label r;
  cw_encrypted_blob := cw_encrypted_blob r; cw_capability_json := cw_capability_json r;
  cw_capability_signature := cw_capability_signature r; cw_key_fingerprint := cw_key_fingerprint r; cw_status := cw_status r;
  cw_weight := weight; cw_last_used_at := cw_last_used_at r; cw_requests_today := cw_requests_today r; cw_cost_today := cw_cost_today r;
  cw_usage_day := cw_usage_day r; cw_failure_count := cw_failure_count r; cw_cooldown_until := cw_cooldown_until r;
  cw_daily_usd_limit := usd; cw_daily_request_limit := requests |}.

(** ** Discovery *)
Inductive ExclusionReason : Type :=
| disabled | cooldown | model_not_allowed_ | policy_not_allowed_ | daily_request_limit | daily_usd_limit.
#[export] Instance ExclusionReason_eq_dec : EqDecision ExclusionReason.
Proof. solve_decision. Defined.

Record DiscoveryResult : Type := {
  dc_candidates : list CandidateRecord;
  dc_excluded : list (string * string * ExclusionReason);
}.

Definition rollUsageDay (now : Z) (r : CredentialRow) : CredentialRow :=
  if bool_decide (cw_usage_day r = Some (day_of now)) then r else set_counters 0 0 (day_of now) r.

Section Routing.
Context (localeCompare : string -> string -> comparison).

Definition routingOrder (a b : CredentialRow) : comparison :=
  match default 0 (cw_last_used_at a) ?= default 0 (cw_last_used_at b) with
  | Eq => match cw_weight b ?= cw_weight a with
          | Eq => localeCompare (cw_id a) (cw_id b)
          | c => c
          end
  | c => c
  end.

(** The checks on one row, in order; [Err] is an exception of [JSON.parse] or of
    [includes]. *)
Definition exclusion (model policyId : string) (now : Z) (r : CredentialRow) : res unit (option ExclusionReason) :=
  if negb (String.eqb (cw_status r) "ACTIVE") then Ok (Some disabled)
  else if match cw_cooldown_until r with Some t => now <? t | None => false end then Ok (Some cooldown)
  else match JSON_parse (cw_capability_json r) with
       | None => Err tt
       | Some capability =>
           match js_get capability "allowedModels" ≫= fun v => js_includes v model with
           | None => Err tt
           | Some false => Ok (Some model_not_allowed_)
           | Some true =>
               match js_get capability "allowedPolicyIds" ≫= fun v => js_includes v policyId with
               | None => Err tt
               | Some false => Ok (Some policy_not_allowed_)
               | Some true =>
                   if match cw_daily_request_limit r with Some l => l <=? cw_requests_today r | None => false end
                   then Ok (Some daily_request_limit)
                   else if match cw_daily_usd_limit r with Some l => Qle_bool l (cw_cost_today r) | None => false end
                   then Ok (Some daily_usd_limit)
                   else Ok None
               end
           end
       end.

(** The loop over the rows: the excluded and the eligible ones. *)
Fixpoint classify_rows (model policyId : string) (now : Z) (rows : list CredentialRow)
    : res unit (list (string * string * ExclusionReason) * list CredentialRow) :=
  match rows with
  | [] => Ok ([], [])
  | r :: rows =>
      e ← exclusion model policyId now r;
      '(excluded, eligible) ← classify_rows model policyId now rows;
      Ok (match e with
          | Some reason => ((cw_id r, cw_contributor_id r, reason) :: excluded, eligible)
          | None => (excluded, r :: eligible)
          end)
  end.

(** The weight expansion: one pass per unit of weight. *)
Definition max_weight (eligible : list CredentialRow) : Z := foldr (fun r m => Z.max (cw_weight r) m) 1 eligible.
Definition expand (eligible : list CredentialRow) : list CredentialRow :=
  concat ((fun pass => List.filter (fun r => Z.of_nat pass <? cw_weight r) eligible) <$> seq 0 (Z.to_nat (max_weight eligible))).

Definition candidate_of (r : CredentialRow) : CandidateRecord := {|
  cd_credentialId := cw_id r; cd_contributorId := cw_contributor_id r; cd_provider := cw_provider r; cd_status := cw_status r;
  cd_encryptedBlob := cw_encrypted_blob r; cd_capability := default VUndef (JSON_parse (cw_capability_json r));
  cd_capabilitySignature := cw_capability_signature r |}.

Fixpoint first_occurrences (seen : list string) (rows : list CredentialRow) : list CredentialRow :=
  match rows with
  | [] => []
  | r :: rows => if bool_decide (cw_id r ∈ seen) then first_occurrences seen rows
                 else r :: first_occurrences (cw_id r :: seen) rows
  end.

Definition discoverCandidates (model policyId : string) (now : Z) : SE Ledger unit DiscoveryResult := fun l =>
  let rows := rollUsageDay now <$> lg_credentials l in
  (with_credentials rows l,
   '(excluded, eligible) ← classify_rows model policyId now rows;
   Ok {| dc_candidates := candidate_of <$> first_occurrences [] (expand (jsort routingOrder eligible));
         dc_excluded := excluded |}).

(** ** Outcomes and usage *)
Inductive AttemptAction : Type := ActionNone | ActionDisabled | ActionCooldown.

Definition applyAttemptOutcome (COOLDOWN_MS now : Z) (credentialId : string) (success : bool) (classification : option string)
    (l : Ledger) : Ledger * AttemptAction :=
  let on f := with_credentials (update_row credentialId f (lg_credentials l)) l in
  let classified c := match classification with Some s => String.eqb s c | None => false end in
  if success then (on (fun r => set_health (cw_status r) (Some now) 0 None r), ActionNone)
  else if classified "auth_failed" then
    (on (fun r => set_health (if String.eqb (cw_status r) "DELETED" then "DELETED" else "DISABLED") (Some now)
                    (cw_failure_count r + 1) (cw_cooldown_until r) r), ActionDisabled)
  else if classified "rate_limited" then
    (on (fun r => set_health (cw_status r) (Some now) (cw_failure_count r + 1) (Some (now + COOLDOWN_MS)) r), ActionCooldown)
  else (on (fun r => set_health (cw_status r) (Some now) (cw_failure_count r + 1) (cw_cooldown_until r) r), ActionNone).

(** [INSERT INTO usage]; the primary key refuses a second row of a request, the
    foreign key a request without a row. *)
Definition insert_usage (u : UsageRow) (l : Ledger) : option Ledger :=
  if existsb (fun v => String.eqb (us_id v) (us_id u)) (lg_usage l) || negb (bool_decide (us_request_id u ∈ lg_requests l)) then None
  else Some (with_usage (lg_usage l ++ [u]) l).

Definition bump (now : Z) (credentialId : string) (cost : Q) (l : Ledger) : Ledger :=
  with_credentials (update_row credentialId
    (fun r => set_counters (cw_requests_today r + 1) (js_add (cw_cost_today r) cost) (day_of now) r) (lg_credentials l)) l.

Definition usage_row (now : Z) (requestId credentialId contributorId : string) (i o : Z) (cost : Q) : UsageRow := {|
  us_id := "use_" +:+ requestId; us_request_id := requestId; us_credential_id := credentialId;
  us_contributor_id := contributorId; us_input_tokens := i; us_output_tokens := o; us_estimated_cost_usd := cost;
  us_created_at := now |}.

(** [Err] is the constraint violation. *)
Definition recordUsage (now : Z) (requestId credentialId contributorId : string) (i o : Z) (cost : Q) : SE Ledger unit unit := fun l =>
  match insert_usage (usage_row now requestId credentialId contributorId i o cost) l with
  | None => (l, Err tt)
  | Some l => (bump now credentialId cost l, Ok tt)
  end.

(** The transaction: the counters first, the row last, a failure rolls back. *)
Definition recordAssumedUsage (now : Z) (requestId credentialId contributorId : string) (assumedSpendMicroUsd : Q) : SE Ledger unit unit := fun l =>
  let cost := js_div assumedSpendMicroUsd 1000000 in
  match insert_usage (usage_row now requestId credentialId contributorId 0 0 cost) (bump now credentialId cost l) with
  | None => (l, Err tt)
  | Some l => (l, Ok tt)
  end.

(** ** The credential endpoints *)
Definition insert_credential (r : CredentialRow) (l : Ledger) : option Ledger :=
  match find_row (cw_id r) (lg_credentials l) with
  | Some _ => None
  | None => if bool_decide (cw_contributor_id r ∈ lg_contributors l)
            then Some (with_credentials (lg_credentials l ++ [r]) l) else None
  end.

Record PatchBody : Type := {
  pt_status : option string;
  pt_weight : option Z;
  pt_limits : option (option Q * option Z);
  pt_allowedModels : bool;     (** the body has the field *)
}.
Inductive PatchResult : Type :=
| PatchRefused (code : Z) (error : string)
| Patched (r : CredentialRow).

Definition patch_credential (id : string) (b : PatchBody) (l : Ledger) : Ledger * PatchResult :=
  if pt_allowedModels b then (l, PatchRefused 400 "CTN_CAPABILITY_IMMUTABLE") else
  match find_row id (lg_credentials l) with
  | None => (l, PatchRefused 404 "CTN_INTERNAL")
  | Some row =>
      let terms r := set_terms (default (cw_weight r) (pt_weight b))
                       (match pt_limits b with Some (usd, _) => usd | None => cw_daily_usd_limit r end)
                       (match pt_limits b with Some (_, n) => n | None => cw_daily_request_limit r end) r in
      let write f := let rows := update_row id f (lg_credentials l) in
                     (with_credentials rows l, Patched (default row (find_row id rows))) in
      match pt_status b with
      | Some s =>
          if negb (String.eqb s "ACTIVE") && negb (String.eqb s "DISABLED") then (l, PatchRefused 400 "CTN_INVALID_STATUS")
          else if String.eqb (cw_status row) "DELETED" then (l, PatchRefused 409 "CTN_CREDENTIAL_DELETED")
          else write (fun r => terms (set_health s (cw_last_used_at r) (cw_failure_count r) None r))
      | None => write terms
      end
  end.

Definition delete_credential (id : string) (l : Ledger) : Ledger :=
  with_credentials (update_row id (fun r => set_health "DELETED" (cw_last_used_at r) (cw_failure_count r) (cw_cooldown_until r) r) (lg_credentials l)) l.
End Routing.

(** ** Rows *)
Lemma filterb_filterb {A} (p q : A -> bool) l : List.filter p (List.filter q l) = List.filter (fun x => q x && p x) l.
Proof. induction l as [|x l IH]; simpl; [done|]. destruct (q x); simpl; [destruct (p x); by rewrite IH|done]. Qed.
Lemma StronglySorted_filterb {A} (R : A -> A -> Prop) (p : A -> bool) l :
  StronglySorted R l -> StronglySorted R (List.filter p l).
Proof.
  induction 1 as [|x l _ IH Hx]; simpl; [constructor|]. destruct (p x); [|exact IH]. constructor; [exact IH|].
  apply List.Forall_forall. intros y [Hy _]%filter_In. rewrite List.Forall_forall in Hx. by apply Hx.
Qed.

Lemma find_row_update id id' f rows : (forall r, cw_id (f r) = cw_id r) ->
  find_row id (update_row id' f rows) = (if String.eqb id id' then f else Datatypes.id) <$> find_row id rows.
Proof.
  intros Hf. induction rows as [|r rows IH]; simpl; [done|].
  assert (Hid : cw_id (if String.eqb (cw_id r) id' then f r else r) = cw_id r)
    by (destruct (String.eqb (cw_id r) id'); [apply Hf|done]).
  rewrite Hid. destruct (String.eqb_spec (cw_id r) id) as [<-|]; [|exact IH]. simpl.
  by destruct (String.eqb (cw_id r) id').
Qed.
Lemma find_row_map f rows id : (forall r, cw_id (f r) = cw_id r) -> find_row id (f <$> rows) = f <$> find_row id rows.
Proof. intros Hf. induction rows as [|r rows IH]; simpl; [done|]. rewrite Hf. destruct (String.eqb (cw_id r) id); [done|exact IH]. Qed.
Lemma find_row_app id rows r : find_row id (rows ++ [r]) =
  match find_row id rows with Some x => Some x | None => if String.eqb (cw_id r) id then Some r else None end.
Proof. induction rows as [|x rows IH]; simpl; [done|]. destruct (String.eqb (cw_id x) id); [done|exact IH]. Qed.
Lemma find_row_id id rows r : find_row id rows = Some r -> cw_id r = id /\ r ∈ rows.
Proof.
  intros H. apply List.find_some in H as [Hin He]. apply String.eqb_eq in He. split; [done|]. by apply list_elem_of_In.
Qed.
Lemma find_row_unique id rows r : NoDup (cw_id <$> rows) -> r ∈ rows -> cw_id r = id -> find_row id rows = Some r.
Proof.
  intros Hnd Hin <-. induction Hin as [r rows|r x rows Hin IH]; simpl in *.
  - by rewrite String.eqb_refl.
  - apply NoDup_cons in Hnd as [Hx Hnd]. destruct (String.eqb_spec (cw_id x) (cw_id r)) as [He|]; [|by apply IH].
    exfalso. apply Hx. rewrite He. by apply list_elem_of_fmap_2.
Qed.
Lemma update_row_ids id f rows : (forall r, cw_id (f r) = cw_id r) -> cw_id <$> update_row id f rows = cw_id <$> rows.
Proof.
  intros Hf. induction rows as [|r rows IH]; simpl; [done|].
  f_equal; [by destruct (String.eqb (cw_id r) id)|exact IH].
Qed.
Lemma roll_id now r : cw_id (rollUsageDay now r) = cw_id r.
Proof. unfold rollUsageDay. by case_bool_decide. Qed.
Lemma roll_ids now (rows : list CredentialRow) : cw_id <$> (rollUsageDay now <$> rows) = cw_id <$> rows.
Proof. rewrite <-list_fmap_compose. apply list_fmap_ext. intros i r _. apply roll_id. Qed.

(** ** Discovery *)
Lemma fo_seen seen rows : (forall r, r ∈ rows -> cw_id r ∈ seen) -> first_occurrences seen rows = [].
Proof. induction rows as [|r rows IH]; simpl; intros H; [done|]. rewrite bool_decide_eq_true_2 by set_solver. apply IH. set_solver. Qed.
Lemma fo_app seen a b : NoDup (cw_id <$> a) -> (forall r, r ∈ a -> cw_id r ∉ seen) ->
  (forall r, r ∈ b -> cw_id r ∈ seen \/ cw_id r ∈ cw_id <$> a) -> first_occurrences seen (a ++ b) = a.
Proof.
  revert seen. induction a as [|r a IH]; intros seen Hnd Ha Hb; simpl.
  - apply fo_seen. intros r Hr. destruct (Hb r Hr) as [|[]%not_elem_of_nil]; done.
  - apply NoDup_cons in Hnd as [Hr Hnd]. rewrite bool_decide_eq_false_2 by set_solver. f_equal. apply IH; [done| |].
    + intros x Hx [He|He]%elem_of_cons; [|set_solver]. apply Hr. rewrite <-He. by apply list_elem_of_fmap_2.
    + intros x Hx. destruct (Hb x Hx) as [|Hc]; [set_solver|]. simpl in Hc. set_solver.
Qed.

(** The later passes of the weight expansion add rows that the removal of
    duplicates drops again. *)
Lemma expand_dedup rows : NoDup (cw_id <$> rows) ->
  first_occurrences [] (expand rows) = List.filter (fun r => 0 <? cw_weight r) rows.
Proof.
  intros Hnd. unfold expand.
  assert (Hm : 1 <= max_weight rows) by (induction rows; simpl; [lia|apply NoDup_cons in Hnd as [_ Hnd]; specialize (IHrows Hnd); lia]).
  replace (Z.to_nat (max_weight rows)) with (S (Z.to_nat (max_weight rows) - 1)) by lia. cbn [seq fmap list_fmap concat].
  apply fo_app.
  - eapply sublist_NoDup; [exact Hnd|]. apply fmap_sublist, filter_sublist.
  - set_solver.
  - intros r Hr. right. apply list_elem_of_In, in_concat in Hr as (l & Hl & Hr).
    apply in_map_iff in Hl as (pass & <- & _). apply filter_In in Hr as [Hr Hw].
    apply list_elem_of_fmap_2, list_elem_of_In, filter_In. split; [done|].
    apply Z.ltb_lt in Hw. apply Z.ltb_lt. lia.
Qed.

(** A row whose stored capability can be read as the enclave wrote it. *)
Definition readable (r : CredentialRow) : bool :=
  match JSON_parse (cw_capability_json r) with
  | Some capability =>
      match js_get capability "allowedModels", js_get capability "allowedPolicyIds" with
      | Some (VArr _), Some (VArr _) => true
      | _, _ => false
      end
  | None => false
  end.

Definition reason_of (model policyId : string) (now : Z) (r : CredentialRow) : option ExclusionReason :=
  match exclusion model policyId now r with Ok e => e | Err _ => None end.
Definition routable (model policyId : string) (now : Z) (r : CredentialRow) : bool :=
  match exclusion model policyId now r with Ok None => 1 <=? cw_weight r | _ => false end.

Lemma readable_exclusion model policyId now r : readable r = true ->
  exclusion model policyId now r = Ok (reason_of model policyId now r).
Proof.
  unfold readable, reason_of, exclusion. intros H.
  destruct (negb _); [done|]. destruct (match cw_cooldown_until r with Some t => now <? t | None => false end); [done|].
  destruct (JSON_parse _) as [c|]; [|done].
  destruct (js_get c "allowedModels") as [[]|]; try done. destruct (js_get c "allowedPolicyIds") as [[]|]; try done.
  simpl. repeat (case_match; try done).
Qed.

Lemma classify_readable model policyId now rows : Forall (fun r => readable r = true) rows ->
  classify_rows model policyId now rows =
    Ok (omap (fun r => e ← reason_of model policyId now r; Some (cw_id r, cw_contributor_id r, e)) rows,
        List.filter (fun r => bool_decide (exclusion model policyId now r = Ok None)) rows).
Proof.
  induction 1 as [|r rows Hr _ IH]; simpl; [done|].
  rewrite IH, (readable_exclusion _ _ _ _ Hr). simpl.
  by destruct (reason_of model policyId now r).
Qed.

(** What an accepted row offers: everything the enclave's own checks on status,
    model and policy will ask of the candidate. *)
Lemma exclusion_none model policyId now r : exclusion model policyId now r = Ok None ->
  cw_status r = "ACTIVE" /\
  (forall t, cw_cooldown_until r = Some t -> t <= now) /\
  (js_get (cd_capability (candidate_of r)) "allowedModels" ≫= fun v => js_includes v model) = Some true /\
  (js_get (cd_capability (candidate_of r)) "allowedPolicyIds" ≫= fun v => js_includes v policyId) = Some true /\
  (forall n, cw_daily_request_limit r = Some n -> cw_requests_today r < n) /\
  (forall x, cw_daily_usd_limit r = Some x -> (cw_cost_today r < x)%Q).
Proof.
  unfold exclusion, candidate_of. cbn [cd_capability].
  destruct (String.eqb_spec (cw_status r) "ACTIVE") as [Hs|]; simpl; [|done].
  destruct (match cw_cooldown_until r with Some t => now <? t | None => false end) eqn:Hcool; [done|]. destruct (JSON_parse _) as [c|]; [|done]. simpl.
  destruct (js_get c "allowedModels" ≫= _) as [[]|]; try done.
  destruct (js_get c "allowedPolicyIds" ≫= _) as [[]|]; try done.
  destruct (match cw_daily_request_limit r with Some n => n <=? cw_requests_today r | None => false end) eqn:Hreq; [done|].
  destruct (match cw_daily_usd_limit r with Some x => Qle_bool x (cw_cost_today r) | None => false end) eqn:Husd; [done|]. intros _.
  split_and!; try done.
  - intros t Ht. rewrite Ht in Hcool. lia.
  - intros n Hn. rewrite Hn in Hreq. lia.
  - intros x Hx. rewrite Hx in Husd. apply Qnot_le_lt. intros Hle. apply Qle_bool_iff in Hle. congruence.
Qed.

Definition before (a b : CredentialRow) : Prop :=
  default 0 (cw_last_used_at a) < default 0 (cw_last_used_at b) \/
  (default 0 (cw_last_used_at a) = default 0 (cw_last_used_at b) /\ cw_weight b <= cw_weight a).

Section Discover.
Context (localeCompare : string -> string -> comparison)
  (lc_total : forall x y, cle localeCompare x y = true \/ cle localeCompare y x = true)
  (lc_trans : forall x y z, cle localeCompare x y = true -> cle localeCompare y z = true -> cle localeCompare x z = true).

Lemma cle_routing x y : cle (routingOrder localeCompare) x y = true <->
  default 0 (cw_last_used_at x) < default 0 (cw_last_used_at y) \/
  default 0 (cw_last_used_at x) = default 0 (cw_last_used_at y) /\
    (cw_weight y < cw_weight x \/ cw_weight y = cw_weight x /\ cle localeCompare (cw_id x) (cw_id y) = true).
Proof.
  clear lc_total lc_trans. unfold cle, routingOrder.
  destruct (Z.compare_spec (default 0 (cw_last_used_at x)) (default 0 (cw_last_used_at y))); [|naive_solver lia..].
  destruct (Z.compare_spec (cw_weight y) (cw_weight x)); naive_solver lia.
Qed.

Lemma routing_sorted rows : StronglySorted before (jsort (routingOrder localeCompare) rows).
Proof using lc_total lc_trans.
  assert (Hs : StronglySorted (fun a b => cle (routingOrder localeCompare) a b = true) (jsort (routingOrder localeCompare) rows)).
  { apply jsort_sorted.
    - intros x y. rewrite !cle_routing. pose proof (lc_total (cw_id x) (cw_id y)).
      generalize (default 0 (cw_last_used_at x)) (default 0 (cw_last_used_at y)). intros a b.
      destruct (Z.lt_trichotomy a b) as [|[|]], (Z.lt_trichotomy (cw_weight x) (cw_weight y)) as [|[|]]; intuition lia.
    - intros x y z. rewrite !cle_routing. pose proof (lc_trans (cw_id x) (cw_id y) (cw_id z)). intuition (lia || eauto with lia). }
  induction Hs as [|x l _ IH Hx]; constructor; [exact IH|]. eapply Forall_impl; [exact Hx|].
  intros y Hy%cle_routing. unfold before. lia.
Qed.

Lemma discover_run model policyId now l :
  NoDup (cw_id <$> lg_credentials l) -> Forall (fun r => readable r = true) (lg_credentials l) ->
  let rows := rollUsageDay now <$> lg_credentials l in
  discoverCandidates localeCompare model policyId now l =
    (with_credentials rows l,
     Ok {| dc_candidates := candidate_of <$> List.filter (fun r => 0 <? cw_weight r)
             (jsort (routingOrder localeCompare) (List.filter (fun r => bool_decide (exclusion model policyId now r = Ok None)) rows));
           dc_excluded := omap (fun r => e ← reason_of model policyId now r; Some (cw_id r, cw_contributor_id r, e)) rows |}).
Proof.
  clear lc_total lc_trans. intros Hnd Hrd rows. unfold discoverCandidates. fold rows. f_equal.
  rewrite classify_readable.
  - simpl. rewrite expand_dedup; [done|]. rewrite jsort_perm. eapply sublist_NoDup; [rewrite <-(roll_ids now) in Hnd; exact Hnd|].
    apply fmap_sublist. apply filter_sublist.
  - apply Forall_fmap. eapply Forall_impl; [exact Hrd|]. intros r. unfold rollUsageDay. simpl. by case_bool_decide.
Qed.
End Discover.

(** C30. Discovery is total on readable rows.  It returns, in least-recently-used
    order and at equal recency the heavier first, exactly the rows that pass every
    check and have a positive weight, each once: the weights drop the rows without a
    positive weight and break ties of recency, and the passes of the weight expansion
    add nothing - the result is the sorted rows that passed the checks, filtered by
    positive weight.  Each candidate offers what the enclave will ask for, is
    out of cooldown and under its daily limits; the excluded rows are listed in row
    order with the first check they failed. *)
Theorem discover_spec localeCompare
    (lc_total : forall x y, cle localeCompare x y = true \/ cle localeCompare y x = true)
    (lc_trans : forall x y z, cle localeCompare x y = true -> cle localeCompare y z = true -> cle localeCompare x z = true)
    model policyId now l :
  NoDup (cw_id <$> lg_credentials l) -> Forall (fun r => readable r = true) (lg_credentials l) ->
  let rows := rollUsageDay now <$> lg_credentials l in
  exists chosen,
    discoverCandidates localeCompare model policyId now l =
      (with_credentials rows l,
       Ok {| dc_candidates := candidate_of <$> chosen;
             dc_excluded := omap (fun r => e ← reason_of model policyId now r; Some (cw_id r, cw_contributor_id r, e)) rows |}) /\
    chosen = List.filter (fun r => 0 <? cw_weight r)
      (jsort (routingOrder localeCompare) (List.filter (fun r => bool_decide (exclusion model policyId now r = Ok None)) rows)) /\
    chosen ≡ₚ List.filter (routable model policyId now) rows /\
    StronglySorted before chosen /\
    NoDup (cw_id <$> chosen) /\
    Forall (fun r =>
      cw_status r = "ACTIVE" /\ (forall t, cw_cooldown_until r = Some t -> t <= now) /\
      (js_get (cd_capability (candidate_of r)) "allowedModels" ≫= fun v => js_includes v model) = Some true /\
      (js_get (cd_capability (candidate_of r)) "allowedPolicyIds" ≫= fun v => js_includes v policyId) = Some true /\
      (forall n, cw_daily_request_limit r = Some n -> cw_requests_today r < n) /\
      (forall x, cw_daily_usd_limit r = Some x -> (cw_cost_today r < x)%Q)) chosen.
Proof.
  intros Hnd Hrd rows. eexists. split; [by apply discover_run|]. fold rows.
  set (ok := fun r => bool_decide (exclusion model policyId now r = Ok None)).
  assert (Hp : List.filter (fun r => 0 <? cw_weight r) (jsort (routingOrder localeCompare) (List.filter ok rows))
            ≡ₚ List.filter (routable model policyId now) rows).
  { rewrite (Permutation_filterb _ _ _ (jsort_perm _ _)), filterb_filterb. apply reflexive_eq, filter_ext. intros r.
    unfold routable, ok. case_bool_decide as He; [rewrite He; simpl; lia|].
    destruct (exclusion _ _ _ _) as [[]|]; simpl; rewrite ?andb_false_r; done. }
  split_and!; [reflexivity|exact Hp| | |].
  - apply (StronglySorted_filterb _ _ _ (routing_sorted _ lc_total lc_trans _)).
  - rewrite (fmap_Permutation cw_id _ _ Hp). rewrite <-(roll_ids now) in Hnd.
    eapply sublist_NoDup; [exact Hnd|]. apply fmap_sublist, filter_sublist.
  - apply List.Forall_forall. intros r [Hr _]%filter_In. apply list_elem_of_In, elem_of_jsort, list_elem_of_In, filter_In in Hr as [_ Hr].
    apply (exclusion_none model policyId now). by apply bool_decide_eq_true in Hr.
Qed.

(** ** Histories

    Everything the coordinator ever does to these tables, in any order. *)
Inductive LedgerOp : Type :=
| OpContributor (id : string)
| OpRequest (id : string)
| OpContribute (r : CredentialRow)
| OpPatch (id : string) (b : PatchBody)
| OpDelete (id : string)
| OpDiscover (model policyId : string) (now : Z)
| OpAttempt (now : Z) (credentialId : string) (success : bool) (classification : option string)
| OpUsage (now : Z) (requestId credentialId contributorId : string) (i o : Z) (cost : Q)
| OpAssumed (now : Z) (requestId credentialId contributorId : string) (assumedSpendMicroUsd : Q).

Section Histories.
Context (localeCompare : string -> string -> comparison) (COOLDOWN_MS : Z).

Definition ledger_step (l : Ledger) (op : LedgerOp) : Ledger :=
  match op with
  | OpContributor id => {| lg_contributors := lg_contributors l ++ [id]; lg_requests := lg_requests l;
                           lg_credentials := lg_credentials l; lg_usage := lg_usage l |}
  | OpRequest id => {| lg_contributors := lg_contributors l; lg_requests := lg_requests l ++ [id];
                       lg_credentials := lg_credentials l; lg_usage := lg_usage l |}
  | OpContribute r => default l (insert_credential r l)
  | OpPatch id b => (patch_credential id b l).1
  | OpDelete id => delete_credential id l
  | OpDiscover model policyId now => (discoverCandidates localeCompare model policyId now l).1
  | OpAttempt now id success classification => (applyAttemptOutcome COOLDOWN_MS now id success classification l).1
  | OpUsage now rq cr co i o cost => (recordUsage now rq cr co i o cost l).1
  | OpAssumed now rq cr co spend => (recordAssumedUsage now rq cr co spend l).1
  end.
Definition ledger_run (l : Ledger) (ops : list LedgerOp) : Ledger := foldl ledger_step l ops.

(** What an operation does to the rows: each keeps its identity, and new ones only
    come at the end, under a new id. *)
Inductive rows_step (R : CredentialRow -> CredentialRow -> Prop) (rows rows' : list CredentialRow) : Prop :=
| rows_mapped : Forall2 R rows rows' -> rows_step R rows rows'
| rows_added r : find_row (cw_id r) rows = None -> rows' = rows ++ [r] -> rows_step R rows rows'.

(** [R]: an operation other than usage on one row. *)
Definition kept (r r' : CredentialRow) : Prop :=
  cw_id r' = cw_id r /\ cw_capability_json r' = cw_capability_json r /\ (cw_status r = "DELETED" -> cw_status r' = "DELETED").

Lemma kept_refl r : kept r r.
Proof. done. Qed.
Lemma update_kept id f rows : (forall r, cw_id r = id -> r ∈ rows -> kept r (f r)) -> Forall2 kept rows (update_row id f rows).
Proof.
  intros Hf. induction rows as [|r rows IH]; simpl; constructor; [|apply IH; set_solver].
  destruct (String.eqb_spec (cw_id r) id); [apply Hf; set_solver|apply kept_refl].
Qed.
Lemma map_kept f rows : (forall r, kept r (f r)) -> Forall2 kept rows (f <$> rows).
Proof. intros Hf. induction rows; simpl; constructor; done. Qed.
Lemma same_kept rows : Forall2 kept rows rows.
Proof. induction rows; constructor; [apply kept_refl|done]. Qed.

Lemma find_row_none id rows : find_row id rows = None -> id ∉ cw_id <$> rows.
Proof.
  intros Hf (r & -> & Hr)%list_elem_of_fmap. apply list_elem_of_In in Hr.
  pose proof (List.find_none _ _ Hf _ Hr) as He. simpl in He. by rewrite String.eqb_refl in He.
Qed.

Lemma patch_kept id b l : NoDup (cw_id <$> lg_credentials l) ->
  Forall2 kept (lg_credentials l) (lg_credentials (patch_credential id b l).1).
Proof.
  intros Hnd. unfold patch_credential. destruct (pt_allowedModels b); [apply same_kept|].
  destruct (find_row id (lg_credentials l)) as [row|] eqn:Hf; [|apply same_kept].
  destruct (pt_status b) as [s|]; [|by apply update_kept].
  destruct (_ && _); [apply same_kept|]. destruct (String.eqb_spec (cw_status row) "DELETED") as [|Hd]; [apply same_kept|].
  apply update_kept. intros r Hr Hin. rewrite (find_row_unique _ _ _ Hnd Hin Hr) in Hf. by injection Hf as ->.
Qed.

Lemma attempt_kept now id success classification l :
  Forall2 kept (lg_credentials l) (lg_credentials (applyAttemptOutcome COOLDOWN_MS now id success classification l).1).
Proof.
  unfold applyAttemptOutcome. destruct success; [by apply update_kept|].
  repeat destruct (match classification with Some s => _ | None => false end);
    apply update_kept; intros r _ _; unfold kept; simpl; split_and!; try done; intros ->; done.
Qed.

Lemma usage_insert_keeps u l l' : insert_usage u l = Some l' ->
  lg_credentials l' = lg_credentials l /\ lg_requests l' = lg_requests l /\ lg_usage l' = lg_usage l ++ [u] /\ us_id u ∉ us_id <$> lg_usage l /\ us_request_id u ∈ lg_requests l.
Proof.
  unfold insert_usage. destruct (existsb _ _) eqn:He; [done|]. case_bool_decide as Hr; [|done]. intros [= <-].
  split_and!; try done. intros (v & Hv & Hin)%list_elem_of_fmap. apply list_elem_of_In in Hin.
  apply not_true_iff_false in He. apply He, existsb_exists. exists v. split; [done|]. by apply String.eqb_eq.
Qed.

Lemma ledger_step_rows l op : NoDup (cw_id <$> lg_credentials l) ->
  Forall2 kept (lg_credentials l) (lg_credentials (ledger_step l op)) \/
  exists r, op = OpContribute r /\ find_row (cw_id r) (lg_credentials l) = None /\ lg_credentials (ledger_step l op) = lg_credentials l ++ [r].
Proof.
  intros Hnd. destruct op as [| |r|id b|id|m p now|now id ok cl|now rq cr co i o c|now rq cr co sp]; simpl.
  - left. apply same_kept.
  - left. apply same_kept.
  - unfold insert_credential. destruct (find_row _ _) eqn:Hf; [left; apply same_kept|].
    case_bool_decide; simpl; [right; by exists r|left; apply same_kept].
  - left. by apply patch_kept.
  - left. by apply update_kept.
  - left. apply map_kept. intros r. unfold rollUsageDay. by case_bool_decide.
  - left. apply attempt_kept.
  - left. unfold recordUsage. destruct (insert_usage _ l) as [l'|] eqn:Hi; [|apply same_kept].
    apply usage_insert_keeps in Hi as (Hc & _). simpl. rewrite Hc. by apply update_kept.
  - left. unfold recordAssumedUsage. destruct (insert_usage _ _) as [l'|] eqn:Hi; [|apply same_kept].
    apply usage_insert_keeps in Hi as (Hc & _). simpl. rewrite Hc. by apply update_kept.
Qed.

Lemma kept_find id rows rows' r : Forall2 kept rows rows' -> find_row id rows = Some r ->
  exists r', find_row id rows' = Some r' /\ kept r r'.
Proof.
  induction 1 as [|x y rows rows' Hxy _ IH]; simpl; [done|]. destruct Hxy as (Hid & Hk). rewrite Hid.
  destruct (String.eqb (cw_id x) id); [|exact IH]. intros [= <-]. by exists y.
Qed.
Lemma kept_ids rows rows' : Forall2 kept rows rows' -> cw_id <$> rows' = cw_id <$> rows.
Proof. induction 1 as [|x y rows rows' (Hid & _) _ IH]; simpl; [done|]. f_equal; [exact Hid|exact IH]. Qed.

Lemma ledger_step_ids l op : NoDup (cw_id <$> lg_credentials l) -> NoDup (cw_id <$> lg_credentials (ledger_step l op)).
Proof.
  intros Hnd. destruct (ledger_step_rows l op Hnd) as [Hk|(r & _ & Hf & ->)]; [by rewrite (kept_ids _ _ Hk)|].
  rewrite fmap_app. apply NoDup_app. split_and!; [done| |apply NoDup_singleton].
  intros x Hx ->%list_elem_of_singleton. by apply (find_row_none _ _ Hf).
Qed.

Lemma ledger_step_find l op id r : NoDup (cw_id <$> lg_credentials l) -> find_row id (lg_credentials l) = Some r ->
  exists r', find_row id (lg_credentials (ledger_step l op)) = Some r' /\ kept r r'.
Proof.
  intros Hnd Hf. destruct (ledger_step_rows l op Hnd) as [Hk|(x & _ & _ & ->)]; [by eapply kept_find|].
  exists r. rewrite find_row_app, Hf. done.
Qed.

(** The primary key of [usage] is derived from the request. *)
Definition usage_key (requestId : string) : string := "use_" +:+ requestId.
Lemma ledger_step_usage l op :
  (lg_usage (ledger_step l op) = lg_usage l /\ lg_requests l ⊆ lg_requests (ledger_step l op)) \/
  exists u, lg_usage (ledger_step l op) = lg_usage l ++ [u] /\ lg_requests (ledger_step l op) = lg_requests l /\
    us_id u ∉ us_id <$> lg_usage l /\ us_request_id u ∈ lg_requests l /\ us_id u = usage_key (us_request_id u).
Proof.
  destruct op as [| |r|id b|id|m p now|now id ok cl|now rq cr co i o c|now rq cr co sp]; simpl; try (left; split; [done|set_solver]).
  - left. unfold insert_credential. repeat case_match; done.
  - left. unfold patch_credential. repeat case_match; done.
  - left. unfold applyAttemptOutcome. repeat case_match; done.
  - unfold recordUsage. destruct (insert_usage _ l) as [l'|] eqn:Hi; [right|by left].
    apply usage_insert_keeps in Hi as (_ & Hr & Hu & Hn & Hq). eexists. simpl. by rewrite Hr, Hu.
  - unfold recordAssumedUsage. destruct (insert_usage _ _) as [l'|] eqn:Hi; [right|by left].
    apply usage_insert_keeps in Hi as (_ & Hr & Hu & Hn & Hq). eexists. simpl. by rewrite Hr, Hu.
Qed.

(** Candidates come from rows that pass every check. *)
Lemma classify_eligible model policyId now rows ex el : classify_rows model policyId now rows = Ok (ex, el) ->
  forall r, r ∈ el -> r ∈ rows /\ exclusion model policyId now r = Ok None.
Proof.
  revert ex el. induction rows as [|x rows IH]; simpl; intros ex el Hc r Hr.
  - injection Hc as <- <-. set_solver.
  - apply res_bind_Ok in Hc as (e & He & Hc). apply res_bind_Ok in Hc as ([ex' el'] & Hc & Heq).
    destruct e as [e|]; injection Heq as <- <-.
    + destruct (IH _ _ Hc r Hr). set_solver.
    + apply elem_of_cons in Hr as [->|Hr]; [set_solver|]. destruct (IH _ _ Hc r Hr). set_solver.
Qed.
Lemma fo_subset seen rows r : r ∈ first_occurrences seen rows -> r ∈ rows.
Proof. revert seen. induction rows as [|x rows IH]; simpl; intros seen; [done|]. case_bool_decide; set_solver. Qed.
Lemma expand_subset rows r : r ∈ expand rows -> r ∈ rows.
Proof.
  unfold expand. intros (l & Hl & Hr)%list_elem_of_In%in_concat. apply in_map_iff in Hl as (pass & <- & _).
  apply filter_In in Hr as [Hr _]. by apply list_elem_of_In.
Qed.
Lemma candidates_from_rows model policyId now l l' res id :
  discoverCandidates localeCompare model policyId now l = (l', Ok res) -> id ∈ cd_credentialId <$> dc_candidates res ->
  exists r, r ∈ lg_credentials l' /\ cw_id r = id /\ exclusion model policyId now r = Ok None.
Proof.
  unfold discoverCandidates. intros [= <- Hres] Hid. apply res_bind_Ok in Hres as ([ex el] & Hc & [= <-]). simpl in Hid.
  apply list_elem_of_fmap in Hid as (c & -> & Hin). apply list_elem_of_fmap in Hin as (r & -> & Hin).
  apply fo_subset, expand_subset, elem_of_jsort in Hin. destruct (classify_eligible _ _ _ _ _ _ Hc r Hin). exists r. done.
Qed.
End Histories.

(** ** Revocation *)
Definition revoked (id : string) (l : Ledger) : Prop :=
  exists r, find_row id (lg_credentials l) = Some r /\ cw_status r = "DELETED".

Lemma ledger_run_revoked lc CD id l ops : NoDup (cw_id <$> lg_credentials l) -> revoked id l ->
  NoDup (cw_id <$> lg_credentials (ledger_run lc CD l ops)) /\ revoked id (ledger_run lc CD l ops).
Proof.
  unfold ledger_run. revert l. induction ops as [|op ops IH]; intros l Hnd (r & Hf & Hs); simpl; [by split; [|exists r]|].
  apply IH; [by apply ledger_step_ids|]. destruct (ledger_step_find lc CD l op id r Hnd Hf) as (r' & Hf' & _ & _ & Hk).
  exists r'. split; [done|]. by apply Hk.
Qed.

(** C12. Revocation is terminal.  Once a credential is deleted, no sequence of
    operations, a failure report of a dispatch still in flight included, lets
    discovery offer it again or changes its status, and every [PATCH] of its status is
    refused. *)
Theorem revoked_never_routed localeCompare COOLDOWN_MS l id ops :
  NoDup (cw_id <$> lg_credentials l) -> is_Some (find_row id (lg_credentials l)) ->
  let l' := ledger_run localeCompare COOLDOWN_MS (delete_credential id l) ops in
  revoked id l' /\
  (forall b s, pt_status b = Some s -> exists code error, patch_credential id b l' = (l', PatchRefused code error)) /\
  forall model policyId now, match discoverCandidates localeCompare model policyId now l' with
                             | (_, Ok res) => id ∉ cd_credentialId <$> dc_candidates res
                             | (_, Err _) => True
                             end.
Proof.
  intros Hnd [r0 Hf] l'.
  assert (H0 : NoDup (cw_id <$> lg_credentials (delete_credential id l)) /\ revoked id (delete_credential id l)).
  { split; [by simpl; rewrite update_row_ids|]. eexists. simpl. rewrite find_row_update, String.eqb_refl, Hf by done. by split. }
  destruct (ledger_run_revoked localeCompare COOLDOWN_MS id _ ops (proj1 H0) (proj2 H0)) as [Hnd' (r & Hr & Hs)]. fold l' in Hnd', Hr.
  split; [by exists r|]. split.
  - intros b s Hb. unfold patch_credential. rewrite Hb, Hr, Hs. destruct (pt_allowedModels b); [by eauto|].
    destruct (_ && _); simpl; by eauto.
  - intros model policyId now. destruct (discoverCandidates _ _ _ _ _) as [l2 [res|]] eqn:Hd; [|done]. intros Hin.
    destruct (candidates_from_rows _ _ _ _ _ _ _ _ Hd Hin) as (x & Hx & Hid & He).
    injection Hd as <- _. simpl in Hx. apply list_elem_of_fmap in Hx as (y & -> & Hy). rewrite roll_id in Hid.
    rewrite (find_row_unique _ _ _ Hnd' Hy Hid) in Hr. injection Hr as ->.
    apply exclusion_none in He as (He & _). unfold rollUsageDay in He. by case_bool_decide; simpl in He; rewrite Hs in He.
Qed.

(** ** Usage *)
Definition used_on (id : string) (day : Z) (l : Ledger) : nat :=
  length (List.filter (fun u => String.eqb (us_credential_id u) id && (day_of (us_created_at u) =? day)) (lg_usage l)).

Definition op_time (op : LedgerOp) : option Z :=
  match op with
  | OpDiscover _ _ now | OpAttempt now _ _ _ | OpUsage now _ _ _ _ _ _ | OpAssumed now _ _ _ _ => Some now
  | _ => None
  end.

(** The counter of a row never undercounts the usage booked on its day. *)
Definition counted (id : string) (t : Z) (l : Ledger) : Prop :=
  exists r d, find_row id (lg_credentials l) = Some r /\ cw_usage_day r = Some d /\ d <= day_of t /\
    Z.of_nat (used_on id d l) <= cw_requests_today r /\
    Forall (fun u => us_credential_id u = id -> day_of (us_created_at u) <= d) (lg_usage l).

Lemma day_of_mono a b : a <= b -> day_of a <= day_of b.
Proof. intros. unfold day_of. apply Z.div_le_mono; lia. Qed.

Lemma used_on_app id d l u : used_on id d (with_usage (lg_usage l ++ [u]) l) =
  (used_on id d l + if String.eqb (us_credential_id u) id && (day_of (us_created_at u) =? d)%Z then 1 else 0)%nat.
Proof. unfold used_on. simpl. rewrite List.filter_app, length_app. simpl. by destruct (_ && _). Qed.

Lemma used_on_none id d l : Forall (fun u => us_credential_id u = id -> day_of (us_created_at u) < d) (lg_usage l) -> used_on id d l = 0%nat.
Proof.
  unfold used_on. induction 1 as [|u us Hu _ IH]; simpl; [done|].
  destruct (String.eqb_spec (us_credential_id u) id); simpl; [|exact IH].
  destruct (Z.eqb_spec (day_of (us_created_at u)) d); [specialize (Hu e); lia|exact IH].
Qed.

Section Counting.
Context (localeCompare : string -> string -> comparison) (COOLDOWN_MS : Z) (id : string).

Lemma counted_same t t' l l' : counted id t l -> t <= t' -> lg_usage l' = lg_usage l ->
  (forall r, find_row id (lg_credentials l) = Some r -> exists r', find_row id (lg_credentials l') = Some r' /\
     cw_usage_day r' = cw_usage_day r /\ cw_requests_today r' = cw_requests_today r) ->
  counted id t' l'.
Proof.
  intros (r & d & Hf & Hd & Ht & Hu & Hall) Htt Hus Hrow. destruct (Hrow r Hf) as (r' & Hf' & Hd' & Hr').
  pose proof (day_of_mono t t' Htt). exists r', d. rewrite Hd', Hr', Hus. unfold used_on in *. rewrite Hus. split_and!; done || lia.
Qed.

Lemma counted_update t l i f : counted id t l -> (forall r, cw_id (f r) = cw_id r) ->
  (forall r, cw_usage_day (f r) = cw_usage_day r /\ cw_requests_today (f r) = cw_requests_today r) ->
  counted id t (with_credentials (update_row i f (lg_credentials l)) l).
Proof.
  intros Hc Hid Hf. apply (counted_same t t l); [done|lia|done|]. intros r Hr. simpl. rewrite find_row_update, Hr by done. simpl.
  eexists. split; [done|]. destruct (String.eqb id i); [apply Hf|done].
Qed.

Lemma counted_patch t l i b : counted id t l -> counted id t (patch_credential i b l).1.
Proof.
  intros Hc. unfold patch_credential. destruct (pt_allowedModels b); [done|]. destruct (find_row i _); [|done].
  destruct (pt_status b); [destruct (_ && _); [done|]; destruct (String.eqb _ _); [done|]|]; by apply counted_update.
Qed.

Lemma counted_attempt t now l i s c : counted id t l -> t <= now -> counted id now (applyAttemptOutcome COOLDOWN_MS now i s c l).1.
Proof.
  intros Hc Ht. assert (Hc' : counted id now l).
  { apply (counted_same t now l); [done..|]. intros r Hr. by exists r. }
  unfold applyAttemptOutcome. destruct s; [by apply counted_update|]. repeat case_match; by apply counted_update.
Qed.

Lemma counted_roll t now l : counted id t l -> t <= now ->
  counted id now (with_credentials (rollUsageDay now <$> lg_credentials l) l).
Proof.
  intros (r & d & Hf & Hd & Ht & Hu & Hall) Htn. pose proof (day_of_mono t now Htn).
  assert (Hr : find_row id (rollUsageDay now <$> lg_credentials l) = Some (rollUsageDay now r)).
  { rewrite find_row_map, Hf by (intros; apply roll_id). done. }
  destruct (decide (d = day_of now)) as [->|Hne].
  - exists (rollUsageDay now r), (day_of now). split; [exact Hr|]. unfold rollUsageDay. rewrite Hd, bool_decide_eq_true_2 by done.
    split_and!; done || lia.
  - exists (rollUsageDay now r), (day_of now). split; [exact Hr|]. unfold rollUsageDay. rewrite Hd, bool_decide_eq_false_2 by congruence.
    simpl. split_and!; try done || lia.
    + rewrite used_on_none; [lia|]. eapply Forall_impl; [exact Hall|]. simpl. intros u Hu' He. specialize (Hu' He). lia.
    + eapply Forall_impl; [exact Hall|]. simpl. intros u Hu' He. specialize (Hu' He). lia.
Qed.

(** A booked usage on top of a bumped counter. *)
Lemma counted_booked t now l i cost u : counted id t l -> t <= now -> us_credential_id u = i -> us_created_at u = now ->
  counted id now (with_usage (lg_usage l ++ [u]) (bump now i cost l)).
Proof.
  intros (r & d & Hf & Hd & Ht & Hu & Hall) Htn Hi Hnow. pose proof (day_of_mono t now Htn).
  assert (Hused : forall day, used_on id day (with_usage (lg_usage l ++ [u]) (bump now i cost l)) =
    (used_on id day l + if String.eqb i id && (day_of now =? day)%Z then 1 else 0)%nat).
  { intros day. rewrite <-Hi, <-Hnow. exact (used_on_app id day l u). }
  unfold counted. setoid_rewrite Hused. simpl. rewrite find_row_update, Hf, (String.eqb_sym id i) by done. simpl.
  destruct (String.eqb_spec i id) as [->|Hne]; simpl.
  - eexists _, (day_of now). split; [done|]. simpl. rewrite Z.eqb_refl. split_and!; [done|lia| |].
    + destruct (decide (d = day_of now)) as [->|Hn]; [lia|].
      rewrite used_on_none; [lia|]. eapply Forall_impl; [exact Hall|]. simpl. intros v Hv He. specialize (Hv He). lia.
    + apply Forall_app. split; [|by constructor; [rewrite Hnow|]].
      eapply Forall_impl; [exact Hall|]. simpl. intros v Hv He. specialize (Hv He). lia.
  - exists r, d. split_and!; try done || lia. apply Forall_app. split; [done|]. constructor; [|done]. intros He. congruence.
Qed.

Lemma counted_step t l op : counted id t l -> t <= default t (op_time op) ->
  counted id (default t (op_time op)) (ledger_step localeCompare COOLDOWN_MS l op).
Proof.
  intros Hc Ht. destruct op as [| |r|i b|i|m p now|now i ok cl|now rq cr co i o c|now rq cr co sp]; cbn [ledger_step op_time default] in *.
  - apply (counted_same t t l); [done..|]. intros r Hr. by exists r.
  - apply (counted_same t t l); [done..|]. intros r Hr. by exists r.
  - apply (counted_same t t l); [done|lia|unfold insert_credential; by repeat case_match|].
    intros x Hx. exists x. unfold insert_credential. destruct (find_row (cw_id r) _); [done|].
    case_bool_decide; simpl; [|done]. by rewrite find_row_app, Hx.
  - by apply counted_patch.
  - by apply counted_update.
  - by apply (counted_roll t).
  - by apply (counted_attempt t).
  - unfold recordUsage. destruct (insert_usage _ l) as [l'|] eqn:Hi; [|].
    + unfold insert_usage in Hi. destruct (_ || _); [done|]. injection Hi as <-. by apply (counted_booked t now l cr).
    + apply (counted_same t now l); [done..|]. intros r Hr. by exists r.
  - unfold recordAssumedUsage. destruct (insert_usage _ _) as [l'|] eqn:Hi; [|].
    + unfold insert_usage in Hi. destruct (_ || _); [done|]. injection Hi as <-. by apply (counted_booked t now l cr).
    + apply (counted_same t now l); [done..|]. intros r Hr. by exists r.
Qed.
End Counting.

(** The clock of a history never goes back. *)
Fixpoint timed (t : Z) (ops : list LedgerOp) : Prop :=
  match ops with
  | [] => True
  | op :: ops => t <= default t (op_time op) /\ timed (default t (op_time op)) ops
  end.
Definition clock (t : Z) (ops : list LedgerOp) : Z := foldl (fun t op => default t (op_time op)) t ops.

Lemma ledger_run_counted lc CD id t l ops : timed t ops -> counted id t l -> counted id (clock t ops) (ledger_run lc CD l ops).
Proof.
  revert t l. induction ops as [|op ops IH]; simpl; intros t l; [done|]. intros [Ht Htd] Hc.
  apply IH; [done|]. by apply counted_step.
Qed.
Lemma ledger_run_ids lc CD l ops : NoDup (cw_id <$> lg_credentials l) -> NoDup (cw_id <$> lg_credentials (ledger_run lc CD l ops)).
Proof. revert l. induction ops as [|op ops IH]; simpl; intros l Hnd; [done|]. apply IH. by apply ledger_step_ids. Qed.

(** C13. The daily request limit.  Take a credential from its contribution on, over
    any history whose clock does not go back: when discovery offers it, fewer
    requests were booked on it that day than its limit allows, whatever the limit was
    patched to, however days changed in between and whether the outcomes were known
    or assumed. *)
Theorem daily_cap_enforced localeCompare COOLDOWN_MS r l0 l t0 ops model policyId now l' res :
  NoDup (cw_id <$> lg_credentials l0) ->
  insert_credential r l0 = Some l ->
  cw_usage_day r = Some (day_of t0) -> 0 <= cw_requests_today r ->
  Forall (fun u => us_credential_id u <> cw_id r) (lg_usage l0) ->
  timed t0 ops -> clock t0 ops <= now ->
  discoverCandidates localeCompare model policyId now (ledger_run localeCompare COOLDOWN_MS l ops) = (l', Ok res) ->
  cw_id r ∈ cd_credentialId <$> dc_candidates res ->
  exists row, find_row (cw_id r) (lg_credentials l') = Some row /\
    forall n, cw_daily_request_limit row = Some n -> Z.of_nat (used_on (cw_id r) (day_of now) l') < n.
Proof.
  intros Hnd Hi Hday Hreq Hus Htd Hclk Hd Hin.
  assert (Hl : find_row (cw_id r) (lg_credentials l) = Some r /\ NoDup (cw_id <$> lg_credentials l) /\ lg_usage l = lg_usage l0).
  { pose proof (ledger_step_ids localeCompare COOLDOWN_MS l0 (OpContribute r) Hnd) as Hnd'. simpl in Hnd'. rewrite Hi in Hnd'.
    unfold insert_credential in Hi. destruct (find_row (cw_id r) (lg_credentials l0)) eqn:Hf; [done|].
    case_bool_decide; [|done]. injection Hi as <-. simpl in *. rewrite find_row_app, Hf, String.eqb_refl. done. }
  destruct Hl as (Hf & Hnd' & Hu).
  assert (Hc : counted (cw_id r) (clock t0 ops) (ledger_run localeCompare COOLDOWN_MS l ops)).
  { apply ledger_run_counted; [done|]. exists r, (day_of t0). rewrite Hu, used_on_none; [split_and!; try done; try lia|].
    - eapply Forall_impl; [exact Hus|]. simpl. intros u Hne He. done.
    - rewrite Hu. eapply Forall_impl; [exact Hus|]. simpl. intros u Hne He. done. }
  apply (counted_roll _ _ now) in Hc; [|done].
  destruct (candidates_from_rows _ _ _ _ _ _ _ _ Hd Hin) as (x & Hx & Hid & He).
  pose proof (ledger_run_ids localeCompare COOLDOWN_MS l ops Hnd') as Hnd2.
  injection Hd as <- _. destruct Hc as (row & d & Hrow & Hrd & Hle & Hcnt & _). exists row. split; [exact Hrow|].
  intros n Hn. simpl in Hx. rewrite <-(roll_ids now) in Hnd2. simpl in Hrow.
  rewrite (find_row_unique _ _ _ Hnd2 Hx Hid) in Hrow. injection Hrow as ->.
  apply exclusion_none in He as (_ & _ & _ & _ & Hlim & _). specialize (Hlim n Hn).
  assert (Hdn : d = day_of now).
  { apply list_elem_of_fmap in Hx as (y & -> & _). unfold rollUsageDay in Hrd. case_bool_decide as Hb; simpl in Hrd; congruence. }
  subst d. lia.
Qed.

(** *** The usage table

    Rows belong to known requests, under the key of their request, one per request. *)
Record ledgered (l : Ledger) : Prop := {
  ld_keys : Forall (fun u => us_id u = usage_key (us_request_id u)) (lg_usage l);
  ld_known : Forall (fun u => us_request_id u ∈ lg_requests l) (lg_usage l);
  ld_once : NoDup (us_request_id <$> lg_usage l);
}.
(** By the keys, a booking is refused for the request and not for anything else. *)
Lemma keyed_booked l requestId : ledgered l ->
  usage_key requestId ∈ us_id <$> lg_usage l <-> requestId ∈ us_request_id <$> lg_usage l.
Proof.
  intros [Hk _ _]. rewrite List.Forall_forall in Hk. split; intros (u & Hu & Hin)%list_elem_of_fmap; apply list_elem_of_fmap; exists u; (split; [|done]);
    apply list_elem_of_In, Hk in Hin.
  - rewrite Hin in Hu. unfold usage_key in Hu. by injection Hu.
  - by rewrite Hin, Hu.
Qed.
Lemma ledger_run_ledgered localeCompare COOLDOWN_MS l ops : ledgered l -> ledgered (ledger_run localeCompare COOLDOWN_MS l ops).
Proof.
  unfold ledger_run. revert l. induction ops as [|op ops IH]; intros l Hl; [done|]. simpl. apply IH.
  destruct (ledger_step_usage localeCompare COOLDOWN_MS l op) as [(Hu & Hr)|(u & Hu & Hr & Hn & Hq & Hid)]; destruct (Hl) as [Hk Hfk Hnd]; split; rewrite Hu, ?Hr.
  - done.
  - eapply Forall_impl; [exact Hfk|]. set_solver.
  - done.
  - apply Forall_app. split; [done|]. by constructor.
  - apply Forall_app. split; [done|]. by constructor.
  - rewrite fmap_app. apply NoDup_app. split_and!; [done| |apply NoDup_singleton].
    intros x Hx ->%list_elem_of_singleton. apply Hn. rewrite Hid. by apply keyed_booked.
Qed.

(** A booking of [u] on [l]: refused for a request already booked or unknown, with
    nothing written; or whole, the row and one slot with its cost on the counters of
    its credential. *)
Definition booking_of (u : UsageRow) (l : Ledger) (result : Ledger * res unit unit) : Prop :=
  let k := us_request_id u in
  let refused := k ∈ us_request_id <$> lg_usage l \/ k ∉ lg_requests l in
  match result with
  | (l', Err _) => l' = l /\ refused
  | (l', Ok _) => ~ refused /\ lg_usage l' = lg_usage l ++ [u] /\
      (forall id, find_row id (lg_credentials l') =
         (if String.eqb id (us_credential_id u)
          then fun r => set_counters (cw_requests_today r + 1) (js_add (cw_cost_today r) (us_estimated_cost_usd u)) (day_of (us_created_at u)) r
          else Datatypes.id)
         <$> find_row id (lg_credentials l))
  end.
Lemma insert_usage_spec l u : ledgered l -> us_id u = usage_key (us_request_id u) ->
  let refused := us_request_id u ∈ us_request_id <$> lg_usage l \/ us_request_id u ∉ lg_requests l in
  match insert_usage u l with Some l' => ~ refused /\ l' = with_usage (lg_usage l ++ [u]) l | None => refused end.
Proof.
  intros Hl Hu refused. pose proof (keyed_booked l (us_request_id u) Hl) as Hk. rewrite <-Hu in Hk. unfold insert_usage, refused.
  assert (He : existsb (fun v => String.eqb (us_id v) (us_id u)) (lg_usage l) = true <-> us_id u ∈ us_id <$> lg_usage l).
  { rewrite existsb_exists, list_elem_of_fmap. split; intros (v & H1 & H2); exists v.
    - apply String.eqb_eq in H2. apply list_elem_of_In in H1. by split.
    - apply list_elem_of_In in H2. by rewrite <-H1, String.eqb_refl. }
  rewrite Hk in He. destruct (existsb _ _); simpl; [left; by apply He|]. case_bool_decide as Hq; simpl; [|by right]. split; [|done]. intros [Hx%He|]; done.
Qed.

(** C31. Booking.  In every history a request is booked at most once, whatever the
    credential, and only when it has a row.  A known or an assumed booking either
    happens whole - one row with what was reported, or no tokens and the assumed cost;
    one slot and that cost on the credential's counters; no other credential touched -
    or fails leaving both tables as they were, and it fails exactly for a request
    already booked or unknown. *)
Theorem usage_booked_once localeCompare COOLDOWN_MS l0 ops :
  ledgered l0 ->
  let l := ledger_run localeCompare COOLDOWN_MS l0 ops in
  NoDup (us_request_id <$> lg_usage l) /\
  Forall (fun u => us_request_id u ∈ lg_requests l) (lg_usage l) /\
  forall now requestId credentialId contributorId,
    (forall spend, booking_of (usage_row now requestId credentialId contributorId 0 0 (js_div spend 1000000)) l
       (recordAssumedUsage now requestId credentialId contributorId spend l)) /\
    (forall i o cost, booking_of (usage_row now requestId credentialId contributorId i o cost) l
       (recordUsage now requestId credentialId contributorId i o cost l)).
Proof.
  intros Hl0 l. pose proof (ledger_run_ledgered localeCompare COOLDOWN_MS l0 ops Hl0) as Hl. fold l in Hl. split_and!; [apply Hl|apply Hl|].
  intros now requestId credentialId contributorId. split.
  - intros spend. unfold recordAssumedUsage, booking_of. set (u := usage_row _ _ _ _ _ _ _).
    assert (Hb : ledgered (bump now credentialId (js_div spend 1000000) l)) by (by destruct Hl).
    pose proof (insert_usage_spec _ u Hb eq_refl) as Hs. destruct (insert_usage u _) as [l'|]; [|by split].
    destruct Hs as [Hs ->]. split; [exact Hs|]. split; [done|]. intros id. simpl. by rewrite find_row_update.
  - intros i o cost. unfold recordUsage, booking_of. set (u := usage_row _ _ _ _ _ _ _).
    pose proof (insert_usage_spec l u Hl eq_refl) as Hs. destruct (insert_usage u _) as [l'|]; [|by split].
    destruct Hs as [Hs ->]. split; [exact Hs|]. split; [done|]. intros id. simpl. by rewrite find_row_update.
Qed.

(** ** Examples *)
Definition ex_capability_json : string :=
  str_app ["{"; quote "allowedModels"; ":["; quote "m"; "],"; quote "allowedPolicyIds"; ":["; quote "p"; "]}"].
Definition ex_row (id : string) (weight : Z) (used : option Z) : CredentialRow := {|
  cw_id := id; cw_contributor_id := "contrib_1"; cw_provider := "mock"; cw_label := ""; cw_encrypted_blob := "00";
  cw_capability_json := ex_capability_json; cw_capability_signature := ""; cw_key_fingerprint := ""; cw_status := "ACTIVE";
  cw_weight := weight; cw_last_used_at := used; cw_requests_today := 0; cw_cost_today := 0; cw_usage_day := Some 0;
  cw_failure_count := 0; cw_cooldown_until := None; cw_daily_usd_limit := None; cw_daily_request_limit := Some 2 |}.
Definition ex_ledger : Ledger := {|
  lg_contributors := ["contrib_1"]; lg_requests := ["r1"; "r2"];
  lg_credentials := [ex_row "cred_a" 1 None; ex_row "cred_b" 3 None; ex_row "cred_c" 1 (Some (-5)); ex_row "cred_d" 0 None]; lg_usage := [] |}.

Definition offered (l : Ledger) (now : Z) : option (list string) :=
  match (discoverCandidates js_compare "m" "p" now l).2 with
  | Ok res => Some (cd_credentialId <$> dc_candidates res)
  | Err _ => None
  end.

Example ex_offered : offered ex_ledger 1000 = Some ["cred_c"; "cred_b"; "cred_a"].
Proof. vm_compute. reflexivity. Qed.

Lemma discover_spec_witness :
  exists chosen, (discoverCandidates js_compare "m" "p" 1000 ex_ledger).2 =
    Ok {| dc_candidates := candidate_of <$> chosen; dc_excluded := [] |} /\ cw_id <$> chosen = ["cred_c"; "cred_b"; "cred_a"].
Proof.
  destruct (discover_spec js_compare jle_total jle_trans "m" "p" 1000 ex_ledger) as (chosen & Hd & _).
  - vm_compute. repeat (constructor; [set_solver|]). constructor.
  - repeat constructor.
  - exists chosen. split; [by rewrite Hd|].
    assert (Ho : offered ex_ledger 1000 = Some ["cred_c"; "cred_b"; "cred_a"]) by (vm_compute; reflexivity).
    unfold offered in Ho. rewrite Hd in Ho. cbn [snd dc_candidates] in Ho. injection Ho as Ho.
    rewrite <-Ho, <-list_fmap_compose. done.
Defined.

(** The rejection that arrives after the revocation, and the attempt to reactivate. *)
Definition ex_late : list LedgerOp :=
  [OpAttempt 1000 "cred_c" false (Some "auth_failed"); OpPatch "cred_c" {| pt_status := Some "ACTIVE"; pt_weight := None; pt_limits := None; pt_allowedModels := false |}].
Lemma revoked_never_routed_witness :
  revoked "cred_c" (ledger_run js_compare 60000 (delete_credential "cred_c" ex_ledger) ex_late) /\
  offered (ledger_run js_compare 60000 (delete_credential "cred_c" ex_ledger) ex_late) 2000 = Some ["cred_b"; "cred_a"].
Proof.
  split; [|vm_compute; reflexivity].
  refine (proj1 (revoked_never_routed js_compare 60000 ex_ledger "cred_c" ex_late _ _)).
  - vm_compute. repeat (constructor; [set_solver|]). constructor.
  - by eexists.
Defined.

(** One booking on the first day, two around midnight. *)
Definition ex_usage_ops : list LedgerOp :=
  [OpUsage 1000 "r1" "cred_e" "contrib_1" 10 5 (1 # 100); OpAssumed 90000000 "r2" "cred_e" "contrib_1" 5000].
Definition ex_first_day : list LedgerOp := [OpUsage 1000 "r1" "cred_e" "contrib_1" 10 5 (1 # 100)].
Definition ex_joined : Ledger := default ex_ledger (insert_credential (ex_row "cred_e" 1 None) ex_ledger).
Definition ex_result : Ledger * res unit DiscoveryResult :=
  discoverCandidates js_compare "m" "p" 2000 (ledger_run js_compare 60000 ex_joined ex_first_day).
Lemma daily_cap_enforced_witness :
  used_on "cred_e" (day_of 2000) ex_result.1 = 1%nat /\
  exists row, find_row "cred_e" (lg_credentials ex_result.1) = Some row /\
    forall n, cw_daily_request_limit row = Some n -> Z.of_nat (used_on "cred_e" (day_of 2000) ex_result.1) < n.
Proof.
  split; [vm_compute; reflexivity|].
  apply (daily_cap_enforced js_compare 60000 (ex_row "cred_e" 1 None) ex_ledger ex_joined 1 ex_first_day "m" "p" 2000 ex_result.1
           (default {| dc_candidates := []; dc_excluded := [] |} (to_option ex_result.2))).
  - vm_compute. repeat (constructor; [set_solver|]). constructor.
  - reflexivity.
  - reflexivity.
  - by vm_compute.
  - constructor.
  - by split; vm_compute.
  - by vm_compute.
  - vm_compute. reflexivity.
  - vm_compute. set_solver.
Defined.

Lemma usage_booked_once_witness :
  us_request_id <$> lg_usage (ledger_run js_compare 60000 ex_ledger ex_usage_ops) = ["r1"; "r2"] /\
  NoDup (us_request_id <$> lg_usage (ledger_run js_compare 60000 ex_ledger ex_usage_ops)) /\
  (recordUsage 90000002 "r2" "cred_a" "contrib_1" 10 5 1 (ledger_run js_compare 60000 ex_ledger ex_usage_ops)).2 = Err tt.
Proof.
  split; [vm_compute; reflexivity|]. split; [|vm_compute; reflexivity].
  refine (proj1 (usage_booked_once js_compare 60000 ex_ledger ex_usage_ops _)). split; constructor.
Defined.

(** The daily counter is stamped with the new day but not restarted, so after
    midnight the first booking still counts the day before, and a credential under
    its limit is excluded. *)
Definition ex_midnight : Ledger :=
  ledger_run js_compare 60000 {| lg_contributors := ["contrib_1"]; lg_requests := ["r1"; "r2"];
    lg_credentials := [ex_row "cred_e" 1 None]; lg_usage := [] |} ex_usage_ops.
Example midnight_not_reset :
  used_on "cred_e" (day_of 90000001) ex_midnight = 1%nat /\
  (cw_requests_today <$> lg_credentials ex_midnight) = [2] /\ offered ex_midnight 90000001 = Some [].
Proof. vm_compute. done. Qed.
