(* ===== verification/Events.v ===== *)
(** * The outbox and the graph projection (services/coordinator/src/events.ts)

    Events are checked, appended to the outbox, and projected into the graph by a
    drain that runs after every emission.  A payload is the object the caller
    built; the outbox keeps what [JSON.parse] gives back of its text.  The fields
    read with [s] are strings or absent in every payload the coordinator emits. *)

From S2P Require Import Prelude JsNum Utf8 Json Unicode Logs.
Local Open Scope Z_scope.

Definition BANNED_EVENT_FIELDS : list string :=
  ["messages"; "message"; "prompt"; "prompttext"; "content"; "input"; "output"; "response"; "responsebody";
   "secret"; "apikey"; "key"; "authorization"; "ciphertext"; "encryptedblob"; "encryptedsecret"; "plaintext"].

Abbreviation object := (list (string * jsval)).

(** [JSON.parse(JSON.stringify(v))] *)
Fixpoint reparsed (v : jsval) : jsval :=
  match v with
  | VNum (Fin _) => v
  | VNum _ => VNull
  | VArr l => VArr (List.map (fun x => if is_undef x then VNull else reparsed x) l)
  | VObj o => VObj (List.filter (fun kv => negb (is_undef kv.2)) (List.map (fun kv => (kv.1, reparsed kv.2)) o))
  | v => v
  end.
Definition fields_of (v : jsval) : object := match v with VObj o => o | _ => [] end.
(** [{ ...o, ...p }] *)
Definition spread (o p : object) : object := fold_left (fun acc kv => obj_set acc kv.1 kv.2) p o.

(** ** The check *)
Section Check.
Context `{L : LowerCase}.
Definition banned (key : string) : bool := bool_decide (normalizeKey key ∈ BANNED_EVENT_FIELDS).

(** [Err] carries the path the message names. *)
Fixpoint assertNoForbiddenFields (value : jsval) (path : string) (depth : nat) {struct value} : res string unit :=
  if Nat.ltb 8 depth then Ok tt else
  match value with
  | VArr l =>
      (fix items (l : list jsval) (i : Z) : res string unit :=
         match l with
         | [] => Ok tt
         | x :: l => _ ← assertNoForbiddenFields x (str_app [path; "["; num_to_string i; "]"]) (S depth); items l (i + 1)
         end) l 0
  | VObj o =>
      (fix members (o : list (string * jsval)) : res string unit :=
         match o with
         | [] => Ok tt
         | (key, child) :: o =>
             let here := if str_empty path then key else str_app [path; "."; key] in
             if banned key then Err here
             else _ ← assertNoForbiddenFields child here (S depth); members o
         end) o
  | _ => Ok tt
  end.
End Check.

(** ** The graph *)
Record GNode : Type := {
  gn_id : string;
  gn_type : string;
  gn_label : string;
  gn_status : option string;
  gn_meta : object;
  gn_created : Z;
  gn_updated : Z;
}.
Record GLink : Type := { gl_id : string; gl_source : string; gl_target : string; gl_type : string; gl_created : Z }.
(** What [bus.emit("graph", ...)] passes on; [createdAt] is [gn_created]. *)
Inductive GraphMessage : Type :=
| node_created (node : GNode)
| node_updated (node : GNode)
| link_created (link : GLink).
(** The two tables, and everything emitted on the bus so far. *)
Record Graph : Type := { gr_nodes : list GNode; gr_links : list GLink; gr_bus : list GraphMessage }.
Definition graph_empty : Graph := {| gr_nodes := []; gr_links := []; gr_bus := [] |}.

Definition readNode (id : string) (g : Graph) : option GNode :=
  List.find (fun n => String.eqb (gn_id n) id) (gr_nodes g).

Definition merge_node (now : Z) (label : string) (status : option string) (meta : object) (n : GNode) : GNode := {|
  gn_id := gn_id n; gn_type := gn_type n; gn_label := label;
  gn_status := match status with Some s => Some s | None => gn_status n end;
  gn_meta := fields_of (reparsed (VObj (spread (gn_meta n) meta))); gn_created := gn_created n; gn_updated := now |}.

(** [const full = readNode(id); if (full) bus.emit("graph", ...)] *)
Definition emit_node (message : GNode -> GraphMessage) (id : string) (g : Graph) : Graph :=
  match readNode id g with
  | Some full => {| gr_nodes := gr_nodes g; gr_links := gr_links g; gr_bus := gr_bus g ++ [message full] |}
  | None => g
  end.
Definition upsertNode (now : Z) (id type label : string) (status : option string) (meta : object) (g : Graph) : Graph :=
  match readNode id g with
  | Some _ => emit_node node_updated id
      {| gr_nodes := (fun n => if String.eqb (gn_id n) id then merge_node now label status meta n else n) <$> gr_nodes g;
         gr_links := gr_links g; gr_bus := gr_bus g |}
  | None => emit_node node_created id
      {| gr_nodes := gr_nodes g ++ [{| gn_id := id; gn_type := type; gn_label := label; gn_status := status;
                                       gn_meta := fields_of (reparsed (VObj meta)); gn_created := now; gn_updated := now |}];
         gr_links := gr_links g; gr_bus := gr_bus g |}
  end.

Definition upsertLink (now : Z) (source target type : string) (g : Graph) : Graph :=
  let id := str_app [source; "|"; type; "|"; target] in
  if existsb (fun l => String.eqb (gl_id l) id) (gr_links g) then g
  else let link := {| gl_id := id; gl_source := source; gl_target := target; gl_type := type; gl_created := now |} in
       {| gr_nodes := gr_nodes g; gr_links := gr_links g ++ [link]; gr_bus := gr_bus g ++ [link_created link] |}.

(** ** Labels *)
Fixpoint drop_units (n : Z) (l : list Z) : list Z :=
  match l with
  | [] => []
  | c :: r => if n <=? 0 then l
              else if unit_len c <=? n then drop_units (n - unit_len c) r
              else (0xDC00 + (c - 0x10000) mod 1024) :: r
  end.
Definition js_slice (a b : Z) (s : string) : string := encode (take_units (b - a) (drop_units a (points s))).

Definition shortId (id : string) : string := encode (drop_units (js_length id - 6) (points id)).
Definition modelLabel (model : string) : string :=
  if str_startswith "ctn/" model then unchars (drop 4 (chars model)) else model.
Definition shortHash (h : option string) : string :=
  match h with
  | Some h => if str_startswith "0x" h then js_slice 2 8 h else js_slice 0 6 h
  | None => ""
  end.

(** [a ?? b] *)
Definition nullish (a b : jsval) : jsval := match a with VUndef | VNull => b | _ => a end.
Definition truthy (v : jsval) : bool :=
  match v with
  | VUndef | VNull => false
  | VBool b => b
  | VNum n => negb (num_is n 0) && negb (match n with NaN => true | _ => false end)
  | VStr s => negb (str_empty s)
  | VArr _ | VObj _ => true
  end.

Section Project.
(** [String.prototype.toUpperCase], and the text of a value that is not a string in
    a template literal. *)
Context (to_upper : string -> string) (js_text : jsval -> string).
Context (now : Z) (eventType : string) (payload : object).

Definition s (k : string) : option string := as_str (obj_get payload k).
(** [`${s(k)}`] *)
Definition text (k : string) : string :=
  match obj_get payload k with VStr t => t | VUndef => "undefined" | v => js_text v end.
Definition text_or (k d : string) : jsval := nullish (obj_get payload k) (VStr d).
Definition num_or (k : string) (d : Z) : jsval := nullish (obj_get payload k) (vint d).

Definition node (id type label : string) (status : option string) (meta : object) : SE Graph unit unit :=
  se_modify (upsertNode now id type label status meta).
Definition link (source target type : string) : SE Graph unit unit := se_modify (upsertLink now source target type).
(** [s(k)!.f()] *)
Definition need (k : string) : SE Graph unit string := se_lift (match s k with Some t => Ok t | None => Err tt end).

(** [(payload.allowed_models as string[])?.join(", ") ?? ""] and the array iterated *)
Definition allowed_models : SE Graph unit (list string) :=
  se_lift (match obj_get payload "allowed_models" with
           | VArr l => Ok (default "" ∘ as_str <$> l)
           | VUndef | VNull => Ok []
           | _ => Err tt
           end).
Definition req_id : string := "req:" +:+ text "request_id".
Definition req_label : string :=
  "Request " +:+ shortHash (match s "commitment" with Some c => Some c | None => s "request_id" end).
Definition verdict_node (status result : string) : SE Graph unit unit :=
  node req_id "Request" ("Request " +:+ shortHash (s "commitment")) (Some status)
    [("commitment", text_or "commitment" ""); ("policyResult", VStr result); ("policyMs", num_or "policy_ms" 0)].
Definition proof_node (status : string) (meta : object) : SE Graph unit unit :=
  node ("proof:" +:+ text "request_id") "Proof" "Policy Proof" (Some status) meta.
Definition attempt_id : string := str_app ["attempt:"; text "request_id"; ":"; text "attempt_number"].

(** [s("label") ?? `Credential ${shortId(s("credential_id")!)}`] *)
Definition credential_label : SE Graph unit string :=
  match s "label" with Some l => mret l | None => id ← need "credential_id"; mret ("Credential " +:+ shortId id) end.

Definition project_credential_created : SE Graph unit unit :=
  let cred := "cred:" +:+ text "credential_id" in
  label ← credential_label;
  models ← allowed_models;
  _ ← node cred "Credential" label (Some "ACTIVE")
        [("provider", text_or "provider" ""); ("allowedModels", VStr (str_join ", " models));
         ("policyId", text_or "policy_id" ""); ("keyFingerprint", text_or "key_fingerprint" "");
         ("rawCredential", VStr "INACCESSIBLE — held only inside the enclave vault")];
  provider ← need "provider";
  _ ← node ("provider:" +:+ provider) "Provider" (to_upper provider) None [];
  _ ← link ("contrib:" +:+ text "contributor_id") cred "CONTRIBUTED";
  _ ← link cred ("provider:" +:+ provider) "CONNECTS_TO";
  foldl (fun m model => _ ← m; _ ← node ("model:" +:+ model) "Model" (modelLabel model) None [];
                        link ("provider:" +:+ provider) ("model:" +:+ model) "SERVES") (mret tt) models.

Definition project_request_received : SE Graph unit unit :=
  _ ← node req_id "Request" req_label (Some "RECEIVED")
        [("privacyMode", text_or "privacy_mode" ""); ("model", text_or "model" "");
         ("prompt", VStr "PRIVATE — encrypted to the enclave ingress key")];
  if truthy (obj_get payload "model") then
    model ← need "model";
    _ ← node ("model:" +:+ model) "Model" (modelLabel model) None [];
    link req_id ("model:" +:+ model) "REQUESTED_MODEL"
  else mret tt.

Definition project_tee_verified : SE Graph unit unit :=
  _ ← node ("tee:" +:+ text "build_id") "TEEWorker" ("TEE " +:+ js_slice 0 6 (default "" (s "build_id")))
        (Some (if str_is (obj_get payload "mode") "nitro" then "NITRO_VERIFIED" else "SIMULATED"))
        [("buildId", text_or "build_id" ""); ("attestationDigest", text_or "attestation_digest" "");
         ("mode", text_or "mode" ""); ("verified", VBool true)];
  link req_id ("tee:" +:+ text "build_id") "EXECUTED_IN".

Definition project_provider_failed : SE Graph unit unit :=
  _ ← node attempt_id "ProviderAttempt"
        (str_app ["Attempt "; text "attempt_number"; " · "; default "failed" (s "classification")]) (Some "FAILED")
        [("httpStatus", num_or "http_status" 0); ("classification", text_or "classification" "");
         ("latencyMs", num_or "latency_ms" 0); ("action", text_or "action" "")];
  _ ← link req_id attempt_id "HAS_ATTEMPT";
  link attempt_id ("cred:" +:+ text "credential_id") "USED".

Definition project_provider_completed : SE Graph unit unit :=
  _ ← node attempt_id "ProviderAttempt" (str_app ["Attempt "; text "attempt_number"; " · ok"]) (Some "SUCCESS")
        [("httpStatus", num_or "http_status" 200); ("latencyMs", num_or "latency_ms" 0)];
  _ ← link req_id attempt_id "HAS_ATTEMPT";
  _ ← link attempt_id ("cred:" +:+ text "credential_id") "USED";
  _ ← node ("resp:" +:+ text "request_id") "Response" "Response" (Some "COMPLETE")
        [("inputTokens", num_or "input_tokens" 0); ("outputTokens", num_or "output_tokens" 0);
         ("providerMs", num_or "latency_ms" 0); ("body", VStr "PRIVATE — sealed to the client's ephemeral key")];
  _ ← link req_id ("resp:" +:+ text "request_id") "PRODUCED";
  node req_id "Request" req_label (Some "COMPLETE") [("totalLatencyMs", num_or "total_ms" 0)].

Definition project : SE Graph unit unit :=
  match eventType with
  | "contributor.created" =>
      node ("contrib:" +:+ text "contributor_id") "Contributor" (default "Contributor" (s "display_name")) (Some "ACTIVE") []
  | "credential.created" => project_credential_created
  | "credential.updated" =>
      label ← credential_label;
      models ← allowed_models;
      node ("cred:" +:+ text "credential_id") "Credential" label (s "status") [("allowedModels", VStr (str_join ", " models))]
  | "request.received" => project_request_received
  | "tee.verified" => project_tee_verified
  | "policy.started" =>
      _ ← node ("policy:" +:+ text "policy_id") "Policy" "Safety v1" (Some "ACTIVE")
            [("policyId", text_or "policy_id" ""); ("version", VStr "1.0.0")];
      link req_id ("policy:" +:+ text "policy_id") "EVALUATED_UNDER"
  | "policy.allowed" => verdict_node "AUTHORIZED" "ALLOW"
  | "policy.denied" => verdict_node "DENIED" "DENY"
  | "request.failed" =>
      node req_id "Request" req_label (Some "FAILED")
        [("errorCode", text_or "error_code" ""); ("attempts", num_or "attempts" 0); ("totalLatencyMs", num_or "total_ms" 0)]
  | "proof.queued" =>
      _ ← proof_node "QUEUED" [("proofSystem", text_or "proof_system" ""); ("policyId", text_or "policy_id" "")];
      link req_id ("proof:" +:+ text "request_id") "HAS_PROOF"
  | "proof.started" =>
      _ ← proof_node "PROVING" [("proofSystem", text_or "proof_system" ""); ("policyId", text_or "policy_id" "")];
      link req_id ("proof:" +:+ text "request_id") "HAS_PROOF"
  | "proof.generated" =>
      proof_node "GENERATED" [("proofSystem", text_or "proof_system" ""); ("verified", VBool false);
                              ("guestImageId", text_or "guest_image_id" ""); ("artifactDigest", text_or "artifact_digest" "")]
  | "proof.completed" =>
      proof_node (if truthy (obj_get payload "verified") then "VERIFIED" else "GENERATED")
        [("proofSystem", text_or "proof_system" ""); ("verified", nullish (obj_get payload "verified") (VBool false));
         ("durationMs", num_or "proof_ms" 0); ("guestImageId", text_or "guest_image_id" "");
         ("artifactDigest", text_or "artifact_digest" ""); ("decisionReceiptDigest", text_or "decision_receipt_digest" "")]
  | "proof.failed" =>
      proof_node "FAILED" [("verified", VBool false); ("error", text_or "error" ""); ("durationMs", num_or "proof_ms" 0)]
  | "route.selected" =>
      _ ← link req_id ("cred:" +:+ text "credential_id") "ROUTED_THROUGH";
      _ ← link ("cred:" +:+ text "credential_id") ("provider:" +:+ text "provider") "CONNECTS_TO";
      node req_id "Request" req_label (Some "ROUTING")
        [("contributorId", text_or "contributor_id" ""); ("credentialId", text_or "credential_id" "")]
  | "provider.started" =>
      _ ← node req_id "Request" req_label (Some "PROVIDER_RUNNING") [];
      link req_id ("provider:" +:+ text "provider") "CALLED"
  | "provider.failed" => project_provider_failed
  | "provider.completed" => project_provider_completed
  | "receipt.created" =>
      _ ← node ("receipt:" +:+ text "request_id") "ComputeReceipt" "Compute Receipt" (Some "SIGNED")
            [("receiptId", text_or "receipt_id" ""); ("commitment", text_or "commitment" ""); ("signatureVerified", VBool true)];
      link req_id ("receipt:" +:+ text "request_id") "HAS_RECEIPT"
  | _ => mret tt
  end.
End Project.

(** ** The outbox

    Rows in the order of their ids. *)
Record OutboxRow : Type := {
  ob_type : string;
  ob_aggregate : string;
  ob_payload : object;
  ob_created : Z;
  ob_processed : option Z;
}.
Record Projector : Type := { pj_outbox : list OutboxRow; pj_graph : Graph }.
Definition projector_init : Projector := {| pj_outbox := []; pj_graph := graph_empty |}.

Definition mark (now : Z) (r : OutboxRow) : OutboxRow := {|
  ob_type := ob_type r; ob_aggregate := ob_aggregate r; ob_payload := ob_payload r; ob_created := ob_created r;
  ob_processed := Some now |}.
Definition pending (r : OutboxRow) : bool := match ob_processed r with Some _ => false | None => true end.

Section Outbox.
Context `{L : LowerCase}.
Context (to_upper : string -> string) (js_text : jsval -> string) (iso : Z -> string).

(** The graph after one row, whatever [project] threw. *)
Definition project_row (now : Z) (r : OutboxRow) (g : Graph) : Graph :=
  (project to_upper js_text now (ob_type r) (ob_payload r) g).1.

(** The loop over the first [limit] pending rows. *)
Fixpoint drain (limit : nat) (now : Z) (rows : list OutboxRow) (g : Graph) : list OutboxRow * Graph :=
  match rows with
  | [] => ([], g)
  | r :: rest =>
      if negb (pending r) then let '(rest, g) := drain limit now rest g in (r :: rest, g)
      else match limit with
           | O => (rows, g)
           | S limit => let '(rest, g) := drain limit now rest (project_row now r g) in (mark now r :: rest, g)
           end
  end.
Definition DRAIN_LIMIT : nat := 500.
Definition drainOutbox (now : Z) (p : Projector) : Projector :=
  let '(rows, g) := drain DRAIN_LIMIT now (pj_outbox p) (pj_graph p) in {| pj_outbox := rows; pj_graph := g |}.

(** Up to [bus.emit("outbox")], whose listener drains. *)
Definition outbox_row (now : Z) (eventType aggregateId : string) (payload : object) : OutboxRow := {|
  ob_type := eventType; ob_aggregate := aggregateId;
  ob_payload := fields_of (reparsed (VObj (spread payload [("event", VStr eventType); ("timestamp", VStr (iso now))])));
  ob_created := now; ob_processed := None |}.
Definition emitEvent (now : Z) (eventType aggregateId : string) (payload : object) : SE Projector string unit := fun p =>
  match assertNoForbiddenFields (VObj payload) "" 0 with
  | Err path => (p, Err path)
  | Ok _ => (drainOutbox now {| pj_outbox := pj_outbox p ++ [outbox_row now eventType aggregateId payload];
                                pj_graph := pj_graph p |}, Ok tt)
  end.
End Outbox.

(** [ORDER BY created_at]: a stable sort of the rows by instant. *)
Definition graphSnapshot (g : Graph) : list GNode * list GLink :=
  (jsort (fun a b => gn_created a ?= gn_created b) (gr_nodes g),
   jsort (fun a b => gl_created a ?= gl_created b) (gr_links g)).

(** ** The tables after an upsert *)
Lemma readNode_emit message id g k : readNode k (emit_node message id g) = readNode k g.
Proof. unfold emit_node. by destruct (readNode id g). Qed.
Lemma gr_links_emit message id g : gr_links (emit_node message id g) = gr_links g.
Proof. unfold emit_node. by destruct (readNode id g). Qed.
Lemma gr_nodes_emit message id g : gr_nodes (emit_node message id g) = gr_nodes g.
Proof. unfold emit_node. by destruct (readNode id g). Qed.
Definition upserted (now : Z) (id type label : string) (status : option string) (meta : object) (n : option GNode) : GNode :=
  match n with
  | Some n => merge_node now label status meta n
  | None => {| gn_id := id; gn_type := type; gn_label := label; gn_status := status;
               gn_meta := fields_of (reparsed (VObj meta)); gn_created := now; gn_updated := now |}
  end.
Lemma readNode_upsert now id type label status meta g :
  readNode id (upsertNode now id type label status meta g) = Some (upserted now id type label status meta (readNode id g)).
Proof.
  unfold upsertNode. destruct (readNode id g) as [x|] eqn:Hr; rewrite readNode_emit; unfold readNode in *; cbn [gr_nodes upserted].
  - revert Hr. induction (gr_nodes g) as [|n l IH]; simpl; [done|]. destruct (String.eqb (gn_id n) id) eqn:He; simpl.
    + rewrite He. by intros [= ->].
    + rewrite He. exact IH.
  - revert Hr. induction (gr_nodes g) as [|n l IH]; simpl; [by rewrite String.eqb_refl|]. by destruct (String.eqb (gn_id n) id).
Qed.
Lemma readNode_other now id type label status meta g k : id <> k ->
  readNode k (upsertNode now id type label status meta g) = readNode k g.
Proof.
  intros Hne. unfold upsertNode. destruct (readNode id g) eqn:Hr; rewrite readNode_emit; unfold readNode; simpl; clear Hr.
  - induction (gr_nodes g) as [|n l IH]; simpl; [done|]. destruct (String.eqb_spec (gn_id n) id) as [He|]; simpl.
    + assert (Hnk : String.eqb (gn_id n) k = false) by (apply String.eqb_neq; congruence). rewrite Hnk. exact IH.
    + destruct (String.eqb (gn_id n) k); [done|exact IH].
  - induction (gr_nodes g) as [|n l IH]; simpl; [by rewrite (proj2 (String.eqb_neq id k) Hne)|]. destruct (String.eqb (gn_id n) k); [done|exact IH].
Qed.

(** ** What the check refuses

    [carries d v]: a banned name at a level the walk from depth [d] reaches. *)
Section Checked.
Context `{L : LowerCase}.

Inductive carries : nat -> jsval -> Prop :=
| carries_item d l x : (d <= 8)%nat -> x ∈ l -> carries (S d) x -> carries d (VArr l)
| carries_key d o k v : (d <= 8)%nat -> (k, v) ∈ o -> banned k = true -> carries d (VObj o)
| carries_member d o k v : (d <= 8)%nat -> (k, v) ∈ o -> carries (S d) v -> carries d (VObj o).

Lemma carries_depth d v : carries d v -> (d <= 8)%nat.
Proof. by destruct 1. Qed.

Lemma is_ok_then {E A B} (r : res E A) (q : res E B) : is_ok (r ≫= fun _ => q) = is_ok r && is_ok q.
Proof. by destruct r. Qed.

Lemma assert_spec v : forall path d, is_ok (assertNoForbiddenFields v path d) = true <-> ~ carries d v.
Proof.
  induction v as [| |b|n|t|l IH|o IH] using jsval_ind; intros path d; simpl; destruct (Nat.leb_spec d 8) as [Hd|Hd];
    rewrite ?(proj2 (Nat.ltb_lt 8 d)) by lia; rewrite ?(proj2 (Nat.ltb_ge 8 d)) by lia;
    try (split; [intros _ Hc; try by inversion Hc|done]); try (by apply carries_depth in Hc; lia).
  - generalize 0%Z as i. induction IH as [|x l Hx _ IHl]; intros i.
    + split; [|done]. intros _ Hc. inversion Hc; subst. set_solver.
    + rewrite is_ok_then, andb_true_iff, Hx, IHl. split.
      * intros [H1 H2] Hc. inversion Hc as [? ? y ? Hy Hcy| |]; subst. apply elem_of_cons in Hy as [->|Hy]; [done|].
        apply H2. by eapply carries_item.
      * intros H. split; intros Hc; apply H; [eapply carries_item; [done|by left|done]|].
        inversion Hc; subst. eapply carries_item; [done|by right|done].
  - induction IH as [|[k x] o Hx _ IHo].
    + split; [|done]. intros _ Hc. inversion Hc; subst; set_solver.
    + simpl in Hx. destruct (banned k) eqn:Hb.
      * split; [done|]. intros H. exfalso. apply H. eapply carries_key; [done|by left|done].
      * rewrite is_ok_then, andb_true_iff, Hx, IHo. split.
        -- intros [H1 H2] Hc. inversion Hc as [|? ? k' y ? Hy Hby|? ? k' y ? Hy Hcy]; subst;
             apply elem_of_cons in Hy as [[= -> ->]|Hy]; try congruence; apply H2; [by eapply carries_key|by eapply carries_member].
        -- intros H. split; intros Hc; apply H; [eapply carries_member; [done|by left|done]|].
           inversion Hc; subst; [eapply carries_key; [done|by right|done]|eapply carries_member; [done|by right|done]].
Qed.

Lemma assert_refused v : forall path d, is_ok (assertNoForbiddenFields v path d) = false -> carries d v.
Proof.
  induction v as [| |b|n|t|l IH|o IH] using jsval_ind; intros path d; simpl; destruct (Nat.leb_spec d 8) as [Hd|Hd];
    rewrite ?(proj2 (Nat.ltb_lt 8 d)) by lia; rewrite ?(proj2 (Nat.ltb_ge 8 d)) by lia; try done.
  - generalize 0%Z as i. induction IH as [|x l Hx _ IHl]; intros i; [done|].
    rewrite is_ok_then, andb_false_iff. intros [H%Hx|H%IHl]; [eapply carries_item; [done|by left|done]|].
    inversion H; subst. eapply carries_item; [done|by right|done].
  - induction IH as [|[k x] o Hx _ IHo]; [done|]. simpl in Hx.
    destruct (banned k) eqn:Hb; [intros _; eapply carries_key; [done|by left|done]|].
    rewrite is_ok_then, andb_false_iff. intros [H%Hx|H%IHo]; [eapply carries_member; [done|by left|done]|].
    inversion H; subst; [eapply carries_key; [done|by right|done]|eapply carries_member; [done|by right|done]].
Qed.
End Checked.

(** ** Draining *)
Definition backlog (p : Projector) : list OutboxRow := List.filter pending (pj_outbox p).

Section Draining.
Context `{L : LowerCase}.
Context (to_upper : string -> string) (js_text : jsval -> string) (iso : Z -> string).
Local Abbreviation projected := (foldl (fun g tr => project_row to_upper js_text tr.1 tr.2 g)).
Local Abbreviation stamped now := (fun r r' => r' = r \/ pending r = true /\ r' = mark now r).

Lemma drain_spec limit now rows g rows' g' : drain to_upper js_text limit now rows g = (rows', g') ->
  Forall2 (stamped now) rows rows' /\
  List.filter pending rows' = drop limit (List.filter pending rows) /\
  g' = projected g ((now,.) <$> take limit (List.filter pending rows)).
Proof.
  revert limit g rows' g'. induction rows as [|r rows IH]; intros limit g rows' g'; cbn [drain].
  - intros [= <- <-]. by destruct limit.
  - destruct (pending r) eqn:Hr; cbn [negb].
    + destruct limit as [|limit].
      * intros [= <- <-]. split_and!; [|done|done]. apply Forall2_same_length_lookup_2; [done|]. intros i x y Hx Hy. left. congruence.
      * destruct (drain to_upper js_text limit now rows _) as [rs g1] eqn:Hd. intros [= <- <-].
        apply IH in Hd as (H1 & H2 & H3). cbn [List.filter]. rewrite Hr. cbn [pending mark ob_processed]. simpl.
        split_and!; [constructor; auto|exact H2|exact H3].
    + destruct (drain to_upper js_text limit now rows g) as [rs g1] eqn:Hd. intros [= <- <-].
      apply IH in Hd as (H1 & H2 & H3). cbn [List.filter]. rewrite Hr. split_and!; [constructor; auto|exact H2|exact H3].
Qed.

Lemma drainOutbox_spec now p p' : drainOutbox to_upper js_text now p = p' ->
  Forall2 (stamped now) (pj_outbox p) (pj_outbox p') /\
  backlog p' = drop DRAIN_LIMIT (backlog p) /\
  pj_graph p' = projected (pj_graph p) ((now,.) <$> take DRAIN_LIMIT (backlog p)).
Proof.
  unfold drainOutbox. destruct (drain _ _ _ _ _ _) as [rows g] eqn:Hd. intros <-. by apply drain_spec in Hd.
Qed.

Definition drains (ts : list Z) (p : Projector) : Projector := foldl (fun p t => drainOutbox to_upper js_text t p) p ts.
End Draining.

(** C16. The projector cannot wedge.  However many rows wait, enough passes of 500
    project every one of them, once, in order, at one of the instants of the passes,
    whatever a projection throws; nothing is left pending and rows processed before
    are not touched again. *)
Theorem outbox_drains `{LowerCase} to_upper js_text ts p :
  (length (backlog p) <= DRAIN_LIMIT * length ts)%nat ->
  let p' := drains to_upper js_text ts p in
  backlog p' = [] /\
  (exists stamps, length stamps = length (backlog p) /\ stamps ⊆ ts /\
     pj_graph p' = foldl (fun g tr => project_row to_upper js_text tr.1 tr.2 g) (pj_graph p) (zip stamps (backlog p))) /\
  Forall2 (fun r r' => if pending r then exists t, t ∈ ts /\ r' = mark t r else r' = r) (pj_outbox p) (pj_outbox p').
Proof.
  unfold drains. revert p. induction ts as [|t ts IH]; intros p Hn; simpl.
  - assert (Hb : backlog p = []) by (apply length_zero_iff_nil; cbn [length] in Hn; lia). split_and!; [done| |].
    + exists []. by rewrite Hb.
    + apply Forall2_same_length_lookup_2; [done|]. intros i r r' Hr Hr'. assert (r' = r) as -> by congruence.
      destruct (pending r) eqn:Hp; [|done]. exfalso. assert (Hin : r ∈ backlog p); [|rewrite Hb in Hin; set_solver].
      apply list_elem_of_In, filter_In. split; [|done]. apply list_elem_of_In. by eapply list_elem_of_lookup_2.
  - destruct (drainOutbox_spec to_upper js_text t p _ eq_refl) as (H1 & H2 & H3).
    set (q := drainOutbox to_upper js_text t p) in *.
    destruct (IH q) as (IH1 & (stamps & Hl & Hs & Hg) & IH3); [rewrite H2, length_drop; cbn [length] in Hn; lia|].
    split_and!; [exact IH1| |].
    + exists (replicate (length (take DRAIN_LIMIT (backlog p))) t ++ stamps). split_and!.
      * rewrite length_app, length_replicate, Hl, H2, length_take, length_drop. lia.
      * intros x [Hx|Hx]%elem_of_app; [apply elem_of_replicate in Hx as [-> _]; by left|right; by apply Hs].
      * rewrite Hg, H3, H2, <-foldl_app. f_equal. rewrite <-(take_drop DRAIN_LIMIT (backlog p)) at 4.
        rewrite zip_with_app by (by rewrite length_replicate). f_equal. clear.
        induction (take DRAIN_LIMIT (backlog p)) as [|r l IHl]; simpl; [done|]. f_equal. exact IHl.
    + clear -H1 IH3. revert IH3. generalize (pj_outbox (foldl (fun p t => drainOutbox to_upper js_text t p) q ts)).
      induction H1 as [|r r1 rs rs1 Hr _ IHr]; intros l2 H2; inversion H2 as [|? r2 ? rs2 Hr2 Hrs2]; subst; constructor; [|by apply IHr].
      destruct Hr as [->|[Hp ->]].
      * destruct (pending r); [|done]. destruct Hr2 as (t' & Ht' & ->). exists t'. split; [by right|done].
      * rewrite Hp. simpl in Hr2. subst. exists t. split; [by left|done].
Qed.

(** C25. What enters the graph.  An event is refused exactly when its payload has a
    banned field, in whatever spelling, within the levels the walk covers, and then
    nothing is written; otherwise its row is appended, and unless 500 rows were
    already waiting it is projected at once together with them, so the graph has
    caught up when the emission returns.  A projection error never reaches the
    caller. *)
Theorem emitEvent_spec `{LowerCase} to_upper js_text iso now eventType aggregateId payload p :
  match emitEvent to_upper js_text iso now eventType aggregateId payload p with
  | (p', Err _) => p' = p /\ carries 0 (VObj payload)
  | (p', Ok _) =>
      let row := outbox_row iso now eventType aggregateId payload in
      ~ carries 0 (VObj payload) /\
      Forall2 (fun r r' => r' = r \/ pending r = true /\ r' = mark now r) (pj_outbox p ++ [row]) (pj_outbox p') /\
      ((length (backlog p) < DRAIN_LIMIT)%nat ->
        backlog p' = [] /\
        pj_graph p' = foldl (fun g r => project_row to_upper js_text now r g) (pj_graph p) (backlog p ++ [row]))
  end.
Proof.
  unfold emitEvent. pose proof (assert_spec (VObj payload) "" 0) as Hspec.
  destruct (assertNoForbiddenFields _ _ _) as [u|path] eqn:Ha; simpl in Hspec.
  - set (row := outbox_row iso now eventType aggregateId payload). split; [by apply Hspec|].
    set (q := {| pj_outbox := pj_outbox p ++ [row]; pj_graph := pj_graph p |}).
    destruct (drainOutbox_spec to_upper js_text now q _ eq_refl) as (H1 & H2 & H3). split; [exact H1|].
    intros Hb. assert (Hq : backlog q = backlog p ++ [row]) by (unfold backlog; simpl; by rewrite List.filter_app).
    rewrite Hq in H2, H3.
    rewrite drop_ge in H2 by (rewrite length_app; cbn [length]; lia).
    rewrite take_ge in H3 by (rewrite length_app; cbn [length]; lia).
    split; [exact H2|]. rewrite H3. cbn [pj_graph q]. clear. generalize (pj_graph p).
    induction (backlog p ++ [row]) as [|r l IH]; intros g; simpl; [done|apply IH].
  - split; [done|]. apply (assert_refused (VObj payload) ""). by rewrite Ha.
Qed.

(** ** Examples *)
Definition ex_iso (t : Z) : string := num_to_string t.
Definition ex_emit (now : Z) (eventType id : string) (payload : object) (p : Projector) : Projector :=
  (emitEvent (fun s => s) (fun _ => "[object]") ex_iso now eventType id payload p).1.
Definition ex_created (p : Projector) : Projector :=
  ex_emit 1 "credential.created" "cred_0123456789ab"
    [("credential_id", VStr "cred_0123456789ab"); ("contributor_id", VStr "contrib_1"); ("provider", VStr "mock");
     ("label", VStr "Ada's key"); ("allowed_models", VArr [VStr "ctn/demo-model-a"]); ("policy_id", VStr "0x1")] p.

(** A projection that throws in the middle, in front of one that does not. *)
Definition ex_poison : Projector :=
  {| pj_outbox := [outbox_row ex_iso 1 "credential.created" "x" [("label", VStr "no provider")];
                   outbox_row ex_iso 2 "policy.allowed" "req_1" [("request_id", VStr "req_1"); ("commitment", VStr "0xabcdef12")]];
     pj_graph := graph_empty |}.
Lemma outbox_drains_witness :
  backlog ex_poison <> [] /\ backlog (drains (fun s => s) (fun _ => "") [5] ex_poison) = [] /\
  gn_label <$> gr_nodes (pj_graph (drains (fun s => s) (fun _ => "") [5] ex_poison)) = ["no provider"; "Request abcdef"].
Proof.
  split; [vm_compute; discriminate|]. split; [|vm_compute; reflexivity].
  apply (outbox_drains (fun s => s) (fun _ => "") [5] ex_poison). unfold DRAIN_LIMIT. vm_compute. lia.
Defined.

(** The spelling does not matter, the depth does. *)
Example banned_spellings :
  is_ok (emitEvent (fun s => s) (fun _ => "") ex_iso 1 "request.failed" "r" [("meta", VObj [("Encrypted-Blob", VStr "x")])] projector_init).2 = false.
Proof. vm_compute. reflexivity. Qed.
Fixpoint nest (n : nat) (v : jsval) : jsval := match n with O => v | S n => VArr [nest n v] end.
Example banned_too_deep :
  is_ok (emitEvent (fun s => s) (fun _ => "") ex_iso 1 "request.failed" "r" [("meta", nest 8 (VObj [("prompt", VStr "x")]))] projector_init).2 = true.
Proof. vm_compute. reflexivity. Qed.

(** The event of a revocation carries neither label nor models, and the projection
    overwrites both. *)
Example revocation_forgets :
  let cred p := (fun n => (gn_label n, gn_status n, obj_get (gn_meta n) "allowedModels")) <$> readNode "cred:cred_0123456789ab" (pj_graph p) in
  cred (ex_created projector_init) = Some ("Ada's key", Some "ACTIVE", VStr "ctn/demo-model-a") /\
  cred (ex_emit 2 "credential.updated" "cred_0123456789ab" [("credential_id", VStr "cred_0123456789ab"); ("status", VStr "DELETED")]
          (ex_created projector_init)) = Some ("Credential 6789ab", Some "DELETED", VStr "").
Proof. vm_compute. done. Qed.

(** [proof.started] is emitted without the policy id [proof.queued] recorded. *)
Example proof_started_forgets :
  let policy p := (fun n => obj_get (gn_meta n) "policyId") <$> readNode "proof:req_1" (pj_graph p) in
  let queued := ex_emit 1 "proof.queued" "req_1" [("request_id", VStr "req_1"); ("policy_id", VStr "0x1"); ("proof_system", VStr "risc0")] projector_init in
  policy queued = Some (VStr "0x1") /\
  policy (ex_emit 2 "proof.started" "req_1" [("request_id", VStr "req_1"); ("proof_system", VStr "risc0"); ("guest_image_id", VStr "0x2")] queued) = Some (VStr "").
Proof. vm_compute. done. Qed.
