(* ===== verification/Coordinator.v ===== *)
(** * The secure request (services/coordinator/src/index.ts, tee-client.ts)

    [runSecureRequest] cut at its three awaits, the proof watcher, and the tables
    they write.  A row is the list of its columns; a column that holds a JSON text
    holds the value of that text.  The enclave's answers are the bodies its
    handlers build, read through the types of tee-client.ts. *)

From S2P Require Import Prelude JsNum Utf8 Json Unicode Stringify Types Crypto Authorize Pricing Providers Insights Gates ProofVerify Hpke Tee Prover GateRequest Dispatch Logs Routing Events.
From Stdlib Require Import QArith.
Local Open Scope Z_scope.

(** ** The channel to the enclave *)
Inductive CallError : Type :=
| EnclaveUnavailable
| EnclaveRejection (code message : jsval) (httpStatus : Z).

(** What [fetch] gives: nothing, or a status with the body if it parses. *)
Inductive Wire : Type := NoResponse | Response (status : Z) (json : option jsval).

Definition call (w : Wire) : res CallError jsval :=
  match w with
  | NoResponse => Err EnclaveUnavailable
  | Response status None => Err EnclaveUnavailable
  | Response status (Some json) =>
      if (200 <=? status) && (status <=? 299) then Ok json
      else let error := js_get_opt json "error" in
           if truthy error
           then Err (EnclaveRejection (nullish (js_get_opt error "code") (VStr "CTN_INVALID_ENVELOPE"))
                       (nullish (js_get_opt error "message") (VStr "the enclave refused the request")) status)
           else Err EnclaveUnavailable
  end.

Record GateResult : Type := {
  gt_decision : PolicyDecision;
  gt_commitment : string;
  gt_policyId : string;
  gt_imageId : string;
  gt_decisionReceipt : SignedPolicyDecisionReceiptV1;
  gt_proofStarted : bool;
  gt_gateWallMs : Z;
}.
(** The body of [POST /gate]. *)
Definition gate_result (o : GateOutcome) : GateResult := {|
  gt_decision := go_decision o; gt_commitment := go_commitment o;
  gt_policyId := dr_policyId (sdr_receipt (go_decisionReceipt o));
  gt_imageId := dr_imageId (sdr_receipt (go_decisionReceipt o));
  gt_decisionReceipt := go_decisionReceipt o; gt_proofStarted := true; gt_gateWallMs := go_gateWallMs o |}.

Record Attestation : Type := { an_buildId : string; an_teeMode : string; an_attestationDigest : string }.

Record ProofResponse : Type := {
  pw_status : string;
  pw_proofVerified : bool;
  pw_proofMs : option Z;
  pw_error : option string;
  pw_imageId : option string;
  pw_artifactDigest : option string;
  pw_decisionReceiptDigest : option string;
  pw_artifact : option jsval;
  pw_binding : option jsval;
}.

(** ** Tables *)
Abbreviation row := (list (string * jsval)).
Definition col (r : row) (k : string) : jsval := obj_get r k.
(** [UPDATE ... SET cols WHERE key = value] *)
Definition update_where (key value : string) (cols : row) (rows : list row) : list row :=
  (fun r => if str_is (col r key) value then spread r cols else r) <$> rows.
Definition find_where (key value : string) (rows : list row) : option row :=
  List.find (fun r => str_is (col r key) value) rows.

Record Db : Type := {
  db_requests : list row;
  db_decisions : list row;
  db_attempts : list row;
  db_proofs : list row;
  db_receipts : list row;
  db_ledger : Ledger;
  db_projector : Projector;
}.
Definition set_requests (x : list row) (d : Db) : Db := {| db_requests := x; db_decisions := db_decisions d; db_attempts := db_attempts d;
  db_proofs := db_proofs d; db_receipts := db_receipts d; db_ledger := db_ledger d; db_projector := db_projector d |}.
Definition set_decisions (x : list row) (d : Db) : Db := {| db_requests := db_requests d; db_decisions := x; db_attempts := db_attempts d;
  db_proofs := db_proofs d; db_receipts := db_receipts d; db_ledger := db_ledger d; db_projector := db_projector d |}.
Definition set_attempts (x : list row) (d : Db) : Db := {| db_requests := db_requests d; db_decisions := db_decisions d; db_attempts := x;
  db_proofs := db_proofs d; db_receipts := db_receipts d; db_ledger := db_ledger d; db_projector := db_projector d |}.
Definition set_proofs (x : list row) (d : Db) : Db := {| db_requests := db_requests d; db_decisions := db_decisions d; db_attempts := db_attempts d;
  db_proofs := x; db_receipts := db_receipts d; db_ledger := db_ledger d; db_projector := db_projector d |}.
Definition set_receipts (x : list row) (d : Db) : Db := {| db_requests := db_requests d; db_decisions := db_decisions d; db_attempts := db_attempts d;
  db_proofs := db_proofs d; db_receipts := x; db_ledger := db_ledger d; db_projector := db_projector d |}.
Definition set_ledger (x : Ledger) (d : Db) : Db := {| db_requests := db_requests d; db_decisions := db_decisions d; db_attempts := db_attempts d;
  db_proofs := db_proofs d; db_receipts := db_receipts d; db_ledger := x; db_projector := db_projector d |}.
Definition set_projector (x : Projector) (d : Db) : Db := {| db_requests := db_requests d; db_decisions := db_decisions d; db_attempts := db_attempts d;
  db_proofs := db_proofs d; db_receipts := db_receipts d; db_ledger := db_ledger d; db_projector := x |}.

(** An exception that reaches the error handler: a constraint of the database, a
    value it cannot bind, a refused event, an unreadable capability. *)
Inductive Thrown : Type := ConstraintFailed (table : string) | BindRefused | ForbiddenField (path : string) | BadCapability.

Inductive PrivacyMode : Type := secure | compatibility.
#[export] Instance PrivacyMode_eq_dec : EqDecision PrivacyMode.
Proof. solve_decision. Defined.
Definition privacy_str (m : PrivacyMode) : string := match m with secure => "secure" | compatibility => "compatibility" end.

Record Reply : Type := { rp_code : Z; rp_body : jsval }.
Definition opt_str (o : option string) : jsval := match o with Some s => VStr s | None => VUndef end.
Definition or_null {A} (f : A -> jsval) (o : option A) : jsval := match o with Some a => f a | None => VNull end.

Definition error_reply (code : Z) (error message : jsval) (requestId : string) : Reply :=
  {| rp_code := code; rp_body := VObj [("error", VObj [("code", error); ("message", message); ("request_id", VStr requestId)])] |}.
(** [err.httpStatus >= 400 && err.httpStatus < 500 ? err.httpStatus : 400] *)
Definition client_status (http : Z) : Z := if (400 <=? http) && (http <? 500) then http else 400.

Definition classification_str (c : classification) : string :=
  match c with
  | auth_failed => "auth_failed" | rate_limited => "rate_limited" | server_error => "server_error" | timeout => "timeout"
  | egress_denied => "egress_denied" | redirect_refused => "redirect_refused" | malformed_response => "malformed_response"
  | unpriced_model => "unpriced_model"
  end.

(** A number of the answer, after JSON: what is not finite arrives as [null]. *)
Definition wire_q (n : option jsnum) : Q := match n with Some (Fin q) => q | _ => 0 end.
Definition wire_num (n : jsnum) : jsval := match n with Fin _ => VNum n | _ => VNull end.

(** What node:sqlite binds to a parameter: no boolean, object, array or [undefined]. *)
Definition bindable (v : jsval) : bool := match v with VNull | VNum _ | VStr _ => true | _ => false end.
(** [x ? JSON.stringify(x) : null] *)
Definition json_or_null (o : option jsval) : jsval :=
  match o with Some v => if truthy v then reparsed v else VNull | None => VNull end.

Section Coordinator.
Context `{L : LowerCase}.
Context (to_upper : string -> string) (js_text : jsval -> string) (iso : Z -> string).
Context (localeCompare : string -> string -> comparison) (COOLDOWN_MS : Z).

(** *** Statements *)
Definition update_request (id : string) (cols : row) : SE Db Thrown unit :=
  se_modify (fun d => set_requests (update_where "id" id cols (db_requests d)) d).
Definition update_proof (requestId : string) (cols : row) : SE Db Thrown unit :=
  se_modify (fun d => set_proofs (update_where "request_id" requestId cols (db_proofs d)) d).

Definition taken (rows : list row) (r : row) : bool :=
  existsb (fun x => match col r "id" with VStr id => str_is (col x "id") id | _ => false end) rows.
Definition known_request (d : Db) (r : row) : bool :=
  match col r "request_id" with VStr id => bool_decide (is_Some (find_where "id" id (db_requests d))) | _ => false end.
(** [INSERT] into a table with primary key [id] and a foreign key to [requests]. *)
Definition insert_child (table : string) (get : Db -> list row) (set : list row -> Db -> Db) (r : row) : SE Db Thrown unit := fun d =>
  if taken (get d) r || negb (known_request d r) then (d, Err (ConstraintFailed table))
  else (set (get d ++ [r]) d, Ok tt).
Definition insert_request (id : string) (r : row) : SE Db Thrown unit := fun d =>
  if taken (db_requests d) r then (d, Err (ConstraintFailed "requests"))
  else (set_ledger (ledger_step localeCompare COOLDOWN_MS (db_ledger d) (OpRequest id)) (set_requests (db_requests d ++ [r]) d), Ok tt).
(** [INSERT OR REPLACE INTO decision_receipts]: keyed by the request. *)
Definition replace_decision (requestId : string) (r : row) : SE Db Thrown unit := fun d =>
  if known_request d r
  then (set_decisions (List.filter (fun x => negb (str_is (col x "request_id") requestId)) (db_decisions d) ++ [r]) d, Ok tt)
  else (d, Err (ConstraintFailed "decision_receipts")).
Definition emit (now : Z) (eventType requestId : string) (payload : object) : SE Db Thrown unit := fun d =>
  match emitEvent to_upper js_text iso now eventType requestId payload (db_projector d) with
  | (p, Ok _) => (set_projector p d, Ok tt)
  | (p, Err path) => (set_projector p d, Err (ForbiddenField path))
  end.

(** *** Receiving a request, up to the gate *)
Definition request_row (now : Z) (e : SecureRequestEnvelope) (mode : PrivacyMode) : row :=
  [("id", VStr (env_requestId e)); ("model", VStr (env_model e)); ("status", VStr "RECEIVED");
   ("privacy_mode", VStr (privacy_str mode)); ("proof_status", VStr "NOT_REQUIRED"); ("created_at", VStr (iso now));
   ("policy_id", VNull)].
Definition receive (now : Z) (e : SecureRequestEnvelope) (mode : PrivacyMode) : SE Db Thrown unit :=
  _ ← insert_request (env_requestId e) (request_row now e mode);
  emit now "request.received" (env_requestId e)
    [("request_id", VStr (env_requestId e)); ("model", VStr (env_model e)); ("privacy_mode", VStr (privacy_str mode));
     ("requested_policy", VStr (env_requestedPolicy e))].

(** The clock of a segment: the instant, and the rounded time since the request came. *)
Record Clock : Type := { ck_now : Z; ck_elapsed : Z }.

(** *** The three ways the gate call fails *)
Definition gate_failed (c : Clock) (requestId : string) (err : CallError) : SE Db Thrown Reply :=
  let now := VStr (iso (ck_now c)) in
  let total := vint (ck_elapsed c) in
  match err with
  | EnclaveRejection code message http =>
      if str_is code "PROVER_UNAVAILABLE" then
        _ ← update_request requestId [("status", VStr "FAILED"); ("error_code", VStr "CTN_PROVER_UNAVAILABLE");
                                      ("completed_at", now); ("total_ms", total)];
        _ ← emit (ck_now c) "request.failed" requestId
              [("request_id", VStr requestId); ("error_code", VStr "CTN_PROVER_UNAVAILABLE"); ("system_failure", VBool true);
               ("attempts", vint 0); ("total_ms", total)];
        mret (error_reply 503 (VStr "CTN_PROVER_UNAVAILABLE")
          (VStr "The policy gate is unavailable. The request was not evaluated and no provider was called.") requestId)
      else
        _ ← se_guard (bindable code) BindRefused;
        _ ← update_request requestId [("status", VStr "FAILED"); ("error_code", code); ("completed_at", now); ("total_ms", total)];
        _ ← emit (ck_now c) "request.failed" requestId
              [("request_id", VStr requestId); ("error_code", code); ("attempts", vint 0); ("total_ms", total)];
        mret (error_reply (client_status http) code message requestId)
  | EnclaveUnavailable =>
      _ ← update_request requestId [("status", VStr "FAILED"); ("error_code", VStr "CTN_ENCLAVE_UNAVAILABLE"); ("completed_at", now)];
      _ ← emit (ck_now c) "request.failed" requestId
            [("request_id", VStr requestId); ("error_code", VStr "CTN_ENCLAVE_UNAVAILABLE"); ("attempts", vint 0); ("total_ms", total)];
      mret (error_reply 503 (VStr "CTN_ENCLAVE_UNAVAILABLE") (VStr "The confidential service is unavailable.") requestId)
  end.

(** *** The verdict, up to the attestation *)
Definition decision_row (now : Z) (requestId : string) (dr : SignedPolicyDecisionReceiptV1) : row :=
  let r := sdr_receipt dr in
  [("request_id", VStr requestId); ("policy_id", VStr (dr_policyId r)); ("decision", VStr (decision_str (dr_decision r)));
   ("image_id", VStr (dr_imageId r)); ("commitment", VStr (dr_requestCommitment r)); ("gate_wall_ms", vint (dr_gateWallMs r));
   ("receipt_json", reparsed (decision_receipt_val r)); ("signature", VStr (sdr_enclaveSignature dr)); ("created_at", VStr (iso now))].
Definition gate_recorded (c : Clock) (requestId : string) (gate : GateResult) : SE Db Thrown unit :=
  _ ← update_request requestId [("policy_id", VStr (gt_policyId gate)); ("request_commitment", VStr (gt_commitment gate))];
  replace_decision requestId (decision_row (ck_now c) requestId (gt_decisionReceipt gate)).

(** *** From the attestation to the denial, the lack of capacity, or the dispatch *)
Definition announce (now : Z) (requestId : string) (gate : GateResult) (attestation : option Attestation) : SE Db Thrown unit :=
  _ ← match attestation with
      | Some a => emit now "tee.verified" requestId
          [("request_id", VStr requestId); ("build_id", VStr (an_buildId a)); ("mode", VStr (an_teeMode a));
           ("attestation_digest", VStr (an_attestationDigest a))]
      | None => mret tt
      end;
  emit now "policy.started" requestId [("request_id", VStr requestId); ("policy_id", VStr (gt_policyId gate))].

(** The coordinator's side of the proof job; the caller starts the watcher. *)
Definition queue_proof (now : Z) (requestId : string) (gate : GateResult) : SE Db Thrown unit :=
  if gt_proofStarted gate then
    _ ← update_request requestId [("proof_status", VStr "QUEUED")];
    _ ← insert_child "proofs" db_proofs set_proofs
          [("id", VStr ("proof_" +:+ requestId)); ("request_id", VStr requestId); ("proof_system", VStr "risc0");
           ("guest_image_id", VStr (gt_imageId gate)); ("status", VStr "QUEUED"); ("verified", vint 0); ("created_at", VStr (iso now))];
    emit now "proof.queued" requestId
      [("request_id", VStr requestId); ("policy_id", VStr (gt_policyId gate)); ("proof_system", VStr "risc0");
       ("guest_image_id", VStr (gt_imageId gate))]
  else mret tt.

Definition verdict_event (requestId : string) (gate : GateResult) : object :=
  [("request_id", VStr requestId); ("commitment", VStr (gt_commitment gate)); ("policy_id", VStr (gt_policyId gate));
   ("policy_ms", vint (gt_gateWallMs gate))].

Definition deny (c : Clock) (requestId : string) (mode : PrivacyMode) (gate : GateResult) : SE Db Thrown Reply :=
  _ ← update_request requestId
        [("status", VStr "DENIED"); ("policy_result", VStr "DENY"); ("policy_ms", vint (gt_gateWallMs gate));
         ("trust_status", VStr (match mode with secure => "SIMULATED" | compatibility => "COMPATIBILITY" end));
         ("error_code", VStr "CTN_POLICY_DENIED"); ("completed_at", VStr (iso (ck_now c))); ("total_ms", vint (ck_elapsed c))];
  _ ← emit (ck_now c) "policy.denied" requestId (verdict_event requestId gate);
  mret {| rp_code := 403; rp_body := VObj [
    ("error", VObj [("code", VStr "CTN_POLICY_DENIED"); ("message", VStr "Request was not eligible under Safety Policy v1.");
                    ("request_id", VStr requestId); ("policy_id", VStr (gt_policyId gate))]);
    ("request_commitment", VStr (gt_commitment gate))] |}.

Definition reason_str (r : ExclusionReason) : string :=
  match r with
  | disabled => "disabled" | cooldown => "cooldown" | model_not_allowed_ => "model_not_allowed"
  | policy_not_allowed_ => "policy_not_allowed" | daily_request_limit => "daily_request_limit" | daily_usd_limit => "daily_usd_limit"
  end.

Definition no_capacity (c : Clock) (requestId : string) (gate : GateResult) (excluded : list (string * string * ExclusionReason))
    : SE Db Thrown Reply :=
  _ ← update_request requestId
        [("status", VStr "FAILED"); ("policy_result", VStr "ALLOW"); ("policy_ms", vint (gt_gateWallMs gate));
         ("error_code", VStr "CTN_NO_CAPACITY"); ("completed_at", VStr (iso (ck_now c))); ("total_ms", vint (ck_elapsed c))];
  _ ← emit (ck_now c) "request.failed" requestId
        [("request_id", VStr requestId); ("commitment", VStr (gt_commitment gate)); ("error_code", VStr "CTN_NO_CAPACITY");
         ("attempts", vint 0); ("total_ms", vint (ck_elapsed c))];
  mret {| rp_code := 503; rp_body := VObj [
    ("error", VObj [("code", VStr "CTN_NO_CAPACITY");
                    ("message", VStr "No eligible contributed capacity is available for this model and policy.");
                    ("request_id", VStr requestId); ("excluded", VArr (VStr ∘ reason_str ∘ snd <$> excluded))])] |}.

Definition discover (model policyId : string) (now : Z) : SE Db Thrown DiscoveryResult := fun d =>
  match discoverCandidates localeCompare model policyId now (db_ledger d) with
  | (l, Ok r) => (set_ledger l d, Ok r)
  | (l, Err _) => (set_ledger l d, Err BadCapability)
  end.

(** Up to the start of the watcher, and from there on: [inl] is the reply, [inr]
    the candidates of the dispatch to come. *)
Definition prepare (c : Clock) (requestId : string) (gate : GateResult) (attestation : option Attestation) : SE Db Thrown unit :=
  _ ← announce (ck_now c) requestId gate attestation;
  queue_proof (ck_now c) requestId gate.
Definition decide_dispatch (c : Clock) (e : SecureRequestEnvelope) (mode : PrivacyMode) (gate : GateResult)
    : SE Db Thrown (Reply + list CandidateRecord) :=
  let requestId := env_requestId e in
  match gt_decision gate with
  | DENY => r ← deny c requestId mode gate; mret (inl r)
  | ALLOW =>
      _ ← emit (ck_now c) "policy.allowed" requestId (verdict_event requestId gate);
      discovery ← discover (env_model e) (gt_policyId gate) (ck_now c);
      match dc_candidates discovery with
      | [] => r ← no_capacity c requestId gate (dc_excluded discovery); mret (inl r)
      | candidates => mret (inr candidates)
      end
  end.

(** *** The answer of the dispatch *)
Definition execute_failed (c : Clock) (requestId : string) (gate : GateResult) (err : CallError) : SE Db Thrown Reply :=
  let now := VStr (iso (ck_now c)) in
  let total := vint (ck_elapsed c) in
  let failed code := emit (ck_now c) "request.failed" requestId
    [("request_id", VStr requestId); ("commitment", VStr (gt_commitment gate)); ("error_code", code); ("attempts", vint 0); ("total_ms", total)] in
  match err with
  | EnclaveRejection code message http =>
      _ ← se_guard (bindable code) BindRefused;
      _ ← update_request requestId [("status", VStr "FAILED"); ("error_code", code); ("completed_at", now); ("total_ms", total)];
      _ ← failed code;
      mret (error_reply (client_status http) code message requestId)
  | EnclaveUnavailable =>
      _ ← update_request requestId [("status", VStr "FAILED"); ("error_code", VStr "CTN_ENCLAVE_UNAVAILABLE"); ("completed_at", now)];
      _ ← failed (VStr "CTN_ENCLAVE_UNAVAILABLE");
      mret (error_reply 503 (VStr "CTN_ENCLAVE_UNAVAILABLE") (VStr "The confidential service is unavailable.") requestId)
  end.

Definition malformed (c : Clock) (requestId : string) (gate : GateResult) : SE Db Thrown Reply :=
  _ ← update_request requestId [("status", VStr "FAILED"); ("error_code", VStr "CTN_INTERNAL"); ("completed_at", VStr (iso (ck_now c)))];
  _ ← emit (ck_now c) "request.failed" requestId
        [("request_id", VStr requestId); ("commitment", VStr (gt_commitment gate)); ("error_code", VStr "CTN_INTERNAL");
         ("attempts", vint 0); ("total_ms", vint (ck_elapsed c))];
  mret (error_reply 502 (VStr "CTN_INTERNAL") (VStr "The confidential service returned an unrecognized result.") requestId).

(** [action] of [applyAttemptOutcome] as the event names it *)
Definition action_str (a : AttemptAction) : string :=
  match a with ActionNone => "none" | ActionDisabled => "disabled" | ActionCooldown => "cooldown" end.
Definition apply_outcome (now : Z) (a : AttemptRecord) : SE Db Thrown AttemptAction := fun d =>
  let '(l, action) := applyAttemptOutcome COOLDOWN_MS now (at_credentialId a) (at_success a)
                        (classification_str <$> at_classification a) (db_ledger d) in
  (set_ledger l d, Ok action).
Definition attempt_id (requestId : string) (n : Z) : string := str_app ["att_"; requestId; "_"; num_to_string n].
Definition attempt_row (now : Z) (requestId : string) (a : AttemptRecord) : row :=
  [("id", VStr (attempt_id requestId (at_attemptNumber a))); ("request_id", VStr requestId);
   ("credential_id", VStr (at_credentialId a)); ("contributor_id", VStr (at_contributorId a));
   ("attempt_number", vint (at_attemptNumber a)); ("status", VStr (if at_success a then "SUCCESS" else "FAILED"));
   ("http_status", vint (at_httpStatus a)); ("classification", or_null (VStr ∘ classification_str) (at_classification a));
   ("latency_ms", vint (at_latencyMs a)); ("created_at", VStr (iso now));
   ("upstream_outcome_unknown", vint (if at_upstreamOutcomeUnknown a then 1 else 0));
   ("assumed_spend_micro_usd", or_null wire_num (at_assumedSpendMicroUsd a))].

(** The booking whose failure is logged and otherwise ignored. *)
Definition book_assumed (now : Z) (requestId : string) (a : AttemptRecord) : SE Db Thrown unit :=
  if at_upstreamOutcomeUnknown a
  then se_modify (fun d => set_ledger (recordAssumedUsage now requestId (at_credentialId a) (at_contributorId a)
                                         (wire_q (at_assumedSpendMicroUsd a)) (db_ledger d)).1 d)
  else mret tt.

Definition record_attempt (now : Z) (requestId : string) (a : AttemptRecord) : SE Db Thrown unit :=
  action ← apply_outcome now a;
  _ ← insert_child "provider_attempts" db_attempts set_attempts (attempt_row now requestId a);
  _ ← book_assumed now requestId a;
  if at_success a then mret tt
  else emit now "provider.failed" requestId
         [("request_id", VStr requestId); ("credential_id", VStr (at_credentialId a)); ("contributor_id", VStr (at_contributorId a));
          ("attempt_number", vint (at_attemptNumber a)); ("http_status", vint (at_httpStatus a));
          ("classification", VStr (match at_classification a with Some x => classification_str x | None => "unknown" end));
          ("latency_ms", vint (at_latencyMs a)); ("action", VStr (action_str action))].
Fixpoint record_attempts (now : Z) (requestId : string) (l : list AttemptRecord) : SE Db Thrown unit :=
  match l with
  | [] => mret tt
  | a :: l => _ ← record_attempt now requestId a; record_attempts now requestId l
  end.

Definition settle_failed (c : Clock) (requestId : string) (r : ExecuteBody) : SE Db Thrown Reply :=
  let code := match eb_error r with Some (code, _) => code | None => "CTN_PROVIDER_ERROR" end in
  let message := match eb_error r with Some (_, m) => m | None => "The request could not be completed." end in
  let attempts := vint (Z.of_nat (length (eb_attempts r))) in
  _ ← update_request requestId
        [("status", VStr "FAILED"); ("request_commitment", VStr (eb_commitment r)); ("policy_result", VStr "ALLOW");
         ("policy_ms", vint (eb_policyMs r)); ("error_code", VStr code); ("completed_at", VStr (iso (ck_now c)));
         ("total_ms", vint (ck_elapsed c))];
  _ ← emit (ck_now c) "request.failed" requestId
        [("request_id", VStr requestId); ("commitment", VStr (eb_commitment r)); ("error_code", VStr code);
         ("attempts", attempts); ("total_ms", vint (ck_elapsed c))];
  mret {| rp_code := 502; rp_body := VObj [
    ("error", VObj [("code", VStr code); ("message", VStr message); ("request_id", VStr requestId)]); ("attempts", attempts)] |}.

(** [`rcpt_${requestId.replace(/^req_/, "")}`] *)
Definition receipt_id (requestId : string) : string :=
  "rcpt_" +:+ (if str_startswith "req_" requestId then unchars (drop 4 (chars requestId)) else requestId).

Definition book_usage (now : Z) (requestId : string) (s : Selected) (usage : option (Z * Z * jsnum)) : SE Db Thrown unit := fun d =>
  let '(i, o, cost) := match usage with Some (i, o, c) => (i, o, wire_q (Some c)) | None => (0, 0, 0%Q) end in
  match recordUsage now requestId (sl_credentialId s) (sl_contributorId s) i o (js_div cost 1000000) (db_ledger d) with
  | (l, Ok _) => (set_ledger l d, Ok tt)
  | (l, Err _) => (set_ledger l d, Err (ConstraintFailed "usage"))
  end.

Definition usage_val (usage : option (Z * Z * jsnum)) : jsval :=
  match usage with
  | Some (i, o, c) => VObj [("inputTokens", vint i); ("outputTokens", vint o); ("estimatedCostMicroUsd", VNum c)]
  | None => VObj []
  end.
Definition box_val (b : option SealedBox) : jsval :=
  match b with Some b => VObj [("enc", VStr (sb_enc b)); ("ciphertext", VStr (sb_ciphertext b))] | None => VNull end.

(** Without the relayed timings and price digest, which [ExecuteBody] leaves out. *)
Definition complete_reply (requestId : string) (r : ExecuteBody) (s : Selected) (receipt : SignedComputeReceipt) : Reply := {|
  rp_code := 200;
  rp_body := VObj [
    ("request_id", VStr requestId); ("encrypted_response", box_val (eb_encryptedResponse r));
    ("receipt", VObj [("receipt_id", VStr (receipt_id requestId)); ("request_commitment", VStr (eb_commitment r));
                      ("policy", VStr "safety-v1"); ("policy_id", VStr (eb_policyId r)); ("proof_status", VStr "QUEUED");
                      ("signed_receipt", signed_val receipt)]);
    ("route", VObj [("provider", VStr (sl_provider s)); ("model", VStr (eb_model r)); ("contributor_id", VStr (sl_contributorId s));
                    ("credential_id", VStr (sl_credentialId s)); ("attempt", vint (sl_attempt s))]);
    ("usage", usage_val (eb_usage r)); ("trust_status", VStr "CONFIDENTIAL_PROOF_PENDING")] |}.

Definition settle_complete (c : Clock) (requestId : string) (mode : PrivacyMode) (r : ExecuteBody) (s : Selected) (receipt : SignedComputeReceipt)
    : SE Db Thrown Reply :=
  let now := ck_now c in
  let '(i, o) := match eb_usage r with Some (i, o, _) => (i, o) | None => (0, 0) end in
  let ms := match eb_providerTotalMs r with Some t => t | None => 0 end in
  _ ← emit now "route.selected" requestId
        [("request_id", VStr requestId); ("commitment", VStr (eb_commitment r)); ("credential_id", VStr (sl_credentialId s));
         ("contributor_id", VStr (sl_contributorId s)); ("provider", VStr (sl_provider s)); ("model", VStr (eb_model r))];
  _ ← emit now "provider.started" requestId
        [("request_id", VStr requestId); ("commitment", VStr (eb_commitment r)); ("provider", VStr (sl_provider s)); ("model", VStr (eb_model r))];
  _ ← book_usage now requestId s (eb_usage r);
  _ ← update_request requestId
        [("status", VStr "COMPLETE"); ("request_commitment", VStr (eb_commitment r)); ("policy_result", VStr "ALLOW");
         ("selected_credential_id", VStr (sl_credentialId s)); ("provider", VStr (sl_provider s)); ("model", VStr (eb_model r));
         ("policy_ms", vint (eb_policyMs r)); ("provider_ms", or_null vint (eb_providerTotalMs r)); ("total_ms", vint (ck_elapsed c));
         ("input_tokens", vint i); ("output_tokens", vint o);
         ("trust_status", VStr (match mode with secure => "CONFIDENTIAL_PROOF_PENDING" | compatibility => "COMPATIBILITY" end));
         ("completed_at", VStr (iso now))];
  _ ← emit now "provider.completed" requestId
        [("request_id", VStr requestId); ("commitment", VStr (eb_commitment r)); ("credential_id", VStr (sl_credentialId s));
         ("contributor_id", VStr (sl_contributorId s)); ("provider", VStr (sl_provider s)); ("attempt_number", vint (sl_attempt s));
         ("http_status", vint 200); ("latency_ms", vint ms); ("input_tokens", vint i); ("output_tokens", vint o);
         ("total_ms", vint (ck_elapsed c))];
  _ ← insert_child "compute_receipts" db_receipts set_receipts
        [("id", VStr (receipt_id requestId)); ("request_id", VStr requestId); ("receipt_json", reparsed (compute_receipt_val (scr_receipt receipt)));
         ("signature", VStr (scr_enclaveSignature receipt)); ("created_at", VStr (iso now))];
  _ ← emit now "receipt.created" requestId
        [("request_id", VStr requestId); ("receipt_id", VStr (receipt_id requestId)); ("commitment", VStr (eb_commitment r))];
  mret (complete_reply requestId r s receipt).

Definition executed (c : Clock) (requestId : string) (mode : PrivacyMode) (gate : GateResult) (r : ExecuteBody) : SE Db Thrown Reply :=
  match eb_status r with
  | DENIED => malformed c requestId gate
  | status =>
      _ ← record_attempts (ck_now c) requestId (eb_attempts r);
      match status, eb_selected r, eb_receipt r with
      | COMPLETE, Some s, Some receipt => settle_complete c requestId mode r s receipt
      | _, _, _ => settle_failed c requestId r
      end
  end.

(** *** The whole request, one segment after the other

    [execute] is what the enclave answers to the candidates it is sent. *)
Definition runSecureRequest (c0 : Z) (c1 c2 c3 : Clock) (e : SecureRequestEnvelope) (mode : PrivacyMode)
    (gate_answer : res CallError GateResult) (attestation : option Attestation)
    (execute : list CandidateRecord -> res CallError ExecuteBody) : SE Db Thrown Reply :=
  let requestId := env_requestId e in
  _ ← receive c0 e mode;
  match gate_answer with
  | Err err => gate_failed c1 requestId err
  | Ok gate =>
      _ ← gate_recorded c1 requestId gate;
      _ ← prepare c2 requestId gate attestation;
      next ← decide_dispatch c2 e mode gate;
      match next with
      | inl reply => mret reply
      | inr candidates =>
          match execute candidates with
          | Err err => execute_failed c3 requestId gate err
          | Ok body => executed c3 requestId mode gate body
          end
      end
  end.

(** *** watchProof *)
Definition PROOF_ABSOLUTE_CEILING_MS : Z := 15 * 60 * 1000.
Record Watcher : Type := { wt_requestId : string; wt_ceiling : Z; wt_lastStatus : string }.
Definition watchProof (now : Z) (requestId : string) : Watcher :=
  {| wt_requestId := requestId; wt_ceiling := now + PROOF_ABSOLUTE_CEILING_MS; wt_lastStatus := "QUEUED" |}.

(** [UPDATE requests SET trust_status = ... WHERE id = ? AND privacy_mode = 'secure' ...] *)
Definition set_trust (requestId : string) (trust : string) (only_complete : bool) : SE Db Thrown unit :=
  se_modify (fun d => set_requests
    ((fun r => if str_is (col r "id") requestId && str_is (col r "privacy_mode") "secure" &&
                  (negb only_complete || str_is (col r "status") "COMPLETE")
               then spread r [("trust_status", VStr trust)] else r) <$> db_requests d) d).

Definition markFailed (now : Z) (requestId error : string) (proofMs : option Z) : SE Db Thrown unit :=
  _ ← update_request requestId [("proof_status", VStr "FAILED"); ("proof_ms", or_null vint proofMs)];
  _ ← update_proof requestId [("status", VStr "FAILED"); ("error", VStr error); ("proof_ms", or_null vint proofMs);
                              ("completed_at", VStr (iso now))];
  _ ← set_trust requestId "CONFIDENTIAL_PROOF_FAILED" false;
  emit now "proof.failed" requestId [("request_id", VStr requestId); ("error", VStr error); ("proof_ms", vint (default 0 proofMs))].

(** The ceiling check before a poll: [None] when the watch ends. *)
Definition poll (now : Z) (w : Watcher) : SE Db Thrown (option Watcher) :=
  if wt_ceiling w <? now
  then _ ← markFailed now (wt_requestId w) "proving exceeded the 15-minute absolute ceiling" None; mret None
  else mret (Some w).

Definition transition (now : Z) (w : Watcher) (res : ProofResponse) : SE Db Thrown unit :=
  let image := VStr (default "" (pw_imageId res)) in
  if String.eqb (pw_status res) (wt_lastStatus w) then mret tt
  else if String.eqb (pw_status res) "PROVING" then
    emit now "proof.started" (wt_requestId w)
      [("request_id", VStr (wt_requestId w)); ("proof_system", VStr "risc0"); ("guest_image_id", image)]
  else if String.eqb (pw_status res) "GENERATED" then
    emit now "proof.generated" (wt_requestId w)
      [("request_id", VStr (wt_requestId w)); ("proof_system", VStr "risc0"); ("guest_image_id", image);
       ("artifact_digest", VStr (default "" (pw_artifactDigest res)))]
  else mret tt.

Definition proof_ended (now : Z) (requestId : string) (res : ProofResponse) : SE Db Thrown unit :=
  let verified := String.eqb (pw_status res) "VERIFIED" && pw_proofVerified res in
  let status := VStr (if verified then "VERIFIED" else "GENERATED") in
  let ms := or_null vint (pw_proofMs res) in
  _ ← update_request requestId [("proof_status", status); ("proof_ms", ms)];
  _ ← update_proof requestId
        [("status", status); ("verified", vint (if verified then 1 else 0)); ("receipt_blob", json_or_null (pw_artifact res));
         ("receipt_digest", or_null VStr (pw_artifactDigest res)); ("binding_json", json_or_null (pw_binding res));
         ("proof_ms", ms); ("completed_at", VStr (iso now))];
  _ ← (if verified then set_trust requestId "CONFIDENTIAL_VERIFIED" true else mret tt);
  emit now "proof.completed" requestId
    [("request_id", VStr requestId); ("proof_system", VStr "risc0"); ("guest_image_id", VStr (default "" (pw_imageId res)));
     ("artifact_digest", VStr (default "" (pw_artifactDigest res)));
     ("decision_receipt_digest", VStr (default "" (pw_decisionReceiptDigest res))); ("proof_ms", vint (default 0 (pw_proofMs res)));
     ("verified", VBool verified)].

(** The answer of a poll; [None] when the watch ends. *)
Definition polled (now : Z) (w : Watcher) (answer : res CallError ProofResponse) : SE Db Thrown (option Watcher) :=
  let requestId := wt_requestId w in
  match answer with
  | Err (EnclaveRejection code _ _) =>
      if str_is code "PROVER_UNAVAILABLE"
      then _ ← markFailed now requestId "PROVER_UNAVAILABLE during proving" None; mret None
      else mret (Some w)
  | Err EnclaveUnavailable => mret (Some w)
  | Ok res =>
      if bool_decide (pw_status res ∈ ["QUEUED"; "PROVING"; "GENERATED"]) then
        _ ← update_request requestId [("proof_status", VStr (pw_status res))];
        _ ← update_proof requestId (("status", VStr (pw_status res)) ::
              match pw_artifactDigest res with Some digest => [("receipt_digest", VStr digest)] | None => [] end);
        _ ← transition now w res;
        mret (Some {| wt_requestId := requestId; wt_ceiling := wt_ceiling w; wt_lastStatus := pw_status res |})
      else if String.eqb (pw_status res) "FAILED" then
        _ ← markFailed now requestId (default "unknown" (pw_error res)) (pw_proofMs res); mret None
      else _ ← proof_ended now requestId res; mret None
  end.

(** *** All of it, in any interleaving *)
Inductive Task : Type :=
| AwaitGate (e : SecureRequestEnvelope) (mode : PrivacyMode)
| AwaitAttestation (e : SecureRequestEnvelope) (mode : PrivacyMode) (gate : GateResult)
| AwaitExecute (e : SecureRequestEnvelope) (mode : PrivacyMode) (gate : GateResult).

Record CWorld : Type := { cw_db : Db; cw_tasks : list (option Task); cw_watchers : list (option Watcher) }.

Inductive CEvent : Type :=
| Post (now : Z) (e : SecureRequestEnvelope) (mode : PrivacyMode)
| GateAnswers (i : nat) (c : Clock) (answer : res CallError GateResult)
| AttestationAnswers (i : nat) (c : Clock) (attestation : option Attestation)
| ExecuteAnswers (i : nat) (c : Clock) (answer : res CallError ExecuteBody)
| Ticks (j : nat) (now : Z)
| ProofAnswers (j : nat) (now : Z) (answer : res CallError ProofResponse)
| Admin (op : LedgerOp).      (** contributions, patches, deletions *)

(** What a handler sends: a reply, or the 500 of an exception. *)
Inductive COutput : Type := Replied (requestId : string) (r : Reply) | Crashed (requestId : string) (t : Thrown).

Definition finish (requestId : string) (r : res Thrown Reply) : list COutput :=
  match r with Ok r => [Replied requestId r] | Err t => [Crashed requestId t] end.

(** The refusals of [POST /v1/secure/chat/completions]. *)
Definition secure_check (e : SecureRequestEnvelope) (d : Db) : option Reply :=
  if str_empty (env_requestId e) || str_empty (sb_ciphertext (env_box e)) || str_empty (env_model e) then
    Some {| rp_code := 400; rp_body := VObj [("error", VObj [("code", VStr "CTN_INVALID_ENVELOPE");
              ("message", VStr "envelope, ciphertext and aad.model are required")])] |}
  else match find_where "id" (env_requestId e) (db_requests d) with
       | Some _ => Some (error_reply 409 (VStr "CTN_INVALID_ENVELOPE") (VStr "requestId already used") (env_requestId e))
       | None => None
       end.

Definition cstep (w : CWorld) (ev : CEvent) : CWorld * list COutput :=
  let set_task i t d := {| cw_db := d; cw_tasks := <[i := t]> (cw_tasks w); cw_watchers := cw_watchers w |} in
  let set_watcher j x d := {| cw_db := d; cw_tasks := cw_tasks w; cw_watchers := <[j := x]> (cw_watchers w) |} in
  match ev with
  | Post now e mode =>
      let go := match receive now e mode (cw_db w) with
                | (d, Ok _) => ({| cw_db := d; cw_tasks := cw_tasks w ++ [Some (AwaitGate e mode)]; cw_watchers := cw_watchers w |}, [])
                | (d, Err t) => ({| cw_db := d; cw_tasks := cw_tasks w ++ [None]; cw_watchers := cw_watchers w |}, [Crashed (env_requestId e) t])
                end in
      match mode, secure_check e (cw_db w) with
      | secure, Some refusal => (w, [Replied (env_requestId e) refusal])
      | _, _ => go
      end
  | GateAnswers i c answer =>
      match cw_tasks w !! i with
      | Some (Some (AwaitGate e mode)) =>
          match answer with
          | Err err => let '(d, r) := gate_failed c (env_requestId e) err (cw_db w) in (set_task i None d, finish (env_requestId e) r)
          | Ok gate =>
              match gate_recorded c (env_requestId e) gate (cw_db w) with
              | (d, Ok _) => (set_task i (Some (AwaitAttestation e mode gate)) d, [])
              | (d, Err t) => (set_task i None d, [Crashed (env_requestId e) t])
              end
          end
      | _ => (w, [])
      end
  | AttestationAnswers i c attestation =>
      match cw_tasks w !! i with
      | Some (Some (AwaitAttestation e mode gate)) =>
          match prepare c (env_requestId e) gate attestation (cw_db w) with
          | (d, Err t) => (set_task i None d, [Crashed (env_requestId e) t])
          | (d, Ok _) =>
              let watchers := cw_watchers w ++ (if gt_proofStarted gate then [Some (watchProof (ck_now c) (env_requestId e))] else []) in
              let world t d := {| cw_db := d; cw_tasks := <[i := t]> (cw_tasks w); cw_watchers := watchers |} in
              match decide_dispatch c e mode gate d with
              | (d, Ok (inr candidates)) => (world (Some (AwaitExecute e mode gate)) d, [])
              | (d, Ok (inl reply)) => (world None d, [Replied (env_requestId e) reply])
              | (d, Err t) => (world None d, [Crashed (env_requestId e) t])
              end
          end
      | _ => (w, [])
      end
  | ExecuteAnswers i c answer =>
      match cw_tasks w !! i with
      | Some (Some (AwaitExecute e mode gate)) =>
          let '(d, r) := match answer with
                         | Err err => execute_failed c (env_requestId e) gate err (cw_db w)
                         | Ok body => executed c (env_requestId e) mode gate body (cw_db w)
                         end in
          (set_task i None d, finish (env_requestId e) r)
      | _ => (w, [])
      end
  | Ticks j now =>
      match cw_watchers w !! j with
      | Some (Some x) => let '(d, r) := poll now x (cw_db w) in (set_watcher j (match r with Ok x => x | Err _ => None end) d, [])
      | _ => (w, [])
      end
  | ProofAnswers j now answer =>
      match cw_watchers w !! j with
      | Some (Some x) => let '(d, r) := polled now x answer (cw_db w) in (set_watcher j (match r with Ok x => x | Err _ => None end) d, [])
      | _ => (w, [])
      end
  | Admin op => ({| cw_db := set_ledger (ledger_step localeCompare COOLDOWN_MS (db_ledger (cw_db w)) op) (cw_db w);
                    cw_tasks := cw_tasks w; cw_watchers := cw_watchers w |}, [])
  end.
Definition crun (w : CWorld) (evs : list CEvent) : CWorld * list COutput :=
  foldl (fun wo ev => let '(w, out) := cstep wo.1 ev in (w, wo.2 ++ out)) (w, []) evs.
End Coordinator.

Definition db_empty : Db := {| db_requests := []; db_decisions := []; db_attempts := []; db_proofs := []; db_receipts := [];
  db_ledger := {| lg_contributors := []; lg_requests := []; lg_credentials := []; lg_usage := [] |}; db_projector := projector_init |}.
Definition cworld_empty : CWorld := {| cw_db := db_empty; cw_tasks := []; cw_watchers := [] |}.
