(* ===== verification/Trust.v ===== *)
(** * What the trust status says (services/coordinator/src/index.ts)

    An invariant of the [requests] table over every interleaving of requests, proof
    watchers and administration. *)

From S2P Require Import Prelude JsNum Utf8 Json Unicode Types Crypto Authorize Providers Insights Gates GateRequest Dispatch Logs Routing Events Coordinator.
Local Open Scope Z_scope.

(** ** Columns *)
Definition cols_get (cols : row) (k : string) : option jsval :=
  fold_left (fun acc kv => if String.eqb k kv.1 then Some kv.2 else acc) cols None.

Lemma col_spread r cols k : col (spread r cols) k = match cols_get cols k with Some v => v | None => col r k end.
Proof.
  unfold col, spread, cols_get.
  enough (H : forall acc r, (match acc with Some v => obj_get r k = v | None => True end) ->
    obj_get (fold_left (fun acc kv => obj_set acc kv.1 kv.2) cols r) k =
    match fold_left (fun acc kv => if String.eqb k kv.1 then Some kv.2 else acc) cols acc with Some v => v | None => obj_get r k end)
    by exact (H None r I).
  induction cols as [|[a v] cols IH]; intros acc r' Ha; simpl; [by destruct acc|].
  rewrite (IH (if String.eqb k a then Some v else acc)).
  - destruct (fold_left _ cols _) eqn:Hf; [done|]. rewrite obj_get_set. destruct (String.eqb k a) eqn:Hk; [|done].
    exfalso. clear -Hf. revert v Hf. induction cols as [|[b y] cols IH]; intros v; simpl; [done|]. destruct (String.eqb k b); apply IH.
  - rewrite obj_get_set. by destruct (String.eqb k a).
Qed.

(** ** Invariants of stateful code *)
Section preserves.
Context {S E : Type} (I : S -> Prop).
Definition preserves {A} (m : SE S E A) : Prop := forall s, I s -> I (m s).1.
Lemma pres_ret {A} (a : A) : preserves (mret a).
Proof. by intros s. Qed.
Lemma pres_bind {A B} (m : SE S E A) (f : A -> SE S E B) : preserves m -> (forall a, preserves (f a)) -> preserves (m ≫= f).
Proof.
  intros Hm Hf s Hs. specialize (Hm s Hs). unfold mbind, SE_bind. destruct (m s) as [s' [a|e]]; simpl in *; [by apply Hf|done].
Qed.
Lemma pres_guard {B} b e (f : unit -> SE S E B) : (b = true -> preserves (f tt)) -> preserves (se_guard b e ≫= f).
Proof. intros Hf s Hs. unfold se_guard, se_lift, mbind, SE_bind. destruct b; simpl; [by apply Hf|done]. Qed.
Lemma pres_modify (f : S -> S) : (forall s, I s -> I (f s)) -> preserves (se_modify f).
Proof. intros Hf s. apply Hf. Qed.
End preserves.

Section Trust.
Context `{L : LowerCase}.
Context (to_upper : string -> string) (js_text : jsval -> string) (iso : Z -> string).
Context (localeCompare : string -> string -> comparison) (COOLDOWN_MS : Z).

(** The tables a statement may change besides [requests]. *)
Definition on_requests (I : list row -> Prop) (d : Db) : Prop := I (db_requests d).
Lemma pres_emit I now ty id p : preserves (on_requests I) (emit to_upper js_text iso now ty id p).
Proof. intros d Hd. unfold emit. by destruct (emitEvent _ _ _ _ _ _ _ _) as [q []]. Qed.
Lemma pres_child I table get set r : (forall x d, db_requests (set x d) = db_requests d) ->
  preserves (on_requests I) (insert_child table get set r).
Proof. intros Hs d Hd. unfold insert_child. destruct (_ || _); [done|]. unfold on_requests. simpl. by rewrite Hs. Qed.
Lemma pres_decision I id r : preserves (on_requests I) (replace_decision id r).
Proof. intros d Hd. unfold replace_decision. by destruct (known_request _ _). Qed.
Lemma pres_proof I id cols : preserves (on_requests I) (update_proof id cols).
Proof. by intros d Hd. Qed.
Lemma pres_discover I model p now : preserves (on_requests I) (discover localeCompare model p now).
Proof. intros d Hd. unfold discover. by destruct (discoverCandidates _ _ _ _ _) as [l []]. Qed.
Lemma pres_outcome I now a : preserves (on_requests I) (apply_outcome COOLDOWN_MS now a).
Proof. intros d Hd. unfold apply_outcome. by destruct (applyAttemptOutcome _ _ _ _ _ _). Qed.
Lemma pres_assumed I now id a : preserves (on_requests I) (book_assumed now id a).
Proof. unfold book_assumed. destruct (at_upstreamOutcomeUnknown a); [|apply pres_ret]. by apply pres_modify. Qed.
Lemma pres_usage I now id s u : preserves (on_requests I) (book_usage now id s u).
Proof.
  intros d Hd. unfold book_usage. destruct (match u with Some (i, o, c) => _ | None => _ end) as [[i o] q].
  by destruct (recordUsage _ _ _ _ _ _ _ _) as [l []].
Qed.

Lemma pres_attempts I now id l : preserves (on_requests I) (record_attempts to_upper js_text iso COOLDOWN_MS now id l).
Proof.
  induction l as [|a l IH]; [apply pres_ret|]. apply pres_bind; [|by intros _].
  apply pres_bind; [apply pres_outcome|intros action]. apply pres_bind; [by apply pres_child|intros _].
  apply pres_bind; [apply pres_assumed|intros _]. destruct (at_success a); [apply pres_ret|apply pres_emit].
Qed.

(** ** The invariant of a row

    [Ev]: the requests a verified proof was reported for.  [open]: the requests whose
    handler still runs, with their mode; [closing]: the one being completed. *)
Definition trust_allowed (m : PrivacyMode) (t : jsval) : Prop :=
  match m with
  | compatibility => t = VUndef \/ t = VStr "COMPATIBILITY"
  | secure => True
  end.
Definition row_ok (Ev : string -> Prop) (r : row) : Prop :=
  exists id m, col r "id" = VStr id /\ col r "privacy_mode" = VStr (privacy_str m) /\
    trust_allowed m (col r "trust_status") /\
    (col r "trust_status" = VStr "CONFIDENTIAL_VERIFIED" -> col r "status" = VStr "COMPLETE" /\ m = secure /\ Ev id).

Abbreviation key := (string * PrivacyMode)%type.
Definition open_ok (r : row) (km : key) : Prop :=
  col r "id" = VStr km.1 -> col r "privacy_mode" = VStr (privacy_str km.2) /\
    col r "trust_status" <> VStr "CONFIDENTIAL_VERIFIED".
Definition running_ok (r : row) (km : key) : Prop :=
  open_ok r km /\ (col r "id" = VStr km.1 -> col r "status" <> VStr "COMPLETE").

Record ok (Ev : string -> Prop) (running closing : list key) (r : row) : Prop := {
  ok_row : row_ok Ev r;
  ok_running : Forall (running_ok r) running;
  ok_closing : Forall (open_ok r) closing;
}.
Definition table_ok (Ev : string -> Prop) (running closing : list key) (rows : list row) : Prop :=
  Forall (ok Ev running closing) rows /\ Forall (fun km => exists r, r ∈ rows /\ col r "id" = VStr km.1) (running ++ closing).

(** What the columns of an update of request [km] may be. *)
Definition fits (km : key) (may_complete : bool) (cols : row) : bool :=
  match cols_get cols "id", cols_get cols "privacy_mode" with
  | None, None =>
      match cols_get cols "trust_status" with
      | None => true
      | Some t => negb (str_is t "CONFIDENTIAL_VERIFIED") &&
                  match km.2 with secure => true | compatibility => str_is t "COMPATIBILITY" end
      end &&
      match cols_get cols "status" with None => true | Some t => may_complete || negb (str_is t "COMPLETE") end
  | _, _ => false
  end.

Lemma privacy_inj m m' : privacy_str m = privacy_str m' -> m = m'.
Proof. by destruct m, m'. Qed.

Lemma fits_ok Ev running closing km cols r (may : bool) :
  fits km may cols = true -> col r "id" = VStr km.1 -> ok Ev running closing r ->
  (if may then km ∈ closing /\ km.1 ∉ running.*1 else km ∈ running) ->
  ok Ev running closing (spread r cols).
Proof.
  unfold fits. intros Hf Hid [(id & m & Hi & Hp & Ht & Hv) Hrun Hclo] Hin.
  destruct (cols_get cols "id") eqn:Eid; [done|]. destruct (cols_get cols "privacy_mode") eqn:Ep; [done|].
  apply andb_true_iff in Hf as [Hft Hfs].
  assert (Hopen : open_ok r km).
  { destruct may; [destruct Hin as [Hin _]; rewrite List.Forall_forall in Hclo; apply Hclo; by apply list_elem_of_In|].
    rewrite List.Forall_forall in Hrun. apply Hrun. by apply list_elem_of_In. }
  destruct (Hopen Hid) as [Hpm Hnv]. rewrite Hp in Hpm. injection Hpm as Hpm. apply privacy_inj in Hpm.
  assert (Hcid : col (spread r cols) "id" = col r "id") by (by rewrite col_spread, Eid).
  assert (Hcp : col (spread r cols) "privacy_mode" = col r "privacy_mode") by (by rewrite col_spread, Ep).
  assert (Hct : col (spread r cols) "trust_status" <> VStr "CONFIDENTIAL_VERIFIED" /\ trust_allowed m (col (spread r cols) "trust_status")).
  { rewrite col_spread. destruct (cols_get cols "trust_status") as [t|]; [|done].
    apply andb_true_iff in Hft as [H1 H2]. split; [intros ->; done|]. rewrite Hpm. unfold trust_allowed. destruct km.2; [done|].
    right. by apply str_is_true. }
  destruct Hct as [Hct Hta]. split.
  - exists id, m. rewrite Hcid, Hcp. split_and!; try done.
  - apply List.Forall_forall. intros km' Hin'. rewrite List.Forall_forall in Hrun. destruct (Hrun km' Hin') as [Ho Hs].
    split; unfold open_ok; rewrite Hcid; intros Hk; [rewrite Hcp; split; [by apply Ho|done]|].
    rewrite col_spread. destruct (cols_get cols "status") as [t|] eqn:Es; [|by apply Hs].
    destruct may; [exfalso; destruct Hin as [_ Hin]|by intros ->].
    assert (Hkk : km.1 = km'.1) by congruence. apply Hin. rewrite Hkk. by apply list_elem_of_fmap_2, list_elem_of_In.
  - eapply Forall_impl; [exact Hclo|]. intros km' Ho. unfold open_ok. rewrite Hcid, Hcp. intros Hk. split; [by apply Ho|done].
Qed.

Lemma table_map Ev running closing (f : row -> row) rows :
  (forall r, col (f r) "id" = col r "id") -> (forall r, r ∈ rows -> ok Ev running closing r -> ok Ev running closing (f r)) ->
  table_ok Ev running closing rows -> table_ok Ev running closing (f <$> rows).
Proof.
  intros Hid Hf [Hall Hex]. split.
  - apply Forall_fmap. rewrite List.Forall_forall in *. intros r Hr. apply Hf; [by apply list_elem_of_In|by apply Hall].
  - eapply Forall_impl; [exact Hex|]. intros km (r & Hr & Hk). exists (f r). split; [by apply list_elem_of_fmap_2|by rewrite Hid].
Qed.

Lemma pres_update Ev running closing km may cols :
  fits km may cols = true -> (if may then km ∈ closing /\ km.1 ∉ running.*1 else km ∈ running) ->
  preserves (on_requests (table_ok Ev running closing)) (update_request km.1 cols).
Proof.
  intros Hf Hin d Hd. unfold update_request, se_modify, on_requests, update_where. simpl. apply table_map; [| |exact Hd].
  - intros r. destruct (str_is _ _); [|done]. rewrite col_spread. unfold fits in Hf. by destruct (cols_get cols "id").
  - intros r _ Hr. destruct (str_is (col r "id") km.1) eqn:Hk; [|done]. apply str_is_true in Hk. by eapply fits_ok.
Qed.

(** Columns the invariant does not speak of. *)
Definition neutral (cols : row) : bool :=
  match cols_get cols "id", cols_get cols "privacy_mode", cols_get cols "trust_status", cols_get cols "status" with
  | None, None, None, None => true | _, _, _, _ => false
  end.
Lemma pres_neutral Ev running closing id cols : neutral cols = true ->
  preserves (on_requests (table_ok Ev running closing)) (update_request id cols).
Proof.
  unfold neutral. intros Hn d Hd. unfold update_request, se_modify, on_requests, update_where. simpl.
  destruct (cols_get cols "id") eqn:E1; [done|]. destruct (cols_get cols "privacy_mode") eqn:E2; [done|].
  destruct (cols_get cols "trust_status") eqn:E3; [done|]. destruct (cols_get cols "status") eqn:E4; [done|].
  apply table_map; [| |exact Hd].
  - intros r. destruct (str_is _ _); [|done]. by rewrite col_spread, E1.
  - intros r _ [(x & m & H1 & H2 & H3 & H4) Hrun Hclo]. destruct (str_is (col r "id") id); [|by split; [exists x, m|..]].
    split; unfold row_ok, running_ok, open_ok in *; rewrite !col_spread, ?E1, ?E2, ?E3, ?E4; [by exists x, m|done|done].
Qed.

Lemma pres_trust Ev running id trust (only : bool) :
  (if only then trust = "CONFIDENTIAL_VERIFIED" /\ Ev id else trust <> "CONFIDENTIAL_VERIFIED") ->
  preserves (on_requests (table_ok Ev running [])) (set_trust id trust only).
Proof.
  intros Ht d Hd. unfold set_trust, se_modify, on_requests. cbn [fst db_requests set_requests]. apply table_map; [| |exact Hd].
  - intros r. destruct (_ && _ && _); [|done]. by rewrite col_spread.
  - intros r _ [(x & m & H1 & H2 & H3 & H4) Hrun Hclo]. destruct (_ && _ && _) eqn:Hc; [|by split; [exists x, m|..]].
    apply andb_true_iff in Hc as [[Hid%str_is_true Hp%str_is_true]%andb_true_iff Hs].
    assert (Hm : m = secure) by (apply privacy_inj; change (privacy_str m = "secure"); congruence). subst m.
    split; [|apply List.Forall_forall; intros km Hkm; rewrite List.Forall_forall in Hrun; destruct (Hrun km Hkm) as [Ho Hst]|constructor];
      unfold row_ok, running_ok, open_ok in *; rewrite !col_spread; cbn [cols_get fold_left fst snd String.eqb Ascii.eqb Bool.eqb].
    + exists x, secure. split_and!; try done. intros [= ->]. destruct only; [|done]. destruct Ht as [_ Hev].
      apply str_is_true in Hs. split_and!; [done|done|]. assert (x = id) as -> by congruence. done.
    + split; [|done]. intros Hk. split; [by apply Ho|]. intros [= ->]. destruct only; [|done].
      apply str_is_true in Hs. by apply (Hst Hk).
Qed.

(** ** Segments *)
Ltac pres_step :=
  first [ apply pres_emit | apply pres_ret | apply pres_decision | apply pres_proof | apply pres_discover | apply pres_outcome
        | apply pres_assumed | apply pres_usage | apply pres_attempts | (apply pres_child; by intros)
        | (apply pres_bind; [|intros ?]) ].

Section running.
Context (Ev : string -> Prop) (running : list key) (k : string) (m : PrivacyMode) (Hin : (k, m) ∈ running).
Local Abbreviation I := (on_requests (table_ok Ev running [])).

Lemma pres_running cols : fits (k, m) false cols = true -> preserves I (update_request k cols).
Proof using Hin. intros Hf. by apply (pres_update Ev running [] (k, m) false). Qed.

Lemma pres_gate_failed c err : preserves I (gate_failed to_upper js_text iso c k err).
Proof using Hin.
  unfold gate_failed. destruct err as [|code message http]; [|destruct (str_is code _)];
    try (apply pres_guard; intros _); (apply pres_bind; [by apply pres_running|intros ?]); repeat pres_step.
Qed.
Lemma pres_gate_recorded c gate : preserves I (gate_recorded iso c k gate).
Proof using Hin. apply pres_bind; [by apply pres_running|intros ?]. pres_step. Qed.
Lemma pres_prepare c gate att : preserves I (prepare to_upper js_text iso c k gate att).
Proof using Hin.
  apply pres_bind; [destruct att; repeat pres_step|intros ?]. unfold queue_proof. destruct (gt_proofStarted gate); [|pres_step].
  apply pres_bind; [by apply pres_running|intros ?]. repeat pres_step.
Qed.
Lemma pres_decide c e gate : env_requestId e = k -> preserves I (decide_dispatch to_upper js_text iso localeCompare c e m gate).
Proof using Hin.
  intros He. unfold decide_dispatch. rewrite He. destruct (gt_decision gate).
  - pres_step; [pres_step|]. pres_step; [pres_step|]. destruct (dc_candidates _); [|pres_step].
    apply pres_bind; [|intros ?; pres_step]. apply pres_bind; [by apply pres_running|intros ?]. repeat pres_step.
  - apply pres_bind; [|intros ?; pres_step]. apply pres_bind; [apply pres_running; by destruct m|intros ?]. repeat pres_step.
Qed.
Lemma pres_execute_failed c gate err : preserves I (execute_failed to_upper js_text iso c k gate err).
Proof using Hin.
  unfold execute_failed. destruct err; try (apply pres_guard; intros _); (apply pres_bind; [by apply pres_running|intros ?]); repeat pres_step.
Qed.
Lemma pres_malformed c gate : preserves I (malformed to_upper js_text iso c k gate).
Proof using Hin. apply pres_bind; [by apply pres_running|intros ?]. repeat pres_step. Qed.
Lemma pres_settle_failed c r : preserves I (settle_failed to_upper js_text iso c k r).
Proof using Hin. apply pres_bind; [by apply pres_running|intros ?]. repeat pres_step. Qed.
End running.

Lemma pres_settle_complete Ev running k m c r s receipt : k ∉ running.*1 ->
  preserves (on_requests (table_ok Ev running [(k, m)])) (settle_complete to_upper js_text iso c k m r s receipt).
Proof.
  intros Hk. unfold settle_complete. destruct (match eb_usage r with Some (i, o, _) => (i, o) | None => (0, 0) end) as [i o].
  do 3 (pres_step; [pres_step|]). apply pres_bind; [|intros ?; repeat pres_step].
  apply (pres_update Ev running [(k, m)] (k, m) true); [by destruct m|]. split; [by left|done].
Qed.

Section watching.
Context (Ev : string -> Prop) (running : list key).
Local Abbreviation I := (on_requests (table_ok Ev running [])).
Lemma pres_markFailed now id error ms : preserves I (markFailed to_upper js_text iso now id error ms).
Proof.
  apply pres_bind; [by apply pres_neutral|intros ?]. pres_step; [pres_step|]. apply pres_bind; [by apply pres_trust|intros ?]. pres_step.
Qed.
Lemma pres_poll now w : preserves I (poll to_upper js_text iso now w).
Proof. unfold poll. destruct (_ <? _); [|pres_step]. apply pres_bind; [apply pres_markFailed|intros ?; pres_step]. Qed.
Lemma pres_polled now w answer :
  (forall res, answer = Ok res -> pw_status res = "VERIFIED" -> pw_proofVerified res = true -> Ev (wt_requestId w)) ->
  preserves I (polled to_upper js_text iso now w answer).
Proof.
  intros Hev. unfold polled. destruct answer as [res|[|code msg http]]; [|pres_step|].
  - case_bool_decide.
    + apply pres_bind; [by apply pres_neutral|intros ?]. pres_step; [pres_step|]. pres_step; [|pres_step].
      unfold transition. repeat case_match; pres_step.
    + destruct (String.eqb _ _); [apply pres_bind; [apply pres_markFailed|intros ?; pres_step]|].
      pres_step; [|pres_step]. unfold proof_ended. apply pres_bind; [by apply pres_neutral|intros ?].
      pres_step; [pres_step|]. pres_step; [|pres_step].
      destruct (String.eqb_spec (pw_status res) "VERIFIED") as [Hv|]; simpl; [|pres_step].
      destruct (pw_proofVerified res) eqn:Hp; [|pres_step]. apply pres_trust. split; [done|]. by eapply Hev.
  - destruct (str_is _ _); [|pres_step]. apply pres_bind; [apply pres_markFailed|intros ?; pres_step].
Qed.
End watching.

(** ** The world *)
Definition task_key (t : Task) : key :=
  match t with AwaitGate e m | AwaitAttestation e m _ | AwaitExecute e m _ => (env_requestId e, m) end.
Definition running (w : CWorld) : list key := task_key <$> omap (fun t => t) (cw_tasks w).
Definition winv (Ev : string -> Prop) (w : CWorld) : Prop :=
  NoDup (running w).*1 /\ table_ok Ev (running w) [] (db_requests (cw_db w)).

Lemma omap_insert_perm {A} (l : list (option A)) i x y : l !! i = Some (Some x) ->
  x :: omap (fun t => t) (<[i := y]> l) ≡ₚ option_list y ++ omap (fun t => t) l.
Proof.
  revert i. induction l as [|z l IH]; intros [|i]; simpl; try done.
  - intros [= ->]. destruct y; simpl; [by constructor|done].
  - intros H. specialize (IH i H). destruct z as [z|]; simpl; [|exact IH]. rewrite (Permutation_swap z x), IH. by rewrite Permutation_middle.
Qed.

(** Fewer obligations: a task ends, or turns to completing. *)
Lemma table_mono Ev r1 c1 r2 c2 rows : (forall km, km ∈ r2 -> km ∈ r1) -> (forall km, km ∈ c2 -> km ∈ c1 \/ km ∈ r1) ->
  table_ok Ev r1 c1 rows -> table_ok Ev r2 c2 rows.
Proof.
  intros Hr Hc [Hall Hex]. split.
  - eapply Forall_impl; [exact Hall|]. intros r [H1 H2 H3]. rewrite !List.Forall_forall in *.
    split; [done| |]; apply List.Forall_forall; intros km Hkm%list_elem_of_In.
    + by apply H2, list_elem_of_In, Hr.
    + destruct (Hc km Hkm) as [H|H]; [by apply H3, list_elem_of_In|by apply (H2 km), list_elem_of_In].
  - rewrite List.Forall_forall in *. intros km Hkm%list_elem_of_In. apply Hex, list_elem_of_In.
    apply elem_of_app in Hkm as [Hkm|Hkm]; [apply elem_of_app; left; by apply Hr|].
    destruct (Hc km Hkm); apply elem_of_app; auto.
Qed.
Lemma table_evidence (Ev Ev' : string -> Prop) r c rows : (forall id, Ev id -> Ev' id) -> table_ok Ev r c rows -> table_ok Ev' r c rows.
Proof.
  intros He [Hall Hex]. split; [|done]. eapply Forall_impl; [exact Hall|]. intros x [(id & m & H1 & H2 & H3 & H4) Hr Hc].
  split; [|done|done]. exists id, m. split_and!; try done. intros Hv. destruct (H4 Hv) as (? & ? & ?). auto.
Qed.

Definition put (w : CWorld) (i : nat) (y : option Task) (d : Db) (ws : list (option Watcher)) : CWorld :=
  {| cw_db := d; cw_tasks := <[i := y]> (cw_tasks w); cw_watchers := ws |}.

Lemma running_put w i t y d ws : cw_tasks w !! i = Some (Some t) ->
  task_key t :: running (put w i y d ws) ≡ₚ (task_key <$> option_list y) ++ running w.
Proof. intros Hi. unfold running. simpl. rewrite <-fmap_app, <-(omap_insert_perm _ _ _ y Hi). done. Qed.

Lemma winv_continue Ev w i t t' d ws : winv Ev w -> cw_tasks w !! i = Some (Some t) -> task_key t' = task_key t ->
  table_ok Ev (running w) [] (db_requests d) -> winv Ev (put w i (Some t') d ws).
Proof.
  intros [Hnd _] Hi Hk Ht. pose proof (running_put w i t (Some t') d ws Hi) as Hp. simpl in Hp. rewrite Hk in Hp.
  apply Permutation_cons_inv in Hp. split; [by rewrite Hp|]. simpl. eapply table_mono; [| |exact Ht].
  - intros km. by rewrite Hp.
  - intros km []%not_elem_of_nil.
Qed.
Lemma winv_end Ev w i t d ws : winv Ev w -> cw_tasks w !! i = Some (Some t) ->
  table_ok Ev (running w) [] (db_requests d) -> winv Ev (put w i None d ws).
Proof.
  intros [Hnd _] Hi Ht. pose proof (running_put w i t None d ws Hi) as Hp. simpl in Hp. split.
  - rewrite <-Hp in Hnd. simpl in Hnd. by apply NoDup_cons in Hnd as [_ Hnd].
  - simpl. eapply table_mono; [| |exact Ht].
    + intros km Hkm. rewrite <-Hp. by right.
    + intros km []%not_elem_of_nil.
Qed.
Lemma task_running w i t : cw_tasks w !! i = Some (Some t) -> task_key t ∈ running w.
Proof. intros Hi. apply list_elem_of_fmap_2. apply list_elem_of_omap. exists (Some t). split; [by eapply list_elem_of_lookup_2|done]. Qed.

Local Abbreviation step := (cstep to_upper js_text iso localeCompare COOLDOWN_MS).

(** The end of a dispatch, the one place that completes a request. *)
Lemma winv_executed Ev w i c e m gate body ws : winv Ev w -> cw_tasks w !! i = Some (Some (AwaitExecute e m gate)) ->
  winv Ev (put w i None (executed to_upper js_text iso COOLDOWN_MS c (env_requestId e) m gate body (cw_db w)).1 ws).
Proof.
  intros Hw Hi. pose proof (task_running _ _ _ Hi) as Hin. simpl in Hin. destruct Hw as [Hnd Ht].
  destruct (eb_status body) eqn:Hs.
  - pose proof (running_put w i _ None (cw_db w) ws Hi) as Hp. simpl in Hp.
    assert (Hk : env_requestId e ∉ (running (put w i None (cw_db w) ws)).*1).
    { rewrite <-Hp in Hnd. simpl in Hnd. by apply NoDup_cons in Hnd as [Hnd _]. }
    assert (Hpres : preserves (on_requests (table_ok Ev (running (put w i None (cw_db w) ws)) [(env_requestId e, m)]))
      (executed to_upper js_text iso COOLDOWN_MS c (env_requestId e) m gate body)).
    { unfold executed. rewrite Hs. apply pres_bind; [apply pres_attempts|intros ?].
      destruct (eb_selected body) as [s|]; [destruct (eb_receipt body) as [r|]|]; [by apply pres_settle_complete| |].
      all: apply pres_bind; [|intros ?; repeat pres_step];
        by apply (pres_update Ev _ [(env_requestId e, m)] (env_requestId e, m) true); [done|split; [by left|]]. }
    assert (Ht' : table_ok Ev (running (put w i None (cw_db w) ws)) [(env_requestId e, m)] (db_requests (cw_db w))).
    { eapply table_mono; [| |exact Ht].
      - intros km Hkm. rewrite <-Hp. by right.
      - intros km ->%list_elem_of_singleton. by right. }
    apply Hpres in Ht'. split.
    + change (NoDup (running (put w i None (cw_db w) ws)).*1). rewrite <-Hp in Hnd. simpl in Hnd. by apply NoDup_cons in Hnd as [_ Hnd].
    + eapply table_mono; [| |exact Ht']; [done|]. intros km []%not_elem_of_nil.
  - eapply winv_end; [done..|]. unfold executed. rewrite Hs. by apply (pres_malformed Ev (running w) _ m Hin).
  - eapply winv_end; [done..|]. unfold executed. rewrite Hs.
    apply (pres_bind (on_requests (table_ok Ev (running w) []))); [apply pres_attempts|intros ?|exact Ht].
    by apply (pres_settle_failed Ev (running w) _ m Hin).
Qed.

Lemma str_is_other a k : (forall s, a = VStr s -> s <> k) -> str_is a k = false.
Proof. intros H. destruct (str_is a k) eqn:E; [|done]. apply str_is_true in E as ->. by destruct (H k). Qed.
Lemma taken_false rows r id : col r "id" = VStr id -> taken rows r = false -> forall x, x ∈ rows -> col x "id" <> VStr id.
Proof.
  unfold taken. intros Hid Ht x Hx He. apply not_true_iff_false in Ht. apply Ht, existsb_exists. exists x.
  split; [by apply list_elem_of_In|]. rewrite Hid. by apply str_is_true.
Qed.

(** A new request: its row is inserted last and its handler is the only one. *)
Lemma winv_post Ev w now e m : winv Ev w -> winv Ev (step w (Post now e m)).1.
Proof.
  intros [Hnd Ht].
  assert (Hgo : forall out : Thrown -> list COutput, winv Ev (match receive to_upper js_text iso localeCompare COOLDOWN_MS now e m (cw_db w) with
     | (d, Ok _) => ({| cw_db := d; cw_tasks := cw_tasks w ++ [Some (AwaitGate e m)]; cw_watchers := cw_watchers w |}, [] : list COutput)
     | (d, Err t) => ({| cw_db := d; cw_tasks := cw_tasks w ++ [None]; cw_watchers := cw_watchers w |}, out t)
     end).1).
  2: { simpl. destruct m; [destruct (secure_check _ _); [by split|]|]; apply Hgo. }
  intros out. unfold receive, insert_request, mbind, SE_bind.
  destruct (taken (db_requests (cw_db w)) (request_row iso now e m)) eqn:Htk.
  { simpl. split; [unfold running; simpl; by rewrite omap_app, app_nil_r|]. unfold running. simpl. by rewrite omap_app, app_nil_r. }
  pose proof (taken_false (db_requests (cw_db w)) (request_row iso now e m) (env_requestId e) eq_refl Htk) as Hfresh.
  assert (Hnew : forall clo, clo ⊆ [(env_requestId e, m)] -> table_ok Ev (running w ++ clo) [] (db_requests (cw_db w) ++ [request_row iso now e m])).
  { intros clo Hclo. destruct Ht as [Hall Hex]. split.
    - apply Forall_app. split.
      + apply List.Forall_forall. intros r Hr. rewrite List.Forall_forall in Hall. destruct (Hall r Hr) as [H1 H2 H3].
        split; [done| |done]. apply Forall_app. split; [done|]. apply List.Forall_forall. intros km Hkm%list_elem_of_In.
        apply Hclo, list_elem_of_singleton in Hkm as ->. apply list_elem_of_In in Hr. split; intros Hc; by destruct (Hfresh r Hr).
      + repeat constructor.
        * exists (env_requestId e), m. split_and!; try done. destruct m; simpl; auto.
        * apply List.Forall_forall. intros km Hkm%list_elem_of_In. apply elem_of_app in Hkm as [Hkm|Hkm].
          -- rewrite List.Forall_forall in Hex. destruct (Hex km) as (r & Hr & Hk); [apply list_elem_of_In, elem_of_app; by left|].
             split; intros [= Hc]; exfalso; by apply (Hfresh r Hr); rewrite Hk, <-Hc.
          -- apply Hclo, list_elem_of_singleton in Hkm as ->. by split.
    - apply List.Forall_forall. intros km Hkm%list_elem_of_In. rewrite app_nil_r in Hkm. apply elem_of_app in Hkm as [Hkm|Hkm].
      + rewrite List.Forall_forall in Hex. destruct (Hex km) as (r & Hr & Hk); [apply list_elem_of_In, elem_of_app; by left|].
        exists r. split; [apply elem_of_app; by left|done].
      + apply Hclo, list_elem_of_singleton in Hkm as ->. eexists. split; [apply elem_of_app; right; by left|done]. }
  set (d1 := set_ledger _ (set_requests _ (cw_db w))).
  assert (Hem : forall ty p, db_requests (emit to_upper js_text iso now ty (env_requestId e) p d1).1 = db_requests d1).
  { intros ty p. unfold emit. by destruct (emitEvent _ _ _ _ _ _ _ _) as [q []]. }
  destruct (emit _ _ _ _ _ _ _ d1) as [d [u|t]] eqn:He; cbn [fst].
  - pose proof (f_equal (fun x => db_requests x.1) He) as Hr. cbn beta in Hr. rewrite Hem in Hr. cbn [fst] in Hr. symmetry in Hr.
    unfold winv, running. simpl. rewrite omap_app, fmap_app, fmap_app, Hr. simpl. fold (running w). split.
    + apply NoDup_app. split_and!; [done| |apply NoDup_singleton]. intros x Hx ->%list_elem_of_singleton.
      apply list_elem_of_fmap in Hx as (km & Hkx & Hkm). destruct Ht as [_ Hex]. rewrite List.Forall_forall in Hex.
      destruct (Hex km) as (r & Hrr & Hk); [apply list_elem_of_In, elem_of_app; by left|]. by apply (Hfresh r Hrr); rewrite Hk, <-Hkx.
    + by apply Hnew.
  - pose proof (f_equal (fun x => db_requests x.1) He) as Hr. cbn beta in Hr. rewrite Hem in Hr. cbn [fst] in Hr. symmetry in Hr.
    unfold winv, running. simpl. rewrite omap_app, app_nil_r, Hr. fold (running w). split; [done|].
    specialize (Hnew []). rewrite app_nil_r in Hnew. apply Hnew. set_solver.
Qed.

Lemma winv_step Ev w ev : winv Ev w ->
  (forall j now res x, ev = ProofAnswers j now (Ok res) -> cw_watchers w !! j = Some (Some x) ->
     pw_status res = "VERIFIED" -> pw_proofVerified res = true -> Ev (wt_requestId x)) ->
  winv Ev (step w ev).1.
Proof.
  intros Hw Hev. pose proof Hw as [Hnd Ht]. destruct ev as [now e m|i c ans|i c att|i c ans|j now|j now ans|op].
  - by apply winv_post.
  - simpl. destruct (cw_tasks w !! i) as [[[e m|e m g|e m g]|]|] eqn:Hi; try done.
    pose proof (task_running _ _ _ Hi) as Hin. destruct ans as [gate|err].
    + pose proof (pres_gate_recorded Ev (running w) _ m Hin c gate (cw_db w) Ht) as Hp.
      destruct (gate_recorded _ _ _ _ _) as [d [u|t]]; [by apply (winv_continue Ev w i (AwaitGate e m))|by apply (winv_end Ev w i (AwaitGate e m))].
    + pose proof (pres_gate_failed Ev (running w) _ m Hin c err (cw_db w) Ht) as Hp.
      destruct (gate_failed _ _ _ _ _ _ _) as [d r]. by apply (winv_end Ev w i (AwaitGate e m)).
  - simpl. destruct (cw_tasks w !! i) as [[[e m|e m g|e m g]|]|] eqn:Hi; try done.
    pose proof (task_running _ _ _ Hi) as Hin.
    pose proof (pres_prepare Ev (running w) _ m Hin c g att (cw_db w) Ht) as Hp.
    destruct (prepare _ _ _ _ _ _ _ _) as [d [u|t]]; [|by apply (winv_end Ev w i (AwaitAttestation e m g))].
    pose proof (pres_decide Ev (running w) _ m Hin c e g eq_refl d Hp) as Hd.
    destruct (decide_dispatch _ _ _ _ _ _ _ _ _) as [d2 [[reply|cands]|t]];
      [by eapply (winv_end Ev w i (AwaitAttestation e m g))|by eapply (winv_continue Ev w i (AwaitAttestation e m g))|by eapply (winv_end Ev w i (AwaitAttestation e m g))].
  - simpl. destruct (cw_tasks w !! i) as [[[e m|e m g|e m g]|]|] eqn:Hi; try done.
    pose proof (task_running _ _ _ Hi) as Hin. destruct ans as [body|err].
    + pose proof (winv_executed Ev w i c e m g body (cw_watchers w) Hw Hi) as Hx.
      destruct (executed _ _ _ _ _ _ _ _ _ _) as [d r]. exact Hx.
    + pose proof (pres_execute_failed Ev (running w) _ m Hin c g err (cw_db w) Ht) as Hp.
      destruct (execute_failed _ _ _ _ _ _ _ _) as [d r]. by apply (winv_end Ev w i (AwaitExecute e m g)).
  - simpl. destruct (cw_watchers w !! j) as [[x|]|] eqn:Hj; try done.
    pose proof (pres_poll Ev (running w) now x (cw_db w) Ht) as Hp. by destruct (poll _ _ _ _ _ _) as [d r].
  - simpl. destruct (cw_watchers w !! j) as [[x|]|] eqn:Hj; try done.
    pose proof (pres_polled Ev (running w) now x ans) as Hp. destruct (polled _ _ _ _ _ _ _) as [d r] eqn:Hd.
    split; [exact Hnd|]. specialize (Hp (fun res He Hs Hv => Hev j now res x (f_equal _ He) Hj Hs Hv) (cw_db w) Ht).
    by rewrite Hd in Hp.
  - by split.
Qed.

Local Abbreviation run_world := (crun to_upper js_text iso localeCompare COOLDOWN_MS cworld_empty).

(** A poll for the request was answered VERIFIED, with the verdict of the enclave's
    verifier. *)
Definition proof_reported (evs : list CEvent) (id : string) : Prop :=
  exists pre j now res post x, evs = pre ++ ProofAnswers j now (Ok res) :: post /\ cw_watchers (run_world pre).1 !! j = Some (Some x) /\ wt_requestId x = id /\ pw_status res = "VERIFIED" /\ pw_proofVerified res = true.

Lemma crun_snoc w evs ev : (crun to_upper js_text iso localeCompare COOLDOWN_MS w (evs ++ [ev])).1 =
  (step (crun to_upper js_text iso localeCompare COOLDOWN_MS w evs).1 ev).1.
Proof. unfold crun. rewrite foldl_app. simpl. destruct (foldl _ _ evs) as [w' out]. simpl. by destruct (step w' ev). Qed.

Lemma winv_run evs : winv (proof_reported evs) (run_world evs).1.
Proof.
  induction evs as [|ev evs IH] using rev_ind.
  - split; [constructor|]. split; constructor.
  - rewrite crun_snoc. apply winv_step.
    + destruct IH as [Hnd Ht]. split; [done|]. eapply table_evidence; [|exact Ht].
      intros id (pre & j & now & res & post & x & -> & H). exists pre, j, now, res, (post ++ [ev]), x. split; [by rewrite <-(assoc_L (++))|done].
    + intros j now res x -> Hj Hs Hp. by exists evs, j, now, res, [], x.
Qed.
End Trust.
Create HintDb pres.
#[export] Hint Resolve pres_ret pres_emit pres_decision pres_proof pres_discover pres_outcome pres_assumed pres_usage pres_attempts : pres.


(** C11. The trust label is honest.  In every interleaving of requests, proof polls,
    contributions and revocations, a request says CONFIDENTIAL_VERIFIED only when it
    was posted to the secure endpoint, it is COMPLETE, and a poll for this very request
    was answered VERIFIED with the verdict of the enclave's verifier; a request of
    the compatibility endpoint never carries a CONFIDENTIAL label. *)
Theorem trust_status_sound `{LowerCase} to_upper js_text iso localeCompare COOLDOWN_MS evs :
  let w := (crun to_upper js_text iso localeCompare COOLDOWN_MS cworld_empty evs).1 in
  Forall (fun r => exists id m,
    col r "id" = VStr id /\ col r "privacy_mode" = VStr (privacy_str m) /\
    (m = compatibility -> col r "trust_status" = VUndef \/ col r "trust_status" = VStr "COMPATIBILITY") /\
    (col r "trust_status" = VStr "CONFIDENTIAL_VERIFIED" ->
       m = secure /\ col r "status" = VStr "COMPLETE" /\
       proof_reported to_upper js_text iso localeCompare COOLDOWN_MS evs id)) (db_requests (cw_db w)).
Proof.
  intros w. destruct (winv_run to_upper js_text iso localeCompare COOLDOWN_MS evs) as [_ [Hall _]].
  eapply Forall_impl; [exact Hall|]. intros r [(id & m & H1 & H2 & H3 & H4) _ _]. exists id, m.
  split_and!; try done; [by intros ->|]. intros Hv. destruct (H4 Hv) as (? & ? & ?). done.
Qed.

(** ** Examples *)
Definition ex_env : SecureRequestEnvelope := {|
  env_requestId := "req_1"; env_enclaveKeyId := "k"; env_box := {| sb_enc := "e"; sb_ciphertext := "c" |};
  env_apiVersion := "v1"; env_requestedPolicy := "safety-v1"; env_model := "m" |}.
Definition ex_gate (d : PolicyDecision) : GateResult := {|
  gt_decision := d; gt_commitment := "0xabcdef12"; gt_policyId := "p"; gt_imageId := "0x1";
  gt_decisionReceipt := {| sdr_receipt := {| dr_requestId := "req_1"; dr_requestCommitment := "0xabcdef12"; dr_policyId := "p";
      dr_decision := d; dr_imageId := "0x1"; dr_gateWallMs := 7 |}; sdr_enclaveSignature := "sig" |};
  gt_proofStarted := true; gt_gateWallMs := 7 |}.
Definition ex_clock (t : Z) : Clock := {| ck_now := t; ck_elapsed := t |}.
Definition ex_receipt : ComputeReceipt := {|
  cpr_requestId := "req_1"; cpr_requestCommitment := "0xabcdef12"; cpr_teeMode := simulation; cpr_buildId := "b"; cpr_attestationDigest := "0xa";
  cpr_policyId := "p"; cpr_zkReceiptDigest := "pending"; cpr_provider := "mock"; cpr_model := "m"; cpr_credentialId := "cred_a";
  cpr_contributorId := "contrib_1"; cpr_attempt := 1; cpr_inputTokens := 10; cpr_outputTokens := 5;
  cpr_estimatedCostMicroUsd := jnum 42; cpr_pricingTableDigest := "0xt"; cpr_receivedAt := "now"; cpr_policyMs := 7;
  cpr_providerTotalMs := 5; cpr_upstreamRequestHash := "0xq"; cpr_upstreamResponseHash := "0xr" |}.
Definition ex_body : ExecuteBody := {|
  eb_requestId := "req_1"; eb_status := COMPLETE; eb_commitment := "0xabcdef12"; eb_policyId := "p"; eb_policyDecision := ALLOW;
  eb_policyMs := 7; eb_model := "m"; eb_encryptedResponse := Some {| sb_enc := "e"; sb_ciphertext := "r" |};
  eb_receipt := Some {| scr_receipt := ex_receipt; scr_enclaveSignature := "sig" |};
  eb_attempts := [{| at_credentialId := "cred_a"; at_contributorId := "contrib_1"; at_attemptNumber := 1; at_success := true;
                     at_httpStatus := 200; at_latencyMs := 5; at_classification := None; at_upstreamOutcomeUnknown := false;
                     at_assumedSpendMicroUsd := None |}];
  eb_selected := Some {| sl_credentialId := "cred_a"; sl_contributorId := "contrib_1"; sl_provider := "mock"; sl_attempt := 1 |};
  eb_authorizationFailures := []; eb_decisionReceipt := gt_decisionReceipt (ex_gate ALLOW); eb_usage := Some (10, 5, jnum 42);
  eb_providerTotalMs := Some 5; eb_totalMs := 9; eb_error := None |}.
Definition ex_verified : ProofResponse := {|
  pw_status := "VERIFIED"; pw_proofVerified := true; pw_proofMs := Some 100; pw_error := None; pw_imageId := Some "0x1";
  pw_artifactDigest := Some "0x2"; pw_decisionReceiptDigest := Some "0x3"; pw_artifact := None; pw_binding := None |}.

Definition ex_setup : list CEvent :=
  [Admin (OpContributor "contrib_1"); Admin (OpContribute (ex_row "cred_a" 1 None)); Post 10 ex_env secure;
   GateAnswers 0 (ex_clock 20) (Ok (ex_gate ALLOW)); AttestationAnswers 0 (ex_clock 30) None].
Definition ex_status (evs : list CEvent) : list (jsval * jsval * jsval) :=
  (fun r => (col r "status", col r "trust_status", col r "proof_status")) <$>
    db_requests (cw_db (crun (fun s => s) (fun _ => "") ex_iso js_compare 60000 cworld_empty evs).1).

Example proof_after_completion :
  ex_status (ex_setup ++ [ExecuteAnswers 0 (ex_clock 40) (Ok ex_body); ProofAnswers 0 50 (Ok ex_verified)]) =
  [(VStr "COMPLETE", VStr "CONFIDENTIAL_VERIFIED", VStr "VERIFIED")].
Proof. vm_compute. reflexivity. Qed.

(** A proof that verifies while the provider still runs: the completion overwrites
    nothing but the trust status, and the watch is over, so the request stays
    PROOF_PENDING with a VERIFIED proof. *)
Example proof_before_completion :
  ex_status (ex_setup ++ [ProofAnswers 0 40 (Ok ex_verified); ExecuteAnswers 0 (ex_clock 50) (Ok ex_body)]) =
  [(VStr "COMPLETE", VStr "CONFIDENTIAL_PROOF_PENDING", VStr "VERIFIED")].
Proof. vm_compute. reflexivity. Qed.

(** A failed proof likewise: its label is erased by the completion. *)
Example failure_before_completion :
  ex_status (ex_setup ++ [ProofAnswers 0 40 (Err (EnclaveRejection (VStr "PROVER_UNAVAILABLE") (VStr "") 503));
                          ExecuteAnswers 0 (ex_clock 50) (Ok ex_body)]) =
  [(VStr "COMPLETE", VStr "CONFIDENTIAL_PROOF_PENDING", VStr "FAILED")].
Proof. vm_compute. reflexivity. Qed.
