(* ===== verification/Settle.v ===== *)
(** * How a request settles (services/coordinator/src/index.ts, events.ts)

    Every segment of [runSecureRequest] on a request that is new to the tables:
    nothing throws, and what the tables, the reply and the graph say at the end. *)

From S2P Require Import Prelude JsNum Utf8 Json Unicode Types Crypto Authorize Pricing Providers Insights Gates GateRequest Dispatch Logs Routing Events Coordinator Trust.
From Stdlib Require Import QArith.
Local Open Scope Z_scope.

(** [toLowerCase] on ASCII text. *)
Class LowerCaseOk `{LowerCase} : Prop := {
  to_lower_ascii l : forallb (fun c => (0 <=? c) && (c <? 128)) l = true -> to_lower l = ascii_lower <$> l;
}.
#[export] Instance ascii_lowercase_ok : LowerCaseOk.
Proof. by split. Qed.

(** ** Payloads the check accepts

    Scalars under names that are not banned. *)
Definition plain_name (k : string) : bool :=
  forallb (fun c => (0 <=? c) && (c <? 128)) (points k) && negb (@banned ascii_lowercase k).
Definition scalar (v : jsval) : bool := match v with VArr _ | VObj _ => false | _ => true end.
Definition clean (payload : object) : bool := forallb (fun kv => plain_name kv.1 && scalar kv.2) payload.

Section clean.
Context `{LowerCaseOk}.
Lemma plain_not_banned k : plain_name k = true -> banned k = false.
Proof.
  unfold plain_name, banned, normalizeKey. intros [Ha Hb]%andb_true_iff. rewrite to_lower_ascii by done. by apply negb_true_iff in Hb.
Qed.
Lemma clean_accepted payload : clean payload = true -> assertNoForbiddenFields (VObj payload) "" 0 = Ok tt.
Proof.
  cbn [assertNoForbiddenFields Nat.ltb Nat.leb]. induction payload as [|[k v] p IH]; [done|]. cbn [clean forallb fst snd str_empty].
  intros [[Hk Hv]%andb_true_iff Hp]%andb_true_iff. rewrite (plain_not_banned _ Hk).
  assert (Hs : assertNoForbiddenFields v k 1 = Ok tt) by (by destruct v). rewrite Hs. by apply IH.
Qed.
End clean.

(** ** The request's node *)
Definition node_status (k : string) (g : Graph) : option string := readNode ("req:" +:+ k) g ≫= gn_status.

Lemma readNode_set now id type label status meta g :
  exists n, readNode id (upsertNode now id type label (Some status) meta g) = Some n /\ gn_status n = Some status.
Proof. rewrite readNode_upsert. destruct (readNode id g); by eexists. Qed.

Lemma num_to_string_inj a b : 0 <= a -> 0 <= b -> num_to_string a = num_to_string b -> a = b.
Proof.
  intros Ha Hb Heq. destruct (dec_digits_spec a Ha) as (Hda & _ & Hva & _). destruct (dec_digits_spec b Hb) as (Hdb & _ & Hvb & _).
  assert (Hc : (digit_char <$> dec_digits a) = (digit_char <$> dec_digits b)).
  { apply (f_equal chars) in Heq. unfold num_to_string in Heq. rewrite !chars_unchars in Heq. unfold num_chars in Heq.
    by rewrite !(proj2 (Z.ltb_ge _ 0)) in Heq by lia. }
  rewrite <-Hva, <-Hvb. f_equal. pose proof (take_digits_chars _ [] Hda I) as H1. pose proof (take_digits_chars _ [] Hdb I) as H2.
  rewrite !app_nil_r in *. rewrite Hc, H2 in H1. congruence.
Qed.

(** ** What each event does to it *)
Definition status_effect (eventType : string) : option string :=
  match eventType with
  | "request.received" => Some "RECEIVED" | "policy.allowed" => Some "AUTHORIZED" | "policy.denied" => Some "DENIED"
  | "request.failed" => Some "FAILED" | "route.selected" => Some "ROUTING" | "provider.started" => Some "PROVIDER_RUNNING"
  | "provider.completed" => Some "COMPLETE" | _ => None
  end.
Definition REQUEST_EVENTS : list string :=
  ["request.received"; "tee.verified"; "policy.started"; "policy.allowed"; "policy.denied"; "request.failed"; "proof.queued";
   "route.selected"; "provider.started"; "provider.failed"; "provider.completed"; "receipt.created"].

Section effects.
Context (to_upper : string -> string) (js_text : jsval -> string) (now : Z) (payload : object) (k : string).
Context (Hk : obj_get payload "request_id" = VStr k).
Local Abbreviation text := (text js_text payload).

Definition establishes (Q : Graph -> Prop) (m : SE Graph unit unit) : Prop := forall g, Q (m g).1 /\ (m g).2 = Ok tt.

Lemma est_bind_l {A} Q m (f : unit -> SE Graph unit A) : establishes Q m -> (forall a, preserves Q (f a)) -> forall g, Q ((m ≫= f) g).1.
Proof.
  intros Hm Hf g. destruct (Hm g) as [H1 H2]. unfold mbind, SE_bind. destruct (m g) as [g' r]. simpl in *. subst. by apply Hf.
Qed.
Definition has (st : option string) (g : Graph) : Prop := node_status k g = st.
Lemma pres_node st id type label status meta : id <> "req:" +:+ k -> preserves (has st) (node now id type label status meta).
Proof. intros Hne g Hg. unfold has, node_status, node, se_modify in *. simpl. by rewrite readNode_other. Qed.
Lemma pres_link st a b c : preserves (has st) (link now a b c).
Proof. intros g Hg. unfold has, node_status, link, se_modify, upsertLink in *. simpl. by destruct (existsb _ _). Qed.
Lemma pres_lift st {A} (r : res unit A) : preserves (has st) (se_lift r).
Proof. by intros g. Qed.
Lemma est_node type label status meta : establishes (has (Some status)) (node now ("req:" +:+ k) type label (Some status) meta).
Proof.
  intros g. split; [|done]. unfold has, node_status, node, se_modify. simpl.
  destruct (readNode_set now ("req:" +:+ k) type label status meta g) as (n & -> & Hs). exact Hs.
Qed.
Lemma text_request : text "request_id" = k.
Proof using Hk. unfold Events.text. by rewrite Hk. Qed.
End effects.

Ltac eff := first [ apply pres_ret | apply pres_link | apply pres_lift | (apply pres_node; intros Hne; simpl in Hne; discriminate Hne) | (apply pres_bind; [|intros ?]) ].

Lemma project_status to_upper js_text now ty payload k g : obj_get payload "request_id" = VStr k -> ty ∈ REQUEST_EVENTS ->
  node_status k (project to_upper js_text now ty payload g).1 =
    match status_effect ty with Some s => Some s | None => node_status k g end.
Proof.
  intros Hk Hty. unfold REQUEST_EVENTS in Hty. set_unfold in Hty.
  assert (Hreq : req_id js_text payload = "req:" +:+ k) by (unfold req_id; by rewrite (text_request js_text payload k Hk)).
  repeat (destruct Hty as [->|Hty]); try done; cbn [project status_effect];
    unfold project_request_received, project_tee_verified, project_provider_failed, project_provider_completed, verdict_node, proof_node;
    rewrite ?Hreq; unfold mret, SE_ret.
  all: try match goal with |- node_status ?k (?m ?g).1 = node_status ?k ?g =>
         enough (Hp : preserves (has k (node_status k g)) m) by exact (Hp g eq_refl); repeat eff end.
  all: try (apply est_node).
  - apply (est_bind_l (has k (Some "RECEIVED"))); [apply est_node|intros ?]. destruct (truthy _); repeat eff.
  - apply (est_bind_l (has k (Some "PROVIDER_RUNNING"))); [apply est_node|intros ?]. repeat eff.
Qed.

(** ** What is followed through a request *)
Record Snap : Type := {
  sn_row : row;
  sn_node : option string;
  sn_attempts : list row;
  sn_usage : list UsageRow;
  sn_credentials : list CredentialRow;
  sn_proofs : list row;
  sn_receipts : list row;
}.
Definition at_row (r : row) (s : Snap) : Snap := {| sn_row := r; sn_node := sn_node s; sn_attempts := sn_attempts s; sn_usage := sn_usage s;
  sn_credentials := sn_credentials s; sn_proofs := sn_proofs s; sn_receipts := sn_receipts s |}.
Definition at_node (x : option string) (s : Snap) : Snap := {| sn_row := sn_row s; sn_node := x; sn_attempts := sn_attempts s; sn_usage := sn_usage s;
  sn_credentials := sn_credentials s; sn_proofs := sn_proofs s; sn_receipts := sn_receipts s |}.
Definition at_attempts (x : list row) (s : Snap) : Snap := {| sn_row := sn_row s; sn_node := sn_node s; sn_attempts := x; sn_usage := sn_usage s;
  sn_credentials := sn_credentials s; sn_proofs := sn_proofs s; sn_receipts := sn_receipts s |}.
Definition at_usage (x : list UsageRow) (s : Snap) : Snap := {| sn_row := sn_row s; sn_node := sn_node s; sn_attempts := sn_attempts s; sn_usage := x;
  sn_credentials := sn_credentials s; sn_proofs := sn_proofs s; sn_receipts := sn_receipts s |}.
Definition at_creds (x : list CredentialRow) (s : Snap) : Snap := {| sn_row := sn_row s; sn_node := sn_node s; sn_attempts := sn_attempts s;
  sn_usage := sn_usage s; sn_credentials := x; sn_proofs := sn_proofs s; sn_receipts := sn_receipts s |}.
Definition at_proofs (x : list row) (s : Snap) : Snap := {| sn_row := sn_row s; sn_node := sn_node s; sn_attempts := sn_attempts s; sn_usage := sn_usage s;
  sn_credentials := sn_credentials s; sn_proofs := x; sn_receipts := sn_receipts s |}.
Definition at_receipts (x : list row) (s : Snap) : Snap := {| sn_row := sn_row s; sn_node := sn_node s; sn_attempts := sn_attempts s; sn_usage := sn_usage s;
  sn_credentials := sn_credentials s; sn_proofs := sn_proofs s; sn_receipts := x |}.

Record mid (k : string) (s : Snap) (d : Db) : Prop := {
  mid_row : find_where "id" k (db_requests d) = Some (sn_row s);
  mid_known : k ∈ lg_requests (db_ledger d);
  mid_backlog : backlog (db_projector d) = [];
  mid_node : node_status k (pj_graph (db_projector d)) = sn_node s;
  mid_attempts : db_attempts d = sn_attempts s;
  mid_usage : lg_usage (db_ledger d) = sn_usage s;
  mid_creds : lg_credentials (db_ledger d) = sn_credentials s;
  mid_proofs : db_proofs d = sn_proofs s;
  mid_receipts : db_receipts d = sn_receipts s;
}.

Definition runs {A} (m : SE Db Thrown A) (d : Db) (Q : A -> Db -> Prop) : Prop := exists d' a, m d = (d', Ok a) /\ Q a d'.
Lemma runs_ret {A} (a : A) d (Q : A -> Db -> Prop) : Q a d -> runs (mret a) d Q.
Proof. intros H. by exists d, a. Qed.
Lemma runs_bind {A B} (m : SE Db Thrown A) (f : A -> SE Db Thrown B) d R Q :
  runs m d R -> (forall a d', R a d' -> runs (f a) d' Q) -> runs (m ≫= f) d Q.
Proof. intros (d1 & a & Hm & Hr) Hf. destruct (Hf a d1 Hr) as (d2 & b & Hb & Hq). exists d2, b. split; [|done]. unfold mbind, SE_bind. by rewrite Hm. Qed.
Lemma runs_guard {B} e (f : unit -> SE Db Thrown B) d Q : runs (f tt) d Q -> runs (se_guard true e ≫= f) d Q.
Proof. done. Qed.
Lemma runs_weaken {A} (m : SE Db Thrown A) d (R Q : A -> Db -> Prop) : runs m d R -> (forall a d', R a d' -> Q a d') -> runs m d Q.
Proof. intros (d1 & a & Hm & Hr) Hq. exists d1, a. auto. Qed.

Section statements.
Context `{LowerCaseOk}.
Context (to_upper : string -> string) (js_text : jsval -> string) (iso : Z -> string).
Context (localeCompare : string -> string -> comparison) (COOLDOWN_MS : Z) (k : string).

Lemma find_update cols rows r : cols_get cols "id" = None -> find_where "id" k rows = Some r ->
  find_where "id" k (update_where "id" k cols rows) = Some (spread r cols).
Proof.
  intros Hc. unfold find_where, update_where. induction rows as [|x rows IH]; simpl; [done|].
  destruct (str_is (col x "id") k) eqn:Hx; [|rewrite Hx; exact IH].
  intros [= ->]. by rewrite col_spread, Hc, Hx.
Qed.

Lemma runs_update cols s d : cols_get cols "id" = None -> mid k s d ->
  runs (update_request k cols) d (fun _ => mid k (at_row (spread (sn_row s) cols) s)).
Proof. intros Hc []. eexists _, _. split; [done|]. split; simpl; try done. by apply find_update. Qed.

Lemma runs_emit now ty payload s d : clean payload = true -> ty ∈ REQUEST_EVENTS ->
  obj_get (ob_payload (outbox_row iso now ty k payload)) "request_id" = VStr k -> mid k s d ->
  runs (emit to_upper js_text iso now ty k payload) d
    (fun _ => mid k (at_node (match status_effect ty with Some x => Some x | None => sn_node s end) s)).
Proof.
  intros Hc Hty Hk []. unfold runs, emit, emitEvent. rewrite (clean_accepted _ Hc).
  set (row := outbox_row iso now ty k payload) in *.
  set (q := {| pj_outbox := pj_outbox (db_projector d) ++ [row]; pj_graph := pj_graph (db_projector d) |}).
  destruct (drainOutbox_spec to_upper js_text now q _ eq_refl) as (_ & H2 & H3).
  assert (Hq : backlog q = [row]) by (unfold backlog in *; simpl; by rewrite List.filter_app, mid_backlog0).
  rewrite Hq in H2, H3. eexists _, _. split; [done|]. split; simpl; try done.
  rewrite H3. simpl. unfold project_row. rewrite (project_status to_upper js_text now _ _ k _ Hk Hty). by rewrite mid_node0.
Qed.

Lemma known_mid s d r : mid k s d -> col r "request_id" = VStr k -> known_request d r = true.
Proof. intros [] Hr. unfold known_request. rewrite Hr. apply bool_decide_eq_true. by eexists. Qed.

Lemma runs_decision r s d : col r "request_id" = VStr k -> mid k s d -> runs (replace_decision k r) d (fun _ => mid k s).
Proof. intros Hr Hm. unfold runs, replace_decision. rewrite (known_mid s) by done. destruct Hm. eexists _, _. split; [done|]. by split. Qed.

Lemma not_taken rows r id : col r "id" = VStr id -> (forall x, x ∈ rows -> col x "id" <> VStr id) -> taken rows r = false.
Proof.
  unfold taken. intros -> Hx. apply not_true_iff_false. intros (x & Hin & He%str_is_true)%existsb_exists.
  apply (Hx x); [by apply list_elem_of_In|done].
Qed.

Lemma runs_child table get set r s d (s' : Snap) :
  taken (get d) r = false -> col r "request_id" = VStr k -> mid k s d -> mid k s' (set (get d ++ [r]) d) ->
  runs (insert_child table get set r) d (fun _ => mid k s').
Proof.
  intros Ht Hr Hm Hm'. unfold runs, insert_child. rewrite Ht, (known_mid s) by done. eexists _, _. split; [done|]. exact Hm'.
Qed.

Lemma runs_proof_row r s d id : col r "id" = VStr id -> col r "request_id" = VStr k -> (forall x, x ∈ sn_proofs s -> col x "id" <> VStr id) ->
  mid k s d -> runs (insert_child "proofs" db_proofs set_proofs r) d (fun _ => mid k (at_proofs (sn_proofs s ++ [r]) s)).
Proof.
  intros Hid Hr Hf Hm. apply (runs_child _ _ _ _ s); [apply (not_taken _ _ id Hid); by rewrite (mid_proofs _ _ _ Hm)|done..|].
  destruct Hm. split; simpl; try done. by rewrite mid_proofs0.
Qed.
Lemma runs_receipt_row r s d id : col r "id" = VStr id -> col r "request_id" = VStr k -> (forall x, x ∈ sn_receipts s -> col x "id" <> VStr id) ->
  mid k s d -> runs (insert_child "compute_receipts" db_receipts set_receipts r) d (fun _ => mid k (at_receipts (sn_receipts s ++ [r]) s)).
Proof.
  intros Hid Hr Hf Hm. apply (runs_child _ _ _ _ s); [apply (not_taken _ _ id Hid); by rewrite (mid_receipts _ _ _ Hm)|done..|].
  destruct Hm. split; simpl; try done. by rewrite mid_receipts0.
Qed.
Lemma runs_attempt_row r s d id : col r "id" = VStr id -> col r "request_id" = VStr k -> (forall x, x ∈ sn_attempts s -> col x "id" <> VStr id) ->
  mid k s d -> runs (insert_child "provider_attempts" db_attempts set_attempts r) d (fun _ => mid k (at_attempts (sn_attempts s ++ [r]) s)).
Proof.
  intros Hid Hr Hf Hm. apply (runs_child _ _ _ _ s); [apply (not_taken _ _ id Hid); by rewrite (mid_attempts _ _ _ Hm)|done..|].
  destruct Hm. split; simpl; try done. by rewrite mid_attempts0.
Qed.

Lemma discover_reads model policyId now l l' : lg_credentials l = lg_credentials l' ->
  (discoverCandidates localeCompare model policyId now l).2 = (discoverCandidates localeCompare model policyId now l').2.
Proof. unfold discoverCandidates. by intros ->. Qed.

(** The candidates a set of rows yields. *)
Definition candidates (model policyId : string) (now : Z) (rows : list CredentialRow) : list CandidateRecord :=
  match (discoverCandidates localeCompare model policyId now
           {| lg_contributors := []; lg_requests := []; lg_credentials := rows; lg_usage := [] |}).2 with
  | Ok r => dc_candidates r
  | Err _ => []
  end.

Lemma runs_discover model policyId now s d :
  NoDup (cw_id <$> sn_credentials s) -> Forall (fun r => readable r = true) (sn_credentials s) -> mid k s d ->
  runs (discover localeCompare model policyId now) d (fun res d' =>
    dc_candidates res = candidates model policyId now (sn_credentials s) /\
    mid k (at_creds (rollUsageDay now <$> sn_credentials s) s) d').
Proof.
  intros Hnd Hrd Hm. unfold runs, discover.
  rewrite <-(mid_creds _ _ _ Hm) in Hnd, Hrd.
  assert (Hc : candidates model policyId now (sn_credentials s) =
    match (discoverCandidates localeCompare model policyId now (db_ledger d)).2 with Ok r => dc_candidates r | Err _ => [] end).
  { unfold candidates. rewrite (discover_reads model policyId now _ (db_ledger d)); [done|]. simpl. by rewrite (mid_creds _ _ _ Hm). }
  rewrite Hc, (discover_run localeCompare model policyId now (db_ledger d) Hnd Hrd). eexists _, _. split; [done|]. split; [done|].
  destruct Hm. split; simpl; try done. by rewrite mid_creds0.
Qed.

(** ** Attempts *)
#[local] Instance VStr_inj : Inj (=) (=) VStr.
Proof. by intros a b [=]. Qed.
Lemma mid_same s d : mid k (at_node (sn_node s) s) d -> mid k s d.
Proof. by destruct s. Qed.

Lemma attempt_id_inj a b : 0 <= a -> 0 <= b -> attempt_id k a = attempt_id k b -> a = b.
Proof.
  intros Ha Hb He. apply num_to_string_inj; [done..|]. apply (f_equal chars) in He. unfold attempt_id, str_app in He. cbn [foldr] in He.
  rewrite !chars_app in He. do 3 apply app_inv_head in He. apply app_inv_tail in He.
  rewrite <-(unchars_chars (num_to_string a)), <-(unchars_chars (num_to_string b)). by rewrite He.
Qed.

Lemma runs_outcome now a s d : mid k s d ->
  runs (apply_outcome COOLDOWN_MS now a) d (fun _ d' => exists cr, mid k (at_creds cr s) d').
Proof.
  intros []. unfold runs, apply_outcome.
  destruct (applyAttemptOutcome COOLDOWN_MS now _ _ _ (db_ledger d)) as [l act] eqn:Hl. eexists _, _. split; [done|].
  exists (lg_credentials l).
  assert (Hu : lg_usage l = lg_usage (db_ledger d) /\ lg_requests l = lg_requests (db_ledger d)).
  { unfold applyAttemptOutcome in Hl.
    destruct (at_success a); [|destruct (match classification_str <$> _ with Some s => String.eqb s "auth_failed" | None => false end);
      [|destruct (match classification_str <$> _ with Some s => String.eqb s "rate_limited" | None => false end)]]; by injection Hl as <- _. }
  destruct Hu as [Hu Hr]. split; simpl; try done; congruence.
Qed.

(** What the assumed booking of one attempt adds. *)
Definition booked (now : Z) (us : list UsageRow) (a : AttemptRecord) : list UsageRow :=
  if at_upstreamOutcomeUnknown a && negb (bool_decide ("use_" +:+ k ∈ us_id <$> us))
  then us ++ [usage_row now k (at_credentialId a) (at_contributorId a) 0 0 (js_div (wire_q (at_assumedSpendMicroUsd a)) 1000000)]
  else us.

Lemma insert_usage_run u l : us_request_id u ∈ lg_requests l ->
  insert_usage u l = if bool_decide (us_id u ∈ us_id <$> lg_usage l) then None else Some (with_usage (lg_usage l ++ [u]) l).
Proof.
  intros Hr. unfold insert_usage. rewrite (bool_decide_eq_true_2 _ Hr), orb_false_r.
  assert (He : existsb (fun v => String.eqb (us_id v) (us_id u)) (lg_usage l) = bool_decide (us_id u ∈ us_id <$> lg_usage l)).
  { apply eq_true_iff_eq. rewrite bool_decide_eq_true, existsb_exists, list_elem_of_fmap. split.
    - intros (v & Hin & Hv%String.eqb_eq). exists v. split; [done|by apply list_elem_of_In].
    - intros (v & Hv & Hin). exists v. split; [by apply list_elem_of_In|by apply String.eqb_eq]. }
  rewrite He. done.
Qed.

Lemma runs_assumed now a s d : mid k s d ->
  runs (book_assumed now k a) d (fun _ d' => exists cr, mid k (at_creds cr (at_usage (booked now (sn_usage s) a) s)) d').
Proof.
  intros []. unfold booked, book_assumed. destruct (at_upstreamOutcomeUnknown a); simpl.
  2: { apply runs_ret. exists (sn_credentials s). by split. }
  eexists _, _. split; [done|]. unfold recordAssumedUsage. rewrite insert_usage_run by done. simpl. rewrite mid_usage0.
  case_bool_decide; simpl; eexists; split; simpl; done.
Qed.

Lemma runs_attempt now a s d : (forall x, x ∈ sn_attempts s -> col x "id" <> VStr (attempt_id k (at_attemptNumber a))) -> mid k s d ->
  runs (record_attempt to_upper js_text iso COOLDOWN_MS now k a) d (fun _ d' => exists cr,
    mid k (at_creds cr (at_usage (booked now (sn_usage s) a) (at_attempts (sn_attempts s ++ [attempt_row iso now k a]) s))) d').
Proof.
  intros Hf Hm. unfold record_attempt. eapply runs_bind; [by apply runs_outcome|]. intros action d1 (cr1 & Hm1).
  eapply runs_bind; [eapply (runs_attempt_row _ (at_creds cr1 s)); [done|done|exact Hf|exact Hm1]|]. intros ? d2 Hm2. simpl in Hm2.
  eapply runs_bind; [eapply runs_assumed; exact Hm2|]. intros ? d3 (cr3 & Hm3). simpl in Hm3.
  destruct (at_success a); [apply runs_ret; by exists cr3|].
  eapply runs_weaken; [eapply (runs_emit now "provider.failed"); [| |done|exact Hm3]|].
  - destruct action, (at_classification a) as [[]|]; vm_compute; reflexivity.
  - unfold REQUEST_EVENTS. set_solver.
  - intros ? d' Hd. exists cr3. exact Hd.
Qed.

Lemma runs_attempts now l s d :
  NoDup (at_attemptNumber <$> l) -> Forall (fun a => 0 <= at_attemptNumber a) l ->
  (forall a x, a ∈ l -> x ∈ sn_attempts s -> col x "id" <> VStr (attempt_id k (at_attemptNumber a))) -> mid k s d ->
  runs (record_attempts to_upper js_text iso COOLDOWN_MS now k l) d (fun _ d' => exists cr,
    mid k (at_creds cr (at_usage (foldl (booked now) (sn_usage s) l) (at_attempts (sn_attempts s ++ (attempt_row iso now k <$> l)) s))) d').
Proof.
  revert s d. induction l as [|a l IH]; intros s d Hnd Hpos Hf Hm; simpl.
  - apply runs_ret. exists (sn_credentials s). rewrite app_nil_r. by destruct Hm.
  - apply NoDup_cons in Hnd as [Ha Hnd]. apply Forall_cons in Hpos as [Hpa Hpos].
    eapply runs_bind; [apply runs_attempt; [|exact Hm]; intros x Hx; apply Hf; [by left|done]|].
    intros ? d1 (cr1 & Hm1). eapply runs_weaken; [eapply IH; [done|done| |exact Hm1]|].
    + intros b x Hb Hx. simpl in Hx. apply elem_of_app in Hx as [Hx|Hx]; [apply Hf; [by right|done]|].
      apply list_elem_of_singleton in Hx as ->. intros He. apply Ha.
      change (VStr (attempt_id k (at_attemptNumber a)) = VStr (attempt_id k (at_attemptNumber b))) in He.
      apply (inj VStr), attempt_id_inj in He as ->; [by apply list_elem_of_fmap_2|done|]. rewrite List.Forall_forall in Hpos. apply Hpos. by apply list_elem_of_In.
    + simpl. intros ? d2 (cr2 & Hm2). exists cr2. by rewrite <-(assoc_L (++)) in Hm2.
Qed.

(** ** The end of a request *)
Record Outcome : Type := {
  oc_status : string;                  (** the row's and the graph node's *)
  oc_code : Z;                         (** the HTTP status *)
  oc_error : option string;            (** the row's error code and the reply's *)
  oc_body : option jsval;              (** the body of the reply, where it says more *)
  oc_attempts : list AttemptRecord;    (** persisted *)
  oc_usage : list UsageRow;            (** booked *)
}.
Definition failure (code : Z) (error : string) : Outcome :=
  {| oc_status := "FAILED"; oc_code := code; oc_error := Some error; oc_body := None; oc_attempts := []; oc_usage := [] |}.

Definition settled (s : Snap) (o : Outcome) (now : Z) (reply : Reply) (d : Db) : Prop :=
  (exists r, find_where "id" k (db_requests d) = Some r /\ col r "status" = VStr (oc_status o) /\
     match oc_error o with
     | Some e => col r "error_code" = VStr e /\ js_get_opt (js_get_opt (rp_body reply) "error") "code" = VStr e
     | None => True
     end) /\
  (rp_code reply = oc_code o /\ match oc_body o with Some body => rp_body reply = body | None => True end) /\
  node_status k (pj_graph (db_projector d)) = Some (oc_status o) /\
  db_attempts d = sn_attempts s ++ (attempt_row iso now k <$> oc_attempts o) /\
  lg_usage (db_ledger d) = sn_usage s ++ oc_usage o.

Lemma settled_intro s o now reply d s' :
  mid k s' d -> sn_node s' = Some (oc_status o) -> col (sn_row s') "status" = VStr (oc_status o) ->
  match oc_error o with
  | Some e => col (sn_row s') "error_code" = VStr e /\ js_get_opt (js_get_opt (rp_body reply) "error") "code" = VStr e
  | None => True
  end -> rp_code reply = oc_code o -> match oc_body o with Some body => rp_body reply = body | None => True end ->
  sn_attempts s' = sn_attempts s ++ (attempt_row iso now k <$> oc_attempts o) -> sn_usage s' = sn_usage s ++ oc_usage o ->
  settled s o now reply d.
Proof. intros [] Hnode Hs He Hc Hb Ha Hu. split_and!; [by exists (sn_row s')|done|done|congruence..]. Qed.

Definition coded (err : CallError) : Prop :=
  match err with EnclaveRejection code _ _ => exists c, code = VStr c | EnclaveUnavailable => True end.

Definition gate_failure (err : CallError) : Outcome :=
  match err with
  | EnclaveRejection code _ http =>
      if str_is code "PROVER_UNAVAILABLE" then failure 503 "CTN_PROVER_UNAVAILABLE"
      else failure (client_status http) (default "" (as_str code))
  | EnclaveUnavailable => failure 503 "CTN_ENCLAVE_UNAVAILABLE"
  end.
Definition execute_failure (err : CallError) : Outcome :=
  match err with
  | EnclaveRejection code _ http => failure (client_status http) (default "" (as_str code))
  | EnclaveUnavailable => failure 503 "CTN_ENCLAVE_UNAVAILABLE"
  end.

Ltac emits := eapply runs_emit; [vm_compute; reflexivity|apply (bool_decide_unpack _); vm_compute; exact I|reflexivity|].
Ltac updates := eapply runs_bind; [apply runs_update; [reflexivity|eassumption]|let H := fresh "Hm" in intros ? ? H; cbn beta in H].

Ltac reports := eapply runs_bind; [emits; eassumption|let H := fresh "Hm" in intros ? ? H; cbn beta in H].
Ltac concludes := apply runs_ret; eapply settled_intro;
  [eassumption|reflexivity|cbn [sn_row at_row at_node]; rewrite col_spread; reflexivity
  |cbn [sn_row at_row at_node]; try (split; [rewrite col_spread|]; reflexivity)|try reflexivity|try exact I; try reflexivity|by rewrite app_nil_r..].

Lemma gate_failed_settles c err s d : coded err -> mid k s d ->
  runs (gate_failed to_upper js_text iso c k err) d (settled s (gate_failure err) (ck_now c)).
Proof.
  intros Hco Hm. unfold gate_failed, gate_failure. destruct err as [|code message http]; [|destruct Hco as [x ->]; simpl; case_bool_decide].
  - updates. reports. concludes.
  - updates. reports. concludes.
  - apply runs_guard. updates. reports. concludes.
Qed.

Lemma execute_failed_settles c gate err s d : coded err -> mid k s d ->
  runs (execute_failed to_upper js_text iso c k gate err) d (settled s (execute_failure err) (ck_now c)).
Proof.
  intros Hco Hm. unfold execute_failed, execute_failure. destruct err as [|code message http]; [|destruct Hco as [x ->]; simpl; apply runs_guard];
    updates; reports; concludes.
Qed.
Lemma malformed_settles c gate s d : mid k s d ->
  runs (malformed to_upper js_text iso c k gate) d (settled s (failure 502 "CTN_INTERNAL") (ck_now c)).
Proof. intros Hm. unfold malformed. updates; reports; concludes. Qed.

Definition denial (gate : GateResult) : Outcome := {|
  oc_status := "DENIED"; oc_code := 403; oc_error := Some "CTN_POLICY_DENIED";
  oc_body := Some (VObj [
    ("error", VObj [("code", VStr "CTN_POLICY_DENIED"); ("message", VStr "Request was not eligible under Safety Policy v1.");
                    ("request_id", VStr k); ("policy_id", VStr (gt_policyId gate))]);
    ("request_commitment", VStr (gt_commitment gate))]);
  oc_attempts := []; oc_usage := [] |}.
Lemma deny_settles c mode gate s d : mid k s d ->
  runs (deny to_upper js_text iso c k mode gate) d (settled s (denial gate) (ck_now c)).
Proof. intros Hm. unfold deny. updates; reports; concludes. Qed.
Lemma no_capacity_settles c gate ex s d : mid k s d ->
  runs (no_capacity to_upper js_text iso c k gate ex) d (settled s (failure 503 "CTN_NO_CAPACITY") (ck_now c)).
Proof. intros Hm. unfold no_capacity. updates; reports; concludes. Qed.

(** The assumed bookings of a list of attempts: the first one that may have been billed. *)
Definition assumed_rows (now : Z) (l : list AttemptRecord) : list UsageRow :=
  match List.find at_upstreamOutcomeUnknown l with
  | Some a => [usage_row now k (at_credentialId a) (at_contributorId a) 0 0 (js_div (wire_q (at_assumedSpendMicroUsd a)) 1000000)]
  | None => []
  end.
Lemma booked_all now us l : "use_" +:+ k ∉ us_id <$> us -> foldl (booked now) us l = us ++ assumed_rows now l.
Proof.
  unfold assumed_rows. induction l as [|a l IH]; intros Hus; simpl; [by rewrite app_nil_r|]. unfold booked at 2.
  destruct (at_upstreamOutcomeUnknown a) eqn:Ha; simpl; [|by apply IH].
  rewrite bool_decide_eq_false_2 by done. simpl. clear IH.
  assert (Hin : "use_" +:+ k ∈ us_id <$> (us ++ [usage_row now k (at_credentialId a) (at_contributorId a) 0 0
    (js_div (wire_q (at_assumedSpendMicroUsd a)) 1000000)])) by (rewrite fmap_app; set_solver).
  revert Hin. generalize (us ++ [usage_row now k (at_credentialId a) (at_contributorId a) 0 0 (js_div (wire_q (at_assumedSpendMicroUsd a)) 1000000)]).
  induction l as [|b l IHl]; intros us' Hin; simpl; [done|]. unfold booked at 2. rewrite bool_decide_eq_true_2, andb_false_r by done. by apply IHl.
Qed.

Lemma runs_usage now sel usage s d : "use_" +:+ k ∉ us_id <$> sn_usage s -> mid k s d ->
  runs (book_usage now k sel usage) d (fun _ d' => exists cr,
    mid k (at_creds cr (at_usage (sn_usage s ++ [
      let '(i, o, cost) := match usage with Some (i, o, c) => (i, o, wire_q (Some c)) | None => (0, 0, 0%Q) end in
      usage_row now k (sl_credentialId sel) (sl_contributorId sel) i o (js_div cost 1000000)]) s)) d').
Proof.
  intros Hn []. unfold runs, book_usage. destruct (match usage with Some (i, o, c) => _ | None => _ end) as [[i o] cost].
  unfold recordUsage. rewrite insert_usage_run by done. simpl. rewrite mid_usage0, bool_decide_eq_false_2 by done.
  eexists _, _. split; [done|]. eexists. split; simpl; try done.
Qed.

Definition completion (now : Z) (r : ExecuteBody) (sel : Selected) (receipt : SignedComputeReceipt) : Outcome := {|
  oc_status := "COMPLETE"; oc_code := 200; oc_error := None; oc_body := Some (rp_body (complete_reply k r sel receipt)); oc_attempts := eb_attempts r;
  oc_usage := [let '(i, o, cost) := match eb_usage r with Some (i, o, c) => (i, o, wire_q (Some c)) | None => (0, 0, 0%Q) end in
               usage_row now k (sl_credentialId sel) (sl_contributorId sel) i o (js_div cost 1000000)] |}.
Definition dispatch_failure (now : Z) (r : ExecuteBody) : Outcome := {|
  oc_status := "FAILED"; oc_code := 502;
  oc_error := Some (match eb_error r with Some (code, _) => code | None => "CTN_PROVIDER_ERROR" end);
  oc_body := None;
  oc_attempts := eb_attempts r; oc_usage := assumed_rows now (eb_attempts r) |}.

Lemma settle_failed_settles c r s0 s d : mid k s d ->
  sn_attempts s = sn_attempts s0 ++ (attempt_row iso (ck_now c) k <$> eb_attempts r) ->
  sn_usage s = sn_usage s0 ++ assumed_rows (ck_now c) (eb_attempts r) ->
  runs (settle_failed to_upper js_text iso c k r) d (settled s0 (dispatch_failure (ck_now c) r) (ck_now c)).
Proof.
  intros Hm Ha Hu. unfold settle_failed. updates. reports. apply runs_ret.
  eapply settled_intro; [eassumption|reflexivity|cbn [sn_row at_row at_node]; rewrite col_spread; reflexivity
    |cbn [sn_row at_row at_node]; split; [rewrite col_spread|]; reflexivity|reflexivity|exact I|exact Ha|exact Hu].
Qed.

Lemma settle_complete_settles c mode r sel receipt s0 s d : mid k s d ->
  "use_" +:+ k ∉ us_id <$> sn_usage s0 -> (forall x, x ∈ sn_receipts s -> col x "id" <> VStr (receipt_id k)) ->
  sn_attempts s = sn_attempts s0 ++ (attempt_row iso (ck_now c) k <$> eb_attempts r) -> sn_usage s = sn_usage s0 ->
  runs (settle_complete to_upper js_text iso c k mode r sel receipt) d (settled s0 (completion (ck_now c) r sel receipt) (ck_now c)).
Proof.
  intros Hm Hn Hr Ha Hu. unfold settle_complete.
  assert (Hio : exists i o, match eb_usage r with Some (i, o, _) => (i, o) | None => (0, 0) end = (i, o)) by (destruct (eb_usage r) as [[[? ?] ?]|]; by eexists _, _).
  destruct Hio as (i & o & ->). reports. reports.
  eapply runs_bind; [eapply runs_usage; [|eassumption]; simpl; by rewrite Hu|]. intros ? ? (cr & Hm2).
  updates. reports.
  eapply runs_bind; [eapply (runs_receipt_row _ _ _ (receipt_id k)); [done|done| |eassumption]; exact Hr|].
  let H := fresh "Hm" in intros ? ? H; cbn beta in H. reports. apply runs_ret.
  eapply settled_intro; [eassumption|reflexivity| |done|reflexivity|reflexivity|exact Ha|].
  - cbn [sn_row at_row at_node at_receipts at_usage at_creds]. rewrite col_spread. reflexivity.
  - simpl. by rewrite Hu.
Qed.

Definition execute_outcome (now : Z) (answer : res CallError ExecuteBody) : Outcome :=
  match answer with
  | Err err => execute_failure err
  | Ok r => match eb_status r, eb_selected r, eb_receipt r with
            | DENIED, _, _ => failure 502 "CTN_INTERNAL"
            | COMPLETE, Some sel, Some receipt => completion now r sel receipt
            | _, _, _ => dispatch_failure now r
            end
  end.

(** What the enclave's answers look like: attempts under distinct numbers, and no
    attempt of unknown outcome next to a success. *)
Definition answer_ok (answer : res CallError ExecuteBody) : Prop :=
  match answer with
  | Err err => coded err
  | Ok r => NoDup (at_attemptNumber <$> eb_attempts r) /\ Forall (fun a => 0 <= at_attemptNumber a) (eb_attempts r) /\
            (eb_status r = COMPLETE -> Forall (fun a => at_upstreamOutcomeUnknown a = false) (eb_attempts r))
  end.

Lemma assumed_none now l : Forall (fun a => at_upstreamOutcomeUnknown a = false) l -> assumed_rows now l = [].
Proof. unfold assumed_rows. induction 1 as [|a l Ha _ IH]; simpl; [done|]. by rewrite Ha. Qed.

Lemma executed_settles c mode gate r s d : mid k s d -> answer_ok (Ok r) ->
  "use_" +:+ k ∉ us_id <$> sn_usage s -> (forall x, x ∈ sn_receipts s -> col x "id" <> VStr (receipt_id k)) ->
  (forall n x, x ∈ sn_attempts s -> col x "id" <> VStr (attempt_id k n)) ->
  runs (executed to_upper js_text iso COOLDOWN_MS c k mode gate r) d (settled s (execute_outcome (ck_now c) (Ok r)) (ck_now c)).
Proof.
  intros Hm (Hnd & Hpos & Hunk) Hn Hr Hf. unfold executed, execute_outcome.
  assert (Hat : runs (record_attempts to_upper js_text iso COOLDOWN_MS (ck_now c) k (eb_attempts r)) d (fun _ d' => exists cr,
    mid k (at_creds cr (at_usage (sn_usage s ++ assumed_rows (ck_now c) (eb_attempts r))
      (at_attempts (sn_attempts s ++ (attempt_row iso (ck_now c) k <$> eb_attempts r)) s))) d')).
  { rewrite <-booked_all by done. apply runs_attempts; try done. intros a x _. apply Hf. }
  destruct (eb_status r) eqn:Hs; [|by apply malformed_settles|].
  - eapply runs_bind; [exact Hat|]. intros ? d1 (cr & Hm1). rewrite (assumed_none _ _ (Hunk eq_refl)), app_nil_r in Hm1.
    assert (Hfail : runs (settle_failed to_upper js_text iso c k r) d1 (settled s (dispatch_failure (ck_now c) r) (ck_now c))).
    { eapply settle_failed_settles; [exact Hm1|done|]. simpl. by rewrite (assumed_none _ _ (Hunk eq_refl)), app_nil_r. }
    destruct (eb_selected r) as [sel|]; [|exact Hfail]. destruct (eb_receipt r) as [rc|]; [|exact Hfail].
    by eapply settle_complete_settles.
  - eapply runs_bind; [exact Hat|]. intros ? d1 (cr & Hm1). by eapply settle_failed_settles.
Qed.

(** ** From the request to the dispatch *)
Definition start (now : Z) (e : SecureRequestEnvelope) (mode : PrivacyMode) (d : Db) : Snap := {|
  sn_row := request_row iso now e mode; sn_node := Some "RECEIVED"; sn_attempts := db_attempts d;
  sn_usage := lg_usage (db_ledger d); sn_credentials := lg_credentials (db_ledger d); sn_proofs := db_proofs d;
  sn_receipts := db_receipts d |}.

Lemma find_fresh rows r : (forall x, x ∈ rows -> col x "id" <> VStr k) -> col r "id" = VStr k ->
  find_where "id" k (rows ++ [r]) = Some r.
Proof.
  intros Hf Hr. unfold find_where. induction rows as [|x rows IH]; simpl.
  - by rewrite (proj2 (str_is_true _ _) Hr).
  - assert (Hx : str_is (col x "id") k = false).
    { destruct (str_is _ _) eqn:E; [|done]. apply str_is_true in E. exfalso. apply (Hf x); [by left|done]. }
    rewrite Hx. apply IH. intros y Hy. apply Hf. by right.
Qed.

Lemma runs_receive now e mode d : env_requestId e = k -> (forall x, x ∈ db_requests d -> col x "id" <> VStr k) ->
  backlog (db_projector d) = [] ->
  runs (receive to_upper js_text iso localeCompare COOLDOWN_MS now e mode) d (fun _ => mid k (start now e mode d)).
Proof.
  intros He Hf Hb. unfold receive.
  set (s0 := at_node (node_status k (pj_graph (db_projector d))) (start now e mode d)).
  eapply (runs_bind _ _ _ (fun _ => mid k s0)).
  - unfold runs, insert_request.
    rewrite (not_taken _ (request_row iso now e mode) k) by (done || simpl; by rewrite He). eexists _, _. split; [done|].
    split; simpl; try done; [apply find_fresh; [done|simpl; by rewrite He]|rewrite He; apply elem_of_app; right; by left].
  - intros ? ? Hm. cbn beta in Hm. rewrite He. eapply runs_weaken; [emits; eassumption|]. intros ? ? H'. exact H'.
Qed.

Lemma runs_gate_recorded c gate s d : mid k s d ->
  runs (gate_recorded iso c k gate) d (fun _ => mid k (at_row (spread (sn_row s)
    [("policy_id", VStr (gt_policyId gate)); ("request_commitment", VStr (gt_commitment gate))]) s)).
Proof. intros Hm. unfold gate_recorded. updates. by apply runs_decision. Qed.

(** Some snapshot that still differs from [s] in nothing the settling needs. *)
Definition ready (s : Snap) (d : Db) : Prop :=
  exists s', mid k s' d /\ sn_attempts s' = sn_attempts s /\ sn_usage s' = sn_usage s /\
    sn_credentials s' = sn_credentials s /\ sn_receipts s' = sn_receipts s.

Lemma runs_prepare c gate att s d : (forall x, x ∈ sn_proofs s -> col x "id" <> VStr ("proof_" +:+ k)) -> mid k s d ->
  runs (prepare to_upper js_text iso c k gate att) d (fun _ => ready s).
Proof.
  intros Hp Hm. unfold prepare.
  eapply (runs_bind _ _ _ (fun _ => mid k s)).
  - unfold announce. eapply (runs_bind _ _ _ (fun _ => mid k s)).
    + destruct att as [a|]; [|by apply runs_ret]. eapply runs_weaken; [emits; eassumption|]. intros ? ? H'. by apply mid_same.
    + intros ? ? Hm1. cbn beta in Hm1. eapply runs_weaken; [emits; eassumption|]. intros ? ? H'. by apply mid_same.
  - clear d Hm. intros ? d Hm. cbn beta in Hm. unfold queue_proof. destruct (gt_proofStarted gate); [|apply runs_ret; by exists s].
    updates. eapply runs_bind; [eapply (runs_proof_row _ _ _ ("proof_" +:+ k)); [done|done| |eassumption]; exact Hp|].
    intros ? ? Hm1. cbn beta in Hm1. eapply runs_weaken; [emits; eassumption|]. intros ? ? H'. eexists. split; [exact H'|]. done.
Qed.

Definition verdict_outcome (e : SecureRequestEnvelope) (gate : GateResult) (now : Z) (rows : list CredentialRow)
    (dispatch : list CandidateRecord -> Outcome) : Outcome :=
  match gt_decision gate with
  | DENY => denial gate
  | ALLOW => match candidates (env_model e) (gt_policyId gate) now rows with
             | [] => failure 503 "CTN_NO_CAPACITY"
             | cands => dispatch cands
             end
  end.

Lemma decide_spec c e mode gate s d : env_requestId e = k ->
  NoDup (cw_id <$> sn_credentials s) -> Forall (fun r => readable r = true) (sn_credentials s) -> mid k s d ->
  runs (decide_dispatch to_upper js_text iso localeCompare c e mode gate) d (fun next d' =>
    match next with
    | inl reply => forall x, let o := verdict_outcome e gate (ck_now c) (sn_credentials s) x in
                     settled s o (ck_now c) reply d' /\ oc_attempts o = []
    | inr cands => gt_decision gate = ALLOW /\ cands <> [] /\
        cands = candidates (env_model e) (gt_policyId gate) (ck_now c) (sn_credentials s) /\
        exists s', mid k s' d' /\ sn_attempts s' = sn_attempts s /\ sn_usage s' = sn_usage s /\ sn_receipts s' = sn_receipts s
    end).
Proof.
  intros He Hnd Hrd Hm. unfold decide_dispatch, verdict_outcome. rewrite He. destruct (gt_decision gate).
  - reports. eapply runs_bind; [eapply runs_discover; [| |eassumption]; done|]. intros res d1 [Hc Hm1]. cbn beta in Hc, Hm1. simpl in Hc. rewrite <-Hc.
    destruct (dc_candidates res) as [|cand cands]; [|apply runs_ret; split_and!; try done; by eexists].
    eapply runs_bind; [by apply no_capacity_settles|]. intros reply d2 Hs. apply runs_ret. intros _. split; [exact Hs|done].
  - eapply runs_bind; [by apply deny_settles|]. intros reply d2 Hs. apply runs_ret. intros _. split; [exact Hs|done].
Qed.

Lemma settled_now s o now now' reply d : oc_attempts o = [] -> settled s o now reply d -> settled s o now' reply d.
Proof. unfold settled. intros ->. done. Qed.
Lemma settled_snap s s' o now reply d : sn_attempts s' = sn_attempts s -> sn_usage s' = sn_usage s ->
  settled s' o now reply d -> settled s o now reply d.
Proof. unfold settled. by intros -> ->. Qed.
Lemma execute_failure_attempts err : oc_attempts (execute_failure err) = [].
Proof. by destruct err. Qed.
End statements.

(** ** The request *)
Record fresh_request (k : string) (d : Db) : Prop := {
  fr_request x : x ∈ db_requests d -> col x "id" <> VStr k;
  fr_attempt n x : x ∈ db_attempts d -> col x "id" <> VStr (attempt_id k n);
  fr_proof x : x ∈ db_proofs d -> col x "id" <> VStr ("proof_" +:+ k);
  fr_receipt x : x ∈ db_receipts d -> col x "id" <> VStr (receipt_id k);
  fr_usage : "use_" +:+ k ∉ us_id <$> lg_usage (db_ledger d);
  fr_backlog : backlog (db_projector d) = [];
  fr_ids : NoDup (cw_id <$> lg_credentials (db_ledger d));
  fr_readable : Forall (fun r => readable r = true) (lg_credentials (db_ledger d));
}.

Definition request_outcome localeCompare (c2 c3 : Clock) (e : SecureRequestEnvelope) (rows : list CredentialRow)
    (gate_answer : res CallError GateResult) (execute : list CandidateRecord -> res CallError ExecuteBody) : Outcome :=
  match gate_answer with
  | Err err => gate_failure err
  | Ok gate => verdict_outcome localeCompare (env_requestId e) e gate (ck_now c2) rows
                 (fun cands => execute_outcome (env_requestId e) (ck_now c3) (execute cands))
  end.

Lemma request_run `{LowerCaseOk} to_upper js_text iso localeCompare COOLDOWN_MS c0 c1 c2 c3 e mode gate_answer attestation execute d :
  fresh_request (env_requestId e) d ->
  (forall err, gate_answer = Err err -> coded err) -> (forall cands, answer_ok (execute cands)) ->
  let o := request_outcome localeCompare c2 c3 e (lg_credentials (db_ledger d)) gate_answer execute in
  exists d' reply r,
    runSecureRequest to_upper js_text iso localeCompare COOLDOWN_MS c0 c1 c2 c3 e mode gate_answer attestation execute d = (d', Ok reply) /\
    find_where "id" (env_requestId e) (db_requests d') = Some r /\
    col r "status" = VStr (oc_status o) /\ oc_status o ∈ ["COMPLETE"; "DENIED"; "FAILED"] /\
    rp_code reply = oc_code o /\ (forall body, oc_body o = Some body -> rp_body reply = body) /\
    (forall error, oc_error o = Some error ->
       col r "error_code" = VStr error /\ js_get_opt (js_get_opt (rp_body reply) "error") "code" = VStr error) /\
    node_status (env_requestId e) (pj_graph (db_projector d')) = Some (oc_status o) /\
    db_attempts d' = db_attempts d ++ (attempt_row iso (ck_now c3) (env_requestId e) <$> oc_attempts o) /\
    lg_usage (db_ledger d') = lg_usage (db_ledger d) ++ oc_usage o.
Proof.
  intros [] Hcoded Hok o. set (k := env_requestId e) in *.
  assert (Hruns : runs (runSecureRequest to_upper js_text iso localeCompare COOLDOWN_MS c0 c1 c2 c3 e mode gate_answer attestation execute) d
    (settled iso k (start iso c0 e mode d) o (ck_now c3))).
  { unfold runSecureRequest. fold k. eapply runs_bind; [by apply (runs_receive _ _ _ _ _ k)|]. intros ? d1 Hm1. cbn beta in Hm1.
    destruct gate_answer as [gate|err].
    2: { eapply runs_weaken; [apply gate_failed_settles; [by apply Hcoded|exact Hm1]|]. intros reply d2. apply settled_now.
         unfold o, request_outcome, gate_failure. destruct err; [done|]. by destruct (str_is _ _). }
    eapply runs_bind; [by apply runs_gate_recorded|]. intros ? d2 Hm2. cbn beta in Hm2.
    eapply runs_bind; [eapply runs_prepare; [|exact Hm2]; exact fr_proof0|]. intros ? d3 (s3 & Hm3 & Ha3 & Hu3 & Hc3 & Hr3).
    eapply runs_bind; [eapply decide_spec; [done| | |exact Hm3]; by rewrite Hc3|]. intros next d4 Hnext. cbn beta in Hnext.
    destruct next as [reply|cands].
    - apply runs_ret. destruct (Hnext (fun cands => execute_outcome k (ck_now c3) (execute cands))) as [Hs Hno].
      rewrite Hc3 in Hs, Hno. eapply settled_now; [exact Hno|]. by eapply settled_snap; [| |exact Hs].
    - destruct Hnext as (Hal & Hne & Hcs & s4 & Hm4 & Ha4 & Hu4 & Hr4). rewrite Hc3 in Hcs.
      assert (Ho : o = execute_outcome k (ck_now c3) (execute cands)).
      { unfold o, request_outcome, verdict_outcome. rewrite Hal. simpl in Hcs. rewrite <-Hcs. by destruct cands. }
      rewrite Ho. specialize (Hok cands). destruct (execute cands) as [body|err].
      + eapply runs_weaken; [eapply executed_settles; [exact localeCompare|exact Hm4|exact Hok| | |]|].
        * by rewrite Hu4, Hu3.
        * by rewrite Hr4, Hr3.
        * by rewrite Ha4, Ha3.
        * intros reply d5 Hs. eapply settled_snap; [| |exact Hs]; [by rewrite Ha4|by rewrite Hu4].
      + eapply runs_weaken; [eapply execute_failed_settles; [exact Hok|exact Hm4]|].
        intros reply d5 Hs. eapply settled_now; [apply execute_failure_attempts|]. eapply settled_snap; [| |exact Hs]; [by rewrite Ha4|by rewrite Hu4]. }
  destruct Hruns as (d' & reply & Hrun & (r & Hrow & Hst & Herr) & (Hcode & Hbody) & Hnode & Hatt & Hus).
  exists d', reply, r. split_and!; try done.
  - clear. unfold o, request_outcome, gate_failure, verdict_outcome, execute_outcome, execute_failure, completion.
    repeat case_match; simpl; set_solver.
  - intros body He. by rewrite He in Hbody.
  - intros error He. by rewrite He in Herr.
Qed.

(** C8. Every request settles.  A request new to the tables - its id, and the keys of
    the rows derived from it, the receipt's id included - is handled to the end without
    an exception, whether the gate allows, denies, refuses or is out of reach, whatever
    the attestation, and whether the dispatch completes, fails, refuses or is out of
    reach.  The tables are as the handler leaves them: the projection has caught up
    and every stored capability can be read.  Of the enclave's answers it is asked that a refusal has a string as its code
    ([coded]), and that the attempts of an answer have distinct non-negative numbers
    and those of a COMPLETE one a known outcome ([answer_ok]; the dispatch of this
    enclave always answers so, [Booking.run_answer_ok]).
    Its row is then COMPLETE, DENIED or FAILED, with the error code the client is
    told and the HTTP status and body that go with it, and the graph shows the same
    status;
    the reported attempts are persisted as they are, and what is booked is exactly
    the usage of a completed request, or the assumed spend of the attempt whose
    outcome stayed unknown, or nothing. *)
Theorem request_settles `{LowerCaseOk} to_upper js_text iso localeCompare COOLDOWN_MS c0 c1 c2 c3 e mode gate_answer attestation execute d :
  fresh_request (env_requestId e) d ->
  (forall err, gate_answer = Err err -> coded err) -> (forall cands, answer_ok (execute cands)) ->
  let o := request_outcome localeCompare c2 c3 e (lg_credentials (db_ledger d)) gate_answer execute in
  exists d' reply r,
    runSecureRequest to_upper js_text iso localeCompare COOLDOWN_MS c0 c1 c2 c3 e mode gate_answer attestation execute d = (d', Ok reply) /\
    find_where "id" (env_requestId e) (db_requests d') = Some r /\
    col r "status" = VStr (oc_status o) /\ oc_status o ∈ ["COMPLETE"; "DENIED"; "FAILED"] /\
    rp_code reply = oc_code o /\ (forall body, oc_body o = Some body -> rp_body reply = body) /\
    (forall error, oc_error o = Some error ->
       col r "error_code" = VStr error /\ js_get_opt (js_get_opt (rp_body reply) "error") "code" = VStr error) /\
    node_status (env_requestId e) (pj_graph (db_projector d')) = Some (oc_status o) /\
    db_attempts d' = db_attempts d ++ (attempt_row iso (ck_now c3) (env_requestId e) <$> oc_attempts o) /\
    lg_usage (db_ledger d') = lg_usage (db_ledger d) ++ oc_usage o.
Proof. apply request_run. Qed.

(** A completed request, from the tables with one contributed credential. *)
Definition ex_db : Db := cw_db (crun (fun s => s) (fun _ => "") ex_iso js_compare 60000 cworld_empty
  [Admin (OpContributor "contrib_1"); Admin (OpContribute (ex_row "cred_a" 1 None))]).1.
Lemma ex_db_fresh : fresh_request "req_1" ex_db.
Proof.
  assert (H1 : db_requests ex_db = []) by (vm_compute; reflexivity). assert (H2 : db_attempts ex_db = []) by (vm_compute; reflexivity).
  assert (H3 : db_proofs ex_db = []) by (vm_compute; reflexivity). assert (H4 : db_receipts ex_db = []) by (vm_compute; reflexivity).
  assert (H5 : lg_usage (db_ledger ex_db) = []) by (vm_compute; reflexivity).
  assert (H6 : lg_credentials (db_ledger ex_db) = [ex_row "cred_a" 1 None]) by (vm_compute; reflexivity).
  split; rewrite ?H1, ?H2, ?H3, ?H4, ?H5, ?H6; try (by intros ? ?%not_elem_of_nil); try (by intros ? ? ?%not_elem_of_nil).
  - by apply not_elem_of_nil.
  - vm_compute. reflexivity.
  - apply NoDup_singleton.
  - repeat constructor.
Qed.
Definition ex_answer : list CandidateRecord -> res CallError ExecuteBody := fun _ => Ok ex_body.
Lemma ex_answer_ok cands : answer_ok (ex_answer cands).
Proof. split_and!; [apply (bool_decide_unpack _); vm_compute; exact I|repeat constructor; done..]. Qed.

Lemma request_settles_witness : exists d' reply r,
  runSecureRequest (fun s => s) (fun _ => "") ex_iso js_compare 60000 10 (ex_clock 20) (ex_clock 30) (ex_clock 40)
    ex_env secure (Ok (ex_gate ALLOW)) None ex_answer ex_db = (d', Ok reply) /\
  find_where "id" "req_1" (db_requests d') = Some r /\ col r "status" = VStr "COMPLETE" /\ rp_code reply = 200 /\
  node_status "req_1" (pj_graph (db_projector d')) = Some "COMPLETE" /\ length (lg_usage (db_ledger d')) = 1%nat.
Proof.
  destruct (request_settles (fun s => s) (fun _ => "") ex_iso js_compare 60000 10 (ex_clock 20) (ex_clock 30) (ex_clock 40)
    ex_env secure (Ok (ex_gate ALLOW)) None ex_answer ex_db) as (d' & reply & r & Hrun & Hrow & Hst & _ & Hcode & _ & _ & Hn & _ & Hu).
  - exact ex_db_fresh.
  - intros err Herr. discriminate Herr.
  - exact ex_answer_ok.
  - exists d', reply, r. split; [exact Hrun|]. split; [exact Hrow|].
    split; [refine (eq_trans Hst _); vm_compute; reflexivity|]. split; [refine (eq_trans Hcode _); vm_compute; reflexivity|].
    split; [refine (eq_trans Hn _); vm_compute; reflexivity|]. refine (eq_trans (f_equal length Hu) _). vm_compute. reflexivity.
Defined.
