(* ===== verification/Booking.v ===== *)
(** * What is booked is what was sent (services/tee-sim and services/coordinator)

    The dispatch of the enclave composed with the settling of the coordinator: the
    answer of [runDispatch] is the answer [runSecureRequest] gets. *)

From S2P Require Import Prelude JsNum Utf8 Json Unicode Canonical Stringify Types Crypto Policy Authorize Pricing Providers Insights Gates Hpke Tee ProofVerify Prover GateRequest Dispatch Logs Routing Events Coordinator Trust Settle.
From Stdlib Require Import QArith.
Local Open Scope Z_scope.

(** ** The numbers of the attempts *)
Record numbered (d : Dispatch) : Prop := {
  nb_count : ds_attemptNumber d = Z.of_nat (length (ds_attempts d));
  nb_numbers : at_attemptNumber <$> ds_attempts d = seqZ 1 (ds_attemptNumber d);
  nb_known : Forall (fun a => at_success a = true -> at_upstreamOutcomeUnknown a = false /\ at_classification a = None) (ds_attempts d);
}.
Lemma numbered_init : numbered dispatch_init.
Proof. split; [done|done|constructor]. Qed.
Lemma numbered_push candidate calls o d : numbered d -> numbered (push_attempt candidate calls o d).
Proof.
  intros [Hc Hn Hk]. split; simpl.
  - rewrite length_app, Hc. simpl. lia.
  - rewrite fmap_app, Hn, seqZ_app by lia. f_equal. simpl. rewrite seqZ_cons by lia. simpl. f_equal. lia.
  - apply Forall_app. split; [done|]. constructor; [by destruct o|constructor].
Qed.

Section dispatch.
Context `{U : Unicode} `{C : Crypto} `{W : Url} `{H : Hpke} `{N : NodeCrypto}.

Lemma dispatch_numbered egress_env registry pk dec net authorized cands d d' r :
  numbered d -> dispatch egress_env registry pk dec net authorized cands d = (d', r) -> numbered d'.
Proof.
  revert d. induction cands as [|c cands IH]; intros d Hd Hr; [by injection Hr as <- <-|].
  cbn [dispatch] in Hr. unfold se_lift, se_modify in Hr. unfold mbind, SE_bind in Hr.
  destruct (authorizeCandidate c authorized pk dec) as [[f|cred]|t]; simpl in Hr; [|destruct (serves registry authorized c) as [adapter|]|].
  - apply IH in Hr; [done|]. destruct Hd. by split.
  - destruct (attempt_spec egress_env net authorized c adapter cred d) as (calls & o & Hat & _).
    rewrite Hat in Hr. pose proof (numbered_push c calls o d Hd) as Hp. destruct (stops o); [by injection Hr as <- <-|by apply IH in Hr].
  - apply IH in Hr; [done|]. destruct Hd. by split.
  - by injection Hr as <- <-.
Qed.

Context (egress_env : string) (registry : list (string * ProviderAdapter)) (vaultKey : string) (tee : SimulatedTEE).
Local Abbreviation run := (runDispatch egress_env registry vaultKey tee).

(** The body by the fate of the last attempt. *)
Lemma run_answer o authorized cands record v d b : run o authorized cands record v = (d, Ok b) ->
  eb_attempts b = ds_attempts d /\
  match ds_success d with
  | Some (r, s) => eb_status b = COMPLETE /\ eb_selected b = Some s /\ is_Some (eb_receipt b) /\
      eb_usage b = Some (rs_inputTokens r, rs_outputTokens r, rs_estimatedCostMicroUsd r)
  | None => eb_status b = FAILED_
  end.
Proof.
  unfold runDispatch. destruct (dispatch _ _ _ _ _ _ _ _) as [d' l]. intros [= <- (u & _ & Hr)%res_bind_Ok].
  destruct (ds_success d') as [[r s]|]; [|by injection Hr as <-].
  unfold complete_body in Hr. apply res_bind_Ok in Hr as (sig & _ & (box & _ & [= <-])%res_bind_Ok). by split_and!.
Qed.

Lemma run_dispatched o authorized cands record v d r : run o authorized cands record v = (d, r) ->
  numbered d /\ dispatched egress_env registry (tee_signingPublicKey tee) (vaultDecrypt vaultKey) authorized cands d.
Proof.
  unfold runDispatch. destruct (dispatch _ _ _ _ _ _ _ _) as [d' l] eqn:He. intros [= <- _].
  split; [by eapply dispatch_numbered; [apply numbered_init|]|]. eapply dispatch_loop; [apply idle_init|exact He].
Qed.

(** ** The answer as the coordinator receives it

    An exception of [runDispatch] reaches the enclave's error handler. *)
Context (error_message : DispatchThrow -> string).
Definition execute_answer (r : res DispatchThrow ExecuteBody) : res CallError ExecuteBody :=
  map_err (fun t => EnclaveRejection (VStr "CTN_INTERNAL") (VStr (error_message t)) 500) r.

Lemma run_answer_ok o authorized cands record v : answer_ok (execute_answer (run o authorized cands record v).2).
Proof.
  destruct (run o authorized cands record v) as [d [b|t]] eqn:Hr; simpl; [|by eexists].
  destruct (run_dispatched _ _ _ _ _ _ _ Hr) as [[Hc Hn Hk] Hd]. destruct (run_answer _ _ _ _ _ _ _ Hr) as [-> Hs]. split_and!.
  - rewrite Hn. apply NoDup_seqZ.
  - apply List.Forall_forall. intros a Hin%list_elem_of_In%(list_elem_of_fmap_2 at_attemptNumber). rewrite Hn in Hin.
    apply elem_of_seqZ in Hin. lia.
  - intros Hcm. destruct Hd as [_ Hp _|pre c a _ _ Ha Hp Hpo Hsu _].
    + eapply Forall_impl; [exact Hp|]. by intros a (c & _ & _ & ? & _).
    + rewrite Ha in Hk |- *. apply Forall_app in Hk as [_ Hk]. apply Forall_app. split.
      * eapply Forall_impl; [exact Hp|]. by intros x (? & _ & _ & ? & _).
      * repeat constructor. refine (proj1 (Forall_inv Hk _)). rewrite Hsu. destruct (ds_success d); [done|congruence].
Qed.

(** ** Booked rows

    By the fate of the last attempt: the reported usage of a success, the assumed
    spend of an unknown outcome, nothing for a known failure.  An exception after
    the provider answered leaves nothing to book. *)
Definition booking (now : Z) (requestId : string) (d : Dispatch) (r : res DispatchThrow ExecuteBody) : list UsageRow :=
  let entry credentialId contributorId i o micro :=
    usage_row now requestId credentialId contributorId i o (js_div (wire_q micro) 1000000) in
  match r, last (ds_attempts d) with
  | Ok _, Some a =>
      match ds_success d with
      | Some (r, s) => [entry (sl_credentialId s) (sl_contributorId s) (rs_inputTokens r) (rs_outputTokens r) (Some (rs_estimatedCostMicroUsd r))]
      | None => if at_upstreamOutcomeUnknown a
                then [entry (at_credentialId a) (at_contributorId a) 0 0 (at_assumedSpendMicroUsd a)] else []
      end
  | _, _ => []
  end.

Lemma find_none (l : list AttemptRecord) : Forall pre_dispatch l -> List.find at_upstreamOutcomeUnknown l = None.
Proof. induction 1 as [|a l (c & _ & _ & Ha & _) _ IH]; simpl; [done|]. by rewrite Ha. Qed.
Lemma find_last pre a : Forall pre_dispatch pre ->
  List.find at_upstreamOutcomeUnknown (pre ++ [a]) = if at_upstreamOutcomeUnknown a then Some a else None.
Proof. induction 1 as [|b l (c & _ & _ & Hb & _) _ IH]; simpl; [done|]. by rewrite Hb. Qed.

Lemma outcome_usage k now o authorized cands record v d r : run o authorized cands record v = (d, r) ->
  oc_usage (execute_outcome k now (execute_answer r)) = booking now k d r.
Proof.
  intros Hr. destruct r as [b|t]; [|done]. destruct (run_dispatched _ _ _ _ _ _ _ Hr) as [[_ _ Hk] Hd].
  destruct (run_answer _ _ _ _ _ _ _ Hr) as [Ha Hs]. unfold execute_outcome, booking. cbn [execute_answer map_err].
  destruct Hd as [_ Hp Hn|pre c a _ _ Hat Hp _ Hsu _].
  - rewrite Hn in Hs |- *. rewrite Hs. cbn [oc_usage dispatch_failure]. unfold assumed_rows. rewrite Ha, (find_none _ Hp).
    destruct (last (ds_attempts d)) as [a|] eqn:Hl; [|done]. apply last_Some in Hl as [l Hl]. rewrite Hl in Hp.
    apply Forall_app in Hp as [_ Hp]. by destruct (Forall_inv Hp) as (c & _ & _ & -> & _).
  - rewrite Hat, last_snoc. destruct (ds_success d) as [[rp s]|].
    + destruct Hs as (-> & -> & [rc ->] & Hu). cbn [oc_usage completion]. by rewrite Hu.
    + rewrite Hs. cbn [oc_usage dispatch_failure]. unfold assumed_rows. rewrite Ha, Hat, find_last by done.
      by destruct (at_upstreamOutcomeUnknown a).
Qed.

Lemma outcome_attempts k now o authorized cands record v d r : run o authorized cands record v = (d, r) ->
  oc_attempts (execute_outcome k now (execute_answer r)) = match r with Ok _ => ds_attempts d | Err _ => [] end.
Proof.
  intros Hr. destruct r as [b|t]; [|done]. destruct (run_answer _ _ _ _ _ _ _ Hr) as [Ha Hs]. unfold execute_outcome. cbn [execute_answer map_err].
  destruct (ds_success d) as [[rp s]|]; [destruct Hs as (-> & -> & [rc ->] & _)|rewrite Hs]; exact Ha.
Qed.
End dispatch.

Section booking.
Context `{U : Unicode} `{C : Crypto} `{W : Url}.
Context (egress_env : string) (registry : list (string * ProviderAdapter)) (pk : string) (dec : string -> option string).
Context (authorized : AuthorizedRequest) (cands : list CandidateRecord) (d : Dispatch).
Context (Hd : dispatched egress_env registry pk dec authorized cands d).

Lemma booking_sent now k r u : u ∈ booking now k d r ->
  exists call, ds_calls d = [call] /\ sent_for egress_env registry pk dec authorized cands (us_credential_id u) call.
Proof using Hd.
  unfold booking. destruct r as [b|t]; [|by intros ?%not_elem_of_nil].
  destruct Hd as [_ Hp Hn|pre call a Hc Hsf Hat Hp _ _ Hm].
  - rewrite Hn. destruct (last (ds_attempts d)) as [a|] eqn:Hl; [|by intros ?%not_elem_of_nil].
    apply last_Some in Hl as [l Hl]. rewrite Hl in Hp. apply Forall_app in Hp as [_ Hp].
    destruct (Forall_inv Hp) as (? & _ & _ & -> & _). by intros ?%not_elem_of_nil.
  - rewrite Hat, last_snoc. destruct (ds_success d) as [[rp s]|].
    + destruct Hm as (x & _ & -> & Hx & _). intros ->%list_elem_of_singleton. exists call. simpl. by rewrite <-Hx.
    + destruct (at_upstreamOutcomeUnknown a); [|by intros ?%not_elem_of_nil]. intros ->%list_elem_of_singleton. by exists call.
Qed.
Lemma booking_one now k b a : numbered d -> last (ds_attempts d) = Some a ->
  (length (booking now k d (Ok b)) = 1%nat <-> at_success a = true \/ at_upstreamOutcomeUnknown a = true).
Proof using Hd.
  intros [_ _ Hk] Hl. unfold booking. rewrite Hl. destruct Hd as [_ Hp Hn|pre c a' _ _ Hat _ _ Hsu _].
  - rewrite Hn. apply last_Some in Hl as [l Hl]. rewrite Hl in Hp, Hk. apply Forall_app in Hp as [_ Hp]. apply Forall_app in Hk as [_ Hk].
    destruct (Forall_inv Hp) as (x & Hc & _ & -> & _). split; [done|]. intros [Hs|]; [|done].
    destruct (Forall_inv Hk Hs) as [_ Hn']. congruence.
  - rewrite Hat, last_snoc in Hl. injection Hl as ->. destruct (ds_success d) as [[rp s]|].
    + rewrite bool_decide_eq_true_2 in Hsu by done. simpl. split; [by left|done].
    + rewrite bool_decide_eq_false_2 in Hsu by (by intros [? ?]). rewrite Hsu. destruct (at_upstreamOutcomeUnknown a); simpl.
      * split; [by right|done].
      * split; [done|]. by intros [|].
Qed.
End booking.

(** C6. What is booked is what was sent.  When the gate allowed a new request, the
    coordinator's request runs to its end on the enclave's real dispatch over the
    candidates it discovered, and adds to the ledger exactly the booking of that
    dispatch: the reported usage of a success, the assumed spend when the outcome
    stayed unknown, and nothing otherwise.  Every booked row is charged to the
    credential whose key the one upstream request carried: that request went to the
    endpoint of its provider with the secret decrypted from its blob in the headers
    and the authorized request as body.  When nothing was sent nothing is booked;
    unless the enclave threw, exactly one row is booked if the last attempt succeeded
    or may have been billed.  When the enclave threw after the provider answered - it
    could not sign or seal - nothing is booked.  The attempts persisted are the
    attempts the enclave reported. *)
Theorem booked_as_sent `{Unicode} `{Crypto} `{Url} `{Hpke} `{NodeCrypto} `{LowerCaseOk}
    egress_env registry vaultKey tee error_message to_upper js_text iso localeCompare COOLDOWN_MS
    c0 c1 c2 c3 e mode o authorized attestation record v db :
  fresh_request (env_requestId e) db -> go_decision o = ALLOW ->
  let k := env_requestId e in
  let enclave cands := runDispatch egress_env registry vaultKey tee o authorized cands record v in
  let found := candidates localeCompare (env_model e) (gt_policyId (gate_result o)) (ck_now c2) (lg_credentials (db_ledger db)) in
  let '(sent, r) := enclave found in
  let rows := booking (ck_now c3) k sent r in
  exists db' reply,
    runSecureRequest to_upper js_text iso localeCompare COOLDOWN_MS c0 c1 c2 c3 e mode (Ok (gate_result o)) attestation
      (fun cands => execute_answer error_message (enclave cands).2) db = (db', Ok reply) /\
    lg_usage (db_ledger db') = lg_usage (db_ledger db) ++ rows /\
    db_attempts db' = db_attempts db ++ (attempt_row iso (ck_now c3) k <$> match r with Ok _ => ds_attempts sent | Err _ => [] end) /\
    (forall u, u ∈ rows -> exists call, ds_calls sent = [call] /\
       sent_for egress_env registry (tee_signingPublicKey tee) (vaultDecrypt vaultKey) authorized found (us_credential_id u) call) /\
    (forall b a, r = Ok b -> last (ds_attempts sent) = Some a ->
       (length rows = 1%nat <-> at_success a = true \/ at_upstreamOutcomeUnknown a = true)).
Proof.
  intros Hf Hal k enclave found. destruct (enclave found) as [sent r] eqn:Hr. intros rows.
  destruct (run_dispatched _ _ _ _ _ _ _ _ _ _ _ Hr) as [Hn Hd].
  destruct (request_run to_upper js_text iso localeCompare COOLDOWN_MS c0 c1 c2 c3 e mode (Ok (gate_result o)) attestation
    (fun cands => execute_answer error_message (enclave cands).2) db Hf) as (db' & reply & x & Hrun & _ & _ & _ & _ & _ & _ & _ & Ha & Hu).
  { done. }
  { intros cands. apply run_answer_ok. }
  exists db', reply. split; [exact Hrun|].
  assert (Ho : oc_usage (request_outcome localeCompare c2 c3 e (lg_credentials (db_ledger db)) (Ok (gate_result o))
                 (fun cands => execute_answer error_message (enclave cands).2)) = rows /\
               oc_attempts (request_outcome localeCompare c2 c3 e (lg_credentials (db_ledger db)) (Ok (gate_result o))
                 (fun cands => execute_answer error_message (enclave cands).2)) = match r with Ok _ => ds_attempts sent | Err _ => [] end).
  { unfold request_outcome, verdict_outcome. change (gt_decision (gate_result o)) with (go_decision o). rewrite Hal.
    fold found. destruct found as [|cand cands]; [injection Hr as <- <-; by split|].
    rewrite Hr. split; [by eapply outcome_usage|]. by eapply outcome_attempts. }
  destruct Ho as [Ho1 Ho2]. rewrite Ho1 in Hu. rewrite Ho2 in Ha. split_and!; [exact Hu|exact Ha| |].
  - apply (booking_sent _ _ _ _ _ _ _ Hd).
  - intros b a -> Hl. by apply (booking_one _ _ _ _ _ _ _ Hd _ _ _ _ Hn).
Qed.

(** ** An example: a provider that never answers *)
Definition ex_openai_row : CredentialRow := {|
  cw_id := "cred_1"; cw_contributor_id := "u"; cw_provider := "openai"; cw_label := ""; cw_encrypted_blob := ex_secret_blob;
  cw_capability_json := default "" (stringify (capability_val ex_cap)); cw_capability_signature := cd_capabilitySignature ex_contributed;
  cw_key_fingerprint := ""; cw_status := "ACTIVE"; cw_weight := 1; cw_last_used_at := None; cw_requests_today := 0;
  cw_cost_today := 0; cw_usage_day := None; cw_failure_count := 0; cw_cooldown_until := None; cw_daily_usd_limit := None;
  cw_daily_request_limit := None |}.
Definition ex_r1 : SecureRequestEnvelope := {|
  env_requestId := "r1"; env_enclaveKeyId := "k"; env_box := {| sb_enc := "e"; sb_ciphertext := "c" |};
  env_apiVersion := "v1"; env_requestedPolicy := "safety-v1"; env_model := "gpt-4o-2024-08-06" |}.
Definition ex_openai_db : Db := set_ledger {| lg_contributors := ["u"]; lg_requests := []; lg_credentials := [ex_openai_row]; lg_usage := [] |} db_empty.
Lemma ex_openai_fresh k : fresh_request k ex_openai_db.
Proof.
  split; try (by intros ? ?%not_elem_of_nil); try (by intros ? ? ?%not_elem_of_nil); try done.
  - by apply not_elem_of_nil.
  - apply NoDup_singleton.
  - constructor; [vm_compute; reflexivity|constructor].
Qed.
Local Abbreviation ex_enclave cands :=
  (runDispatch "" (buildRegistry "http://mock") ex_dek ex_tee ex_outcome ex_granted cands None (ex_dispatch_env (FetchThrows true))).
Local Abbreviation ex_found := (candidates js_compare "gpt-4o-2024-08-06" "0xp" 30 [ex_openai_row]).

Lemma booked_as_sent_witness : exists db' reply cost call,
  runSecureRequest (fun s => s) (fun _ => "") ex_iso js_compare 60000 10 (ex_clock 20) (ex_clock 30) (ex_clock 40) ex_r1 secure
    (Ok (gate_result ex_outcome)) None (fun cands => execute_answer (fun _ => "") (ex_enclave cands).2) ex_openai_db = (db', Ok reply) /\
  lg_usage (db_ledger db') = [usage_row 40 "r1" "cred_1" "u" 0 0 cost] /\ Qle_bool cost 0 = false /\
  ds_calls (ex_enclave ex_found).1 = [call].
Proof.
  pose proof (booked_as_sent "" (buildRegistry "http://mock") ex_dek ex_tee (fun _ => "") (fun s => s) (fun _ => "") ex_iso js_compare
    60000 10 (ex_clock 20) (ex_clock 30) (ex_clock 40) ex_r1 secure ex_outcome ex_granted None None (ex_dispatch_env (FetchThrows true))
    ex_openai_db (ex_openai_fresh _) eq_refl) as Hb.
  cbv zeta in Hb.
  assert (Hf : candidates js_compare (env_model ex_r1) (gt_policyId (gate_result ex_outcome)) (ck_now (ex_clock 30))
    (lg_credentials (db_ledger ex_openai_db)) = ex_found) by (vm_compute; reflexivity).
  rewrite Hf in Hb.
  assert (Hu : booking 40 "r1" (ex_enclave ex_found).1 (ex_enclave ex_found).2 =
    [usage_row 40 "r1" "cred_1" "u" 0 0 (564931537257355 # 2305843009213693952)]) by (vm_compute; reflexivity).
  destruct (ex_enclave ex_found) as [sent r].
  destruct Hb as (db' & reply & Hrun & Hl & _ & Hs & _). cbn [fst snd] in Hu.
  change (booking (ck_now (ex_clock 40)) (env_requestId ex_r1) sent r) with (booking 40 "r1" sent r) in Hl, Hs. rewrite Hu in Hl, Hs.
  destruct (Hs _ (list_elem_of_here _ _)) as (call & Hcall & _).
  exists db', reply, (564931537257355 # 2305843009213693952), call.
  split; [exact Hrun|]. split; [exact Hl|]. split; [reflexivity|exact Hcall].
Defined.
