(* ===== verification/Client.v ===== *)
(** * The secure client (packages/client/src/index.ts)

    What the caller runs: checking the attestation, sealing a request and a
    contributed credential, reading the answer.  Random bytes are arguments;
    [fetch] is what the server answers, with the body when it parses. *)

From S2P Require Import Prelude JsNum Utf8 Json Unicode Canonical Stringify Types Crypto Texts Policy Authorize Pricing Providers Intent Insights Gates Hpke Tee EnclaveVerify ProofVerify ProverClient Prover GateRequest Logs Routing Events Coordinator.
Local Open Scope Z_scope.

(** What the methods throw. *)
Inductive ClientThrow : Type :=
| CtnApiError (code message : jsval) (requestId : option string)
| PolicyDeniedError (policyId : jsval) (requestId : string) (commitment : jsval)
| ClientCanonical (e : CanonicalizationError)
| ClientTypeError       (** a property read off [null] or [undefined] *)
| ClientFetch           (** no response, or a body that is not JSON *)
| ClientCrypto.         (** the attestation, the seal or the opening threw *)

Definition randomHex (bytes : string) : string := toHex bytes.

(** ** verifyAttestationBundle *)
Record BundleCheck : Type := {
  bc_keyBindingValid : bool;
  bc_documentSignatureValid : bool;
  bc_nonceFresh : bool;
  bc_hardwareBacked : bool;
  bc_valid : bool;
  bc_checks : list VerificationCheck;
}.

Section Client.
Context `{U : Unicode} `{C : Crypto} `{H : Hpke}.

Definition verifyAttestationBundle (bundle : attestation_input) (expectedNonce : option string) : res Throw BundleCheck :=
  let document := at_document bundle in
  documentSignatureValid ← verifyCanonical_js (attested_val (obj_without document "platformSignature") (at_nonce bundle))
                             (obj_get document "platformSignature") (at_enclaveSigningPublicKey bundle);
  ingress ← lift_get (js_get (obj_get document "userData") "ingressPublicKey");
  signing ← lift_get (js_get (obj_get document "userData") "signingPublicKey");
  let keyBindingValid := str_is ingress (at_ingressPublicKey bundle) && str_is signing (at_enclaveSigningPublicKey bundle) in
  let nonceFresh := match expectedNonce with None => true | Some n => bool_decide (at_nonce bundle = Some n) end in
  let nitro_ := String.eqb (at_teeMode bundle) "nitro" in
  Ok {| bc_keyBindingValid := keyBindingValid; bc_documentSignatureValid := documentSignatureValid;
        bc_nonceFresh := nonceFresh; bc_hardwareBacked := nitro_;
        bc_valid := documentSignatureValid && keyBindingValid && nonceFresh;
        bc_checks :=
          [chk "attestation document signature valid" documentSignatureValid VUndef;
           chk "attested keys equal presented keys" keyBindingValid VUndef] ++
          match expectedNonce with
          | Some _ => [chk "attestation is fresh for this request's nonce" nonceFresh VUndef]
          | None => []
          end ++
          [chk "hardware root of trust" nitro_
             (VStr (if nitro_ then "AWS Nitro" else "SIMULATED — key binding verified, no hardware isolation"))] |}.

(** ** Sealing *)
Record ClientRandom : Type := {
  cr_keySeed : string;   (** of the response key pair *)
  cr_nonce : string;     (** 32 bytes *)
  cr_requestId : string; (** 16 bytes *)
  cr_eph : string;       (** of the sender context *)
}.

Definition payload_val (p : SecurePayload) : jsval :=
  VObj [("request", request_val (pl_request p)); ("requestNonce", VStr (pl_requestNonce p));
        ("responsePublicKey", VStr (pl_responsePublicKey p))].

Definition opt_or {A} (e : ClientThrow) (o : option A) : res ClientThrow A := match o with Some a => Ok a | None => Err e end.

(** The envelope around a box. *)
Definition envelope_of (bundle : AttestationBundle) (requestId model : string) (box : SealedBox) : SecureRequestEnvelope := {|
  env_requestId := requestId; env_enclaveKeyId := ab_enclaveKeyId bundle; env_box := box;
  env_apiVersion := "v1"; env_requestedPolicy := "safety-v1"; env_model := model |}.
Definition header_val (model : string) : jsval :=
  VObj [("apiVersion", VStr "v1"); ("requestedPolicy", VStr "safety-v1"); ("model", VStr model)].

(** envelope, private key of the response, nonce *)
Definition sealRequest (bundle : AttestationBundle) (input : jsval) (r : ClientRandom)
    : res ClientThrow (SecureRequestEnvelope * string * string) :=
  canonical ← map_err ClientCanonical (toCanonicalRequest input);
  let '(publicKeyB64, privateKeyB64) := generateHpkeKeyPair (cr_keySeed r) in
  let nonce := randomHex (cr_nonce r) in
  text ← opt_or ClientCrypto (stringify (payload_val
           {| pl_request := canonical; pl_requestNonce := nonce; pl_responsePublicKey := publicKeyB64 |}));
  aad ← map_err ClientCanonical (canonicalJson (header_val (cr_model canonical)));
  sealed ← opt_or ClientCrypto (hpkeSeal (ab_ingressPublicKey bundle) (cr_eph r) text (Some aad));
  Ok (envelope_of bundle ("req_" +:+ randomHex (cr_requestId r)) (cr_model canonical) sealed, privateKeyB64, nonce).

(** ** completion *)
Record CompletionResult : Type := {
  co_requestId : string;
  co_content : jsval;
  co_model : jsval;
  co_usage : jsval;
  co_commitment : jsval;
  co_receipt : jsval;
  co_receiptId : jsval;
  co_route : jsval;
  co_timings : jsval;
  co_trustStatus : jsval;
}.

(** [res.ok] and [await res.json()] *)
Definition fetched (w : Wire) : res ClientThrow (Z * jsval) :=
  match w with Response status (Some json) => Ok (status, json) | _ => Err ClientFetch end.
Definition is_2xx (status : Z) : bool := (200 <=? status) && (status <=? 299).

Definition read_refusal (requestId : string) (json : jsval) : res ClientThrow CompletionResult :=
  error ← opt_or ClientTypeError (js_get json "error");
  if str_is (js_get_opt error "code") "CTN_POLICY_DENIED"
  then Err (PolicyDeniedError (nullish (js_get_opt error "policy_id") (VStr "")) requestId (js_get_opt json "request_commitment"))
  else Err (CtnApiError (nullish (js_get_opt error "code") (VStr "CTN_INTERNAL"))
              (nullish (js_get_opt error "message") (VStr "request failed")) (Some requestId)).

Definition as_box (v : jsval) : option SealedBox :=
  enc ← as_str (js_get_opt v "enc"); ciphertext ← as_str (js_get_opt v "ciphertext");
  Some {| sb_enc := enc; sb_ciphertext := ciphertext |}.

Definition read_completion (requestId responsePrivateKey : string) (json : jsval) : res ClientThrow CompletionResult :=
  encrypted ← opt_or ClientTypeError (js_get json "encrypted_response");
  opened ← opt_or ClientCrypto (as_box encrypted ≫= fun box => hpkeOpen responsePrivateKey box None);
  decoded ← opt_or ClientFetch (JSON_parse (text_decode opened));
  let receipt := js_get_opt json "receipt" in
  content ← opt_or ClientTypeError (js_get decoded "content");
  Ok {| co_requestId := requestId; co_content := content; co_model := js_get_opt decoded "model";
        co_usage := js_get_opt decoded "usage"; co_commitment := nullish (js_get_opt receipt "request_commitment") (VStr "");
        co_receipt := nullish (js_get_opt receipt "signed_receipt") VNull;
        co_receiptId := nullish (js_get_opt receipt "receipt_id") VNull;
        co_route := nullish (js_get_opt json "route") VNull; co_timings := nullish (js_get_opt json "timings") (VObj []);
        co_trustStatus := nullish (js_get_opt json "trust_status") (VStr "UNKNOWN") |}.

Definition read_answer (requestId responsePrivateKey : string) (w : Wire) : res ClientThrow CompletionResult :=
  '(status, json) ← fetched w;
  if is_2xx status then read_completion requestId responsePrivateKey json else read_refusal requestId json.

(** [refuse e b]: [if (!b) throw e], where the check itself may throw. *)
Definition require_valid (what : string) (bundle : AttestationBundle) : res ClientThrow unit :=
  check ← map_err (fun _ => ClientCrypto) (verifyAttestationBundle (bundle_input bundle) None);
  guard_ok (bc_valid check) (CtnApiError (VStr "CTN_ATTESTATION_REQUIRED")
    (VStr ("refusing to encrypt" +:+ what +:+ ": enclave attestation failed verification")) None).

(** [post] is what the coordinator answers to the envelope. *)
Definition completion (bundle : AttestationBundle) (input : jsval) (r : ClientRandom) (post : SecureRequestEnvelope -> Wire)
    : res ClientThrow CompletionResult :=
  _ ← require_valid "" bundle;
  '(envelope, responsePrivateKey, _) ← sealRequest bundle input r;
  read_answer (env_requestId envelope) responsePrivateKey (post envelope).

(** ** policyTest: the attestation is not checked *)
Definition policyTest (bundle : AttestationBundle) (prompt model : string) (r : ClientRandom) (post : SecureRequestEnvelope -> Wire)
    : res ClientThrow jsval :=
  '(envelope, _, _) ← sealRequest bundle (VObj [("model", VStr model);
     ("messages", VArr [VObj [("role", VStr "user"); ("content", VStr prompt)]])]) r;
  '(status, json) ← fetched (post envelope);
  if is_2xx status then Ok json
  else error ← opt_or ClientTypeError (js_get json "error");
       code ← opt_or ClientTypeError (js_get error "code");
       Err (CtnApiError code (js_get_opt error "message") None).

(** ** contributeCredential *)
Record Contribution : Type := {
  cn_contributorId : string;
  cn_label : string;
  cn_provider : Provider;
  cn_apiKey : string;
  cn_allowedModels : list string;
}.
(** The sealed part of what is posted. *)
Record CredentialPost : Type := {
  cp_contributorId : string;
  cp_label : string;
  cp_credentialId : string;
  cp_enclaveKeyId : string;
  cp_box : SealedBox;
}.
Record ContributeRandom : Type := { cr_id : string; cr_intentNonce : string; cr_intentEph : string }.

Definition intent_of (c : Contribution) (r : ContributeRandom) : CredentialIntentV1 := {|
  ci_credentialId := "cred_" +:+ randomHex (cr_id r); ci_secret := cn_apiKey c; ci_provider := cn_provider c;
  ci_allowedModels := cn_allowedModels c; ci_allowedPolicies := ["safety-v1"]; ci_contributorId := cn_contributorId c;
  ci_intentNonce := randomHex (cr_intentNonce r) |}.

Definition contributeCredential (bundle : AttestationBundle) (c : Contribution) (r : ContributeRandom) : res ClientThrow CredentialPost :=
  _ ← require_valid " credential" bundle;
  let intent := intent_of c r in
  text ← map_err ClientCanonical (canonicalJson (intent_val intent));
  sealed ← opt_or ClientCrypto (hpkeSeal (ab_ingressPublicKey bundle) (cr_intentEph r) text None);
  Ok {| cp_contributorId := cn_contributorId c; cp_label := cn_label c; cp_credentialId := ci_credentialId intent;
        cp_enclaveKeyId := ab_enclaveKeyId bundle; cp_box := sealed |}.
End Client.

(** ** waitForProof

    The answers of the polls with the clock after each; the loop ends at the first
    settled status or at the first answer past the deadline. *)
Definition settled_status (proof : jsval) : bool :=
  let status := js_get_opt proof "proof_status" in
  truthy status && negb (str_is status "PROVING") && negb (str_is status "QUEUED").
Fixpoint waitForProof (deadline : Z) (polls : list (jsval * Z)) : option jsval :=
  match polls with
  | [] => None
  | (proof, now) :: polls =>
      if settled_status proof then Some proof
      else if deadline <? now then Some proof
      else waitForProof deadline polls
  end.
