(* ===== verification/EndToEnd.v ===== *)
(** * From the caller to the provider and back

    The client of packages/client run against the coordinator and the enclave:
    what it seals is what the gate evaluates, and what it reads is what the
    provider answered. *)

From S2P Require Import Prelude JsNum Utf8 Json Unicode Canonical Stringify Types Crypto Texts Policy PolicyV1 Authorize Pricing Providers Intent Insights JsMap Gates Hpke Tee EnclaveVerify ProofVerify ProverClient Prover GateRequest Dispatch Enclave Logs Routing Events Coordinator Trust Settle Booking Client.
Local Open Scope Z_scope.

Section seal.
Context `{U : Unicode} `{C : Crypto} `{H : Hpke} `{N : NodeCrypto} `{!UnicodeOk U} `{!CryptoOk C} `{!HpkeOk H}.

(** ** The attestation *)
Lemma issued_accepted tee nonce now iso bundle what :
  issued_by tee -> Z.abs now <= MAX_SAFE -> attestation tee nonce now iso = Ok bundle -> require_valid what bundle = Ok tt.
Proof.
  intros Hi Hn Hb. destruct (issued_signature tee nonce now iso Hi Hn) as (b & Hb' & Hnonce & _ & Hing & Hsig & _ & Hdoc & Hver).
  rewrite Hb in Hb'. injection Hb' as <-. unfold require_valid, verifyAttestationBundle. fold_bundle.
  rewrite Hnonce, Hver, Hdoc by done. cbn [map_err mbind res_bind]. rewrite Hing, Hsig. cbn.
  by rewrite !bool_decide_eq_true_2.
Qed.

(** ** The request, through JSON.stringify and back *)
Lemma plain_vint z : Z.abs z <= MAX_SAFE -> plain (vint z) = vint z.
Proof. intros Hz. unfold vint. cbn [plain]. rewrite safe_int_num. by rewrite (proj2 (Z.leb_le _ _) Hz). Qed.
Lemma number_text_vint z : Z.abs z <= MAX_SAFE -> stringify (vint z) = Some (num_to_string z).
Proof. intros Hz. unfold vint. cbn [stringify]. unfold number_text. rewrite safe_int_num. by rewrite (proj2 (Z.leb_le _ _) Hz). Qed.

Lemma plain_message m : plain (message_val m) = message_val m.
Proof. done. Qed.
Lemma plain_request r : request_ok r -> plain (request_val r) = request_val r.
Proof.
  intros (_ & _ & _ & _ & Ht & Hx). unfold request_val. cbn [plain List.map List.filter fst snd].
  rewrite !plain_vint by (unfold MAX_SAFE; lia). cbn [is_undef negb vint]. repeat f_equal.
  induction (cr_messages r) as [|m ms IH]; [done|]. cbn [fmap list_fmap List.map]. by rewrite IH.
Qed.
Lemma canonicalMessage_val i m : message_ok m -> canonicalMessage (i, message_val m) = Ok m.
Proof.
  intros Hm. unfold canonicalMessage, prop, role_of, message_val. cbn -[role_str]. destruct m as [r c]. unfold message_ok in Hm. cbn in *.
  destruct r; vm_compute in Hm |- *; by rewrite Hm.
Qed.
Lemma toCanonicalRequest_val r : request_ok r -> toCanonicalRequest (request_val r) = Ok r.
Proof.
  intros (Hne & Hm & Hms & Hok & Ht & Hx).
  unfold toCanonicalRequest, prop, nfc_field, temperatureMillis, assertSafeInteger, request_val.
  cbn -[message_val mapM_res safe_int]. rewrite Hm.
  destruct (str_empty (cr_model r)) eqn:He; [by destruct (cr_model r)|].
  assert (E : forall k, mapM_res canonicalMessage (imap (fun i => pair (k + i)%nat) (message_val <$> cr_messages r)) = Ok (cr_messages r)).
  { clear -Hok. induction Hok as [|m ms Hm _ IH]; intros k; [done|].
    cbn [fmap list_fmap imap mapM_res]. rewrite canonicalMessage_val by done.
    erewrite imap_ext; [by rewrite (IH (S k))|]. intros i x _. simpl. f_equal. lia. }
  specialize (E 0%nat). destruct (cr_messages r) as [|m ms] eqn:Ems; [done|].
  cbn -[message_val mapM_res safe_int] in *. unfold prop, assertSafeInteger; cbn -[message_val mapM_res safe_int jnum] in *.
  rewrite !safe_int_num, !(proj2 (Z.leb_le _ MAX_SAFE)) by (unfold MAX_SAFE; lia).
  match goal with |- mapM_res ?f ?l ≫= _ = _ => change (mapM_res f l = Ok (m :: ms)) in E end.
  rewrite E. unfold guard_ok, mbind, res_bind.
  rewrite !(proj2 (Z.leb_le _ _)) by lia. cbn. destruct r; simpl in *; by subst.
Qed.

(** Values whose text is defined. *)
Fixpoint printable (v : jsval) : bool :=
  match v with
  | VUndef => false
  | VNum n => match number_text n with Some _ => true | None => false end
  | VArr l => forallb (fun x => is_undef x || printable x) l
  | VObj o => forallb (fun kv => is_undef kv.2 || printable kv.2) o
  | _ => true
  end.
Lemma stringify_total v : printable v = true -> is_Some (stringify v).
Proof.
  induction v as [| |b|x|t|l IH|o IH] using jsval_ind; intros Hp; try done; try (by eexists); cbn [stringify printable] in *.
  - by destruct (number_text x).
  - assert (Hs : is_Some (mapM (fun x => if is_undef x then Some "null" else stringify x) l)).
    { apply mapM_is_Some_2. induction IH as [|x l Hx _ IHl]; [constructor|]. cbn [forallb] in Hp. apply andb_true_iff in Hp as [H1 H2].
      constructor; [|by apply IHl]. unfold compose. destruct (is_undef x); [by eexists|by apply Hx]. }
    destruct Hs as [ps ->]. by eexists.
  - assert (Hs : is_Some (mapM (fun kv => if is_undef kv.2 then Some None else t ← stringify kv.2; Some (Some (entry_text kv.1 t))) o)).
    { apply mapM_is_Some_2. induction IH as [|x o Hx _ IHo]; [constructor|]. cbn [forallb] in Hp. apply andb_true_iff in Hp as [H1 H2].
      constructor; [|by apply IHo]. unfold compose. destruct (is_undef x.2); [by eexists|]. destruct (Hx H1) as [t ->]. by eexists. }
    destruct Hs as [ps ->]. by eexists.
Qed.

Lemma printable_vint z : Z.abs z <= MAX_SAFE -> printable (vint z) = true.
Proof. intros Hz. pose proof (number_text_vint z Hz) as Hn. unfold vint in *. cbn [stringify printable] in *. by rewrite Hn. Qed.
Lemma printable_request r : request_ok r -> printable (request_val r) = true.
Proof.
  intros (_ & _ & _ & _ & Ht & Hx). unfold request_val. cbn [printable forallb snd is_undef orb].
  rewrite !printable_vint by (unfold MAX_SAFE; lia). rewrite !orb_true_r, !andb_true_r. cbn [andb].
  induction (cr_messages r) as [|m ms IH]; [done|exact IH].
Qed.

Lemma js_get_request v k x : js_get v k = Some x -> js_get_opt v k = x.
Proof. intros Hx. unfold js_get_opt. by rewrite Hx. Qed.

Definition payload_of (canonical : CanonicalRequestV1) (rnd : ClientRandom) : SecurePayload := {|
  pl_request := canonical; pl_requestNonce := randomHex (cr_nonce rnd);
  pl_responsePublicKey := (generateHpkeKeyPair (cr_keySeed rnd)).1 |}.

(** The text of a payload of well-formed strings decodes to the payload. *)
Lemma payload_text canonical rnd : request_ok canonical -> texts_ok (request_val canonical) = true ->
  exists text, stringify (payload_val (payload_of canonical rnd)) = Some text /\
    JSON_parse (text_decode text) = Some (payload_val (payload_of canonical rnd)).
Proof.
  intros Hr Ht.
  assert (Hp : printable (payload_val (payload_of canonical rnd)) = true).
  { unfold payload_val. cbn [printable forallb snd is_undef orb pl_request payload_of]. by rewrite printable_request. }
  destruct (stringify_total _ Hp) as [text Htext]. exists text. split; [done|].
  assert (Hw : well_formed text = true).
  { eapply stringify_well_formed; [|exact Htext]. unfold payload_val. cbn [texts_ok forallb fst snd payload_of pl_request pl_requestNonce pl_responsePublicKey].
    rewrite Ht. unfold generateHpkeKeyPair, randomHex. destruct (kem_generate _) as [pub priv]. cbn [fst].
    rewrite !(well_formed_ascii _ (ascii_toB64 _)), !(well_formed_ascii _ (ascii_toHex _)). vm_compute. reflexivity. }
  assert (Hhd : exists r, chars text = byte_of 123 :: r).
  { unfold payload_val in Htext. cbn [stringify] in Htext. apply bind_Some in Htext as (ps & _ & [= <-]).
    by eexists. }
  destruct Hhd as [r Hhd]. rewrite (text_decode_ascii _ _ _ Hw Hhd) by (vm_compute; reflexivity).
  rewrite (JSON_parse_stringify _ _) with (2 := Htext).
  - unfold payload_val. cbn [plain List.map List.filter fst snd payload_of pl_request pl_requestNonce pl_responsePublicKey].
    rewrite plain_request by done. done.
  - unfold payload_val. cbn [wf fst snd fmap list_fmap payload_of pl_request]. split; [apply (bool_decide_unpack _); vm_compute; exact I|].
    split_and!; try done. apply wf_request.
Qed.

(** ** What is sealed is what is opened *)
Definition request_id (rnd : ClientRandom) : string := "req_" +:+ randomHex (cr_requestId rnd).
Record keyed (tee : SimulatedTEE) (seed : string) (bundle : AttestationBundle) : Prop := {
  ky_public : tee_ingressPublicKey tee = (generateHpkeKeyPair seed).1;
  ky_private : tee_ingressPrivateKey tee = (generateHpkeKeyPair seed).2;
  ky_bundle : ab_ingressPublicKey bundle = tee_ingressPublicKey tee;
  ky_id : ab_enclaveKeyId bundle = tee_enclaveKeyId tee;
}.

Lemma commitment_total canonical rnd : request_ok canonical -> String.length (cr_nonce rnd) = 32%nat ->
  exists commitment, request_commitment_of canonical (randomHex (cr_nonce rnd)) = Ok commitment.
Proof.
  intros Hr Hn. destruct (canonicalBytes_total _ Hr) as [bytes Hb].
  unfold request_commitment_of, requestCommitment, commitment_preimage. rewrite Hb. cbn [lift_canon lift_crypto mbind res_bind].
  unfold randomHex. rewrite fromHex_toHex. cbn [lift_hex mbind res_bind]. unfold blen. rewrite Hn. cbn. by eexists.
Qed.

Lemma seal_opens tee seed bundle input canonical rnd : keyed tee seed bundle ->
  toCanonicalRequest input = Ok canonical -> texts_ok (request_val canonical) = true -> String.length (cr_nonce rnd) = 32%nat ->
  exists envelope payload commitment,
    sealRequest bundle input rnd = Ok (envelope, (generateHpkeKeyPair (cr_keySeed rnd)).2, randomHex (cr_nonce rnd)) /\
    env_requestId envelope = request_id rnd /\
    well_sealed tee envelope payload canonical commitment /\ op_requestNonce payload = randomHex (cr_nonce rnd) /\
    op_responsePublicKey payload = VStr (generateHpkeKeyPair (cr_keySeed rnd)).1.
Proof.
  intros [Hpub Hpriv Hing Hid] Hcan Htexts Hlen. pose proof (toCanonicalRequest_valid _ _ Hcan) as Hr.
  destruct (payload_text canonical rnd Hr Htexts) as (text & Htext & Hparse).
  destruct (commitment_total canonical rnd Hr Hlen) as [commitment Hcm].
  destruct (aad_ok (envelope_of bundle "" (cr_model canonical) {| sb_enc := ""; sb_ciphertext := "" |})) as [aad Haad].
  change (aad_val _) with (header_val (cr_model canonical)) in Haad.
  pose proof (hpke_roundtrip seed (cr_eph rnd) text (Some aad)) as Hrt.
  destruct (generateHpkeKeyPair seed) as [pub priv] eqn:Hk. cbn [fst snd] in Hpub, Hpriv. destruct Hrt as (box & Hseal & Hopen).
  set (canon_payload := {| op_request := request_val canonical; op_requestNonce := randomHex (cr_nonce rnd);
    op_responsePublicKey := VStr (generateHpkeKeyPair (cr_keySeed rnd)).1 |}).
  exists (envelope_of bundle (request_id rnd) (cr_model canonical) box), canon_payload, commitment.
  split_and!; try done.
  - unfold sealRequest. rewrite Hcan. cbn [map_err mbind res_bind].
    destruct (generateHpkeKeyPair (cr_keySeed rnd)) as [rpub rpriv] eqn:Hrk. unfold payload_of in Htext. rewrite Hrk in Htext. cbn [fst] in Htext.
    rewrite Htext. cbn [opt_or mbind res_bind]. rewrite Haad. cbn [map_err mbind res_bind]. rewrite Hing, Hpub, Hseal. done.
  - split; try done.
    + intros aad' Haad'. change (aad_val _) with (header_val (cr_model canonical)) in Haad'. rewrite Haad in Haad'. injection Haad' as <-.
      unfold open_payload, openIngress. cbn [env_box envelope_of]. rewrite Hpriv, Hopen. cbn [mbind option_bind]. rewrite Hparse. done.
    + by apply toCanonicalRequest_val.
Qed.
End seal.

(** ** JSON of the reply *)
Lemma reparsed_get v k x : js_get_opt v k = x -> is_undef x = false -> js_get_opt (reparsed v) k = reparsed x.
Proof.
  intros <- Hx. destruct v as [| |b|n|t|l|o]; cbn in Hx |- *; try done.
  unfold js_get_opt in *. cbn [js_get default] in *. induction o as [|[a y] o IH]; [done|]. cbn [obj_get List.map List.filter fst snd] in *.
  destruct (String.eqb k a) eqn:Hk.
  - assert (Hu : is_undef (reparsed y) = false) by (destruct y as [| |?|[]|?|?|?]; done). rewrite Hu. cbn [negb obj_get]. by rewrite Hk.
  - destruct (is_undef (reparsed y)); cbn [negb obj_get]; [|rewrite Hk]; by apply IH.
Qed.

(** What [fetch] gives the client of a handler's reply; an exception is the
    coordinator's 500. *)
Definition served (r : res Thrown Reply) : Wire :=
  match r with
  | Ok reply => Response (rp_code reply) (Some (reparsed (rp_body reply)))
  | Err _ => Response 500 (Some (VObj [("error", VObj [("code", VStr "CTN_INTERNAL")])]))
  end.

(** ** One request through the enclave's two handlers *)
Record Deployment : Type := {
  dp_canonical_message : CanonicalizationError -> string;
  dp_json_error : string -> string;
  dp_type_error : string -> string;
  dp_crypto_message : CryptoError -> string;
  dp_gate_message : GateThrow -> string;
  dp_dispatch_message : DispatchThrow -> string;
  dp_egress_env : string;
  dp_registry : list (string * ProviderAdapter);
  dp_vaultKey : string;
  dp_tee : SimulatedTEE;
  dp_prover : Prover;
  dp_to_upper : string -> string;
  dp_js_text : jsval -> string;
  dp_iso : Z -> string;
  dp_localeCompare : string -> string -> comparison;
  dp_cooldown : Z;
}.

(** Clocks, random bytes and the outside world during the request. *)
Record Moment : Type := {
  mo_world : World;                  (** the enclave *)
  mo_db : Db;                        (** the coordinator *)
  mo_gate : gate_env;
  mo_proverNonce : string;
  mo_parkedAt : Z;
  mo_execute : gate_env;
  mo_dispatch : dispatch_env;
  mo_attestation : option Attestation;
  mo_received : Z;
  mo_clocks : Clock * Clock * Clock;
}.

Section stack.
Context `{U : Unicode} `{C : Crypto} `{W : Url} `{H : Hpke} `{N : NodeCrypto} `{L : LowerCase}.
Context (D : Deployment) (M : Moment).
Local Abbreviation estep := (step (dp_canonical_message D) (dp_json_error D) (dp_type_error D) (dp_crypto_message D)
  (dp_egress_env D) (dp_registry D) (dp_vaultKey D) (dp_tee D) (dp_prover D)).

Definition refused (t : GateThrow) : CallError :=
  let '(status, code) := gate_reply t in EnclaveRejection (VStr code) (VStr (dp_gate_message D t)) status.

(** [POST /gate]: up to the decryption, to the executor, and from its answer on. *)
Definition post_gate (e : SecureRequestEnvelope) : World * res CallError GateResult :=
  let i := length (wd_tasks (mo_world M)) in
  let '(w1, out1) := estep (mo_world M) (PostGate (mo_gate M) (Some ("ctn-1", e))) in
  let '(w2, out2) := estep w1 (IngressOpens i) in
  let '(w3, out3) := estep w2 (ExecutorAnswers i (mo_proverNonce M) (mo_parkedAt M)) in
  (w3, match out1 ++ out2 ++ out3 with
       | Gated o :: _ => Ok (gate_result o)
       | Refused t :: _ => Err (refused t)
       | _ => Err EnclaveUnavailable
       end).

(** [POST /execute] with the commitment of the gate. *)
Definition post_execute (w : World) (e : SecureRequestEnvelope) (commitment : string) (cands : list CandidateRecord)
    : World * res CallError ExecuteBody :=
  let i := length (wd_tasks w) in
  let '(w1, out1) := estep w (PostExecute (mo_execute M) (Some ("ctn-1", e)) cands (Some commitment)) in
  let '(w2, out2) := estep w1 (IngressOpens i) in
  let '(w3, out3) := estep w2 (ExecutorAnswers i (mo_proverNonce M) (mo_parkedAt M)) in
  let '(w4, out4) := estep w3 (ProviderAnswers i (mo_dispatch M)) in
  (w4, match List.filter (fun x => match x with Sent _ _ => false | _ => true end) (out1 ++ out2 ++ out3 ++ out4) with
       | Answered b :: _ => Ok b
       | Refused t :: _ => Err (refused t)
       | CommitmentRefused :: _ => Err (EnclaveRejection (VStr "CTN_INVALID_ENVELOPE") (VStr "execute does not match the parked gate commitment") 400)
       | DispatchFailed t :: _ => execute_answer (dp_dispatch_message D) (Err t)
       | _ => Err EnclaveUnavailable
       end).

(** The coordinator in front of it. *)
Definition coordinate (mode : PrivacyMode) (e : SecureRequestEnvelope) : res Thrown Reply :=
  let '(w, gate) := post_gate e in
  let '(c1, c2, c3) := mo_clocks M in
  (runSecureRequest (dp_to_upper D) (dp_js_text D) (dp_iso D) (dp_localeCompare D) (dp_cooldown D)
    (mo_received M) c1 c2 c3 e mode gate (mo_attestation M)
    (fun cands => (post_execute w e (match gate with Ok g => gt_commitment g | Err _ => "" end) cands).2) (mo_db M)).2.
Definition serve (e : SecureRequestEnvelope) : Wire := served (coordinate secure e).

Context `{!UnicodeOk U}.

Lemma post_gate_run e s' o :
  gateRequest (dp_canonical_message D) (dp_tee D) (mo_gate M) (Some ("ctn-1", e)) (wd_state (mo_world M)) = (s', Ok o) ->
  request_ok (go_canonical o) ->
  exists w, post_gate e = (w, Ok (gate_result o)) /\
    (go_decision o = ALLOW -> map_get (es_pendingGates (wd_state w)) (go_requestId o) =
       Some {| pk_value := o; pk_commitment := go_commitment o; pk_at := mo_parkedAt M |}).
Proof.
  intros Hg Hr. rewrite gateRequest_segments in Hg. unfold post_gate, step, open_task.
  apply se_bind_Ok in Hg as (s0 & [envelope aad] & Hh & Hg). unfold se_lift in Hh.
  pose proof (f_equal fst Hh) as Hs0. apply (f_equal snd) in Hh. cbn [fst snd] in Hs0, Hh. subst s0. rewrite Hh.
  apply se_bind_Ok in Hg as (s1 & [payload canonical] & Ho & He). cbn [wd_tasks spawn wd_state fst snd] in *.
  rewrite list_lookup_middle by done. rewrite Ho. cbn [wd_tasks wd_state].
  rewrite list_lookup_insert_eq by (rewrite length_app; simpl; lia). cbn [is_Some]. unfold gate_done. rewrite (se_bind_run _ _ s1 s' o He).
  destruct (canonicalBytes_total _ Hr) as [text Ht]. unfold canonicalBytes in Ht.
  unfold start_proof, witnessFor. rewrite Ht. rewrite (bool_decide_eq_false_2) by (by intros [? ?]).
  eexists. split; [reflexivity|]. intros Ha. cbn [wd_state]. unfold park. rewrite Ha. cbn [es_pendingGates with_pending]. unfold remember.
  by rewrite map_get_set.
Qed.

Lemma post_execute_run w e o authorized cands :
  map_get (es_pendingGates (wd_state w)) (go_requestId o) = Some {| pk_value := o; pk_commitment := go_commitment o; pk_at := mo_parkedAt M |} ->
  env_requestId e = go_requestId o -> str_empty (env_requestId e) = false ->
  gv_now (mo_execute M) - mo_parkedAt M <= PENDING_TTL_MS -> go_decision o = ALLOW -> go_authorized o = Some authorized ->
  (post_execute w e (go_commitment o) cands).2 = execute_answer (dp_dispatch_message D)
    (runDispatch (dp_egress_env D) (dp_registry D) (dp_vaultKey D) (dp_tee D) o authorized cands
       (get (sy_state (es_prover (wd_state w))) (go_requestId o)) (mo_dispatch M)).2.
Proof.
  intros Hp He Hne Ht Hal Hau. unfold post_execute, step, consume_parked, consume, proceed. rewrite Hne, He, Hp.
  unfold expired. cbn [pk_at pk_commitment pk_value pending_opts po_ttlMs default]. rewrite (proj2 (Z.ltb_ge _ _)) by lia.
  rewrite String.eqb_refl. cbn [negb]. rewrite Hal, Hau. cbn [spawn wd_tasks wd_state].
  rewrite list_lookup_middle by done. cbn [wd_tasks wd_state spawn with_pending es_prover].
  rewrite list_lookup_middle by done. cbn [wd_tasks wd_state spawn with_pending es_prover].
  rewrite list_lookup_middle by done. cbn [wd_tasks wd_state spawn with_pending es_prover].
  destruct (runDispatch _ _ _ _ _ _ _ _ _) as [d r]. cbn [app snd].
  assert (Hf : forall l x, (match x with Sent _ _ => false | _ => true end) = true ->
    List.filter (fun x => match x with Sent _ _ => false | _ => true end) ((Sent o <$> l) ++ [x]) = [x]).
  { intros l x Hx. induction l as [|y l IH]; simpl; [by rewrite Hx|exact IH]. }
  destruct r as [b|t]; by rewrite Hf.
Qed.
End stack.

(** ** What the caller gets *)
Section caller.
Context `{U : Unicode} `{C : Crypto} `{W : Url} `{H : Hpke} `{N : NodeCrypto} `{Lo : LowerCaseOk}.
Context `{!UnicodeOk U} `{!CryptoOk C} `{!HpkeOk H}.

(** A deployment in which a request can be served: the enclave attested its own
    keys, the executor does what it documents, nothing is in the tables under the
    new id, the nonce is new, and the dispatch follows the gate in time. *)
Record serviceable (D : Deployment) (M : Moment) (seed : string) (bundle : AttestationBundle) (rules : PolicyRules)
    (policyId : string) (rnd : ClientRandom) : Prop := {
  sv_issued : issued_by (dp_tee D);
  sv_public : tee_ingressPublicKey (dp_tee D) = (generateHpkeKeyPair seed).1;
  sv_private : tee_ingressPrivateKey (dp_tee D) = (generateHpkeKeyPair seed).2;
  sv_attested : exists nonce now iso, Z.abs now <= MAX_SAFE /\ attestation (dp_tee D) nonce now iso = Ok bundle;
  sv_executor : faithful rules policyId (gv_daemon (mo_gate M));
  sv_gateMs : Z.abs (gv_gateMs (mo_gate M)) <= MAX_SAFE;
  sv_nonce : String.length (cr_nonce rnd) = 32%nat;
  sv_fresh_nonce : map_has (es_seenNonces (wd_state (mo_world M))) (randomHex (cr_nonce rnd)) = false;
  sv_fresh : fresh_request (request_id rnd) (mo_db M);
  sv_time : gv_now (mo_execute M) - mo_parkedAt M <= PENDING_TTL_MS;
}.

Lemma serviceable_keyed D M seed bundle rules policyId rnd : serviceable D M seed bundle rules policyId rnd ->
  keyed (dp_tee D) seed bundle /\ require_valid "" bundle = Ok tt.
Proof.
  intros []. destruct sv_attested0 as (nonce & now & iso & Hn & Ha). split; [|exact (issued_accepted _ nonce now iso _ "" sv_issued0 Hn Ha)].
  destruct (issued_signature _ nonce now iso sv_issued0 Hn) as (b & Hb & _ & _ & Hi & _ & Hid & _). rewrite Ha in Hb. injection Hb as <-. by split.
Qed.

(** The enclave's side: the gate's outcome, and the answer to the candidates. *)
Lemma enclave_serves D M seed bundle rules policyId rnd input canonical : serviceable D M seed bundle rules policyId rnd ->
  toCanonicalRequest input = Ok canonical -> texts_ok (request_val canonical) = true ->
  exists envelope o w authorized record,
    sealRequest bundle input rnd = Ok (envelope, (generateHpkeKeyPair (cr_keySeed rnd)).2, randomHex (cr_nonce rnd)) /\
    env_requestId envelope = request_id rnd /\ env_model envelope = cr_model canonical /\
    post_gate D M envelope = (w, Ok (gate_result o)) /\
    go_requestId o = request_id rnd /\ go_canonical o = canonical /\
    request_commitment_of canonical (randomHex (cr_nonce rnd)) = Ok (go_commitment o) /\
    go_decision o = pe_decision (evaluateRequest rules (cm_content <$> cr_messages canonical)) /\
    gt_policyId (gate_result o) = policyId /\
    op_responsePublicKey (go_payload o) = VStr (generateHpkeKeyPair (cr_keySeed rnd)).1 /\
    (go_decision o = ALLOW -> ar_request authorized = canonical /\ ar_requestCommitment authorized = go_commitment o /\
       forall cands, (post_execute D M w envelope (go_commitment o) cands).2 = execute_answer (dp_dispatch_message D)
         (runDispatch (dp_egress_env D) (dp_registry D) (dp_vaultKey D) (dp_tee D) o authorized cands record (mo_dispatch M)).2).
Proof.
  intros Hsv Hcan Htexts. destruct (serviceable_keyed _ _ _ _ _ _ _ Hsv) as [Hk _]. destruct Hsv.
  destruct (seal_opens _ _ _ _ _ rnd Hk Hcan Htexts sv_nonce0) as (envelope & payload & commitment & Hseal & Hid & Hws & Hn & Hpk).
  destruct (gateRequest_complete (dp_canonical_message D) (dp_tee D) rules policyId (mo_gate M) envelope payload canonical commitment
    (wd_state (mo_world M)) sv_executor0 sv_gateMs0 Hws) as (s' & o & Hgate & Hoc & Hcm & Hdec & Hpol & Hoid & Hpay & Hauth); [by rewrite Hn|].
  pose proof (toCanonicalRequest_valid _ _ Hcan) as Hr.
  assert (Hcommit : request_commitment_of canonical (randomHex (cr_nonce rnd)) = Ok (go_commitment o)).
  { rewrite Hcm, <-Hn. apply Hws. }
  destruct (post_gate_run D M envelope s' o Hgate) as (w & Hpg & Hparked); [by rewrite Hoc|].
  destruct (go_decision o) eqn:Hgo.
  - destruct (Hauth eq_refl) as (authorized & Hau & Har & Hac).
    exists envelope, o, w, authorized, (get (sy_state (es_prover (wd_state w))) (go_requestId o)). split_and!; try done; try (by apply Hws); try (by rewrite ?Hoid, ?Hpay); [by rewrite Hgo|].
    intros _. split_and!; [done|by rewrite Hac|]. intros cands. apply post_execute_run; [by apply Hparked|by rewrite Hoid| |done|done|done].
      rewrite Hid. done.
  - exists envelope, o, w, {| ar_request := canonical; ar_requestCommitment := ""; ar_requestNonce := ""; ar_policyId := ""; ar_policyMs := 0 |}, None.
    split_and!; try done; try (by apply Hws); try (by rewrite ?Hoid, ?Hpay); by rewrite Hgo.
Qed.
End caller.

(** ** Reading the answers *)
Section reading.
Context `{U : Unicode} `{C : Crypto} `{W : Url} `{H : Hpke} `{N : NodeCrypto}.

Lemma read_error k priv reply code : is_2xx (rp_code reply) = false -> code <> "CTN_POLICY_DENIED" ->
  js_get_opt (js_get_opt (rp_body reply) "error") "code" = VStr code ->
  exists message, read_answer k priv (served (Ok reply)) = Err (CtnApiError (VStr code) message (Some k)).
Proof.
  intros Hs Hc He. unfold read_answer, served. cbn [fetched mbind res_bind]. rewrite Hs. unfold read_refusal.
  assert (Hu : is_undef (js_get_opt (rp_body reply) "error") = false) by (by destruct (js_get_opt (rp_body reply) "error")).
  pose proof (reparsed_get _ _ _ eq_refl Hu) as Hr. pose proof (reparsed_get _ _ _ He eq_refl) as Hrc. rewrite <-Hr in Hrc.
  destruct (js_get (reparsed (rp_body reply)) "error") as [err|] eqn:Hg.
  2: { unfold js_get_opt in Hrc at 2. rewrite Hg in Hrc. done. }
  rewrite (js_get_request _ _ _ Hg) in Hrc. cbn [opt_or mbind res_bind]. rewrite Hrc. cbn [reparsed str_is].
  rewrite bool_decide_eq_false_2 by done. by eexists.
Qed.

Lemma response_text_well_formed requestId model r : well_formed requestId = true -> well_formed model = true ->
  well_formed (rs_content r) = true -> well_formed (response_text requestId model r) = true.
Proof.
  intros Hi Hm Hc. pose proof (fun z => well_formed_ascii _ (ascii_num z)) as Hn.
  assert (Hl : forall a b c, well_formed a = true -> well_formed b = true -> well_formed c = true -> well_formed (str_app [a; b; c]) = true).
  { intros a b c Ha Hb Hc'. apply well_formed_concat. apply Forall_cons. split; [exact Ha|]. apply Forall_cons. split; [exact Hb|]. by apply Forall_singleton. }
  assert (Hf : forall fs, Forall (fun kv => well_formed kv.1 = true /\ well_formed kv.2 = true) fs -> well_formed (json_fields fs) = true).
  { intros fs Hfs. apply Hl; [by vm_compute| |by vm_compute]. apply well_formed_join; [by vm_compute|]. apply Forall_fmap.
    eapply Forall_impl; [exact Hfs|]. intros [k t] [Hk Ht]. apply Hl; [by apply well_formed_quote|by vm_compute|exact Ht]. }
  assert (Hc2 : forall (P : string * string -> Prop) x l, P x -> Forall P l -> Forall P (x :: l)) by (by constructor).
  unfold response_text. apply Hf. repeat (apply Hc2; [split; cbn [fst snd]; [by vm_compute|]|]);
    [by apply well_formed_quote|by apply well_formed_quote|by apply well_formed_quote| |constructor].
  apply Hf. repeat (apply Hc2; [split; cbn [fst snd]; [by vm_compute|apply Hn]|]). constructor.
Qed.

Lemma response_decodes requestId canonical r : well_formed requestId = true -> texts_ok (request_val canonical) = true ->
  well_formed (rs_content r) = true -> text_decode (response_text requestId (cr_model canonical) r) = response_text requestId (cr_model canonical) r.
Proof.
  intros Hi Htexts Hw. eapply (text_decode_ascii _ (byte_of 123)); [|reflexivity|by vm_compute]. apply response_text_well_formed; [done| |exact Hw].
  unfold request_val in Htexts. cbn [texts_ok forallb fst snd] in Htexts. destruct (well_formed (cr_model canonical)); [done|].
  exfalso. revert Htexts. clear. by destruct (well_formed "model").
Qed.
Lemma request_id_well_formed rnd : well_formed (request_id rnd) = true.
Proof. by apply (well_formed_app "req_"); [vm_compute|apply well_formed_ascii, ascii_toHex]. Qed.

(** The sealed response, decoded and parsed. *)
Lemma read_complete k priv b sel receipt box text requestId model r :
  eb_encryptedResponse b = Some box -> hpkeOpen priv box None = Some text ->
  JSON_parse (text_decode text) = Some (response_val requestId model r) ->
  exists result, read_answer k priv (served (Ok (complete_reply k b sel receipt))) = Ok result /\
    co_requestId result = k /\ co_content result = VStr (rs_content r) /\ co_model result = VStr model /\
    co_usage result = VObj [("inputTokens", vint (rs_inputTokens r)); ("outputTokens", vint (rs_outputTokens r))] /\
    co_commitment result = VStr (eb_commitment b) /\ co_receipt result = reparsed (signed_val receipt).
Proof.
  intros Hbox Hopen Hparse. unfold read_answer, served. cbn [fetched mbind res_bind rp_code complete_reply].
  set (body := rp_body _). change (is_2xx 200) with true. cbn iota.
  assert (Hget : forall f, js_get (reparsed body) f = Some (js_get_opt (reparsed body) f)) by done.
  assert (He : js_get_opt (reparsed body) "encrypted_response" = VObj [("enc", VStr (sb_enc box)); ("ciphertext", VStr (sb_ciphertext box))]).
  { rewrite (reparsed_get body _ (box_val (eb_encryptedResponse b))); [by rewrite Hbox|done|by rewrite Hbox]. }
  pose proof (reparsed_get body "receipt" _ eq_refl eq_refl) as Hr.
  assert (Hsr : js_get_opt (js_get_opt (reparsed body) "receipt") "signed_receipt" = reparsed (signed_val receipt)).
  { rewrite Hr. by apply reparsed_get. }
  assert (Hnu : nullish (reparsed (signed_val receipt)) VNull = reparsed (signed_val receipt)) by done.
  assert (Hcm : js_get_opt (js_get_opt (reparsed body) "receipt") "request_commitment" = VStr (eb_commitment b)).
  { rewrite Hr. by rewrite (reparsed_get _ _ (VStr (eb_commitment b))). }
  unfold read_completion. rewrite Hget, He, Hsr, Hcm, Hnu. destruct box as [enc ciphertext].
  cbn [opt_or mbind res_bind option_bind as_box as_str js_get_opt js_get obj_get default String.eqb Ascii.eqb Bool.eqb sb_enc sb_ciphertext] in *.
  unfold as_box. cbn. rewrite Hopen. cbn [opt_or mbind res_bind option_bind]. rewrite Hparse. cbn. eexists. by split_and!.
Qed.
End reading.

(** ** The round trip *)
Section round_trip.
Context `{U : Unicode} `{C : Crypto} `{W : Url} `{H : Hpke} `{N : NodeCrypto} `{Lo : LowerCaseOk}.
Context `{!UnicodeOk U} `{!CryptoOk C} `{!HpkeOk H}.

(** The enclave is asked to execute only when its gate allowed. *)
Lemma execute_asked to_upper js_text iso localeCompare cool c0 c1 c2 c3 e mode gate att ex ex' d :
  (gt_decision gate = ALLOW -> forall cands, ex cands = ex' cands) ->
  runSecureRequest to_upper js_text iso localeCompare cool c0 c1 c2 c3 e mode (Ok gate) att ex d =
  runSecureRequest to_upper js_text iso localeCompare cool c0 c1 c2 c3 e mode (Ok gate) att ex' d.
Proof.
  intros He. unfold runSecureRequest, decide_dispatch, mbind, SE_bind. destruct (gt_decision gate) eqn:Hd.
  - repeat case_match; simplify_eq; try done; match goal with Hx : ex _ = _ |- _ => rewrite He in Hx by done end; congruence.
  - repeat case_match; simplify_eq; done.
Qed.

(** The reply, by the outcome the request settles with. *)
Lemma coordinate_reply D M mode e w o execute : fresh_request (env_requestId e) (mo_db M) -> post_gate D M e = (w, Ok (gate_result o)) ->
  (go_decision o = ALLOW -> forall cands, (post_execute D M w e (go_commitment o) cands).2 = execute cands) ->
  (forall cands, answer_ok (execute cands)) ->
  let '(c1, c2, c3) := mo_clocks M in
  let x := request_outcome (dp_localeCompare D) c2 c3 e (lg_credentials (db_ledger (mo_db M))) (Ok (gate_result o)) execute in
  exists reply, coordinate D M mode e = Ok reply /\ rp_code reply = oc_code x /\
    (forall body, oc_body x = Some body -> rp_body reply = body) /\
    (forall error, oc_error x = Some error -> js_get_opt (js_get_opt (rp_body reply) "error") "code" = VStr error).
Proof.
  intros Hf Hg Hex Hok. destruct (mo_clocks M) as [[c1 c2] c3] eqn:Hc. intros x.
  destruct (request_run (dp_to_upper D) (dp_js_text D) (dp_iso D) (dp_localeCompare D) (dp_cooldown D) (mo_received M) c1 c2 c3 e mode
    (Ok (gate_result o)) (mo_attestation M) execute (mo_db M) Hf) as (db' & reply & r & Hrun & _ & _ & _ & Hcode & Hbody & Herr & _); [done|done|].
  exists reply. split_and!; [|exact Hcode|exact Hbody|intros err He; by apply Herr].
  unfold coordinate. rewrite Hg, Hc. cbn [gt_commitment gate_result]. by rewrite (execute_asked _ _ _ _ _ _ _ _ _ _ _ _ _ _ execute), Hrun by done.
Qed.

(** The answer to a dispatch, read by the caller. *)
Definition answered (D : Deployment) (bundle : AttestationBundle) (o : GateOutcome) (id : string) (sent : Dispatch)
    (r : res DispatchThrow ExecuteBody) (result : res ClientThrow CompletionResult) : Prop :=
  match r with
  | Err _ => exists message, result = Err (CtnApiError (VStr "CTN_INTERNAL") message (Some id))
  | Ok body =>
      match ds_success sent with
      | None => exists message, result = Err (CtnApiError (VStr (failure_code (ds_lastFailure sent))) message (Some id))
      | Some (answer, _) => well_formed (rs_content answer) = true ->
          exists completed receipt, result = Ok completed /\ co_requestId completed = id /\
            co_content completed = VStr (rs_content answer) /\ co_model completed = VStr (cr_model (go_canonical o)) /\
            co_usage completed = VObj [("inputTokens", vint (rs_inputTokens answer)); ("outputTokens", vint (rs_outputTokens answer))] /\
            co_commitment completed = VStr (go_commitment o) /\
            co_receipt completed = reparsed (signed_val receipt) /\ eb_receipt body = Some receipt /\
            cpr_requestId (scr_receipt receipt) = id /\ cpr_requestCommitment (scr_receipt receipt) = go_commitment o /\
            exists check, verifyComputeReceipt (signed_val receipt) (ab_enclaveSigningPublicKey bundle) None None = Ok check /\ vr_valid check = true
      end
  end.

Lemma complete_fields egress_env registry vaultKey tee o authorized cands record v d b :
  runDispatch egress_env registry vaultKey tee o authorized cands record v = (d, Ok b) ->
  match ds_success d with
  | Some (r, s) => eb_commitment b = ar_requestCommitment authorized
  | None => exists message, eb_error b = Some (failure_code (ds_lastFailure d), message)
  end.
Proof.
  unfold runDispatch. destruct (dispatch _ _ _ _ _ _ _ _) as [d' l]. intros [= <- (u & _ & Hr)%res_bind_Ok].
  destruct (ds_success d') as [[r s]|]; [|injection Hr as <-; by eexists].
  unfold complete_body in Hr. apply res_bind_Ok in Hr as (sig & _ & (box & _ & [= <-])%res_bind_Ok). done.
Qed.

Lemma failure_not_denial l : failure_code l <> "CTN_POLICY_DENIED".
Proof. destruct l as [[? ? [] ? ?]|]; done. Qed.

Lemma answer_read D bundle o authorized record id rnd reply cands v now sent r :
  tee_signingPublicKey (dp_tee D) = toHex (ed_public (tee_signingPrivateKey (dp_tee D))) ->
  ab_enclaveSigningPublicKey bundle = tee_signingPublicKey (dp_tee D) ->
  op_responsePublicKey (go_payload o) = VStr (generateHpkeKeyPair (cr_keySeed rnd)).1 ->
  id = request_id rnd -> go_requestId o = id -> ar_request authorized = go_canonical o -> ar_requestCommitment authorized = go_commitment o ->
  texts_ok (request_val (go_canonical o)) = true ->
  runDispatch (dp_egress_env D) (dp_registry D) (dp_vaultKey D) (dp_tee D) o authorized cands record v = (sent, r) ->
  let x := execute_outcome id now (execute_answer (dp_dispatch_message D) r) in
  rp_code reply = oc_code x -> (forall body, oc_body x = Some body -> rp_body reply = body) ->
  (forall error, oc_error x = Some error -> js_get_opt (js_get_opt (rp_body reply) "error") "code" = VStr error) ->
  answered D bundle o id sent r (read_answer id (generateHpkeKeyPair (cr_keySeed rnd)).2 (served (Ok reply))).
Proof.
  intros Hk Hbk Hpk Hid Hoid Hreq Hcm Htexts Hr x Hcode Hbody Herr. destruct r as [b|t]; cbn [answered].
  2: { destruct (read_error id (generateHpkeKeyPair (cr_keySeed rnd)).2 reply "CTN_INTERNAL") as [m Hm]; [rewrite Hcode; reflexivity|done|apply Herr; reflexivity|by exists m]. }
  destruct (run_answer _ _ _ _ _ _ _ _ _ _ _ Hr) as [_ Hs]. pose proof (complete_fields _ _ _ _ _ _ _ _ _ _ _ Hr) as Hf.
  unfold x, execute_outcome in *. cbn [execute_answer map_err] in *.
  destruct (ds_success sent) as [[answer sel]|] eqn:Hsu.
  - destruct Hs as (Hst & Hse & [rc Hrc] & _). rewrite Hst, Hse, Hrc in *. cbn [completion oc_code oc_body oc_error] in *. intros Hw.
    destruct (dispatch_receipt _ _ _ _ _ _ _ _ _ _ _ (cr_keySeed rnd) Hr Hst Hk Hpk)
      as (r' & s' & sig & box & text & Hsu' & Hrc' & (check & Hv & Hvalid) & Hbox & Hopen & Htext & Hparse & _).
    rewrite Hsu in Hsu'. injection Hsu' as <- <-. rewrite Hrc in Hrc', Hv. injection Hrc' as ->. cbn [default] in Hv.
    assert (Htd : text_decode text = text).
    { subst text. rewrite Hreq in *. apply response_decodes; [rewrite Hoid, Hid; apply request_id_well_formed|done|done]. }
    specialize (Hbody _ eq_refl).
    set (receipt := {| scr_receipt := compute_receipt (dp_tee D) o authorized answer sel record v; scr_enclaveSignature := sig |}) in *.
    assert (Hrep : reply = complete_reply id b sel receipt).
    { destruct reply as [code body]. simpl in *. by subst. }
    destruct (read_complete id (generateHpkeKeyPair (cr_keySeed rnd)).2 b sel receipt box text (go_requestId o) (cr_model (ar_request authorized)) answer)
      as (result & Hres & H1 & H2 & H3 & H4 & H5 & H6); [done|done|by rewrite Htd|].
    rewrite Hrep, Hres. exists result, receipt. rewrite H1, H2, H3, H4, H5, H6, Hf, Hcm, Hreq, Hbk. split_and!; try done. by exists check.
  - destruct Hf as [m He]. rewrite Hs in *. cbn [dispatch_failure oc_code oc_body oc_error] in *. rewrite He in Herr.
    destruct (read_error id (generateHpkeKeyPair (cr_keySeed rnd)).2 reply (failure_code (ds_lastFailure sent))) as [m' Hm];
      [by rewrite Hcode|apply failure_not_denial|by apply Herr|by exists m'].
Qed.
End round_trip.

(** C4. The round trip of a secure completion.  A caller who checked the attestation
    of an enclave that keeps its keys, sends a new request through the coordinator:
    the enclave decides on exactly the caller's canonical request, as the policy
    rules do; a denial is raised as the denial under the pinned policy with the
    commitment to that canonical request and the caller's nonce; an allowed request is
    dispatched, with that canonical request and commitment as the authorized ones,
    over the credentials the coordinator discovers, and the caller reads the
    provider's content and token counts under its own request id and that same
    commitment, with a receipt for both that verifies against the key it attested - or
    the error code of the last failure, CTN_NO_CAPACITY when there was none.  The call
    always ends in one of these. *)
Theorem secure_completion `{Unicode} `{Crypto} `{Url} `{Hpke} `{NodeCrypto} `{LowerCaseOk} `{!UnicodeOk _} `{!CryptoOk _} `{!HpkeOk _}
    D M seed bundle rules policyId rnd input canonical :
  serviceable D M seed bundle rules policyId rnd ->
  toCanonicalRequest input = Ok canonical -> texts_ok (request_val canonical) = true ->
  exists o authorized record,
    go_canonical o = canonical /\
    request_commitment_of canonical (randomHex (cr_nonce rnd)) = Ok (go_commitment o) /\
    go_decision o = pe_decision (evaluateRequest rules (cm_content <$> cr_messages canonical)) /\
    let result := completion bundle input rnd (serve D M) in
    let id := request_id rnd in
    match go_decision o with
    | DENY => result = Err (PolicyDeniedError (VStr policyId) id (VStr (go_commitment o)))
    | ALLOW =>
        ar_request authorized = canonical /\ ar_requestCommitment authorized = go_commitment o /\
        let '(_, c2, _) := mo_clocks M in
        let found := candidates (dp_localeCompare D) (cr_model canonical) policyId (ck_now c2) (lg_credentials (db_ledger (mo_db M))) in
        let '(sent, r) := runDispatch (dp_egress_env D) (dp_registry D) (dp_vaultKey D) (dp_tee D) o authorized found record (mo_dispatch M) in
        answered D bundle o id sent r result
    end.
Proof.
  intros Hsv Hcan Htexts. destruct (enclave_serves _ _ _ _ _ _ _ _ _ Hsv Hcan Htexts)
    as (e & o & w & authorized & record & Hseal & Hid & Hmodel & Hgate & Hoid & Hoc & Hcommit & Hdec & Hpol & Hpk & Hallow).
  exists o, authorized, record. split; [exact Hoc|]. split; [exact Hcommit|]. split; [exact Hdec|]. cbv zeta.
  destruct (serviceable_keyed _ _ _ _ _ _ _ Hsv) as [_ Hvalid]. unfold completion. rewrite Hvalid, Hseal. cbn [mbind res_bind]. rewrite Hid.
  destruct Hsv. destruct sv_attested0 as (nonce & now & iso & Hn & Ha).
  destruct (issued_signature _ nonce now iso sv_issued0 Hn) as (b & Hb & _ & _ & _ & Hsk & _). rewrite Ha in Hb. injection Hb as <-.
  pose (execute := fun cands => execute_answer (dp_dispatch_message D)
    (runDispatch (dp_egress_env D) (dp_registry D) (dp_vaultKey D) (dp_tee D) o authorized cands record (mo_dispatch M)).2).
  pose proof (coordinate_reply D M secure e w o execute) as Hserve. rewrite Hid in Hserve. specialize (Hserve sv_fresh0 Hgate).
  destruct (mo_clocks M) as [[c1 c2] c3]. unfold serve. destruct Hserve as (reply & -> & Hcode & Hbody & Herr).
  { intros Hal. by apply Hallow. }
  { intros cands. apply run_answer_ok. }
  unfold request_outcome, verdict_outcome in Hcode, Hbody, Herr. rewrite Hid, Hmodel, Hpol in *. cbn [gt_decision gate_result] in *.
  destruct (go_decision o).
  - destruct (Hallow eq_refl) as (Hreq & Hcm & _). split; [exact Hreq|]. split; [exact Hcm|].
    destruct (candidates _ _ _ _ _) as [|cand cands].
    + destruct (read_error (request_id rnd) (generateHpkeKeyPair (cr_keySeed rnd)).2 reply "CTN_NO_CAPACITY") as [m Hm];
        [by rewrite Hcode|done|by apply Herr|by exists m].
    + unfold execute in Hcode, Hbody, Herr. destruct (runDispatch _ _ _ _ _ _ _ _ _) as [sent r] eqn:Hr.
      eapply (answer_read D bundle o authorized record (request_id rnd) rnd); try eassumption; try done; try (by apply sv_issued0); by rewrite Hoc.
  - unfold read_answer, served. rewrite Hcode. cbn [denial oc_code]. cbn [fetched mbind res_bind]. by rewrite (Hbody _ eq_refl), <-Hpol.
Qed.

(** What the check does not say: a bundle that anyone made with keys of their own
    passes it, and its maker opens what is sealed to it. *)
Lemma self_made_enclave_trusted `{Unicode} `{Crypto} `{Hpke} `{!UnicodeOk _} `{!CryptoOk _} `{!HpkeOk _}
    buildId policyIds seed signing proverKey input canonical rnd :
  toCanonicalRequest input = Ok canonical -> texts_ok (request_val canonical) = true -> String.length (cr_nonce rnd) = 32%nat ->
  let tee := new_SimulatedTEE buildId policyIds (generateHpkeKeyPair seed).1 (generateHpkeKeyPair seed).2 signing proverKey in
  exists bundle envelope payload commitment,
    attestation tee None 0 "" = Ok bundle /\ require_valid "" bundle = Ok tt /\
    sealRequest bundle input rnd = Ok (envelope, (generateHpkeKeyPair (cr_keySeed rnd)).2, randomHex (cr_nonce rnd)) /\
    well_sealed tee envelope payload canonical commitment.
Proof.
  intros Hcan Htexts Hlen tee. assert (Hi : issued_by tee) by apply new_tee_issues.
  destruct (issued_signature tee None 0 "" Hi) as (bundle & Hb & _ & _ & Hing & _ & Hid & _); [unfold MAX_SAFE; lia|].
  destruct (seal_opens tee seed bundle input canonical rnd) as (envelope & payload & commitment & Hs & _ & Hw & _); try done.
  exists bundle, envelope, payload, commitment. split_and!; try done. eapply issued_accepted; [exact Hi| |exact Hb]. unfold MAX_SAFE. lia.
Qed.

(** ** An example: one contributed credential, and a provider that says hello *)
Definition ex_deployment : Deployment := {|
  dp_canonical_message := (fun _ => ""); dp_json_error := (fun s => s); dp_type_error := (fun s => s); dp_crypto_message := (fun _ => "");
  dp_gate_message := (fun _ => ""); dp_dispatch_message := (fun _ => ""); dp_egress_env := ""; dp_registry := buildRegistry "http://mock";
  dp_vaultKey := ex_dek; dp_tee := ex_tee; dp_prover := ex_prover; dp_to_upper := (fun s => s); dp_js_text := (fun _ => "");
  dp_iso := ex_iso; dp_localeCompare := js_compare; dp_cooldown := 60000 |}.
Definition ex_moment : Moment := {|
  mo_world := world_init; mo_db := ex_openai_db;
  mo_gate := {| gv_daemon := reexec_daemon ex_rules "0xp"; gv_now := 10; gv_decryptMs := 0; gv_gateMs := 7; gv_proofNonce := "00" |};
  mo_proverNonce := "0xn"; mo_parkedAt := 20;
  mo_execute := {| gv_daemon := reexec_daemon ex_rules "0xp"; gv_now := 30; gv_decryptMs := 0; gv_gateMs := 0; gv_proofNonce := "" |};
  mo_dispatch := ex_dispatch_env (ex_fetch ex_call); mo_attestation := None; mo_received := 10;
  mo_clocks := (ex_clock 20, ex_clock 30, ex_clock 40) |}.
Definition ex_rnd : ClientRandom := {|
  cr_keySeed := "response"; cr_nonce := "0123456789abcdef0123456789abcdef"; cr_requestId := "0123456789abcdef"; cr_eph := "eph" |}.
Definition ex_input : jsval := VObj
  [("model", VStr "gpt-4o-2024-08-06"); ("messages", VArr [VObj [("role", VStr "user"); ("content", VStr "hi")]]);
   ("temperature", vint 1); ("max_tokens", vint 16)].
Definition ex_issued : res CryptoError AttestationBundle := attestation (dp_tee ex_deployment) (Some "aa") 1000 "".

Lemma ex_issued_at bundle : ex_issued = Ok bundle -> attestation (dp_tee ex_deployment) (Some "aa") 1000 "" = Ok bundle.
Proof. unfold ex_issued. exact (fun Hb => Hb). Qed.
Lemma ex_serviceable bundle : ex_issued = Ok bundle ->
  serviceable ex_deployment ex_moment "ingress" bundle ex_rules "0xp" ex_rnd.
Proof.
  intros Hb%ex_issued_at. split.
  - apply new_tee_issues.
  - reflexivity.
  - reflexivity.
  - exists (Some "aa"), 1000, "". split; [unfold MAX_SAFE; lia|exact Hb].
  - apply reexec_faithful.
  - vm_compute. discriminate.
  - reflexivity.
  - reflexivity.
  - apply ex_openai_fresh.
  - vm_compute. discriminate.
Qed.

Lemma secure_completion_witness : exists bundle o sent r,
  ex_issued = Ok bundle /\ go_decision o = ALLOW /\
  answered ex_deployment bundle o (request_id ex_rnd) sent r (completion bundle ex_input ex_rnd (serve ex_deployment ex_moment)).
Proof.
  assert (Hi : is_ok ex_issued = true) by (vm_compute; reflexivity).
  destruct ex_issued as [bundle|] eqn:He; [|discriminate Hi].
  assert (Hr : exists canonical, toCanonicalRequest ex_input = Ok canonical /\ texts_ok (request_val canonical) = true /\
    pe_decision (evaluateRequest ex_rules (cm_content <$> cr_messages canonical)) = ALLOW).
  { eexists. split; [vm_compute; reflexivity|]. split; vm_compute; reflexivity. }
  destruct Hr as (canonical & Hcan & Htexts & Hal).
  destruct (secure_completion ex_deployment ex_moment "ingress" bundle ex_rules "0xp" ex_rnd ex_input canonical
    (ex_serviceable _ He) Hcan Htexts) as (o & authorized & record & _ & _ & Hdec & Hres).
  rewrite Hal in Hdec. rewrite Hdec in Hres. destruct Hres as (_ & _ & Hres). cbn [mo_clocks ex_moment] in Hres.
  destruct (runDispatch _ _ _ _ _ _ _ _ _) as [sent r]. exists bundle, o, sent, r.
  split; [reflexivity|]. split; [exact Hdec|exact Hres].
Defined.
