(* ===== verification/Contribution.v ===== *)
(** * From the contributor's browser to the vault

    What [contributeCredential] of the client seals is what the ingestion of the
    enclave opens, parses and encrypts. *)

From S2P Require Import Prelude JsNum Utf8 Json Unicode Canonical Stringify Types Crypto Texts Policy Authorize Pricing Providers Intent Insights JsMap Gates Hpke Tee EnclaveVerify ProofVerify ProverClient Prover GateRequest Dispatch Ingest Logs Routing Events Coordinator Client EndToEnd.
Local Open Scope Z_scope.

(** What the enclave will take: its schema, and texts that canonical JSON keeps. *)
Record acceptable (c : Contribution) : Prop := {
  at_secret : secret_ok (cn_apiKey c) = true;
  at_trimmed : str_trim (cn_apiKey c) = cn_apiKey c;
  at_secret_ascii : ascii (cn_apiKey c) = true;
  at_contributor : 1 <= js_length (cn_contributorId c) <= MAX_ID_LENGTH;
  at_contributor_ascii : ascii (cn_contributorId c) = true;
  at_models_ne : cn_allowedModels c <> [];
  at_models_max : (length (cn_allowedModels c) <= MAX_MODELS)%nat;
  at_models : Forall (fun m => m ∈ catalog_models (cn_provider c)) (cn_allowedModels c);
  at_models_nodup : NoDup (cn_allowedModels c);
}.

(** The keys of an intent, sorted. *)
Lemma sorted_members (a b c d e f g h : jsval) :
  jsort key_cmp [("version", a); ("credentialId", b); ("secret", c); ("provider", d); ("allowedModels", e); ("allowedPolicies", f);
                 ("contributorId", g); ("intentNonce", h)] =
  [("allowedModels", e); ("allowedPolicies", f); ("contributorId", g); ("credentialId", b); ("intentNonce", h); ("provider", d);
   ("secret", c); ("version", a)].
Proof. vm_compute. reflexivity. Qed.
Definition sorted_intent (i : CredentialIntentV1) : jsval :=
  VObj [("allowedModels", strs_val (ci_allowedModels i)); ("allowedPolicies", strs_val (ci_allowedPolicies i));
        ("contributorId", VStr (ci_contributorId i)); ("credentialId", VStr (ci_credentialId i)); ("intentNonce", VStr (ci_intentNonce i));
        ("provider", VStr (provider_str (ci_provider i))); ("secret", VStr (ci_secret i)); ("version", vint 1)].

Lemma parse_sorted i : parseIntentValue (sorted_intent i) = parseIntentValue (intent_val i).
Proof.
  unfold parseIntentValue, sorted_intent, intent_val. cbn [obj_get String.eqb Ascii.eqb Bool.eqb fmap list_fmap fst].
  rewrite !bool_decide_eq_true_2 by (vm_compute; reflexivity). reflexivity.
Qed.

Lemma ascii_catalog p m : m ∈ catalog_models p -> ascii m = true.
Proof.
  assert (Ha : forallb ascii (catalog_models p) = true) by (destruct p; vm_compute; reflexivity).
  intros Hm%list_elem_of_In. rewrite forallb_forall in Ha. by apply Ha.
Qed.
Lemma ascii_provider p : ascii (provider_str p) = true.
Proof. by destruct p. Qed.

Section texts.
Context `{U : Unicode} `{!UnicodeOk U}.
Lemma nfc_of_ascii s : ascii s = true -> nfc s = s.
Proof.
  intros Ha. apply nfc_ascii, List.Forall_forall. unfold ascii in Ha. rewrite forallb_forall in Ha. intros c Hc. by apply Z.ltb_lt, Ha.
Qed.
Lemma canon_strs l : Forall (fun s => ascii s = true) l -> canon (strs_val l) = strs_val l.
Proof.
  intros Hl. unfold strs_val. cbn [canon]. f_equal. induction Hl as [|s l Hs _ IH]; [done|]. cbn. rewrite nfc_of_ascii by done. by f_equal.
Qed.
Lemma texts_strs l : Forall (fun s => ascii s = true) l -> texts_ok (strs_val l) = true.
Proof.
  intros Hl. unfold strs_val. cbn [texts_ok]. induction Hl as [|s l Hs _ IH]; [done|]. cbn. by rewrite well_formed_ascii.
Qed.
End texts.

(** A hexadecimal text of random bytes has the digits the enclave asks for. *)
Lemma hex_lower_digit d : 0 <= d < 16 -> hex_lower (hex_digit d) = true.
Proof.
  intros Hd. assert (Ha : forallb (fun d => hex_lower (hex_digit d)) (seqZ 0 16) = true) by (vm_compute; reflexivity).
  rewrite forallb_forall in Ha. apply Ha, list_elem_of_In, elem_of_seqZ. lia.
Qed.
Lemma hex_lower_toHex s n : String.length s = n -> hex_lower_n (n + n) (chars (toHex s)) = true.
Proof.
  intros <-. unfold hex_lower_n, toHex. rewrite chars_unchars. induction s as [|c s IH]; [done|].
  change (chars (String c s)) with (c :: chars s). cbn [mbind list_bind String.length]. apply andb_true_iff in IH as [Hl%Nat.eqb_eq Hf].
  rewrite length_app, forallb_app, Hf. cbn [hex_pair forallb length]. pose proof (code_range c).
  rewrite !hex_lower_digit by (Z.div_mod_to_equations; lia). cbn [andb]. rewrite !andb_true_r. apply Nat.eqb_eq.
  unfold mbind in Hl |- *. rewrite Hl. lia.
Qed.
Lemma credential_id_random s : String.length s = 6%nat -> credential_id_ok ("cred_" +:+ randomHex s) = true.
Proof. intros Hs. unfold credential_id_ok, randomHex. rewrite chars_app. exact (hex_lower_toHex s 6 Hs). Qed.

Section contribute.
Context `{U : Unicode} `{C : Crypto} `{H : Hpke} `{N : NodeCrypto} `{!UnicodeOk U} `{!CryptoOk C} `{!HpkeOk H} `{!NodeCryptoOk N}.
Context (c : Contribution) (r : ContributeRandom) (Hc : acceptable c).
Context (Hid : String.length (cr_id r) = 6%nat) (Hnonce : String.length (cr_intentNonce r) = 32%nat).

Lemma intent_of_ok : intent_ok (intent_of c r).
Proof using Hc Hid Hnonce.
  destruct Hc. split; cbn [intent_of ci_credentialId ci_secret ci_allowedModels ci_provider ci_allowedPolicies ci_contributorId ci_intentNonce]; try done.
  - by apply credential_id_random.
  - exact (hex_lower_toHex (cr_intentNonce r) 32 Hnonce).
Qed.
Lemma models_ascii : Forall (fun s => ascii s = true) (cn_allowedModels c).
Proof using Hc. eapply Forall_impl; [exact (at_models _ Hc)|]. intros m. apply ascii_catalog. Qed.
Lemma ascii_credential_id : ascii ("cred_" +:+ randomHex (cr_id r)) = true.
Proof. unfold ascii, randomHex. rewrite chars_app, forallb_app. apply andb_true_iff. split; [done|]. apply ascii_toHex. Qed.

Lemma canon_intent : canon (intent_val (intent_of c r)) = sorted_intent (intent_of c r).
Proof using Hc UnicodeOk0.
  unfold intent_val, sorted_intent. cbn [canon List.map fst snd]. rewrite !canon_strs, !nfc_of_ascii;
    [|apply ascii_toHex|apply Hc|apply ascii_provider|apply Hc|apply ascii_credential_id|by repeat constructor|apply models_ascii].
  assert (canon (vint 1) = vint 1) as -> by (vm_compute; reflexivity). cbn [List.filter snd is_undef negb strs_val vint]. by rewrite sorted_members.
Qed.

Lemma sealed_text : exists text, canonicalJson (intent_val (intent_of c r)) = Ok text /\ parseIntent text = Ok (intent_of c r).
Proof using Hc Hid Hnonce UnicodeOk0.
  assert (Ht : exists text, canonicalJson (intent_val (intent_of c r)) = Ok text).
  { assert (Hok : is_ok (canonicalJson (intent_val (intent_of c r))) = true); [|destruct (canonicalJson _); [by eexists|done]].
    apply canonicalJson_obj_ok. rewrite !Forall_cons. destruct (canonicalJson_strs (cn_allowedModels c)) as [t1 E1].
    destruct (canonicalJson_strs ["safety-v1"]) as [t2 E2].
    split_and!; first [by right|right; exact (f_equal is_ok E1)|right; exact (f_equal is_ok E2)|constructor]. }
  destruct Ht as [text Ht]. exists text. split; [done|]. pose proof (canonicalJson_stringify _ _ Ht) as Hs. rewrite canon_intent in Hs.
  assert (Hw : well_formed text = true).
  { eapply stringify_well_formed; [|exact Hs]. unfold sorted_intent. cbn [texts_ok forallb fst snd].
    repeat (apply andb_true_iff; split);
      first [reflexivity|apply texts_strs; first [exact models_ascii|by repeat constructor]
            |apply well_formed_ascii; first [exact (at_contributor_ascii _ Hc)|exact (at_secret_ascii _ Hc)|exact ascii_credential_id|apply ascii_toHex|apply ascii_provider]]. }
  assert (Hhd : exists l, chars text = byte_of 123 :: l).
  { cbn [sorted_intent stringify] in Hs. apply bind_Some in Hs as (ps & _ & [= <-]). by eexists. }
  destruct Hhd as [l Hhd]. unfold parseIntent. rewrite (text_decode_ascii _ _ _ Hw Hhd) by (vm_compute; reflexivity).
  rewrite (JSON_parse_canonicalJson _ _) with (2 := Ht), canon_intent, parse_sorted.
  - apply parseIntentValue_complete; [exact intent_of_ok|]. apply (at_trimmed _ Hc).
  - cbn [wf intent_val fst snd fmap list_fmap]. split; [apply (bool_decide_unpack _); vm_compute; exact I|]. split_and!; try done.
    cbn [strs_val wf]. by induction (ci_allowedModels _).
Qed.

Lemma intent_digest_total : exists digest, intentDigest (intent_of c r) = Ok digest.
Proof using Hc Hid Hnonce UnicodeOk0.
  unfold intentDigest. assert (Hok : is_ok (canonicalJson (public_intent_val (intent_of c r))) = true).
  { apply canonicalJson_obj_ok. rewrite !Forall_cons. destruct (canonicalJson_strs (cn_allowedModels c)) as [t1 E1].
    destruct (canonicalJson_strs ["safety-v1"]) as [t2 E2].
    split_and!; first [by right|right; exact (f_equal is_ok E1)|right; exact (f_equal is_ok E2)|constructor]. }
  destruct (canonicalJson _) as [t|]; [|done]. by eexists.
Qed.

(** What a contributor seals is what the vault keeps.  For a contribution within
    the enclave's schema, sealed against the attestation of an enclave that keeps its
    keys: the client accepts the attestation and posts; the enclave opens the post to
    exactly the contributor's intent - key, provider, models, contributor, under the
    id the client drew - and encrypts that key under the vault key, on any state of
    the enclave that has not consumed the intent; where it has, the post is refused
    as a replay, and under any other credential id as a mismatch. *)
Lemma contribution_ingested tee seed nonce now iso bundle vaultKey iv :
  issued_by tee -> tee_ingressPublicKey tee = (generateHpkeKeyPair seed).1 -> tee_ingressPrivateKey tee = (generateHpkeKeyPair seed).2 ->
  Z.abs now <= MAX_SAFE -> attestation tee nonce now iso = Ok bundle ->
  String.length vaultKey = 32%nat -> String.length iv = 12%nat ->
  exists post digest blob, contributeCredential bundle c r = Ok post /\
    cp_contributorId post = cn_contributorId c /\ cp_label post = cn_label c /\ cp_credentialId post = ci_credentialId (intent_of c r) /\
    vaultDecrypt vaultKey blob = Some (cn_apiKey c) /\
    forall id s, ingest_open vaultKey tee {| ib_enclaveKeyId := cp_enclaveKeyId post; ib_box := cp_box post; ib_credentialId := id |} iv s =
      if negb (String.eqb (ci_credentialId (intent_of c r)) id) then Err IntentMismatch
      else if bool_decide (digest ∈ es_consumedIntentDigests s) then Err IntentReplay
      else Ok (intent_of c r, digest, blob).
Proof using All.
  intros Hi Hpub Hpriv Hn Hb Hk Hiv. destruct (issued_signature _ nonce now iso Hi Hn) as (b & Hb' & _ & _ & Hing & _ & Hkid & _).
  rewrite Hb in Hb'. injection Hb' as <-. destruct sealed_text as (text & Htext & Hparse). destruct intent_digest_total as [digest Hdig].
  destruct (vault_roundtrip vaultKey iv (cn_apiKey c) Hk Hiv) as (blob & Henc & Hdec).
  pose proof (hpke_roundtrip seed (cr_intentEph r) text None) as Hrt. destruct (generateHpkeKeyPair seed) as [pub priv]. cbn [fst snd] in *.
  destruct Hrt as (box & Hseal & Hopen).
  exists {| cp_contributorId := cn_contributorId c; cp_label := cn_label c; cp_credentialId := ci_credentialId (intent_of c r);
            cp_enclaveKeyId := ab_enclaveKeyId bundle; cp_box := box |}, digest, blob. split_and!; try done.
  - unfold contributeCredential. rewrite (issued_accepted _ nonce now iso _ " credential" Hi Hn Hb), Htext. cbn [map_err mbind res_bind].
    by rewrite Hing, Hpub, Hseal.
  - rewrite Hdec. f_equal. destruct (parse_intent_secret _ _ Hparse) as [_ Hs]. exact Hs.
  - intros id s. unfold ingest_open. cbn [ib_enclaveKeyId ib_box ib_credentialId cp_enclaveKeyId cp_box cp_credentialId].
    rewrite Hkid, String.eqb_refl. cbn [guard_ok mbind res_bind]. unfold openIngress. rewrite Hpriv, Hopen, Hparse. cbn [map_err mbind res_bind].
    destruct (String.eqb (ci_credentialId (intent_of c r)) id); [|done]. cbn [guard_ok mbind res_bind negb]. rewrite Hdig. cbn [map_err mbind res_bind].
    destruct (bool_decide _); [done|]. cbn [guard_ok mbind res_bind negb]. cbn [intent_of ci_secret]. by rewrite Henc.
Qed.
End contribute.

(** ** An example *)
Definition ex_contribution : Contribution := {|
  cn_contributorId := "ann"; cn_label := "mine"; cn_provider := openai; cn_apiKey := "sk-12345678";
  cn_allowedModels := ["gpt-4o-2024-08-06"] |}.
Definition ex_contribute_random : ContributeRandom := {|
  cr_id := "012345"; cr_intentNonce := "0123456789abcdef0123456789abcdef"; cr_intentEph := "eph" |}.
Lemma ex_acceptable : acceptable ex_contribution.
Proof.
  split; try (vm_compute; reflexivity).
  - vm_compute. by split.
  - discriminate.
  - apply Nat.leb_le. reflexivity.
  - apply Forall_singleton. apply (bool_decide_unpack _). vm_compute. exact I.
  - apply NoDup_singleton.
Qed.
