(* ===== verification/Onboarding.v ===== *)
(** * Contributors and credentials (services/coordinator/src/index.ts)

    The credential endpoints over the tables and the graph: what a contributor
    sealed for the enclave, through the coordinator, until it can serve a request. *)

From S2P Require Import Prelude JsNum Utf8 Json Unicode Canonical Stringify Types Crypto Texts Policy Authorize Pricing Providers Intent Insights JsMap Gates Hpke Tee EnclaveVerify ProofVerify ProverClient Prover GateRequest Dispatch Ingest Logs Routing Events Coordinator Trust Settle Client EndToEnd Contribution.
From Stdlib Require Import QArith.
Local Open Scope Z_scope.

(** ** The handlers *)
Definition refusal (code : Z) (error message : jsval) : Reply :=
  {| rp_code := code; rp_body := VObj [("error", VObj [("code", error); ("message", message)])] |}.
Definition unavailable : Reply := refusal 503 (VStr "CTN_ENCLAVE_UNAVAILABLE") (VStr "The confidential service is unavailable.").

(** [randomUUID().replace(/-/g, "").slice(0, 12)] *)
Definition contributor_id (uuid : string) : string :=
  "contrib_" +:+ js_slice 0 12 (unchars (List.filter (fun c => negb (code c =? 45)) (chars uuid))).

Record CredentialBody : Type := {
  cb_contributorId : string;
  cb_label : string;
  cb_weight : option Z;
  cb_dailyUsd : option Q;
  cb_dailyRequests : option Z;
  cb_credentialId : string;
  cb_enclaveKeyId : string;
  cb_box : SealedBox;
}.

(** Up to the call of the enclave. *)
Definition contribute_check (b : CredentialBody) (d : Db) : option Reply :=
  if negb (bool_decide (cb_contributorId b ∈ lg_contributors (db_ledger d)))
  then Some (refusal 404 (VStr "CTN_INTERNAL") (VStr "unknown contributor"))
  else if negb (credential_id_ok (cb_credentialId b))
  then Some (refusal 400 (VStr "CTN_INVALID_ENVELOPE") (VStr "credentialId must be cred_ + 12 hex chars"))
  else match find_row (cb_credentialId b) (lg_credentials (db_ledger d)) with
       | Some _ => Some (refusal 409 (VStr "CTN_INTENT_REPLAY") (VStr "this credential id has already been contributed"))
       | None => None
       end.

(** What the enclave is asked. *)
Definition ingest_body (b : CredentialBody) : IngestBody :=
  {| ib_enclaveKeyId := cb_enclaveKeyId b; ib_box := cb_box b; ib_credentialId := cb_credentialId b |}.

(** The row that is inserted; [JSON.stringify] of the capability. *)
Definition credential_row (now : Z) (b : CredentialBody) (m : Minted) (capability_json : string) : CredentialRow := {|
  cw_id := cb_credentialId b; cw_contributor_id := cb_contributorId b;
  cw_provider := provider_str (cap_provider (mi_capability m)); cw_label := cb_label b;
  cw_encrypted_blob := mi_encryptedBlob m; cw_capability_json := capability_json;
  cw_capability_signature := mi_capabilitySignature m; cw_key_fingerprint := mi_keyFingerprint m;
  cw_status := "ACTIVE"; cw_weight := default 1 (cb_weight b); cw_last_used_at := None; cw_requests_today := 0; cw_cost_today := 0;
  cw_usage_day := Some (day_of now); cw_failure_count := 0; cw_cooldown_until := None;
  cw_daily_usd_limit := cb_dailyUsd b; cw_daily_request_limit := cb_dailyRequests b |}.

Section handlers.
Context `{L : LowerCase}.
Context (to_upper : string -> string) (js_text : jsval -> string) (iso : Z -> string).
Local Abbreviation emit := (emit to_upper js_text iso).

Definition post_contributor (now : Z) (uuid displayName : string) : SE Db Thrown Reply := fun d =>
  let id := contributor_id uuid in
  if bool_decide (id ∈ lg_contributors (db_ledger d)) then (d, Err (ConstraintFailed "contributors")) else
  let l := db_ledger d in
  (_ ← emit now "contributor.created" id [("contributor_id", VStr id); ("display_name", VStr displayName)];
   mret {| rp_code := 200; rp_body := VObj [("id", VStr id); ("displayName", VStr displayName); ("status", VStr "ACTIVE")] |})
  (set_ledger {| lg_contributors := lg_contributors l ++ [id]; lg_requests := lg_requests l;
                 lg_credentials := lg_credentials l; lg_usage := lg_usage l |} d).

Definition insert_credential_row (r : CredentialRow) : SE Db Thrown unit := fun d =>
  match insert_credential r (db_ledger d) with
  | Some l => (set_ledger l d, Ok tt)
  | None => (d, Err (ConstraintFailed "credentials"))
  end.

(** From the enclave's answer on. *)
Definition contribute_answered (now : Z) (b : CredentialBody) (answer : res CallError Minted) : SE Db Thrown Reply :=
  match answer with
  | Err (EnclaveRejection code message http) => mret (refusal (if Z.eqb http 409 then 409 else 400) code message)
  | Err EnclaveUnavailable => mret unavailable
  | Ok m =>
      let capability := mi_capability m in
      if negb (String.eqb (cap_contributorId capability) (cb_contributorId b))
      then mret (refusal 400 (VStr "CTN_INTENT_MISMATCH") (VStr "sealed intent names a different contributor"))
      else
        json ← se_lift (match stringify (capability_val capability) with Some t => Ok t | None => Err BadCapability end);
        _ ← insert_credential_row (credential_row now b m json);
        _ ← emit now "credential.created" (cb_credentialId b)
              [("credential_id", VStr (cb_credentialId b)); ("contributor_id", VStr (cb_contributorId b));
               ("provider", VStr (provider_str (cap_provider capability))); ("label", VStr (cb_label b));
               ("allowed_models", strs_val (cap_allowedModels capability)); ("policy_id", VStr (mi_policyId m));
               ("key_fingerprint", VStr (mi_keyFingerprint m))];
        mret {| rp_code := 200; rp_body := VObj [
          ("id", VStr (cb_credentialId b)); ("status", VStr "ACTIVE"); ("capability", capability_val capability);
          ("capabilitySignature", VStr (mi_capabilitySignature m)); ("keyFingerprint", VStr (mi_keyFingerprint m));
          ("rawCredential", VStr "HIDDEN")] |}
  end.

Definition patch_message (error : string) : string :=
  match error with
  | "CTN_CAPABILITY_IMMUTABLE" => "Capabilities are immutable. Revoke this credential and contribute a new one."
  | "CTN_INTERNAL" => "unknown credential"
  | "CTN_INVALID_STATUS" => "status must be ACTIVE or DISABLED; use DELETE to revoke a credential"
  | _ => "This credential was revoked. Revocation is terminal — contribute a new credential."
  end.
(** [PATCH]: the statements, then the event, whose models come from the stored text. *)
Definition patch_handler (now : Z) (id : string) (b : PatchBody) : SE Db Thrown Reply := fun d =>
  match patch_credential id b (db_ledger d) with
  | (_, PatchRefused code error) => (d, Ok (refusal code (VStr error) (VStr (patch_message error))))
  | (l, Patched r) =>
      (capability ← se_lift (match JSON_parse (cw_capability_json r) with Some v => Ok v | None => Err BadCapability end);
       models ← se_lift (match js_get capability "allowedModels" with Some v => Ok v | None => Err BadCapability end);
       _ ← emit now "credential.updated" id
             [("credential_id", VStr id); ("status", VStr (cw_status r)); ("label", VStr (cw_label r)); ("allowed_models", models)];
       mret {| rp_code := 200; rp_body := VObj [
         ("id", VStr id); ("status", VStr (cw_status r)); ("capability", capability);
         ("capabilitySignature", VStr (cw_capability_signature r))] |}) (set_ledger l d)
  end.

Definition delete_handler (now : Z) (id : string) : SE Db Thrown Reply := fun d =>
  (_ ← emit now "credential.updated" id [("credential_id", VStr id); ("status", VStr "DELETED")];
   mret {| rp_code := 200; rp_body := VObj [("id", VStr id); ("status", VStr "DELETED")] |})
  (set_ledger (delete_credential id (db_ledger d)) d).
End handlers.

(** ** What an accepted contribution leaves behind *)
Lemma plain_capability c : Z.abs (cap_createdAt c) <= MAX_SAFE -> Z.abs (cap_version c) <= MAX_SAFE -> plain (capability_val c) = capability_val c.
Proof.
  intros H1 H2. unfold capability_val, strs_val. cbn [plain List.map fst snd]. rewrite !plain_vint by done.
  assert (Hs : forall l, List.map (fun x => if is_undef x then VNull else plain x) (VStr <$> l) = (VStr <$> l)).
  { induction l as [|s l IH]; [done|]. cbn. by f_equal. }
  rewrite !Hs. done.
Qed.
Lemma wf_capability c : wf (capability_val c).
Proof.
  assert (Hs : forall l, wf (strs_val l)) by (intros l; cbn [strs_val wf]; by induction l).
  unfold capability_val. cbn [wf fst snd fmap list_fmap]. split; [apply (bool_decide_unpack _); vm_compute; exact I|].
  split_and!; try done; apply Hs.
Qed.
Lemma capability_text c : Z.abs (cap_createdAt c) <= MAX_SAFE -> Z.abs (cap_version c) <= MAX_SAFE ->
  exists t, stringify (capability_val c) = Some t /\ JSON_parse t = Some (capability_val c).
Proof.
  intros H1 H2. destruct (stringify_total (capability_val c)) as [t Ht].
  - assert (Hs : forall l, printable (strs_val l) = true) by (intros l; cbn [strs_val printable]; by induction l).
    unfold capability_val. cbn [printable forallb fst snd is_undef orb strs_val]. rewrite !printable_vint by done.
    cbn [strs_val printable] in Hs. by rewrite !Hs, !orb_true_r.
  - exists t. split; [done|]. rewrite (JSON_parse_stringify _ _ (wf_capability c) Ht). by rewrite plain_capability.
Qed.

Section facts.
Context `{L : LowerCaseOk}.

Lemma strs_accepted l path depth : assertNoForbiddenFields (strs_val l) path depth = Ok tt.
Proof.
  unfold strs_val. cbn [assertNoForbiddenFields]. destruct (Nat.ltb 8 depth); [done|]. generalize 0.
  assert (Hs : forall s p, assertNoForbiddenFields (VStr s) p (S depth) = Ok tt) by (intros s p; cbn [assertNoForbiddenFields]; by destruct (Nat.ltb _ _)).
  induction l as [|s l IH]; intros i; [done|]. cbn [fmap list_fmap]. rewrite Hs. exact (IH (i + 1)).
Qed.
Definition flat (v : jsval) : Prop := scalar v = true \/ exists l, v = strs_val l.
Lemma flat_accepted payload : Forall (fun kv => plain_name kv.1 = true /\ flat kv.2) payload ->
  assertNoForbiddenFields (VObj payload) "" 0 = Ok tt.
Proof.
  cbn [assertNoForbiddenFields Nat.ltb Nat.leb]. induction 1 as [|[k v] p [Hk Hv] _ IH]; [done|]. cbn [fst snd str_empty] in *.
  rewrite (plain_not_banned _ Hk). assert (Hs : assertNoForbiddenFields v k 1 = Ok tt).
  { destruct Hv as [Hv|[l ->]]; [by destruct v|apply strs_accepted]. }
  rewrite Hs. exact IH.
Qed.
Lemma emit_accepted to_upper js_text iso now ty id payload d : assertNoForbiddenFields (VObj payload) "" 0 = Ok tt ->
  exists q, emit to_upper js_text iso now ty id payload d = (set_projector q d, Ok tt).
Proof. intros Ha. unfold emit, emitEvent. rewrite Ha. by eexists. Qed.
End facts.

(** Limits under which a credential that served nothing yet is offered. *)
Definition open_terms (b : CredentialBody) : bool :=
  (1 <=? default 1 (cb_weight b)) && match cb_dailyRequests b with Some n => 0 <? n | None => true end &&
  match cb_dailyUsd b with Some x => negb (Qle_bool x 0) | None => true end.

Lemma fresh_routable now b m json model policyId t : JSON_parse json = Some (capability_val (mi_capability m)) ->
  routable model policyId t (rollUsageDay t (credential_row now b m json)) =
    bool_decide (model ∈ cap_allowedModels (mi_capability m)) && bool_decide (policyId ∈ cap_allowedPolicyIds (mi_capability m)) && open_terms b.
Proof.
  intros Hj. set (r := rollUsageDay _ _).
  assert (Hr : cw_status r = "ACTIVE" /\ cw_cooldown_until r = None /\ cw_capability_json r = json /\ cw_requests_today r = 0 /\ cw_cost_today r = 0%Q /\
    cw_weight r = default 1 (cb_weight b) /\ cw_daily_request_limit r = cb_dailyRequests b /\ cw_daily_usd_limit r = cb_dailyUsd b).
  { unfold r, rollUsageDay. case_bool_decide; by split_and!. }
  destruct Hr as (Hs & Hc & Hjs & Hq & Hco & Hw & Hl1 & Hl2). unfold routable, exclusion. rewrite Hs, Hc, Hjs, Hj, Hq, Hco, Hw, Hl1, Hl2.
  cbn [String.eqb Ascii.eqb Bool.eqb negb capability_val js_get obj_get mbind option_bind]. rewrite !includes_strs.
  unfold open_terms. destruct (bool_decide (model ∈ _)), (bool_decide (policyId ∈ _)); cbn [andb]; try done.
  destruct (cb_dailyRequests b) as [n|]; [rewrite Z.leb_antisym; destruct (0 <? n)|]; cbn [negb andb];
    destruct (cb_dailyUsd b) as [x|]; try destruct (Qle_bool x 0); cbn [negb andb]; by rewrite ?andb_true_r, ?andb_false_r.
Qed.

(** The handler on the answer of an enclave that minted, for a contribution that
    passed the first checks. *)
Lemma contribute_minted `{LowerCaseOk} to_upper js_text iso now b m d :
  contribute_check b d = None -> cap_contributorId (mi_capability m) = cb_contributorId b ->
  Z.abs (cap_createdAt (mi_capability m)) <= MAX_SAFE -> Z.abs (cap_version (mi_capability m)) <= MAX_SAFE ->
  exists json d' reply, JSON_parse json = Some (capability_val (mi_capability m)) /\
    contribute_answered to_upper js_text iso now b (Ok m) d = (d', Ok reply) /\ rp_code reply = 200 /\
    lg_credentials (db_ledger d') = lg_credentials (db_ledger d) ++ [credential_row now b m json] /\
    (forall id, revoked id (db_ledger d) -> revoked id (db_ledger d')).
Proof.
  intros Hc Hcid H1 H2. unfold contribute_check in Hc.
  destruct (bool_decide (cb_contributorId b ∈ lg_contributors (db_ledger d))) eqn:Hin; cbn [negb] in Hc; [|done].
  destruct (negb (credential_id_ok (cb_credentialId b))); [done|]. destruct (find_row _ _) eqn:Hf; [done|].
  destruct (capability_text _ H1 H2) as (json & Hjson & Hparse). exists json.
  unfold contribute_answered. rewrite Hcid, String.eqb_refl, Hjson. cbn [negb].
  set (payload := [_; _; _; _; _; _; _]).
  set (d1 := set_ledger (with_credentials (lg_credentials (db_ledger d) ++ [credential_row now b m json]) (db_ledger d)) d).
  destruct (emit_accepted to_upper js_text iso now "credential.created" (cb_credentialId b) payload d1) as [q Hq].
  { apply flat_accepted. unfold payload. repeat (apply Forall_cons; split; [split; [vm_compute; reflexivity|cbn [snd]]|]);
      first [by left|right; by eexists|constructor]. }
  eexists (set_projector q d1), _. split; [exact Hparse|]. split.
  - rewrite (se_bind_run _ _ d d json) by done. rewrite (se_bind_run _ _ d d1 tt).
    + by rewrite (se_bind_run _ _ d1 (set_projector q d1) tt).
    + unfold insert_credential_row, insert_credential. cbn [credential_row cw_id cw_contributor_id]. by rewrite Hf, Hin.
  - split; [done|]. split; [done|]. intros id (r & Hr & Hs). exists r. split; [|done]. cbn [d1 set_ledger set_projector db_ledger with_credentials lg_credentials].
    rewrite find_row_app. by rewrite Hr.
Qed.

(** What the coordinator's body says of a post of the client. *)
Definition relays (post : CredentialPost) (b : CredentialBody) : Prop :=
  cb_contributorId b = cp_contributorId post /\ cb_label b = cp_label post /\ cb_credentialId b = cp_credentialId post /\
  cb_enclaveKeyId b = cp_enclaveKeyId post /\ cb_box b = cp_box post.

(** What the row of a contribution can do: be offered for exactly the contributor's
    models under the executor's policy, and be authorized with the contributor's key. *)
Record serves_contribution `{Unicode} `{Crypto} `{NodeCrypto} (c : Contribution) (vaultKey signingPublicKey policyId url : string)
    (b : CredentialBody) (row : CredentialRow) : Prop := {
  sc_offered model p t : routable model p t (rollUsageDay t row) = true <->
    model ∈ cn_allowedModels c /\ p = policyId /\ open_terms b = true;
  sc_authorized authorized :
    (exists cred, authorizeCandidate (candidate_of row) authorized signingPublicKey (vaultDecrypt vaultKey) = Ok (inr cred) /\
       ac_secret cred = cn_apiKey c /\ ac_contributorId cred = cn_contributorId c /\
       serves (buildRegistry url) authorized (candidate_of row) <> None) <->
    cr_model (ar_request authorized) ∈ cn_allowedModels c /\ ar_policyId authorized = policyId;
}.

(** C7. A contribution ends as a credential that serves.  For a contribution within
    the enclave's schema whose key and contributor id are ASCII, sealed against the attestation of an enclave that keeps its
    keys: the client accepts the attestation and posts; whatever enclave state has
    not consumed it opens the relayed post; when the executor answers, what is minted
    passes the coordinator and becomes one new active row, without touching the
    others; that row is offered for exactly the contributor's models under the
    executor's policy, and the enclave authorizes it for exactly those requests, with
    the contributor's own key, in the contributor's name, at an adapter that serves
    the model.  The enclave that minted it refuses the same post as a replay. *)
Theorem contribution_serves `{Unicode} `{Crypto} `{Hpke} `{NodeCrypto} `{LowerCaseOk}
    `{!UnicodeOk _} `{!CryptoOk _} `{!HpkeOk _} `{!NodeCryptoOk _}
    to_upper js_text iso c r tee seed nonce now isoNow bundle vaultKey iv url :
  acceptable c -> String.length (cr_id r) = 6%nat -> String.length (cr_intentNonce r) = 32%nat ->
  issued_by tee -> tee_ingressPublicKey tee = (generateHpkeKeyPair seed).1 -> tee_ingressPrivateKey tee = (generateHpkeKeyPair seed).2 ->
  Z.abs now <= MAX_SAFE -> attestation tee nonce now isoNow = Ok bundle ->
  String.length vaultKey = 32%nat -> String.length iv = 12%nat ->
  exists post digest, contributeCredential bundle c r = Ok post /\
    forall b, relays post b -> forall s1, digest ∉ es_consumedIntentDigests s1 ->
    exists opened, ingest_open vaultKey tee (ingest_body b) iv s1 = Ok opened /\
      forall daemon minted_at s2 s3 m, ingest_mint tee daemon minted_at opened s2 = (s3, Ok m) -> Z.abs minted_at <= MAX_SAFE ->
        ingest_open vaultKey tee (ingest_body b) iv s3 = Err IntentReplay /\
        forall d stored_at, contribute_check b d = None ->
        exists d' reply row, contribute_answered to_upper js_text iso stored_at b (Ok m) d = (d', Ok reply) /\ rp_code reply = 200 /\
          lg_credentials (db_ledger d') = lg_credentials (db_ledger d) ++ [row] /\
          candidate_of row = stored_candidate m /\
          serves_contribution c vaultKey (tee_signingPublicKey tee) (mi_policyId m) url b row.
Proof.
  intros Hc Hid Hnonce Hi Hpub Hpriv Hn Hb Hk Hiv.
  destruct (contribution_ingested c r Hc Hid Hnonce tee seed nonce now isoNow bundle vaultKey iv Hi Hpub Hpriv Hn Hb Hk Hiv)
    as (post & digest & blob & Hpost & Hcontrib & Hlabel & Hpid & Hdec & Hopen).
  exists post, digest. split; [exact Hpost|]. intros b (B1 & B2 & B3 & B4 & B5) s1 Hs1.
  assert (Hbody : forall s, ingest_open vaultKey tee (ingest_body b) iv s =
    if bool_decide (digest ∈ es_consumedIntentDigests s) then Err IntentReplay else Ok (intent_of c r, digest, blob)).
  { intros s. unfold ingest_body. rewrite B3, B4, B5, Hpid, Hopen, String.eqb_refl. done. }
  exists (intent_of c r, digest, blob). split; [by rewrite Hbody, bool_decide_eq_false_2|].
  intros daemon at_ s2 s3 m Hm Hat. destruct (ingest_mint_Ok _ _ _ _ _ _ _ _ _ Hm) as (cap & Hcap & Hsig & Hmid & Hblob & Hmc & Hin & _).
  split; [by rewrite Hbody, bool_decide_eq_true_2|]. intros d stored Hcheck.
  unfold deriveCapability in Hcap. apply res_bind_Ok in Hcap as (dg & _ & [= Hcap]).
  assert (Hmcid : cap_contributorId (mi_capability m) = cb_contributorId b) by (rewrite Hmc, <-Hcap, B1, Hcontrib; done).
  destruct (contribute_minted to_upper js_text iso stored b m d Hcheck Hmcid) as (json & d' & reply & Hjson & Hrun & Hcode & Hrows & _);
    [rewrite Hmc, <-Hcap; exact Hat|by rewrite Hmc, <-Hcap|].
  exists d', reply, (credential_row stored b m json).
  assert (Hcand : candidate_of (credential_row stored b m json) = stored_candidate m).
  { unfold candidate_of, stored_candidate. cbn [credential_row cw_id cw_contributor_id cw_provider cw_status cw_encrypted_blob cw_capability_json cw_capability_signature].
    by rewrite Hjson, B3, Hpid, Hmid, <-Hmcid. }
  split_and!; [exact Hrun|exact Hcode|exact Hrows|exact Hcand|]. split.
  - intros model p t. rewrite fresh_routable by done. rewrite Hmc, <-Hcap. cbn [cap_allowedModels cap_allowedPolicyIds intent_of ci_allowedModels ci_allowedPolicies fmap list_fmap].
    rewrite !andb_true_iff, !bool_decide_eq_true, elem_of_jsort, list_elem_of_singleton. unfold resolve_policy. cbn [String.eqb Ascii.eqb Bool.eqb]. tauto.
  - intros authorized. rewrite Hcand.
    exact (minted_authorized _ _ (ingest_body b) iv daemon at_ s1 s2 s3 (intent_of c r) digest blob m url Hk Hiv (proj1 (proj2 Hi))
      (eq_trans (Hbody s1) (f_equal (fun x : bool => if x then _ else _) (bool_decide_eq_false_2 _ Hs1))) Hm authorized).
Qed.

(** ** An example *)
Definition ex_relay (post : CredentialPost) : CredentialBody := {|
  cb_contributorId := cp_contributorId post; cb_label := cp_label post; cb_weight := None; cb_dailyUsd := None; cb_dailyRequests := Some 5;
  cb_credentialId := cp_credentialId post; cb_enclaveKeyId := cp_enclaveKeyId post; cb_box := cp_box post |}.
Definition ex_contributors : Db :=
  set_ledger {| lg_contributors := ["ann"]; lg_requests := []; lg_credentials := []; lg_usage := [] |} db_empty.
Definition ex_vault_iv : string := "123456789012".
Local Abbreviation ex_flow :=
  (match ex_issued with
  | Ok bundle =>
      match contributeCredential bundle ex_contribution ex_contribute_random with
      | Ok post =>
          match ingest_open ex_dek (dp_tee ex_deployment) (ingest_body (ex_relay post)) ex_vault_iv es_init with
          | Ok opened => is_ok (ingest_mint (dp_tee ex_deployment) ex_health 7 opened es_init).2
          | Err _ => false
          end && match contribute_check (ex_relay post) ex_contributors with None => open_terms (ex_relay post) | Some _ => false end
      | Err _ => false
      end
  | Err _ => false
  end).

Lemma contribution_serves_witness : exists bundle post m d' reply row,
  contributeCredential bundle ex_contribution ex_contribute_random = Ok post /\
  contribute_answered (fun s => s) (fun _ => "") ex_iso 9 (ex_relay post) (Ok m) ex_contributors = (d', Ok reply) /\ rp_code reply = 200 /\
  lg_credentials (db_ledger d') = [row] /\ routable "gpt-4o-2024-08-06" (mi_policyId m) 10 (rollUsageDay 10 row) = true.
Proof.
  assert (Hf : ex_flow = true) by (vm_compute; reflexivity).
  destruct ex_issued as [bundle|] eqn:He; [|discriminate Hf].
  destruct (contribution_serves (fun s => s) (fun _ => "") ex_iso ex_contribution ex_contribute_random (dp_tee ex_deployment) "ingress"
    (Some "aa") 1000 "" bundle ex_dek ex_vault_iv "http://m" ex_acceptable)
    as (post & digest & Hpost & Hserve).
  - reflexivity.
  - reflexivity.
  - apply new_tee_issues.
  - reflexivity.
  - reflexivity.
  - vm_compute. discriminate.
  - exact (ex_issued_at _ He).
  - reflexivity.
  - reflexivity.
  - rewrite Hpost in Hf. apply andb_true_iff in Hf as [Hf Hc].
    destruct (contribute_check (ex_relay post) ex_contributors) eqn:Hcheck; [discriminate Hc|].
    destruct (Hserve (ex_relay post)) with (s1 := es_init) as (opened & Hopened & Hmint); [by split_and!|apply not_elem_of_nil|].
    rewrite Hopened in Hf. destruct (ingest_mint (dp_tee ex_deployment) ex_health 7 opened es_init) as [s3 [m|]] eqn:Hm; [|discriminate Hf].
    destruct (Hmint _ _ _ _ _ Hm) as (_ & Hd); [vm_compute; discriminate|].
    destruct (Hd ex_contributors 9 Hcheck) as (d' & reply & row & Hrun & Hcode & Hrows & _ & [Ho _]).
    exists bundle, post, m, d', reply, row. split; [exact Hpost|]. split; [exact Hrun|]. split; [exact Hcode|]. split; [exact Hrows|].
    apply Ho. split; [apply list_elem_of_here|]. split; [reflexivity|exact Hc].
Defined.
