(* ===== verification/Schema.v ===== *)
(** * The tables stay within their schema (services/coordinator/src/db.ts)

    What the declarations of [migrate] say of the rows a request leaves behind -
    types, NOT NULL, enumerations of types.ts, primary keys, references - as an
    invariant of every interleaving.  Keys and references are checked by the database
    itself, and a statement that breaks them throws ([insert_child],
    [replace_decision]); types, NOT NULL and the enumerations are not checked by the
    model of a statement, so for those the invariant says that no statement of the
    coordinator offers the database a value it would refuse, or convert. *)

From S2P Require Import Prelude JsNum Utf8 Json Unicode Types Crypto Authorize Pricing Providers Insights Gates GateRequest Dispatch Logs Routing Events Coordinator Trust.
From Stdlib Require Import QArith.
Local Open Scope Z_scope.

(** ** Declarations *)
Inductive coltype : Type :=
| TEXT
| INTEGER
| ENUM (l : list string)   (** TEXT; the listed values of the union types of types.ts are the ones written *)
| JSON                     (** TEXT that holds a JSON text: the value of that text *)
| RELAYED_TEXT             (** TEXT set to what the enclave answered; SQLite stores a number as its text *)
| RELAYED_INTEGER.         (** INTEGER set to a number of the enclave's answer; SQLite keeps a fraction as REAL *)
Record column : Type := { cl_name : string; cl_type : coltype; cl_notnull : bool }.
Definition not_null (t : coltype) (k : string) : column := {| cl_name := k; cl_type := t; cl_notnull := true |}.
Definition nullable (t : coltype) (k : string) : column := {| cl_name := k; cl_type := t; cl_notnull := false |}.

Definition ProofStatus : coltype := ENUM ["NOT_REQUIRED"; "QUEUED"; "PROVING"; "GENERATED"; "VERIFIED"; "FAILED"].
Definition RequestStatus : coltype := ENUM ["RECEIVED"; "DENIED"; "FAILED"; "COMPLETE"].
Definition TrustStatus : coltype :=
  ENUM ["CONFIDENTIAL_VERIFIED"; "CONFIDENTIAL_PROOF_PENDING"; "CONFIDENTIAL_PROOF_FAILED"; "SIMULATED"; "COMPATIBILITY"].

Definition REQUESTS : list column :=
  [not_null TEXT "id"; nullable TEXT "request_commitment"; nullable TEXT "policy_id"; nullable (ENUM ["ALLOW"; "DENY"]) "policy_result";
   nullable RELAYED_TEXT "error_code"; nullable TEXT "selected_credential_id"; nullable TEXT "provider"; nullable TEXT "model"; not_null RequestStatus "status";
   not_null (ENUM ["secure"; "compatibility"]) "privacy_mode"; nullable TrustStatus "trust_status"; not_null ProofStatus "proof_status";
   not_null TEXT "created_at"; nullable TEXT "completed_at"; nullable INTEGER "policy_ms"; nullable INTEGER "proof_ms";
   nullable INTEGER "provider_ms"; nullable INTEGER "total_ms"; nullable INTEGER "input_tokens"; nullable INTEGER "output_tokens"].
Definition PROVIDER_ATTEMPTS : list column :=
  [not_null TEXT "id"; not_null TEXT "request_id"; not_null TEXT "credential_id"; not_null TEXT "contributor_id";
   not_null INTEGER "attempt_number"; not_null (ENUM ["SUCCESS"; "FAILED"]) "status"; nullable INTEGER "http_status";
   nullable TEXT "classification"; nullable INTEGER "latency_ms"; not_null TEXT "created_at"; not_null INTEGER "upstream_outcome_unknown";
   nullable RELAYED_INTEGER "assumed_spend_micro_usd"].
Definition PROOFS : list column :=
  [not_null TEXT "id"; not_null TEXT "request_id"; not_null TEXT "proof_system"; not_null TEXT "guest_image_id"; nullable JSON "receipt_blob";
   nullable TEXT "receipt_digest"; nullable JSON "binding_json"; nullable INTEGER "simulated_cost_ms";
   not_null INTEGER "verified"; not_null ProofStatus "status"; nullable TEXT "error"; nullable INTEGER "proof_ms"; not_null TEXT "created_at";
   nullable TEXT "completed_at"].
Definition DECISION_RECEIPTS : list column :=
  [not_null TEXT "request_id"; not_null TEXT "policy_id"; not_null (ENUM ["ALLOW"; "DENY"]) "decision"; not_null TEXT "image_id";
   not_null TEXT "commitment"; nullable INTEGER "gate_wall_ms"; not_null JSON "receipt_json"; not_null TEXT "signature"; not_null TEXT "created_at"].
Definition COMPUTE_RECEIPTS : list column := 
  [not_null TEXT "id"; not_null TEXT "request_id"; not_null JSON "receipt_json"; not_null TEXT "signature"; not_null TEXT "created_at"].

Definition has_type (t : coltype) (v : jsval) : bool :=
  match t, v with
  | TEXT, VStr _ => true
  | INTEGER, VNum (Fin q) => Pos.eqb (Qden q) 1
  | JSON, VUndef => false
  | JSON, _ => true
  | RELAYED_TEXT, (VStr _ | VNum _) => true
  | RELAYED_INTEGER, VNum (Fin _) => true
  | ENUM l, VStr s => bool_decide (s ∈ l)
  | _, _ => false
  end.
Definition fits_column (c : column) (v : jsval) : bool :=
  match v with VUndef | VNull => negb (cl_notnull c) | _ => has_type (cl_type c) v end.
Definition row_typed (cs : list column) (r : row) : Prop := Forall (fun c => fits_column c (col r (cl_name c)) = true) cs.

(** The columns a statement sets. *)
Definition typed_cols (cs : list column) (cols : row) : Prop :=
  Forall (fun kv => Forall (fun c => cl_name c = kv.1 -> fits_column c kv.2 = true) cs) cols.

Lemma cols_get_in cols k v : cols_get cols k = Some v -> (k, v) ∈ cols.
Proof.
  unfold cols_get. enough (H : forall acc, fold_left (fun acc kv => if String.eqb k kv.1 then Some kv.2 else acc) cols acc = Some v ->
    (k, v) ∈ cols \/ acc = Some v) by (intros Hf; by destruct (H None Hf)).
  induction cols as [|[a x] cols IH]; intros acc Hf; [by right|]. simpl in Hf. destruct (IH _ Hf) as [Hin|He]; [left; by right|].
  destruct (String.eqb_spec k a) as [->|]; [|by right]. injection He as ->. left. by left.
Qed.
Lemma typed_spread cs r cols : row_typed cs r -> typed_cols cs cols -> row_typed cs (spread r cols).
Proof.
  intros Hr Hc. unfold row_typed in *. rewrite !List.Forall_forall in *. intros c Hin. rewrite col_spread.
  destruct (cols_get cols (cl_name c)) as [v|] eqn:Hg; [|by apply Hr]. apply cols_get_in, list_elem_of_In in Hg.
  unfold typed_cols in Hc. rewrite List.Forall_forall in Hc. specialize (Hc _ Hg). rewrite List.Forall_forall in Hc. by apply Hc.
Qed.

(** ** The invariant *)
Definition ids (rows : list row) : list jsval := (fun r => col r "id") <$> rows.
(** A table whose rows belong to requests: [pk] is its primary key. *)
Record table_typed (cs : list column) (pk : string) (requests : list jsval) (rows : list row) : Prop := {
  tb_rows : Forall (row_typed cs) rows;
  tb_keys : NoDup ((fun r => col r pk) <$> rows);
  tb_refs : Forall (fun r => col r "request_id" ∈ requests) rows;
}.
Record well_typed (d : Db) : Prop := {
  typed_requests : Forall (row_typed REQUESTS) (db_requests d);
  typed_ids : NoDup (ids (db_requests d));
  typed_attempts : table_typed PROVIDER_ATTEMPTS "id" (ids (db_requests d)) (db_attempts d);
  typed_proofs : table_typed PROOFS "id" (ids (db_requests d)) (db_proofs d);
  typed_receipts : table_typed COMPUTE_RECEIPTS "id" (ids (db_requests d)) (db_receipts d);
  typed_decisions : table_typed DECISION_RECEIPTS "request_id" (ids (db_requests d)) (db_decisions d);
}.

Lemma table_refs cs pk ks ks' rows : (forall k, k ∈ ks -> k ∈ ks') -> table_typed cs pk ks rows -> table_typed cs pk ks' rows.
Proof. intros Hk []. split; [done|done|]. eapply Forall_impl; [exact tb_refs0|]. intros r. apply Hk. Qed.
Lemma table_map_typed cs pk ks f rows : (forall r, col (f r) pk = col r pk /\ col (f r) "request_id" = col r "request_id") ->
  (forall r, row_typed cs r -> row_typed cs (f r)) -> table_typed cs pk ks rows -> table_typed cs pk ks (f <$> rows).
Proof.
  intros Hk Hf []. split.
  - apply Forall_fmap. eapply Forall_impl; [exact tb_rows0|]. apply Hf.
  - rewrite <-list_fmap_compose. erewrite list_fmap_ext; [exact tb_keys0|]. intros i r _. apply Hk.
  - apply Forall_fmap. eapply Forall_impl; [exact tb_refs0|]. intros r. simpl. by rewrite (proj2 (Hk r)).
Qed.
Lemma table_snoc cs pk ks rows r : row_typed cs r -> col r pk ∉ (fun r => col r pk) <$> rows -> col r "request_id" ∈ ks ->
  table_typed cs pk ks rows -> table_typed cs pk ks (rows ++ [r]).
Proof.
  intros Hr Hk Hq []. split.
  - apply Forall_app. by split; [|apply Forall_singleton].
  - rewrite fmap_app. apply NoDup_app. split_and!; [done| |apply NoDup_singleton]. intros x Hx ->%list_elem_of_singleton. done.
  - apply Forall_app. by split; [|apply Forall_singleton].
Qed.

Lemma ids_map (f : row -> row) rows : (forall r, col (f r) "id" = col r "id") -> ids (f <$> rows) = ids rows.
Proof. intros Hf. unfold ids. rewrite <-list_fmap_compose. apply list_fmap_ext. intros i r _. apply Hf. Qed.
Lemma not_taken_id rows r id : col r "id" = VStr id -> taken rows r = false -> col r "id" ∉ ids rows.
Proof.
  intros Hid Ht (x & Hx & Hin)%list_elem_of_fmap. unfold taken in Ht. rewrite Hid in *.
  assert (Hs : existsb (fun x => str_is (col x "id") id) rows = true); [|congruence].
  apply existsb_exists. exists x. split; [by apply list_elem_of_In|]. rewrite <-Hx. unfold str_is. by apply bool_decide_eq_true_2.
Qed.
Lemma known_id d r : known_request d r = true -> col r "request_id" ∈ ids (db_requests d).
Proof.
  unfold known_request. destruct (col r "request_id") as [| | | |id| |] eqn:Hc; try done. intros [x Hx]%bool_decide_eq_true.
  apply List.find_some in Hx as [Hin Hid%str_is_true]. apply list_elem_of_fmap. exists x. split; [done|by apply list_elem_of_In].
Qed.

(** The checks of a statement, decided. *)
Definition settableb (cs : list column) (cols : row) : bool :=
  match cols_get cols "id", cols_get cols "request_id" with None, None => true | _, _ => false end &&
  forallb (fun kv => forallb (fun c => negb (String.eqb (cl_name c) kv.1) || fits_column c kv.2) cs) cols.
Definition row_typedb (cs : list column) (r : row) : bool := forallb (fun c => fits_column c (col r (cl_name c))) cs.
Lemma settable_spec cs cols : settableb cs cols = true ->
  cols_get cols "id" = None /\ cols_get cols "request_id" = None /\ typed_cols cs cols.
Proof.
  unfold settableb. destruct (cols_get cols "id"); [done|]. destruct (cols_get cols "request_id"); [done|]. cbn [andb]. intros Hf. split_and!; [done..|].
  apply List.Forall_forall. intros kv Hkv. apply List.Forall_forall. intros c Hc He. rewrite forallb_forall in Hf. specialize (Hf kv Hkv).
  rewrite forallb_forall in Hf. specialize (Hf c Hc). by rewrite He, String.eqb_refl in Hf.
Qed.
Lemma row_typed_spec cs r : row_typedb cs r = true -> row_typed cs r.
Proof. unfold row_typedb. rewrite forallb_forall. intros Hf. by apply List.Forall_forall. Qed.

Section preserved.
Context `{L : LowerCase}.
Context (to_upper : string -> string) (js_text : jsval -> string) (iso : Z -> string).
Context (localeCompare : string -> string -> comparison) (COOLDOWN_MS : Z).
Local Abbreviation pres := (preserves well_typed).

(** Statements that leave the typed tables as they are. *)
Lemma typed_same d d' : db_requests d' = db_requests d -> db_attempts d' = db_attempts d -> db_proofs d' = db_proofs d ->
  db_receipts d' = db_receipts d -> db_decisions d' = db_decisions d -> well_typed d -> well_typed d'.
Proof. intros E1 E2 E3 E4 E5 []. by split; rewrite ?E1, ?E2, ?E3, ?E4, ?E5. Qed.
Lemma ty_emit now ty id p : pres (emit to_upper js_text iso now ty id p).
Proof. intros d Hd. unfold emit. destruct (emitEvent _ _ _ _ _ _ _ _) as [q []]; by apply (typed_same d). Qed.
Lemma ty_discover model p now : pres (discover localeCompare model p now).
Proof. intros d Hd. unfold discover. destruct (discoverCandidates _ _ _ _ _) as [l []]; by apply (typed_same d). Qed.
Lemma ty_outcome now a : pres (apply_outcome COOLDOWN_MS now a).
Proof. intros d Hd. unfold apply_outcome. destruct (applyAttemptOutcome _ _ _ _ _ _); by apply (typed_same d). Qed.
Lemma ty_assumed now id a : pres (book_assumed now id a).
Proof.
  unfold book_assumed. destruct (at_upstreamOutcomeUnknown a); [|apply pres_ret]. apply pres_modify. intros d Hd. by apply (typed_same d).
Qed.
Lemma ty_usage now id s u : pres (book_usage now id s u).
Proof.
  intros d Hd. unfold book_usage. destruct (match u with Some (i, o, c) => _ | None => _ end) as [[i o] q].
  destruct (recordUsage _ _ _ _ _ _ _ _) as [l []]; by apply (typed_same d).
Qed.

(** Updates. *)
Local Abbreviation settable := (fun cs cols => settableb cs cols = true).
Lemma ty_map_requests (f : row -> row) : (forall r, col (f r) "id" = col r "id") -> (forall r, row_typed REQUESTS r -> row_typed REQUESTS (f r)) ->
  preserves (E := Thrown) well_typed (se_modify (fun d => set_requests (f <$> db_requests d) d)).
Proof.
  intros Hid Hf d []. cbn [se_modify fst]. split; cbn [db_requests set_requests db_attempts db_proofs db_receipts db_decisions];
    rewrite ?ids_map by done; try done. apply Forall_fmap. eapply Forall_impl; [exact typed_requests0|]. apply Hf.
Qed.
Lemma ty_update id cols : settable REQUESTS cols -> pres (update_request id cols).
Proof.
  intros (H1 & _ & Ht)%settable_spec. apply ty_map_requests; intros r; (destruct (str_is _ _); [|done]); [by rewrite col_spread, H1|].
  intros Hr. by apply typed_spread.
Qed.
Lemma ty_trust id trust only : settable REQUESTS [("trust_status", VStr trust)] -> pres (set_trust id trust only).
Proof.
  intros (H1 & _ & Ht)%settable_spec. apply ty_map_requests; intros r; (destruct (_ && _ && _); [|done]); [by rewrite col_spread, H1|].
  intros Hr. by apply typed_spread.
Qed.
Lemma ty_proof id cols : settable PROOFS cols -> pres (update_proof id cols).
Proof.
  intros (H1 & H2 & Ht)%settable_spec d []. unfold update_proof, se_modify. cbn [fst]. split; try done. apply table_map_typed; [| |done].
  - intros r. destruct (str_is _ _); [|done]. by rewrite !col_spread, H1, H2.
  - intros r Hr. destruct (str_is _ _); [|done]. by apply typed_spread.
Qed.

(** Insertions. *)
Lemma ty_insert cs table get set r id :
  (forall d, well_typed d -> table_typed cs "id" (ids (db_requests d)) (get d)) ->
  (forall d rows, well_typed d -> table_typed cs "id" (ids (db_requests d)) rows -> well_typed (set rows d)) ->
  col r "id" = VStr id -> row_typedb cs r = true -> pres (insert_child table get set r).
Proof.
  intros Hget Hset Hid Hr%row_typed_spec d Hd. unfold insert_child. destruct (taken (get d) r) eqn:Ht; [done|]. destruct (known_request d r) eqn:Hk; [|done].
  cbn [negb orb fst]. apply Hset; [done|]. apply table_snoc; [done|by eapply not_taken_id|by apply known_id|by apply Hget].
Qed.
Lemma ty_insert_proof r id : col r "id" = VStr id -> row_typedb PROOFS r = true -> pres (insert_child "proofs" db_proofs set_proofs r).
Proof. apply ty_insert; [by intros d []|]. intros d rows [] Ht. by split. Qed.
Lemma ty_insert_attempt r id : col r "id" = VStr id -> row_typedb PROVIDER_ATTEMPTS r = true -> pres (insert_child "provider_attempts" db_attempts set_attempts r).
Proof. apply ty_insert; [by intros d []|]. intros d rows [] Ht. by split. Qed.
Lemma ty_insert_receipt r id : col r "id" = VStr id -> row_typedb COMPUTE_RECEIPTS r = true -> pres (insert_child "compute_receipts" db_receipts set_receipts r).
Proof. apply ty_insert; [by intros d []|]. intros d rows [] Ht. by split. Qed.
Lemma ty_decision id r : col r "request_id" = VStr id -> row_typedb DECISION_RECEIPTS r = true -> pres (replace_decision id r).
Proof.
  intros Hid Hr%row_typed_spec d Hd. unfold replace_decision. destruct (known_request d r) eqn:Hk; [|done]. pose proof (known_id _ _ Hk) as Hkn. destruct Hd. cbn [fst].
  split; try done. cbn [db_decisions set_decisions db_requests]. destruct typed_decisions0.
  assert (Hall : forall (P : row -> Prop) l l', sublist l l' -> Forall P l' -> Forall P l).
  { intros P l l' Hs. rewrite !List.Forall_forall. intros Hf x Hx%list_elem_of_In. apply Hf, list_elem_of_In. by eapply elem_of_sublist. }
  assert (Hsub : sublist (List.filter (fun x => negb (str_is (col x "request_id") id)) (db_decisions d)) (db_decisions d)) by apply filter_sublist.
  apply table_snoc; [done| |done|split].
  - rewrite Hid. intros (x & Hx & Hin)%list_elem_of_fmap. apply list_elem_of_In, filter_In in Hin as [_ Hn]. rewrite <-Hx in Hn.
    unfold str_is in Hn. by rewrite bool_decide_eq_true_2 in Hn.
  - eapply Hall; [exact Hsub|done].
  - eapply sublist_NoDup; [exact tb_keys0|]. by apply fmap_sublist.
  - eapply Hall; [exact Hsub|done].
Qed.
Lemma ty_insert_request id r : col r "id" = VStr id -> row_typedb REQUESTS r = true -> pres (insert_request localeCompare COOLDOWN_MS id r).
Proof.
  intros Hid Hr%row_typed_spec d Hd. unfold insert_request. destruct (taken (db_requests d) r) eqn:Ht; [done|]. pose proof (not_taken_id _ _ _ Hid Ht) as Hn. destruct Hd. cbn [fst].
  assert (Hk : forall k, k ∈ ids (db_requests d) -> k ∈ ids (db_requests d ++ [r])) by (intros k Hk; unfold ids; rewrite fmap_app; apply elem_of_app; by left).
  split; cbn [db_requests set_ledger set_requests db_attempts db_proofs db_receipts db_decisions]; try (by eapply table_refs).
  - apply Forall_app. by split; [|apply Forall_singleton].
  - unfold ids in *. rewrite fmap_app. apply NoDup_app. split_and!; [done| |apply NoDup_singleton]. by intros x Hx ->%list_elem_of_singleton.
Qed.

(** ** The segments *)
Ltac computed :=
  repeat match goal with
         | |- context [or_null _ (pw_proofMs ?r)] => destruct (pw_proofMs r)
         | |- context [or_null _ (pw_artifactDigest ?r)] => destruct (pw_artifactDigest r)
         | |- context [json_or_null ?o] => destruct (json_or_null o)
         | |- context [or_null _ (at_classification ?a)] => destruct (at_classification a)
         | |- context [or_null _ (at_assumedSpendMicroUsd ?a)] => destruct (at_assumedSpendMicroUsd a) as [[| |]|]
         | |- context [or_null _ (eb_providerTotalMs ?r)] => destruct (eb_providerTotalMs r)
         | |- context [or_null _ ?o] => is_var o; destruct o
         | |- context [privacy_str ?m] => is_var m; destruct m
         | |- context [decision_str (dr_decision ?r)] => destruct (dr_decision r)
         | |- context [match ?m with secure => _ | compatibility => _ end] => is_var m; destruct m
         | |- context [if at_success ?a then _ else _] => destruct (at_success a)
         | |- context [if at_upstreamOutcomeUnknown ?a then _ else _] => destruct (at_upstreamOutcomeUnknown a)
         end; vm_compute; reflexivity.
Ltac ty_step :=
  first [ apply pres_ret | apply ty_emit | apply ty_discover | apply ty_outcome | apply ty_assumed | apply ty_usage
        | (apply ty_update; computed) | (apply ty_proof; computed) | (apply ty_trust; computed)
        | (eapply ty_decision; [reflexivity|computed]) | (eapply ty_insert_proof; [reflexivity|computed])
        | (eapply ty_insert_receipt; [reflexivity|computed]) | (eapply ty_insert_attempt; [reflexivity|computed])
        | (eapply ty_insert_request; [reflexivity|computed]) | (apply pres_bind; [|intros ?]) ].

Lemma ty_receive now e m : pres (receive to_upper js_text iso localeCompare COOLDOWN_MS now e m).
Proof. unfold receive, request_row. repeat ty_step. Qed.
Lemma ty_gate_failed c k err : pres (gate_failed to_upper js_text iso c k err).
Proof.
  unfold gate_failed. destruct err as [|code message http]; [|destruct (str_is code _)]; try (apply pres_guard; intros Hb; destruct code; try discriminate Hb); repeat ty_step.
Qed.
Lemma ty_gate_recorded c k gate : pres (gate_recorded iso c k gate).
Proof. unfold gate_recorded, decision_row. repeat ty_step. Qed.
Lemma ty_prepare c k gate att : pres (prepare to_upper js_text iso c k gate att).
Proof.
  unfold prepare, announce, queue_proof. ty_step; [ty_step; [destruct att|]; repeat ty_step|]. destruct (gt_proofStarted gate); repeat ty_step.
Qed.
Lemma ty_decide c e m gate : pres (decide_dispatch to_upper js_text iso localeCompare c e m gate).
Proof.
  unfold decide_dispatch, deny, no_capacity. destruct (gt_decision gate).
  - ty_step; [ty_step|]. ty_step; [ty_step|]. destruct (dc_candidates _); repeat ty_step.
  - repeat ty_step.
Qed.
Lemma ty_execute_failed c k gate err : pres (execute_failed to_upper js_text iso c k gate err).
Proof. unfold execute_failed. destruct err as [|code message http]; try (apply pres_guard; intros Hb; destruct code; try discriminate Hb); repeat ty_step. Qed.
Lemma ty_attempts now k l : pres (record_attempts to_upper js_text iso COOLDOWN_MS now k l).
Proof.
  induction l as [|a l IH]; [ty_step|]. cbn [record_attempts]. apply pres_bind; [|by intros _]. unfold record_attempt, attempt_row.
  do 3 (ty_step; [ty_step|]). destruct (at_success a); ty_step.
Qed.
Lemma ty_executed c k m gate r : pres (executed to_upper js_text iso COOLDOWN_MS c k m gate r).
Proof.
  unfold executed, settle_complete, settle_failed, malformed. destruct (eb_status r); [|repeat ty_step|]; (apply pres_bind; [apply ty_attempts|intros _]);
    [destruct (eb_selected r); [destruct (eb_receipt r)|]|]; try destruct (match eb_usage r with Some (i, o, _) => (i, o) | None => (0, 0) end); repeat ty_step.
Qed.
Lemma ty_failed now k error ms : pres (markFailed to_upper js_text iso now k error ms).
Proof. unfold markFailed. repeat ty_step. Qed.
Lemma ty_poll now w : pres (poll to_upper js_text iso now w).
Proof. unfold poll. destruct (_ <? _); [|ty_step]. apply pres_bind; [apply ty_failed|intros ?; ty_step]. Qed.
Lemma ty_polled now w answer : pres (polled to_upper js_text iso now w answer).
Proof.
  unfold polled. destruct answer as [res|[|code msg http]]; [|ty_step|].
  - case_bool_decide as Hin.
    + set_unfold in Hin. unfold transition. destruct Hin as [E|[E|[E|[]]]]; rewrite E; (ty_step; [ty_step|]);
        (ty_step; [destruct (pw_artifactDigest res); ty_step|]); (ty_step; [|ty_step]); repeat case_match; ty_step.
    + destruct (String.eqb _ _); [apply pres_bind; [apply ty_failed|intros ?; ty_step]|]. ty_step; [|ty_step]. unfold proof_ended.
      destruct (_ && _); repeat ty_step.
  - destruct (str_is _ _); [|ty_step]. apply pres_bind; [apply ty_failed|intros ?; ty_step].
Qed.

(** ** Every interleaving *)
Lemma ty_cstep w ev : well_typed (cw_db w) -> well_typed (cw_db (cstep to_upper js_text iso localeCompare COOLDOWN_MS w ev).1).
Proof.
  intros Hw. destruct ev as [now e m|i c ans|i c att|i c ans|j now|j now ans|op]; cbn [cstep].
  - pose proof (ty_receive now e m _ Hw) as Hp. destruct (receive _ _ _ _ _ _ _ _ _) as [d [u|t]]; destruct m; try exact Hp; by destruct (secure_check e _).
  - destruct (cw_tasks w !! i) as [[[e m|e m g|e m g]|]|]; try exact Hw. destruct ans as [gate|err].
    + pose proof (ty_gate_recorded c (env_requestId e) gate _ Hw) as Hp. by destruct (gate_recorded _ _ _ _ _) as [d [u|t]].
    + pose proof (ty_gate_failed c (env_requestId e) err _ Hw) as Hp. by destruct (gate_failed _ _ _ _ _ _ _) as [d r].
  - destruct (cw_tasks w !! i) as [[[e m|e m g|e m g]|]|]; try exact Hw.
    pose proof (ty_prepare c (env_requestId e) g att _ Hw) as Hp. destruct (prepare _ _ _ _ _ _ _ _) as [d [u|t]]; [|exact Hp].
    pose proof (ty_decide c e m g d Hp) as Hd. by destruct (decide_dispatch _ _ _ _ _ _ _ _ _) as [d2 [[reply|cands]|t]].
  - destruct (cw_tasks w !! i) as [[[e m|e m g|e m g]|]|]; try exact Hw. destruct ans as [body|err].
    + pose proof (ty_executed c (env_requestId e) m g body _ Hw) as Hp. by destruct (executed _ _ _ _ _ _ _ _ _ _) as [d r].
    + pose proof (ty_execute_failed c (env_requestId e) g err _ Hw) as Hp. by destruct (execute_failed _ _ _ _ _ _ _ _) as [d r].
  - destruct (cw_watchers w !! j) as [[x|]|]; try exact Hw. pose proof (ty_poll now x _ Hw) as Hp. by destruct (poll _ _ _ _ _ _) as [d r].
  - destruct (cw_watchers w !! j) as [[x|]|]; try exact Hw. pose proof (ty_polled now x ans _ Hw) as Hp. by destruct (polled _ _ _ _ _ _ _) as [d r].
  - by apply (typed_same (cw_db w)).
Qed.
End preserved.

(** C17. The tables stay within their schema.  In every interleaving of requests, proof
    polls, contributions and revocations, whatever the enclave answers: every row of
    requests, attempts, proofs, decision and compute receipts has in every declared
    column a value of the declared type, and not NULL where the column is NOT NULL;
    statuses are among the enumerated ones; no primary key occurs twice, and every
    child row belongs to a request (these two the database enforces). *)
Theorem schema_sound `{LowerCase} to_upper js_text iso localeCompare COOLDOWN_MS evs :
  well_typed (cw_db (crun to_upper js_text iso localeCompare COOLDOWN_MS cworld_empty evs).1).
Proof.
  induction evs as [|ev evs IH] using rev_ind; [|rewrite crun_snoc; by apply ty_cstep].
  split; [constructor|constructor|..]; split; constructor.
Qed.

(** The types are real: an unsigned receipt is not within the schema, nor a request
    of another status. *)
Example unsigned_receipt : row_typedb COMPUTE_RECEIPTS
  [("id", VStr "rcpt_1"); ("request_id", VStr "req_1"); ("receipt_json", VObj []); ("signature", VNull); ("created_at", VStr "now")] = false.
Proof. reflexivity. Qed.
Example untyped_status : row_typedb REQUESTS
  [("id", VStr "req_1"); ("status", VStr "AUTHORIZED"); ("privacy_mode", VStr "secure"); ("proof_status", VStr "NOT_REQUIRED");
   ("created_at", VStr "now")] = false.
Proof. reflexivity. Qed.
