(* ===== verification/GraphView.v ===== *)
(** * The network graph in the browser (apps/web/src/components/graph)

    [requestPath] of path.ts and [windowGraph] of window.ts over the projected graph
    of the coordinator.  [createdAt] is the instant it parses to. *)

From S2P Require Import Prelude Utf8 Json JsMap Logs Events.
From stdpp Require Import gmap.
Local Open Scope Z_scope.

(** ** The path of a request *)
Definition PATH_HUBS : list string := ["TEEWorker"; "Policy"; "Provider"; "Model"].
Definition PATH_DEPTH : nat := 4.

Section path.
Context (rootId : string) (nodes : list GNode) (links : list GLink).

(** [byId.get(id)]: of several nodes with one id, the last. *)
Definition byId (id : string) : option GNode := List.find (fun n => String.eqb (gn_id n) id) (rev nodes).
(** [adjacency.get(id) ?? []] *)
Definition neighbours (id : string) : list string :=
  links ≫= fun l => (if String.eqb (gl_source l) id then [gl_target l] else []) ++ (if String.eqb (gl_target l) id then [gl_source l] else []).
Definition expands (id : string) : bool :=
  String.eqb id rootId || negb (bool_decide (default "Request" (gn_type <$> byId id) ∈ PATH_HUBS)).

(** [path] and [next] while the neighbours of one node are visited. *)
Definition visit (acc : list string * list string) (neighbour : string) : list string * list string :=
  if bool_decide (neighbour ∈ acc.1) then acc else (acc.1 ++ [neighbour], acc.2 ++ [neighbour]).
Definition expand_node (acc : list string * list string) (id : string) : list string * list string :=
  if expands id then foldl visit acc (neighbours id) else acc.
Fixpoint explore (depth : nat) (path frontier : list string) : list string :=
  match depth, frontier with
  | S depth, _ :: _ => let '(path, next) := foldl expand_node (path, []) frontier in explore depth path next
  | _, _ => path
  end.
Definition requestPath : option (list string) :=
  match byId rootId with Some _ => Some (explore PATH_DEPTH [rootId] [rootId]) | None => None end.

(** What it computes: the nodes at the end of a walk from the root of at most four
    links that passes through no hub. *)
Definition linked (a b : string) : Prop :=
  exists l, l ∈ links /\ ((gl_source l = a /\ gl_target l = b) \/ (gl_target l = a /\ gl_source l = b)).
Inductive walk : nat -> string -> Prop :=
| walk_root : walk 0 rootId
| walk_link k a b : walk k a -> expands a = true -> linked a b -> walk (S k) b.

Lemma neighbours_linked a b : b ∈ neighbours a <-> linked a b.
Proof.
  unfold neighbours, linked. rewrite list_elem_of_bind. split.
  - intros (l & Hb & Hl). exists l. split; [done|]. apply elem_of_app in Hb as [Hb|Hb].
    + destruct (String.eqb_spec (gl_source l) a); [|by apply not_elem_of_nil in Hb]. left. split; [done|]. by apply list_elem_of_singleton in Hb.
    + destruct (String.eqb_spec (gl_target l) a); [|by apply not_elem_of_nil in Hb]. right. split; [done|]. by apply list_elem_of_singleton in Hb.
  - intros (l & Hl & [[Ha Hb]|[Ha Hb]]); exists l; (split; [|done]); apply elem_of_app; [left|right]; subst; rewrite String.eqb_refl; by apply list_elem_of_singleton.
Qed.

(** The visits only add, to both lists, what was not there. *)
Lemma visit_all bs acc : let acc' := foldl visit acc bs in
  (forall x, x ∈ acc'.1 <-> x ∈ acc.1 \/ x ∈ bs) /\ (forall x, x ∈ acc'.2 -> x ∈ acc.2 \/ x ∈ bs) /\
  (forall x, x ∈ acc'.1 -> x ∈ acc.1 \/ x ∈ acc'.2) /\ (forall x, x ∈ acc.2 -> x ∈ acc'.2).
Proof.
  revert acc. induction bs as [|b bs IH]; intros acc; simpl; [set_solver|].
  destruct (IH (visit acc b)) as (H1 & H2 & H3 & H4). unfold visit in *. case_bool_decide as Hb; cbn [fst snd] in *; set_solver.
Qed.
Lemma expand_all F acc : let acc' := foldl expand_node acc F in
  (forall y, y ∈ acc'.1 <-> y ∈ acc.1 \/ exists x, x ∈ F /\ expands x = true /\ linked x y) /\
  (forall y, y ∈ acc'.2 -> y ∈ acc.2 \/ exists x, x ∈ F /\ expands x = true /\ linked x y) /\
  (forall y, y ∈ acc'.1 -> y ∈ acc.1 \/ y ∈ acc'.2) /\ (forall y, y ∈ acc.2 -> y ∈ acc'.2).
Proof.
  revert acc. induction F as [|a F IH]; intros acc; simpl; [set_solver|].
  destruct (IH (expand_node acc a)) as (H1 & H2 & H3 & H4). clear IH. unfold expand_node in *. destruct (expands a) eqn:Ha.
  - destruct (visit_all (neighbours a) acc) as (V1 & V2 & V3 & V4). cbv zeta in *. split_and!.
    + intros y. rewrite H1, V1, neighbours_linked. set_solver.
    + intros y Hy. apply H2 in Hy as [Hy|(x & Hx & Hxa & Hl)]; [apply V2 in Hy as [Hy|Hy%neighbours_linked]|]; [by left|right; exists a; set_solver|right; exists x; set_solver].
    + intros y Hy. apply H3 in Hy as [Hy|Hy]; [apply V3 in Hy as [Hy|Hy]|]; [by left|right; by apply H4|by right].
    + intros y Hy. by apply H4, V4.
  - split_and!; try done.
    + intros y. rewrite H1. split; [set_solver|]. intros [Hy|(x & Hx & Hxa & Hl)]; [by left|]. right. exists x. split; [|done].
      apply elem_of_cons in Hx as [->|]; [congruence|done].
    + intros y Hy. apply H2 in Hy as [Hy|(x & Hx & Hxa & Hl)]; [by left|]. right. exists x. set_solver.
Qed.

(** What is known after [d] levels. *)
Record explored (d : nat) (path F : list string) : Prop := {
  ex_within x : x ∈ path -> exists k, (k <= d)%nat /\ walk k x;
  ex_frontier x : x ∈ F -> x ∈ path;
  ex_closed x y : x ∈ path -> x ∉ F -> expands x = true -> linked x y -> y ∈ path;
  ex_all k x : (k <= d)%nat -> walk k x -> x ∈ path;
}.
Lemma explored_step d path F : explored d path F ->
  let '(path', F') := foldl expand_node (path, []) F in explored (S d) path' F'.
Proof.
  intros [E1 E2 E3 E4]. destruct (expand_all F (path, [])) as (H1 & H2 & H3 & _). destruct (foldl expand_node (path, []) F) as [path' F']. cbn [fst snd] in *.
  assert (Hin : forall x, x ∈ path -> x ∈ path') by (intros x Hx; apply H1; by left).
  split.
  - intros x Hx. apply H1 in Hx as [Hx|(a & Ha & Hea & Hl)].
    + destruct (E1 x Hx) as (k & Hk & Hw). exists k. split; [lia|done].
    + destruct (E1 a (E2 a Ha)) as (k & Hk & Hw). exists (S k). split; [lia|by econstructor].
  - intros x Hx. apply H1. destruct (H2 x Hx) as [Hx'|Hx']; [by apply not_elem_of_nil in Hx'|by right].
  - intros x y Hx Hnf Hex Hl. destruct (H3 x Hx) as [Hp|]; [|done]. destruct (decide (x ∈ F)) as [Hf|Hf]; [|by apply Hin, (E3 x y)].
    apply H1. right. by exists x.
  - intros k x Hk Hw. inversion Hw as [|j a b Hwa Hea Hl]; subst; [apply Hin; by apply (E4 0%nat _ ltac:(lia))|].
    assert (Ha : a ∈ path) by (by apply (E4 j); [lia|]). destruct (decide (a ∈ F)) as [Hf|Hf]; [|by apply Hin, (E3 a x)].
    apply H1. right. by exists a.
Qed.
Lemma explored_stop d n path : explored d path [] -> explored (d + n) path [].
Proof.
  intros Hx. induction n as [|n IH]; [by rewrite Nat.add_0_r|]. rewrite Nat.add_succ_r. exact (explored_step _ _ _ IH).
Qed.
Lemma explore_spec n : forall d path F, explored d path F -> forall x, x ∈ explore n path F <-> exists k, (k <= d + n)%nat /\ walk k x.
Proof.
  induction n as [|n IH]; intros d path F Hx x.
  - cbn [explore]. rewrite Nat.add_0_r. split; [apply Hx|]. intros (k & Hk & Hw). by apply (ex_all _ _ _ Hx k).
  - cbn [explore]. destruct F as [|a F].
    + apply (explored_stop d (S n)) in Hx. split; [apply Hx|]. intros (k & Hk & Hw). by apply (ex_all _ _ _ Hx k).
    + pose proof (explored_step _ _ _ Hx) as Hs. destruct (foldl expand_node (path, []) (a :: F)) as [path' F'].
      rewrite (IH (S d) path' F' Hs). by rewrite Nat.add_succ_r.
Qed.
Lemma explored_root : explored 0 [rootId] [rootId].
Proof.
  split.
  - intros x ->%list_elem_of_singleton. exists 0%nat. split; [done|constructor].
  - done.
  - done.
  - intros k x Hk Hw. assert (k = 0%nat) as -> by lia. inversion Hw. by apply list_elem_of_singleton.
Qed.

(** C39. The highlighted path is the request's own.  It is missing only when the root is
    not in the graph; otherwise a node is on it exactly when a walk of at most four
    links leads to it from the root without passing through a hub: a shared worker,
    policy, provider or model is on the path but never leads on. *)
Theorem requestPath_spec :
  match requestPath with
  | None => byId rootId = None
  | Some path => is_Some (byId rootId) /\ forall id, id ∈ path <-> exists k, (k <= 4)%nat /\ walk k id
  end.
Proof.
  unfold requestPath. destruct (byId rootId) as [n|] eqn:Hb; [|done]. split; [by eexists|]. intros id.
  apply (explore_spec PATH_DEPTH 0 _ _ explored_root).
Qed.
End path.

(** ** The window *)
Definition HUB_TYPES : list string := ["Contributor"; "Credential"; "TEEWorker"; "Policy"; "Provider"; "Model"].
Record WindowedGraph : Type := {
  wg_nodes : list GNode;
  wg_links : list GLink;
  wg_totalRequests : nat;
  wg_hiddenRequests : nat;
}.
Definition is_request (n : GNode) : bool := String.eqb (gn_type n) "Request".
Definition newest_first (a b : GNode) : comparison := gn_created b ?= gn_created a.
Definition requests_of (nodes : list GNode) : list GNode := jsort newest_first (List.filter is_request nodes).
(** [ownerOf]: of several requests linked to a node, the last. *)
Definition owners (requestIds : list string) (links : list GLink) : gmap string string :=
  foldl (fun m l => if bool_decide (gl_source l ∈ requestIds) && negb (bool_decide (gl_target l ∈ requestIds))
                    then <[gl_target l := gl_source l]> m else m) ∅ links.
Definition kept (keptRequests : list string) (ownerOf : gmap string string) (n : GNode) : bool :=
  if bool_decide (gn_type n ∈ HUB_TYPES) then true
  else if is_request n then bool_decide (gn_id n ∈ keptRequests)
  else match ownerOf !! gn_id n with None => true | Some owner => bool_decide (owner ∈ keptRequests) end.

Definition windowGraph (nodes : list GNode) (links : list GLink) (limit : option nat) : WindowedGraph :=
  let requests := requests_of nodes in
  let whole := {| wg_nodes := nodes; wg_links := links; wg_totalRequests := length requests; wg_hiddenRequests := 0 |} in
  match limit with
  | None => whole
  | Some limit =>
      if Nat.leb (length requests) limit then whole else
      let keptRequests := gn_id <$> take limit requests in
      let keep := gn_id <$> List.filter (kept keptRequests (owners (gn_id <$> requests) links)) nodes in
      {| wg_nodes := List.filter (fun n => bool_decide (gn_id n ∈ keep)) nodes;
         wg_links := List.filter (fun l => bool_decide (gl_source l ∈ keep) && bool_decide (gl_target l ∈ keep)) links;
         wg_totalRequests := length requests;
         wg_hiddenRequests := length requests - length (remove_dups keptRequests) |}
  end.

Lemma newest_total a b : cle newest_first a b = true \/ cle newest_first b a = true.
Proof. unfold cle, newest_first. destruct (Z.compare_spec (gn_created b) (gn_created a)), (Z.compare_spec (gn_created a) (gn_created b)); auto; lia. Qed.
Lemma cle_newest a b : cle newest_first a b = true <-> gn_created b <= gn_created a.
Proof. unfold cle, newest_first. destruct (Z.compare_spec (gn_created b) (gn_created a)); split; try done; lia. Qed.

Lemma requests_elem nodes n : n ∈ requests_of nodes <-> n ∈ nodes /\ gn_type n = "Request".
Proof.
  unfold requests_of. rewrite elem_of_jsort, !list_elem_of_In, filter_In. unfold is_request. by rewrite String.eqb_eq.
Qed.
Lemma requests_sorted nodes n : forall a b, a ∈ take n (requests_of nodes) -> b ∈ drop n (requests_of nodes) -> gn_created b <= gn_created a.
Proof.
  assert (Hs : StronglySorted (fun x y => cle newest_first x y = true) (requests_of nodes)).
  { apply jsort_sorted; [exact newest_total|]. intros x y z. rewrite !cle_newest. lia. }
  rewrite <-(take_drop n (requests_of nodes)) in Hs. revert Hs. generalize (drop n (requests_of nodes)) as l2.
  induction (take n (requests_of nodes)) as [|x l IH]; intros l2 Hs a b Ha Hb; [by apply not_elem_of_nil in Ha|].
  simpl in Hs. inversion Hs as [|? ? Hs' Hf]; subst. apply elem_of_cons in Ha as [->|Ha]; [|by eapply IH].
  rewrite List.Forall_forall in Hf. apply cle_newest, Hf, list_elem_of_In, elem_of_app. by right.
Qed.

Lemma owners_spec ids links k : match owners ids links !! k with
  | Some o => exists l, l ∈ links /\ gl_target l = k /\ gl_source l = o /\ o ∈ ids /\ k ∉ ids
  | None => forall l, l ∈ links -> gl_target l = k -> gl_source l ∈ ids -> k ∈ ids
  end.
Proof.
  unfold owners. induction links as [|l links IH] using rev_ind; [cbn [foldl]; rewrite lookup_empty; by intros l ?%not_elem_of_nil|].
  rewrite foldl_app. cbn [foldl]. set (m := foldl _ _ _) in *.
  assert (Hkeep : match m !! k with
    | Some o => exists l', l' ∈ links ++ [l] /\ gl_target l' = k /\ gl_source l' = o /\ o ∈ ids /\ k ∉ ids
    | None => (gl_target l = k -> gl_source l ∈ ids -> k ∈ ids) -> forall l', l' ∈ links ++ [l] -> gl_target l' = k -> gl_source l' ∈ ids -> k ∈ ids
    end).
  { destruct (m !! k) as [o|].
    - destruct IH as (x & Hx & Hr). exists x. split; [apply elem_of_app; by left|done].
    - intros Hl x [Hx| ->%list_elem_of_singleton]%elem_of_app; [by apply IH|exact Hl]. }
  case_bool_decide as H1; [case_bool_decide as H2|]; cbn [andb negb].
  - destruct (m !! k); [exact Hkeep|]. apply Hkeep. by intros <-.
  - destruct (decide (gl_target l = k)) as [<-|Hne].
    + rewrite lookup_insert_eq. exists l. split_and!; try done. apply elem_of_app. right. by left.
    + rewrite lookup_insert_ne by done. destruct (m !! k); [exact Hkeep|]. by apply Hkeep.
  - destruct (m !! k); [exact Hkeep|]. by apply Hkeep.
Qed.

Lemma remove_dups_NoDup (l : list string) : NoDup l -> remove_dups l = l.
Proof. induction 1 as [|x l Hx _ IH]; [done|]. simpl. case_decide; [done|]. by f_equal. Qed.

Section unique.
Context (nodes : list GNode) (Hnd : NoDup (gn_id <$> nodes)).
Lemma node_unique x y : x ∈ nodes -> y ∈ nodes -> gn_id x = gn_id y -> x = y.
Proof using Hnd.
  clear -Hnd. induction nodes as [|z l IH]; intros Hx Hy He; [by apply not_elem_of_nil in Hx|].
  rewrite fmap_cons in Hnd. apply NoDup_cons in Hnd as [Hz Hl]. apply elem_of_cons in Hx as [->|Hx], Hy as [->|Hy]; try done.
  - exfalso. apply Hz. rewrite He. by apply list_elem_of_fmap_2.
  - exfalso. apply Hz. rewrite <-He. by apply list_elem_of_fmap_2.
  - by apply IH.
Qed.
Lemma ids_elem (l : list GNode) x : (forall y, y ∈ l -> y ∈ nodes) -> x ∈ nodes -> gn_id x ∈ gn_id <$> l <-> x ∈ l.
Proof using Hnd.
  intros Hl Hx. split; [|by apply list_elem_of_fmap_2]. intros (y & He & Hy)%list_elem_of_fmap.
  assert (x = y) as -> by (apply node_unique; auto). done.
Qed.
Lemma requests_sub n x : x ∈ take n (requests_of nodes) -> x ∈ nodes /\ gn_type x = "Request".
Proof. intros Hx. apply requests_elem. eapply elem_of_sublist; [exact Hx|apply sublist_take]. Qed.
Lemma requests_NoDup : NoDup (requests_of nodes).
Proof using Hnd.
  unfold requests_of. rewrite jsort_perm. eapply sublist_NoDup; [|apply filter_sublist]. clear -Hnd. by eapply NoDup_fmap_1.
Qed.

(** What is kept, node by node. *)
Lemma kept_request n x owner : x ∈ nodes -> gn_type x = "Request" ->
  kept (gn_id <$> take n (requests_of nodes)) owner x = true <-> x ∈ take n (requests_of nodes).
Proof using Hnd.
  intros Hx Ht. unfold kept, is_request. rewrite Ht. cbn [String.eqb Ascii.eqb Bool.eqb].
  rewrite bool_decide_eq_false_2 by (apply (bool_decide_unpack _); vm_compute; exact I). rewrite bool_decide_eq_true.
  apply ids_elem; [|done]. intros y Hy. by apply (requests_sub n).
Qed.
(** The kept requests, in whatever order the nodes have. *)
Lemma kept_requests n owner : List.filter is_request (List.filter (kept (gn_id <$> take n (requests_of nodes)) owner) nodes) ≡ₚ take n (requests_of nodes).
Proof using Hnd.
  apply NoDup_Permutation.
  - eapply sublist_NoDup; [|apply filter_sublist]. eapply sublist_NoDup; [|apply filter_sublist]. by eapply NoDup_fmap_1.
  - eapply sublist_NoDup; [apply requests_NoDup|apply sublist_take].
  - intros x. rewrite !list_elem_of_In, !filter_In. unfold is_request at 1. rewrite String.eqb_eq, <-!list_elem_of_In. split.
    + intros [[Hx Hk] Ht]. by apply (kept_request n x owner).
    + intros Hx. destruct (requests_sub n x Hx) as [Hn Ht]. split_and!; try done. by apply (kept_request n x owner).
Qed.
(** A node of a flow. *)
Lemma kept_flow ids links x : x ∈ nodes -> gn_type x ∉ "Request" :: HUB_TYPES ->
  (kept ids (owners (gn_id <$> requests_of nodes) links) x = true <->
   match owners (gn_id <$> requests_of nodes) links !! gn_id x with None => True | Some o => o ∈ ids end) /\ gn_id x ∉ gn_id <$> requests_of nodes.
Proof using Hnd.
  intros Hx Ht. apply not_elem_of_cons in Ht as [Hr Hh]. split.
  - unfold kept, is_request. rewrite bool_decide_eq_false_2 by done. rewrite (proj2 (String.eqb_neq _ _) Hr).
    destruct (_ !! _); [apply bool_decide_eq_true|done].
  - intros (y & He & Hy)%list_elem_of_fmap. apply requests_elem in Hy as [Hy Hyt]. by rewrite <-(node_unique x y Hx Hy He) in Hyt.
Qed.
(** The links by which a node belongs to a request. *)
Definition owned_by (links : list GLink) (x r : GNode) : Prop :=
  exists l, l ∈ links /\ gl_target l = gn_id x /\ gl_source l = gn_id r /\ r ∈ nodes /\ gn_type r = "Request".
Lemma flow_owner links x : gn_id x ∉ gn_id <$> requests_of nodes ->
  match owners (gn_id <$> requests_of nodes) links !! gn_id x with
  | Some o => exists r, o = gn_id r /\ owned_by links x r
  | None => forall r, ~ owned_by links x r
  end.
Proof using Type.
  intros Hx. pose proof (owners_spec (gn_id <$> requests_of nodes) links (gn_id x)) as Ho. destruct (_ !! _) as [o|].
  - destruct Ho as (l & Hl & Ht & Hs & (r & -> & [Hr Hrt]%requests_elem)%list_elem_of_fmap & _). exists r. split; [done|by exists l].
  - intros r (l & Hl & Ht & Hs & Hr & Hrt). apply Hx, (Ho l Hl Ht). rewrite Hs. by apply list_elem_of_fmap_2, requests_elem.
Qed.
(** Over distinct ids the two passes are one filter. *)
Lemma window_shape links n : (n < length (requests_of nodes))%nat ->
  let k := kept (gn_id <$> take n (requests_of nodes)) (owners (gn_id <$> requests_of nodes) links) in
  let w := windowGraph nodes links (Some n) in
  wg_nodes w = List.filter k nodes /\ (wg_hiddenRequests w + n)%nat = length (requests_of nodes) /\
  wg_links w = List.filter (fun l => bool_decide (gl_source l ∈ gn_id <$> List.filter k nodes) && bool_decide (gl_target l ∈ gn_id <$> List.filter k nodes)) links.
Proof using Hnd.
  intros Hn k w. unfold w, windowGraph. rewrite (proj2 (Nat.leb_gt _ _) Hn). cbn [wg_nodes wg_links wg_hiddenRequests]. fold k. split_and!; [| |done].
  - apply filter_ext_in. intros x Hx%list_elem_of_In. apply eq_true_iff_eq. rewrite bool_decide_eq_true, ids_elem.
    + rewrite list_elem_of_In, filter_In, <-list_elem_of_In. tauto.
    + intros y Hy. eapply elem_of_sublist; [exact Hy|apply filter_sublist].
    + done.
  - rewrite remove_dups_NoDup, length_fmap, length_take; [lia|].
    eapply sublist_NoDup; [|apply fmap_sublist, sublist_take]. unfold requests_of. rewrite jsort_perm.
    eapply sublist_NoDup; [exact Hnd|apply fmap_sublist, filter_sublist].
Qed.
End unique.

(** C40. The window keeps the picture whole.  Over nodes with distinct ids, a window of
    [limit] requests shows every node when there are no more than that; otherwise it
    keeps all landmarks and exactly [limit] requests, none older than a hidden one,
    counts the hidden ones, keeps a node of a flow when all requests it belongs to are
    kept, or there are none, and drops it when they are all hidden (a node that belongs
    to kept and to hidden requests is left open), keeps the nodes in order, and shows
    exactly the links whose two ends are shown. *)
Theorem windowGraph_spec nodes links limit : NoDup (gn_id <$> nodes) ->
  let w := windowGraph nodes links limit in
  let shown id := id ∈ gn_id <$> wg_nodes w in
  wg_totalRequests w = length (List.filter is_request nodes) /\
  (match limit with
   | Some n => (wg_totalRequests w <= n)%nat -> wg_nodes w = nodes /\ wg_links w = links /\ wg_hiddenRequests w = 0%nat
   | None => wg_nodes w = nodes /\ wg_links w = links /\ wg_hiddenRequests w = 0%nat
   end) /\
  forall n, limit = Some n -> (n < wg_totalRequests w)%nat ->
    wg_nodes w `sublist_of` nodes /\
    (forall x, x ∈ nodes -> gn_type x ∈ HUB_TYPES -> x ∈ wg_nodes w) /\
    length (List.filter is_request (wg_nodes w)) = n /\ (wg_hiddenRequests w + n)%nat = wg_totalRequests w /\
    (forall x y, x ∈ wg_nodes w -> gn_type x = "Request" -> y ∈ nodes -> gn_type y = "Request" -> y ∉ wg_nodes w -> gn_created y <= gn_created x) /\
    (forall x, x ∈ nodes -> gn_type x ∉ "Request" :: HUB_TYPES ->
       ((forall r, owned_by nodes links x r -> r ∈ wg_nodes w) -> x ∈ wg_nodes w) /\
       (x ∈ wg_nodes w -> (forall r, ~ owned_by nodes links x r) \/ exists r, owned_by nodes links x r /\ r ∈ wg_nodes w)) /\
    (forall l, l ∈ wg_links w <-> l ∈ links /\ shown (gl_source l) /\ shown (gl_target l)).
Proof.
  intros Hnd w shown.
  assert (Htot : wg_totalRequests w = length (List.filter is_request nodes)).
  { unfold w, windowGraph. destruct limit as [n|]; [destruct (Nat.leb _ _)|]; apply length_jsort. }
  assert (Hlen : length (requests_of nodes) = wg_totalRequests w) by (rewrite Htot; apply length_jsort).
  split; [exact Htot|]. split.
  { destruct limit as [n|]; [|done]. intros Hle. unfold w, windowGraph. by rewrite (proj2 (Nat.leb_le _ _)) by (by rewrite Hlen). }
  intros n -> Hn. rewrite <-Hlen in *. destruct (window_shape nodes Hnd links n Hn) as (Hw & Hh & Hl). unfold shown. fold w in Hw, Hh, Hl. rewrite Hl, Hw.
  set (reqs := take n (requests_of nodes)) in *. set (owner := owners (gn_id <$> requests_of nodes) links) in *.
  assert (Hin : forall x, x ∈ List.filter (kept (gn_id <$> reqs) owner) nodes <-> x ∈ nodes /\ kept (gn_id <$> reqs) owner x = true).
  { intros x. by rewrite !list_elem_of_In, filter_In. }
  assert (Hreq : forall x, x ∈ nodes -> gn_type x = "Request" -> x ∈ List.filter (kept (gn_id <$> reqs) owner) nodes <-> x ∈ reqs).
  { intros x Hx Ht. pose proof (kept_request nodes Hnd n x owner Hx Ht) as Hk. fold reqs in Hk. rewrite Hin. tauto. }
  split_and!.
  - apply filter_sublist.
  - intros x Hx Ht. apply Hin. split; [done|]. unfold kept. by rewrite bool_decide_eq_true_2.
  - pose proof (kept_requests nodes Hnd n owner) as Hp. fold reqs in Hp. rewrite Hp. unfold reqs. rewrite length_take. lia.
  - exact Hh.
  - intros x y Hx Hxt Hy Hyt Hyn. apply (Hreq x (proj1 (proj1 (Hin x) Hx)) Hxt) in Hx. rewrite (Hreq y Hy Hyt) in Hyn.
    apply (requests_sorted nodes n x y Hx). assert (Hr : y ∈ requests_of nodes) by (by apply requests_elem).
    rewrite <-(take_drop n (requests_of nodes)) in Hr. by apply elem_of_app in Hr as [].
  - intros x Hx Ht. rewrite Hin. destruct (kept_flow nodes Hnd (gn_id <$> reqs) links x Hx Ht) as [Hk Hni]. fold owner in Hk. rewrite Hk.
    pose proof (flow_owner nodes links x Hni) as Ho. fold owner in Ho. destruct (owner !! gn_id x) as [o|]; [|by split; [|left]].
    destruct Ho as (r & -> & Ho). assert (Hr : r ∈ nodes /\ gn_type r = "Request") by (destruct Ho as (l & ?); tauto). destruct Hr as [Hr Hrt].
    split; [intros Hall; split; [done|]; by apply list_elem_of_fmap_2, Hreq, Hall|]. intros [_ Hm]. right. exists r. split; [done|].
    apply Hreq; [done|done|]. apply (ids_elem nodes Hnd); [|done|done]. intros y Hy. by apply (requests_sub nodes n).
  - intros l. rewrite list_elem_of_In, filter_In, andb_true_iff, !bool_decide_eq_true, <-list_elem_of_In. done.
Qed.

(** ** Witnesses *)
Local Abbreviation nd i t c := {| gn_id := i; gn_type := t; gn_label := i; gn_status := None; gn_meta := []; gn_created := c; gn_updated := c |}.
Local Abbreviation lk a b t := {| gl_id := (a ++ b)%string; gl_source := a; gl_target := b; gl_type := t; gl_created := 0 |}.
Definition ex_nodes : list GNode :=
  [nd "cred:a" "Credential" 1; nd "provider:p" "Provider" 1; nd "req:1" "Request" 2; nd "req:2" "Request" 3; nd "proof:1" "Proof" 2; nd "proof:2" "Proof" 3; nd "resp:9" "Response" 4].
Definition ex_links : list GLink :=
  [lk "cred:a" "provider:p" "CONNECTS_TO"; lk "req:1" "provider:p" "CALLED"; lk "req:2" "provider:p" "CALLED"; lk "req:1" "proof:1" "HAS_PROOF"; lk "req:2" "proof:2" "HAS_PROOF"].

(** The provider both requests called does not lead from one to the other; *)
Example path_stops_at_hubs : requestPath "req:1" ex_nodes ex_links = Some ["req:1"; "provider:p"; "proof:1"].
Proof. vm_compute. reflexivity. Qed.
(** but a credential is no hub of path.ts, so one both were routed through does. *)
Example path_crosses_credentials :
  requestPath "req:1" ex_nodes (ex_links ++ [lk "req:1" "cred:a" "ROUTED_THROUGH"; lk "req:2" "cred:a" "ROUTED_THROUGH"]) =
  Some ["req:1"; "provider:p"; "proof:1"; "cred:a"; "req:2"; "proof:2"].
Proof. vm_compute. reflexivity. Qed.

Example windowGraph_spec_witness :
  gn_id <$> wg_nodes (windowGraph ex_nodes ex_links (Some 1%nat)) = ["cred:a"; "provider:p"; "req:2"; "proof:2"; "resp:9"] /\
  wg_totalRequests (windowGraph ex_nodes ex_links (Some 1%nat)) = length (List.filter is_request ex_nodes).
Proof. split; [vm_compute; reflexivity|]. refine (proj1 (windowGraph_spec ex_nodes ex_links (Some 1%nat) _)). apply (bool_decide_unpack _). vm_compute. exact I. Defined.
