(* ===== verification/LiveGraph.v ===== *)
(** * The live graph (apps/web/src/lib/api.ts, useLiveGraph)

    The browser loads the snapshot of the graph and then follows the stream of
    [GET /v1/graph/events]; what the coordinator emits while no stream is open is
    not sent again. *)

From S2P Require Import Prelude JsNum Utf8 Json JsMap Logs Events.
Local Open Scope Z_scope.

(** ** The hook's state *)
Record Live : Type := {
  lv_nodes : list (string * GNode);
  lv_links : list (string * GLink);
  lv_connected : bool;
  lv_recent : list string;
}.
Definition live_init : Live := {| lv_nodes := []; lv_links := []; lv_connected := false; lv_recent := [] |}.

(** [new Map(l.map((x) => [x.id, x]))] *)
Definition entries_map {V} (key : V -> string) (l : list V) : list (string * V) := foldl (fun m x => map_set m (key x) x) [] l.
(** The answer to [GET /v1/graph]; a failed one is ignored. *)
Definition load_snapshot (snapshot : option (list GNode * list GLink)) (v : Live) : Live :=
  match snapshot with
  | Some (nodes, links) => {| lv_nodes := entries_map gn_id nodes; lv_links := entries_map gl_id links;
                              lv_connected := lv_connected v; lv_recent := lv_recent v |}
  | None => v
  end.
Definition markRecent (id : string) (v : Live) : Live := {|
  lv_nodes := lv_nodes v; lv_links := lv_links v; lv_connected := lv_connected v;
  lv_recent := if bool_decide (id ∈ lv_recent v) then lv_recent v else lv_recent v ++ [id] |}.
(** The timer of [markRecent]. *)
Definition unmark (id : string) (v : Live) : Live := {|
  lv_nodes := lv_nodes v; lv_links := lv_links v; lv_connected := lv_connected v; lv_recent := filter (fun x => x <> id) (lv_recent v) |}.
Definition set_node (n : GNode) (v : Live) : Live := {|
  lv_nodes := map_set (lv_nodes v) (gn_id n) n; lv_links := lv_links v; lv_connected := lv_connected v; lv_recent := lv_recent v |}.
Definition set_link (l : GLink) (v : Live) : Live := {|
  lv_nodes := lv_nodes v; lv_links := map_set (lv_links v) (gl_id l) l; lv_connected := lv_connected v; lv_recent := lv_recent v |}.
Definition set_connected (b : bool) (v : Live) : Live := {|
  lv_nodes := lv_nodes v; lv_links := lv_links v; lv_connected := b; lv_recent := lv_recent v |}.
(** One message of the stream. *)
Definition receive (v : Live) (m : GraphMessage) : Live :=
  match m with
  | node_created n => markRecent (gn_id n) (set_node n v)
  | node_updated n => set_node n v
  | link_created l => markRecent (gl_id l) (set_link l v)
  end.

(** ** The coordinator and one browser *)
Record Session : Type := { ss_projector : Projector; ss_open : bool; ss_live : Live }.
Inductive SessionEvent : Type :=
| Emitted (now : Z) (eventType aggregateId : string) (payload : object)   (** the coordinator emits and drains *)
| Drained (now : Z)                                                       (** its timer drains *)
| Opened                                                                  (** the stream opens, or opens again *)
| Broken                                                                  (** it breaks *)
| Expired (id : string).                                                  (** a highlight ends *)

Section session.
Context `{L : LowerCase}.
Context (to_upper : string -> string) (js_text : jsval -> string) (iso : Z -> string).

(** What [p'] has emitted since [p] goes to the open stream. *)
Definition emitted_since (p p' : Projector) : list GraphMessage := drop (length (gr_bus (pj_graph p))) (gr_bus (pj_graph p')).
Definition broadcast (p' : Projector) (s : Session) : Session := {|
  ss_projector := p'; ss_open := ss_open s;
  ss_live := if ss_open s then foldl receive (ss_live s) (emitted_since (ss_projector s) p') else ss_live s |}.
Definition session_projector (e : SessionEvent) (p : Projector) : Projector :=
  match e with
  | Emitted now eventType aggregateId payload => (emitEvent to_upper js_text iso now eventType aggregateId payload p).1
  | Drained now => drainOutbox to_upper js_text now p
  | _ => p
  end.
Definition session_step (s : Session) (e : SessionEvent) : Session :=
  match e with
  | Emitted _ _ _ _ | Drained _ => broadcast (session_projector e (ss_projector s)) s
  | Opened => {| ss_projector := ss_projector s; ss_open := true; ss_live := set_connected true (ss_live s) |}
  | Broken => {| ss_projector := ss_projector s; ss_open := false; ss_live := set_connected false (ss_live s) |}
  | Expired id => {| ss_projector := ss_projector s; ss_open := ss_open s; ss_live := unmark id (ss_live s) |}
  end.
(** What one event makes the coordinator emit, and whether a stream is open to carry it. *)
Definition heard (s : Session) (e : SessionEvent) : list (bool * GraphMessage) :=
  pair (ss_open s) <$> emitted_since (ss_projector s) (session_projector e (ss_projector s)).
Definition watch (s : Session) (evs : list SessionEvent) : Session * list (bool * GraphMessage) :=
  foldl (fun sh e => (session_step sh.1 e, sh.2 ++ heard sh.1 e)) (s, []) evs.
(** The page is loaded when the coordinator stands at [p]. *)
Definition opened_at (p : Projector) : Session := {|
  ss_projector := p; ss_open := false; ss_live := load_snapshot (Some (graphSnapshot (pj_graph p))) live_init |}.
Definition coordinator_at (evs : list SessionEvent) : Projector := foldl (fun p e => session_projector e p) projector_init evs.
End session.

(** ** What a stretch of projections emits *)
Definition find_link (id : string) (g : Graph) : option GLink := List.find (fun l => String.eqb (gl_id l) id) (gr_links g).
Definition node_of (id : string) (m : GraphMessage) : option GNode :=
  match m with node_created n | node_updated n => if String.eqb (gn_id n) id then Some n else None | link_created _ => None end.
Definition link_of (id : string) (m : GraphMessage) : option GLink :=
  match m with link_created l => if String.eqb (gl_id l) id then Some l else None | _ => None end.
Definition unique_ids (g : Graph) : Prop := NoDup (gn_id <$> gr_nodes g) /\ NoDup (gl_id <$> gr_links g).
(** From [g] to [g'] exactly [msgs] went out: the last one on a node is the node, and a
    link is announced once, when it is made. *)
Record grows_by (msgs : list GraphMessage) (g g' : Graph) : Prop := {
  gb_bus : gr_bus g' = gr_bus g ++ msgs;
  gb_node : forall id, readNode id g' = match last (omap (node_of id) msgs) with Some n => Some n | None => readNode id g end;
  gb_link : forall id, omap (link_of id) msgs = match find_link id g, find_link id g' with None, Some l => [l] | _, _ => [] end;
  gb_kept : forall id l, find_link id g = Some l -> find_link id g' = Some l;
  gb_unique : unique_ids g -> unique_ids g';
}.
Definition grows (g g' : Graph) : Prop := exists msgs, grows_by msgs g g'.

Lemma grows_refl g : grows g g.
Proof. exists []. split; [by rewrite app_nil_r|done| |done|done]. intros id. by destruct (find_link id g). Qed.
Lemma grows_trans g1 g2 g3 : grows g1 g2 -> grows g2 g3 -> grows g1 g3.
Proof.
  intros [a [B1 N1 L1 K1 U1]] [b [B2 N2 L2 K2 U2]]. exists (a ++ b). split; [by rewrite B2, B1, app_assoc| | |by auto|by auto].
  - intros id. rewrite omap_app, last_app, N2, N1. by destruct (last (omap (node_of id) b)).
  - intros id. rewrite omap_app, L1, L2. specialize (K1 id). specialize (K2 id).
    destruct (find_link id g1) as [l|]; [by rewrite (K1 l eq_refl)|]. destruct (find_link id g2) as [l|]; [by rewrite (K2 l eq_refl)|]. done.
Qed.

Definition growing {A} (m : SE Graph unit A) : Prop := forall g, grows g (m g).1.

Lemma readNode_id id g n : readNode id g = Some n -> gn_id n = id.
Proof. intros H. apply List.find_some in H as [_ H]. by apply String.eqb_eq. Qed.
Lemma readNode_None id g : readNode id g = None -> id ∉ (gn_id <$> gr_nodes g).
Proof.
  intros H Hin. apply list_elem_of_fmap in Hin as (n & -> & Hn%list_elem_of_In). pose proof (List.find_none _ _ H n Hn) as He.
  cbn in He. by rewrite String.eqb_refl in He.
Qed.
Lemma upserted_id now id type label status meta g : gn_id (upserted now id type label status meta (readNode id g)) = id.
Proof. destruct (readNode id g) as [n|] eqn:Hr; [|done]. exact (readNode_id _ _ _ Hr). Qed.
Lemma upsertNode_bus now id type label status meta g : exists message, (message = node_created \/ message = node_updated) /\
  gr_bus (upsertNode now id type label status meta g) = gr_bus g ++ [message (upserted now id type label status meta (readNode id g))].
Proof.
  pose proof (readNode_upsert now id type label status meta g) as Hu. unfold upsertNode in *.
  destruct (readNode id g) as [n|] eqn:Hr; rewrite readNode_emit in Hu; unfold emit_node; rewrite Hu; eexists; (split; [|reflexivity]); auto.
Qed.
Lemma grows_node now id type label status meta g : grows g (upsertNode now id type label status meta g).
Proof.
  destruct (upsertNode_bus now id type label status meta g) as (message & Hm & Hb). eexists. split; [exact Hb| | | |].
  - intros k. pose proof (upserted_id now id type label status meta g) as Hid.
    assert (Ho : omap (node_of k) [message (upserted now id type label status meta (readNode id g))] =
                 if String.eqb id k then [upserted now id type label status meta (readNode id g)] else []).
    { destruct Hm as [-> | ->]; simpl; rewrite Hid; by destruct (String.eqb id k). }
    rewrite Ho. destruct (String.eqb_spec id k) as [<-|Hne]; simpl; [apply readNode_upsert|by apply readNode_other].
  - intros k. assert (Hl : find_link k (upsertNode now id type label status meta g) = find_link k g).
    { unfold find_link, upsertNode. destruct (readNode id g); by rewrite gr_links_emit. }
    rewrite Hl. destruct Hm as [-> | ->]; simpl; by destruct (find_link k g).
  - intros k l. unfold find_link, upsertNode. destruct (readNode id g); by rewrite gr_links_emit.
  - intros [Hn Hl]. unfold unique_ids, upsertNode. destruct (readNode id g) as [n|] eqn:Hr; rewrite gr_links_emit, gr_nodes_emit; (split; [|exact Hl]); cbn [gr_nodes].
    + rewrite <-list_fmap_compose. erewrite list_fmap_ext; [exact Hn|]. intros i x _. cbn. by destruct (String.eqb _ _).
    + rewrite fmap_app. apply NoDup_app. split; [exact Hn|]. split; [|apply NoDup_singleton].
      intros x Hx Hin%list_elem_of_singleton. subst. by apply (readNode_None _ _ Hr).
Qed.

Lemma grows_link now source target type g : grows g (upsertLink now source target type g).
Proof.
  unfold upsertLink. set (id := str_app [source; "|"; type; "|"; target]). destruct (existsb _ _) eqn:He; [apply grows_refl|].
  set (link := {| gl_id := id; gl_source := source; gl_target := target; gl_type := type; gl_created := now |}).
  assert (Hn : find_link id g = None).
  { unfold find_link. destruct (List.find _ _) as [l|] eqn:Hf; [|done]. apply List.find_some in Hf as [Hin Hi].
    assert (Ht : existsb (fun l => String.eqb (gl_id l) id) (gr_links g) = true) by (apply existsb_exists; by exists l). congruence. }
  assert (Hf : forall k, find_link k {| gr_nodes := gr_nodes g; gr_links := gr_links g ++ [link]; gr_bus := gr_bus g ++ [link_created link] |} =
    match find_link k g with Some l => Some l | None => if String.eqb id k then Some link else None end).
  { intros k. unfold find_link. cbn [gr_links]. clear -k link. induction (gr_links g) as [|x l IH]; simpl; [done|]. destruct (String.eqb (gl_id x) k); [done|exact IH]. }
  exists [link_created link]. split; [done|done| | |].
  - intros k. rewrite Hf. simpl. destruct (String.eqb_spec id k) as [<-|Hne]; [by rewrite Hn|by destruct (find_link k g)].
  - intros k l Hl. by rewrite Hf, Hl.
  - intros [Hg Hl]. split; [exact Hg|]. cbn [gr_links]. rewrite fmap_app. apply NoDup_app. split; [exact Hl|]. split; [|apply NoDup_singleton].
    intros x Hx Hin%list_elem_of_singleton. cbn in Hin. subst x. apply list_elem_of_fmap in Hx as (y & Hy & Hin%list_elem_of_In).
    pose proof (List.find_none _ _ Hn y Hin) as Hne. cbn in Hne. by rewrite <-Hy, String.eqb_refl in Hne.
Qed.

Create HintDb grows.
Lemma growing_ret {A} (a : A) : growing (mret a).
Proof. intros g. apply grows_refl. Qed.
Lemma growing_lift {A} (r : res unit A) : growing (se_lift r).
Proof. intros g. apply grows_refl. Qed.
Lemma growing_bind {A B} (m : SE Graph unit A) (f : A -> SE Graph unit B) : growing m -> (forall a, growing (f a)) -> growing (m ≫= f).
Proof.
  intros Hm Hf g. specialize (Hm g). unfold mbind, SE_bind. destruct (m g) as [g1 [a|e]]; [|exact Hm]. eapply grows_trans; [exact Hm|apply Hf].
Qed.
Lemma growing_node now id type label status meta : growing (node now id type label status meta).
Proof. intros g. apply grows_node. Qed.
Lemma growing_link now source target type : growing (link now source target type).
Proof. intros g. apply grows_link. Qed.
Lemma growing_fold {X} (f : X -> SE Graph unit unit) l m : growing m -> (forall x, growing (f x)) -> growing (foldl (fun m x => _ ← m; f x) m l).
Proof. intros Hm Hf. revert m Hm. induction l as [|x l IH]; intros m Hm; simpl; [done|]. apply IH, growing_bind; [done|intros _; apply Hf]. Qed.
#[export] Hint Resolve growing_ret growing_lift growing_node growing_link : grows.
Ltac grow := repeat first [solve [auto with grows] | apply growing_bind; intros | apply growing_fold; intros | case_match].

Lemma growing_created to_upper js_text now payload : growing (project_credential_created to_upper js_text now payload).
Proof. unfold project_credential_created, credential_label, allowed_models, need. grow. Qed.
Lemma growing_received js_text now payload : growing (project_request_received js_text now payload).
Proof. unfold project_request_received, need. grow. Qed.
Lemma growing_verified js_text now payload : growing (project_tee_verified js_text now payload).
Proof. unfold project_tee_verified. grow. Qed.
Lemma growing_provider_failed js_text now payload : growing (project_provider_failed js_text now payload).
Proof. unfold project_provider_failed. grow. Qed.
Lemma growing_provider_completed js_text now payload : growing (project_provider_completed js_text now payload).
Proof. unfold project_provider_completed. grow. Qed.
Lemma growing_verdict js_text now payload status result : growing (verdict_node js_text now payload status result).
Proof. apply growing_node. Qed.
Lemma growing_proof js_text now payload status meta : growing (proof_node js_text now payload status meta).
Proof. apply growing_node. Qed.
Lemma growing_label payload : growing (credential_label payload).
Proof. unfold credential_label, need. grow. Qed.
Lemma growing_models payload : growing (allowed_models payload).
Proof. apply growing_lift. Qed.
#[export] Hint Resolve growing_created growing_received growing_verified growing_provider_failed growing_provider_completed growing_verdict growing_proof growing_label growing_models : grows.
Lemma growing_project to_upper js_text now eventType payload : growing (project to_upper js_text now eventType payload).
Proof.
  unfold project. repeat (match goal with |- growing (match ?x with _ => _ end) => destruct x end; try exact (growing_ret tt)); grow.
Qed.

Section growth.
Context `{L : LowerCase}.
Context (to_upper : string -> string) (js_text : jsval -> string) (iso : Z -> string).

Lemma grows_drain now rows : forall limit g, grows g (drain to_upper js_text limit now rows g).2.
Proof.
  induction rows as [|r rows IH]; intros limit g; simpl; [apply grows_refl|]. destruct (negb (pending r)).
  - specialize (IH limit g). by destruct (drain _ _ limit now rows g).
  - destruct limit as [|limit]; [apply grows_refl|]. specialize (IH limit (project_row to_upper js_text now r g)).
    destruct (drain _ _ limit now rows _). eapply grows_trans; [apply growing_project|exact IH].
Qed.
Lemma grows_drainOutbox now p : grows (pj_graph p) (pj_graph (drainOutbox to_upper js_text now p)).
Proof. unfold drainOutbox. pose proof (grows_drain now (pj_outbox p) DRAIN_LIMIT (pj_graph p)). by destruct (drain _ _ _ _ _ _). Qed.
Lemma grows_session e p : grows (pj_graph p) (pj_graph (session_projector to_upper js_text iso e p)).
Proof.
  destruct e; simpl; try apply grows_refl; [|apply grows_drainOutbox].
  unfold emitEvent. destruct (assertNoForbiddenFields _ _ _); [|apply grows_refl].
  apply (grows_drainOutbox now {| pj_outbox := pj_outbox p ++ [_]; pj_graph := pj_graph p |}).
Qed.
Lemma coordinator_unique evs : unique_ids (pj_graph (coordinator_at to_upper js_text iso evs)).
Proof.
  unfold coordinator_at. assert (Hi : unique_ids (pj_graph projector_init)) by (split; apply NoDup_nil_2). revert Hi. generalize projector_init.
  induction evs as [|e evs IH]; intros p Hp; simpl; [done|]. apply IH. destruct (grows_session e p) as [msgs Hg]. by apply Hg.
Qed.

(** ** What the page shows *)
Lemma receive_nodes msgs id : forall v,
  map_get (lv_nodes (foldl receive v msgs)) id = match last (omap (node_of id) msgs) with Some n => Some n | None => map_get (lv_nodes v) id end.
Proof.
  induction msgs as [|m msgs IH]; intros v; [done|]. cbn [foldl]. rewrite IH.
  assert (Hm : map_get (lv_nodes (receive v m)) id = match node_of id m with Some n => Some n | None => map_get (lv_nodes v) id end).
  { destruct m; simpl; try (destruct (String.eqb_spec (gn_id node) id) as [<-|Hne]; [apply map_get_set|by apply map_get_set_ne]); done. }
  rewrite Hm. change (omap (node_of id) (m :: msgs)) with (match node_of id m with Some n => n :: omap (node_of id) msgs | None => omap (node_of id) msgs end).
  destruct (node_of id m); [|done]. rewrite last_cons. by destruct (last _).
Qed.
Lemma receive_links msgs id : forall v,
  map_get (lv_links (foldl receive v msgs)) id = match last (omap (link_of id) msgs) with Some l => Some l | None => map_get (lv_links v) id end.
Proof.
  induction msgs as [|m msgs IH]; intros v; [done|]. cbn [foldl]. rewrite IH.
  assert (Hm : map_get (lv_links (receive v m)) id = match link_of id m with Some l => Some l | None => map_get (lv_links v) id end).
  { destruct m; simpl; try done. destruct (String.eqb_spec (gl_id link) id) as [<-|Hne]; [apply map_get_set|by apply map_get_set_ne]. }
  rewrite Hm. change (omap (link_of id) (m :: msgs)) with (match link_of id m with Some n => n :: omap (link_of id) msgs | None => omap (link_of id) msgs end).
  destruct (link_of id m); [|done]. rewrite last_cons. by destruct (last _).
Qed.

Lemma find_app {A} (f : A -> bool) l k : List.find f (l ++ k) = match List.find f l with Some x => Some x | None => List.find f k end.
Proof. induction l as [|x l IH]; simpl; [done|]. by destruct (f x). Qed.
(** The map of a list whose keys are distinct finds what the list has. *)
Lemma entries_map_get {V} (key : V -> string) l id : NoDup (key <$> l) -> map_get (entries_map key l) id = List.find (fun x => String.eqb (key x) id) l.
Proof.
  induction l as [|x l IH] using rev_ind; [done|]. rewrite fmap_app. intros (Hl & Hd & _)%NoDup_app. unfold entries_map. rewrite foldl_app. cbn [foldl].
  fold (entries_map key l). assert (Hx : key x ∉ (key <$> l)) by (intros Hx; apply (Hd _ Hx); by left).
  rewrite find_app. destruct (String.eqb_spec (key x) id) as [<-|Hne].
  - rewrite map_get_set. simpl. rewrite String.eqb_refl. destruct (List.find _ l) as [y|] eqn:Hf; [|done].
    apply List.find_some in Hf as [Hin He%String.eqb_eq]. exfalso. apply Hx. rewrite <-He. apply list_elem_of_fmap_2. by apply list_elem_of_In.
  - rewrite map_get_set_ne, IH by done. simpl. rewrite (proj2 (String.eqb_neq _ _) Hne). by destruct (List.find _ l).
Qed.
Lemma find_perm {V} (key : V -> string) l l' id : l ≡ₚ l' -> NoDup (key <$> l) ->
  List.find (fun x => String.eqb (key x) id) l = List.find (fun x => String.eqb (key x) id) l'.
Proof.
  intros Hp Hn. assert (Hn' : NoDup (key <$> l')) by (by rewrite <-Hp). rewrite <-!entries_map_get by done.
  assert (Hk : forall k, NoDup (key <$> k) -> forall y, y ∈ k -> key y = id -> map_get (entries_map key k) id = Some y).
  { intros k Hk y Hy Hi. rewrite entries_map_get by done. clear -Hk Hy Hi. induction k as [|x k IH]; [by apply not_elem_of_nil in Hy|].
    simpl in *. apply NoDup_cons in Hk as [Hx Hk]. apply elem_of_cons in Hy as [->|Hy]; [by rewrite Hi, String.eqb_refl|].
    destruct (String.eqb_spec (key x) id) as [He|]; [|by apply IH]. exfalso. apply Hx. rewrite He, <-Hi. by apply list_elem_of_fmap_2. }
  destruct (map_get (entries_map key l) id) as [y|] eqn:Hy.
  - rewrite entries_map_get in Hy by done. apply List.find_some in Hy as [Hin%list_elem_of_In He%String.eqb_eq].
    symmetry. apply Hk; [done|by rewrite <-Hp|done].
  - destruct (map_get (entries_map key l') id) as [y|] eqn:Hy'; [|done]. rewrite entries_map_get in Hy' by done.
    apply List.find_some in Hy' as [Hin%list_elem_of_In He%String.eqb_eq]. rewrite (Hk l Hn y) in Hy; [done|by rewrite Hp|done].
Qed.

(** Whether the last message about a node was carried; whether a link was announced in vain. *)
Definition last_carried (id : string) (h : list (bool * GraphMessage)) : option bool :=
  last (omap (fun bm => (fun _ => bm.1) <$> node_of id bm.2) h).
Definition missed_link (id : string) (h : list (bool * GraphMessage)) : bool :=
  existsb (fun bm => negb bm.1 && bool_decide (is_Some (link_of id bm.2))) h.
Record shows (v : Live) (h : list (bool * GraphMessage)) (g : Graph) : Prop := {
  sh_node : forall id, last_carried id h <> Some false -> map_get (lv_nodes v) id = readNode id g;
  sh_link : forall id, map_get (lv_links v) id = if missed_link id h then None else find_link id g;
  sh_missed : forall id, missed_link id h = true -> is_Some (find_link id g);
}.

Lemma last_carried_app b id msgs h : last_carried id (h ++ (pair b <$> msgs)) =
  match last (omap (node_of id) msgs) with Some _ => Some b | None => last_carried id h end.
Proof.
  unfold last_carried. rewrite omap_app, last_app.
  assert (Ho : omap (fun bm : bool * GraphMessage => (fun _ => bm.1) <$> node_of id bm.2) (pair b <$> msgs) = (fun _ : GNode => b) <$> omap (node_of id) msgs).
  { induction msgs as [|m msgs IH]; [done|]. cbn. cbn in IH. destruct (node_of id m); cbn; by rewrite IH. }
  rewrite Ho, fmap_last. by destruct (last _).
Qed.
Lemma missed_link_app b id msgs h : missed_link id (h ++ (pair b <$> msgs)) =
  missed_link id h || negb b && match omap (link_of id) msgs with [] => false | _ => true end.
Proof.
  unfold missed_link. rewrite existsb_app. f_equal. induction msgs as [|m msgs IH]; [by destruct b|]. cbn. cbn in IH. rewrite IH.
  destruct (link_of id m) as [l|]; cbn; by destruct b.
Qed.

Lemma shows_grow (b : bool) msgs v h g g' : shows v h g -> grows_by msgs g g' ->
  shows (if b then foldl receive v msgs else v) (h ++ (pair b <$> msgs)) g'.
Proof.
  intros [Hn Hl Hm] [_ Gn Gl Gk _]. split; intros id.
  - rewrite last_carried_app. intros Hc. rewrite Gn. destruct b.
    + rewrite receive_nodes. destruct (last (omap (node_of id) msgs)); [done|by apply Hn].
    + destruct (last (omap (node_of id) msgs)); [done|by apply Hn].
  - rewrite missed_link_app. specialize (Hl id). specialize (Hm id). specialize (Gl id). specialize (Gk id).
    destruct (find_link id g) as [l|] eqn:Hf.
    + rewrite Gl, andb_false_r, orb_false_r. rewrite (Gk l eq_refl). destruct b; [rewrite receive_links, Gl|]; exact Hl.
    + assert (Hmf : missed_link id h = false) by (destruct (missed_link id h); [by destruct (Hm eq_refl)|done]). rewrite Hmf in *. cbn [orb].
      destruct (find_link id g') as [l|] eqn:Hf'; rewrite Gl; destruct b; cbn [negb andb]; rewrite ?receive_links, ?Gl; done.
  - rewrite missed_link_app. specialize (Hm id). specialize (Gl id). specialize (Gk id).
    destruct (missed_link id h); [intros _; destruct (Hm eq_refl) as [l Hf]; exists l; by apply Gk|]. cbn [orb]. rewrite Gl.
    destruct (find_link id g) as [l|]; [by rewrite andb_false_r|]. destruct (find_link id g') as [l|]; [by exists l|by rewrite andb_false_r].
Qed.

Lemma shows_step s h e : shows (ss_live s) h (pj_graph (ss_projector s)) ->
  shows (ss_live (session_step to_upper js_text iso s e)) (h ++ heard to_upper js_text iso s e)
    (pj_graph (ss_projector (session_step to_upper js_text iso s e))).
Proof.
  intros Hs. destruct (grows_session e (ss_projector s)) as [msgs Hg].
  assert (He : emitted_since (ss_projector s) (session_projector to_upper js_text iso e (ss_projector s)) = msgs).
  { unfold emitted_since. by rewrite (gb_bus _ _ _ Hg), drop_app_length. }
  unfold heard. rewrite He. pose proof (shows_grow (ss_open s) msgs _ h _ _ Hs Hg) as Hgrow.
  destruct e; cbn [session_step broadcast ss_live ss_projector]; try (rewrite He; exact Hgrow).
  all: assert (msgs = []) as -> by (rewrite <-He; unfold emitted_since; cbn [session_projector]; apply drop_ge; lia).
  all: rewrite app_nil_r; destruct Hs; by split.
Qed.
Lemma shows_watch s evs : shows (ss_live s) [] (pj_graph (ss_projector s)) ->
  let '(s', h) := watch to_upper js_text iso s evs in shows (ss_live s') h (pj_graph (ss_projector s')).
Proof.
  unfold watch. generalize (@nil (bool * GraphMessage)) as h. revert s.
  enough (Hg : forall sh, shows (ss_live sh.1) sh.2 (pj_graph (ss_projector sh.1)) ->
    let '(s', h') := foldl (fun sh e => (session_step to_upper js_text iso sh.1 e, sh.2 ++ heard to_upper js_text iso sh.1 e)) sh evs in
    shows (ss_live s') h' (pj_graph (ss_projector s'))) by (intros s h; apply (Hg (s, h))).
  induction evs as [|e evs IH]; intros [s h] Hs; simpl; [exact Hs|]. apply IH. by apply shows_step.
Qed.
Lemma shows_opened p : unique_ids (pj_graph p) -> shows (ss_live (opened_at p)) [] (pj_graph p).
Proof.
  intros [Hn Hl]. split; intros id; [intros _| |done]; cbn [opened_at ss_live load_snapshot graphSnapshot lv_nodes lv_links missed_link existsb].
  - rewrite entries_map_get by (by rewrite jsort_perm). unfold readNode. symmetry. apply find_perm; [by rewrite jsort_perm|done].
  - rewrite entries_map_get by (by rewrite jsort_perm). unfold find_link. symmetry. apply find_perm; [by rewrite jsort_perm|done].
Qed.
End growth.

(** C19. What the live graph shows, and what it misses. Load the page at any point of the
    coordinator's life, and let projections, drains and openings and breaks of the stream
    follow in any order: a node is shown as it stands, unless the last change to it went out
    while no stream was open; a link is shown exactly when the graph has it and it was not
    made in such a gap, and then it is never shown again; so a page whose stream carried
    every message shows exactly the graph. *)
Theorem live_graph_converges `{LowerCase} to_upper js_text iso before after :
  let p := coordinator_at to_upper js_text iso before in
  let '(s, h) := watch to_upper js_text iso (opened_at p) after in
  let g := pj_graph (ss_projector s) in
  (forall id, last_carried id h <> Some false -> map_get (lv_nodes (ss_live s)) id = readNode id g) /\
  (forall id, map_get (lv_links (ss_live s)) id = if missed_link id h then None else find_link id g) /\
  (Forall (fun bm => bm.1 = true) h -> forall id,
     map_get (lv_nodes (ss_live s)) id = readNode id g /\ map_get (lv_links (ss_live s)) id = find_link id g).
Proof.
  cbv zeta. pose proof (shows_watch to_upper js_text iso (opened_at (coordinator_at to_upper js_text iso before)) after) as Hw.
  destruct (watch _ _ _ _ _) as [s h]. destruct Hw as [Hn Hl _]; [apply shows_opened, coordinator_unique|]. split_and!; [done|done|].
  intros Hall id. assert (Hc : last_carried id h <> Some false).
  { unfold last_carried. intros Hc. apply last_Some_elem_of in Hc. apply list_elem_of_omap in Hc as ([b m] & Hin & Hm).
    rewrite Forall_forall in Hall. specialize (Hall _ Hin). cbn in *. subst b. by destruct (node_of id m). }
  assert (Hm : missed_link id h = false).
  { unfold missed_link. apply not_true_iff_false. intros He. apply existsb_exists in He as ([b m] & Hin & Hb).
    rewrite Forall_forall in Hall. specialize (Hall (b, m)). cbn in *. rewrite Hall in Hb; [done|by apply list_elem_of_In]. }
  split; [by apply Hn|]. by rewrite Hl, Hm.
Qed.

(** ** An example: a request between the snapshot and the stream *)
Definition ex_gap : Session * list (bool * GraphMessage) :=
  let event := [("request_id", VStr "req_1"); ("policy_id", VStr "0xp"); ("commitment", VStr "0xc")] in
  watch (fun s => s) (fun _ => "") ex_iso (opened_at projector_init)
    [Emitted 1 "policy.started" "req_1" event; Opened; Emitted 2 "policy.allowed" "req_1" event].
Example link_lost_in_gap :
  (gl_id <$> gr_links (pj_graph (ss_projector ex_gap.1))) = ["req:req_1|EVALUATED_UNDER|policy:0xp"] /\
  lv_links (ss_live ex_gap.1) = [] /\ (lv_nodes (ss_live ex_gap.1)).*1 = ["req:req_1"] /\ lv_connected (ss_live ex_gap.1) = true.
Proof. vm_compute. repeat split. Qed.
