(* ===== verification/Layout.v ===== *)
(** * The layout of the graph (apps/web/src/components/graph/layout.ts)

    Nodes placed into lanes by type and into rows by request; coordinates are binary64
    numbers, [None] for the NaN of a node that was not on screen. *)

From S2P Require Import Prelude JsNum Utf8 Json JsMap Logs Events.
From Stdlib Require Import QArith.
Local Open Scope Z_scope.

Record PositionedNode : Type := {
  ps_node : GNode;
  ps_lane : nat;
  ps_hub : bool;
  ps_tx : Q;
  ps_ty : Q;
  ps_x : option Q;
  ps_y : option Q;
  ps_appear : Q;
}.
Record LayoutResult : Type := { ly_nodes : list (string * PositionedNode); ly_height : Q; ly_width : Q; ly_rowHeight : Q }.

(** ** Lanes *)
Definition LANES : list (string * Z) :=
  [("Contributors", 116); ("Credentials", 176); ("Requests", 132); ("TEE · Policy", 140); ("Proof", 84); ("Attempts", 84);
   ("Providers", 108); ("Models", 156); ("Response", 84); ("Receipt", 84)].
Definition LANE_X : list Q :=
  (foldl (fun acc lane => (acc.1 ++ [js_add acc.2 (js_div (inject_Z lane.2) 2)], js_add acc.2 (inject_Z lane.2))) ([], 0%Q) LANES).1.
Definition LAYOUT_WIDTH : Q := foldl (fun sum lane => js_add sum (inject_Z lane.2)) 0%Q LANES.
Definition laneCentre (lane : nat) : Q := default 0%Q (LANE_X !! lane).
Definition LANE_OF (type : string) : nat :=
  match type with
  | "Contributor" => 0 | "Credential" => 1 | "Request" => 2 | "TEEWorker" => 3 | "Policy" => 3 | "Proof" => 4
  | "ProviderAttempt" => 5 | "Provider" => 6 | "Model" => 7 | "Response" => 8 | "ComputeReceipt" => 9 | _ => 3
  end%nat.
Definition FLOW_TYPES : list string := ["Proof"; "ProviderAttempt"; "Response"; "ComputeReceipt"].
Definition MAX_ROW_HEIGHT : Q := 58.
Definition MIN_ROW_HEIGHT : Q := 26.
Definition TARGET_HEIGHT : Q := 780.

Definition qmax (a b : Q) : Q := if Qle_bool a b then b else a.
Definition qmin (a b : Q) : Q := if Qle_bool a b then a else b.
Definition js_sub (a b : Q) : Q := js_add a (- b).
Definition is_type (type : string) (n : PositionedNode) : bool := String.eqb (gn_type (ps_node n)) type.
Definition is_flow (n : PositionedNode) : bool := bool_decide (gn_type (ps_node n) ∈ FLOW_TYPES).
Definition pid (n : PositionedNode) : string := gn_id (ps_node n).

Section layout.
Context (localeCompare : string -> string -> comparison).
Context (nodes : list GNode) (links : list GLink) (previous : list (string * PositionedNode)).

Definition position (n : GNode) : PositionedNode :=
  let prior := map_get previous (gn_id n) in {|
  ps_node := n; ps_lane := LANE_OF (gn_type n);
  ps_hub := negb (bool_decide (gn_type n ∈ FLOW_TYPES)) && negb (String.eqb (gn_type n) "Request");
  ps_tx := default 0%Q (ps_tx <$> prior); ps_ty := default 0%Q (ps_ty <$> prior);
  ps_x := prior ≫= ps_x; ps_y := prior ≫= ps_y; ps_appear := default 0%Q (ps_appear <$> prior) |}.
Definition by_id : list (string * PositionedNode) := foldl (fun m n => map_set m (gn_id n) (position n)) [] nodes.
Definition values : list PositionedNode := by_id.*2.

(** [Date.parse(a.createdAt) - Date.parse(b.createdAt) || a.id.localeCompare(b.id)] *)
Definition by_age (a b : PositionedNode) : comparison :=
  match gn_created (ps_node a) ?= gn_created (ps_node b) with Eq => localeCompare (pid a) (pid b) | c => c end.

(** ** Rows *)
Definition requests : list PositionedNode := jsort by_age (List.filter (is_type "Request") values).
Definition request_count : Q := inject_Z (Z.of_nat (length requests)).
Definition rowHeight : Q :=
  qmax MIN_ROW_HEIGHT (qmin MAX_ROW_HEIGHT (match requests with [] => MAX_ROW_HEIGHT | _ => js_div TARGET_HEIGHT request_count end)).
Definition height : Q := qmax 280 (js_mul request_count rowHeight).
Definition row_y (i : nat) : Q :=
  js_add (js_add (js_div (js_sub height (js_mul request_count rowHeight)) 2) (js_mul (inject_Z (Z.of_nat i)) rowHeight)) (js_div rowHeight 2).
(** [rowOf.get(id)] *)
Definition rowOf (id : string) : option Q := (fun ir => row_y ir.1) <$> list_find (fun r => pid r = id) requests.

(** ** Owners *)
Definition own_link (owners : list (string * string)) (l : GLink) : list (string * string) :=
  match map_get by_id (gl_source l), map_get by_id (gl_target l) with
  | Some source, Some target => if is_type "Request" source && is_flow target then map_set owners (pid target) (pid source) else owners
  | _, _ => owners
  end.
Definition ownerOf : list (string * string) := foldl own_link [] links.
(** The row of a node's owner; an empty id owns nothing. *)
Definition owner_row (n : PositionedNode) : option (string * Q) :=
  owner ← map_get ownerOf (pid n); if str_empty owner then None else pair owner <$> rowOf owner.
(** [attemptSeen]: how many attempts of one owner came before. *)
Definition seen_attempts (owner : string) (before : list PositionedNode) : nat :=
  length (List.filter (fun m => is_type "ProviderAttempt" m && match owner_row m with Some (o, _) => String.eqb o owner | None => false end) before).
Definition flow_y (before : list PositionedNode) (n : PositionedNode) : Q :=
  match owner_row n with
  | Some (owner, y) =>
      if is_type "ProviderAttempt" n
      then js_add y (js_mul (inject_Z (Z.of_nat (seen_attempts owner before))) (qmin 15 (js_mul rowHeight (rnd (42 # 100)))))
      else y
  | None => js_div height 2
  end.

(** ** Hubs *)
Definition lane_group (lane : nat) : list PositionedNode := List.filter (fun n => ps_hub n && Nat.eqb (ps_lane n) lane) values.
Definition contributors : list PositionedNode := jsort by_age (lane_group 0).
(** [orderIndex.get(id) ?? 1e6] *)
Definition order_index (id : string) : Z := match list_find (fun n => pid n = id) contributors with Some (i, _) => Z.of_nat i | None => 1000000 end.
Definition ownerContributor : list (string * string) :=
  foldl (fun m l => if String.eqb (gl_type l) "CONTRIBUTED" then map_set m (gl_target l) (gl_source l) else m) [] links.
Definition contributor_order (n : PositionedNode) : Z := order_index (default "" (map_get ownerContributor (pid n))).
Definition hub_order (lane : nat) (a b : PositionedNode) : comparison :=
  if Nat.eqb lane 1 && negb (contributor_order a =? contributor_order b) then contributor_order a ?= contributor_order b else by_age a b.
(** The lane of the contributors was sorted in place before. *)
Definition hub_lane (lane : nat) : list PositionedNode := jsort (hub_order lane) (if Nat.eqb lane 0 then contributors else lane_group lane).
Definition hub_y (n : PositionedNode) : Q :=
  let group := hub_lane (ps_lane n) in
  let gap := js_div height (inject_Z (Z.of_nat (length group) + 1)) in
  match list_find (fun m => pid m = pid n) group with Some (i, _) => js_mul gap (inject_Z (Z.of_nat i + 1)) | None => ps_ty n end.

(** ** The whole *)
Definition place (before : list PositionedNode) (n : PositionedNode) : PositionedNode :=
  let tx := laneCentre (if is_type "Request" n then 2%nat else ps_lane n) in
  let ty := if is_type "Request" n then default 0%Q (rowOf (pid n)) else if ps_hub n then hub_y n else flow_y before n in {|
  ps_node := ps_node n; ps_lane := ps_lane n; ps_hub := ps_hub n; ps_tx := tx; ps_ty := ty;
  ps_x := match ps_x n with Some x => Some x | None => Some (js_sub tx 40) end;
  ps_y := match ps_x n with Some _ => ps_y n | None => Some ty end; ps_appear := ps_appear n |}.
Definition layout : LayoutResult := {|
  ly_nodes := imap (fun i kv => (kv.1, place (take i values) kv.2)) by_id;
  ly_height := height; ly_width := LAYOUT_WIDTH; ly_rowHeight := rowHeight |}.
End layout.

(** ** What it guarantees *)
Section rows.
Context (localeCompare : string -> string -> comparison) (nodes : list GNode) (links : list GLink) (previous : list (string * PositionedNode)).
Local Abbreviation result := (ly_nodes (layout localeCompare nodes links previous)).

Lemma by_id_keys k n : (k, n) ∈ by_id nodes previous -> k = pid n.
Proof.
  unfold by_id. assert (Hi : forall kv, kv ∈ @nil (string * PositionedNode) -> kv.1 = pid kv.2) by (intros kv Hkv; by apply not_elem_of_nil in Hkv).
  intros Hkn. change k with (k, n).1. change n with (k, n).2 at 2. revert Hi Hkn. generalize (k, n). generalize (@nil (string * PositionedNode)).
  induction nodes as [|x l IH]; intros m kv Hm Hkv; simpl in *; [by apply Hm|]. eapply (IH _ kv); [|exact Hkv].
  intros kv' Hin. clear -Hm Hin. induction m as [|[k v] m IH]; simpl in Hin; [by apply list_elem_of_singleton in Hin as ->|].
  destruct (decide (gn_id x = k)) as [He|He]; apply elem_of_cons in Hin as [->|Hin]; try (by simpl).
  - apply Hm. by right.
  - apply (Hm (k, v)). by left.
  - apply IH; [|done]. intros kv Hkv. apply Hm. by right.
Qed.

Lemma in_result k n' : (k, n') ∈ result -> exists before n, n ∈ values nodes previous /\ k = pid n /\ n' = place localeCompare nodes links previous before n.
Proof.
  intros Hin. apply list_elem_of_lookup in Hin as [i Hi]. cbn [ly_nodes layout] in Hi. rewrite list_lookup_imap in Hi.
  destruct (by_id nodes previous !! i) as [[k0 n]|] eqn:Hl; [|done]. injection Hi as <- <-. apply list_elem_of_lookup_2 in Hl.
  eexists _, n. split; [apply (list_elem_of_fmap_2 snd) in Hl; exact Hl|]. split; [by apply by_id_keys|reflexivity].
Qed.
Lemma placed n : n ∈ values nodes previous -> exists before, (pid n, place localeCompare nodes links previous before n) ∈ result.
Proof.
  intros Hin. apply list_elem_of_fmap in Hin as ([k n0] & -> & Hin). pose proof (by_id_keys _ _ Hin) as ->. apply list_elem_of_lookup in Hin as [i Hi].
  eexists. apply list_elem_of_lookup. exists i. cbn [ly_nodes layout]. rewrite list_lookup_imap, Hi. reflexivity.
Qed.
Lemma in_requests n : n ∈ requests localeCompare nodes previous <-> n ∈ values nodes previous /\ is_type "Request" n = true.
Proof. unfold requests. rewrite elem_of_jsort, !list_elem_of_In, List.filter_In. done. Qed.

(** Every request has a row of its own number, and what belongs to it - save the attempts,
    fanned out below it - is drawn on that row; a node new to the screen enters forty
    units left of its place. *)
Lemma layout_rows k n : (k, n) ∈ result ->
  (is_type "Request" n = true -> exists i, i < length (requests localeCompare nodes previous) /\ ps_ty n = row_y localeCompare nodes previous i)%nat /\
  (forall owner y, is_flow n = true -> is_type "ProviderAttempt" n = false -> owner_row localeCompare nodes links previous n = Some (owner, y) ->
     ps_hub n = false -> ps_ty n = y /\ exists r, (owner, r) ∈ result /\ is_type "Request" r = true /\ ps_ty r = y) /\
  (map_get previous k = None -> ps_x n = Some (js_sub (ps_tx n) 40) /\ ps_y n = Some (ps_ty n)).
Proof.
  intros (before & n0 & Hv & -> & ->)%in_result. split_and!.
  - intros Hr. change (is_type "Request" n0 = true) in Hr. cbn [place ps_ty]. rewrite Hr.
    assert (Hin : n0 ∈ requests localeCompare nodes previous) by (by apply in_requests).
    unfold rowOf. destruct (list_find _ _) as [[i r]|] eqn:Hf.
    + apply list_find_Some in Hf as (Hl & _ & _). exists i. split; [by eapply lookup_lt_Some|done].
    + apply list_find_None in Hf. rewrite Forall_forall in Hf. by destruct (Hf n0).
  - intros owner y Hfl Ha Ho Hh. change (is_flow n0 = true) in Hfl. change (is_type "ProviderAttempt" n0 = false) in Ha. change (ps_hub n0 = false) in Hh.
    change (owner_row localeCompare nodes links previous n0 = Some (owner, y)) in Ho.
    assert (Hr : is_type "Request" n0 = false).
    { unfold is_flow in Hfl. apply bool_decide_eq_true in Hfl. unfold is_type. destruct (String.eqb_spec (gn_type (ps_node n0)) "Request") as [He|]; [|done].
      rewrite He in Hfl. repeat (apply elem_of_cons in Hfl as [Hfl|Hfl]; [discriminate|]). by apply not_elem_of_nil in Hfl. }
    split.
    + cbn [place ps_ty]. rewrite Hr, Hh. unfold flow_y. by rewrite Ho, Ha.
    + unfold owner_row in Ho. apply bind_Some in Ho as (o & _ & Ho). destruct (str_empty o); [done|].
      destruct (rowOf localeCompare nodes previous o) as [y'|] eqn:Hy; [|done]. injection Ho as <- <-.
      unfold rowOf in Hy. destruct (list_find _ _) as [[i r]|] eqn:Hf; [|done]. pose proof Hf as Hf'. apply list_find_Some in Hf as (Hl & Hp & _).
      apply list_elem_of_lookup_2 in Hl. apply in_requests in Hl as [Hv' Ht]. destruct (placed r Hv') as [b Hb]. rewrite Hp in Hb.
      eexists. split; [exact Hb|]. split; [exact Ht|]. cbn [place ps_ty]. rewrite Ht. unfold rowOf. rewrite Hp, Hf'. exact (f_equal (default 0%Q) Hy).
  - intros Hn. assert (Hx : ps_x n0 = None).
    { unfold values, by_id in Hv. assert (Hg : forall l m, (forall kv, kv ∈ m -> pid kv.2 = pid n0 -> ps_x kv.2 = None) ->
        forall kv, kv ∈ foldl (fun m n => map_set m (gn_id n) (position previous n)) m l -> pid kv.2 = pid n0 -> ps_x kv.2 = None).
      { induction l as [|x l IH]; intros m Hm kv Hkv Hi; simpl in Hkv; [by apply Hm|]. eapply IH; [|exact Hkv|exact Hi].
        intros kv' Hin Hi'. clear -Hm Hin Hi' Hn. induction m as [|[k v] m IH]; simpl in Hin.
        - apply list_elem_of_singleton in Hin as ->. change (gn_id x = pid n0) in Hi'. change ((map_get previous (gn_id x) ≫= ps_x) = None). by rewrite Hi', Hn.
        - destruct (decide (gn_id x = k)) as [He|He]; apply elem_of_cons in Hin as [->|Hin].
          + change (gn_id x = pid n0) in Hi'. change ((map_get previous (gn_id x) ≫= ps_x) = None). by rewrite Hi', Hn.
          + apply Hm; [by right|done].
          + apply (Hm (k, v)); [by left|done].
          + apply IH; [|done]. intros kv Hkv. apply Hm. by right. }
      apply list_elem_of_fmap in Hv as (kv & -> & Hin). eapply (Hg nodes []); [|exact Hin|reflexivity]. intros kv' Hkv'. by apply not_elem_of_nil in Hkv'. }
    cbn [place ps_x ps_y ps_tx ps_ty]. by rewrite Hx.
Qed.
End rows.

(** ** Rows do move

    With one request the row is at 140; when a second arrives it is drawn at 111. *)
Definition ex_request (id : string) (created : Z) : GNode := {|
  gn_id := id; gn_type := "Request"; gn_label := ""; gn_status := None; gn_meta := []; gn_created := created; gn_updated := created |}.
Example rows_shift :
  let row nodes := (fun n => Qred (ps_ty n)) <$> map_get (ly_nodes (layout js_compare nodes [] [])) "req:a" in
  row [ex_request "req:a" 1] = Some 140%Q /\ row [ex_request "req:a" 1; ex_request "req:b" 2] = Some 111%Q.
Proof. vm_compute. repeat split. Qed.
