(* ===== verification/Reads.v ===== *)
(** * What the coordinator shows (services/coordinator/src/index.ts, the GET endpoints)

    The catalog of models, the last insights bulletin, the credentials, the pages of
    one request - its record, its proof, its receipt -, the list of requests and the
    statistics, each read off the tables. *)

From S2P Require Import Prelude JsNum Utf8 Json Unicode Types Crypto Authorize Pricing Providers Insights Gates GateRequest Dispatch JsMap Logs Routing Events Coordinator Trust Onboarding Schema.
From Stdlib Require Import QArith Qround Qabs Qpower Lqa.
Local Open Scope Z_scope.

(** A column as the driver returns it: what was never set is NULL. *)
Definition sql (v : jsval) : jsval := match v with VUndef => VNull | v => v end.
Definition select (columns : list string) (r : row) : jsval := VObj ((fun c => (c, sql (col r c))) <$> columns).
Definition unknown_request : Reply := refusal 404 (VStr "CTN_INTERNAL") (VStr "unknown request").
Definition ok_reply (body : jsval) : Reply := {| rp_code := 200; rp_body := body |}.

(** A field of the body, by its path. *)
Fixpoint at_path (path : list string) (v : jsval) : jsval := match path with [] => v | k :: path => at_path path (js_get_opt v k) end.
Definition shown (r : Reply) (path : list string) : jsval := at_path path (rp_body r).

(** ** Models *)
Definition MODEL_META (id : string) : option (string * string) :=
  if String.eqb id "ctn/demo-model-a" then Some ("Demo Model A", "standard")
  else if String.eqb id "ctn/demo-model-b" then Some ("Demo Model B", "frontier")
  else if String.eqb id "ctn/demo-model-fast" then Some ("Demo Model Fast", "fast")
  else if String.eqb id "claude-haiku-4-5-20251001" then Some ("Claude Haiku 4.5", "fast")
  else if String.eqb id "claude-sonnet-4-5-20250929" then Some ("Claude Sonnet 4.5", "frontier")
  else if String.eqb id "gpt-4o-mini-2024-07-18" then Some ("GPT-4o mini", "fast")
  else if String.eqb id "gpt-4o-2024-08-06" then Some ("GPT-4o", "frontier")
  else None.
(** [capability.allowedModels] of a stored capability, which the enclave has checked to
    be an array of strings; [None] is the exception of a text that is no such thing. *)
Definition offered_models (r : CredentialRow) : option (list string) :=
  match JSON_parse (cw_capability_json r) ≫= fun c => js_get c "allowedModels" with
  | Some (VArr l) => mapM as_str l
  | _ => None
  end.
(** The keys and counts of [available], as the list of all offers. *)
Definition offers (rows : list CredentialRow) : option (list string) :=
  mjoin <$> mapM offered_models (List.filter (fun r => String.eqb (cw_status r) "ACTIVE") rows).
Definition available (l : list string) (id : string) : nat := length (List.filter (String.eqb id) l).
Record ModelEntry : Type := { me_id : string; me_label : string; me_tier : string; me_providers_available : nat }.
(** [catalog]: the models of the enclave's providers; [None] when the call failed. *)
Definition get_models (rows : list CredentialRow) (catalog : option (list (list string))) : option (list ModelEntry) :=
  l ← offers rows;
  let ids := match catalog with Some providers => mjoin providers | None => jsort js_compare (remove_dups l) end in
  Some ((fun id => {| me_id := id; me_label := default id (fst <$> MODEL_META id); me_tier := default "standard" (snd <$> MODEL_META id);
                      me_providers_available := available l id |}) <$> ids).

(** ** Relays *)
(** [lastInsightsBulletin] is the state. *)
Definition get_insights (last answer : option jsval) : option jsval * Reply :=
  match answer with
  | Some bulletin => (Some bulletin, ok_reply bulletin)
  | None => (last, match last with Some bulletin => ok_reply bulletin | None => unavailable end)
  end.
Definition relay (answer : option jsval) : Reply := match answer with Some body => ok_reply body | None => unavailable end.
Definition get_build_manifest (CTN_ENV policyId : string) (answer : option object) : Reply :=
  relay ((fun manifest => VObj (spread manifest [("env", VStr CTN_ENV); ("coordinatorPolicyId", VStr policyId)])) <$> answer).
(** [ciphertext]: [envelope?.ciphertext] of the body. *)
Definition policy_test (ciphertext : jsval) (answer : res CallError jsval) : Reply :=
  if negb (truthy ciphertext) then refusal 400 (VStr "CTN_INVALID_ENVELOPE") (VStr "envelope is required")
  else match answer with
       | Ok body => ok_reply body
       | Err (EnclaveRejection code message _) => refusal 400 code message
       | Err EnclaveUnavailable => unavailable
       end.

(** ** Credentials *)
(** Columns no other operation reads, and SQL's sum of reals. *)
Section credentials.
Context (iso : Z -> string) (credential_created_at : string -> jsval) (sum : list Q -> Q).

(** [Math.round(x * 1e6) / 1e6] *)
Definition micro (x : Q) : Q := js_div (inject_Z (js_round (js_mul x (inject_Z 1000000)))) (inject_Z 1000000).
Definition vq (q : Q) : jsval := VNum (Fin q).
Definition usage_of (id : string) (usage : list UsageRow) : list UsageRow := List.filter (fun u => String.eqb (us_credential_id u) id) usage.
Definition tokens (usage : list UsageRow) : Z := foldr (fun u n => us_input_tokens u + us_output_tokens u + n) 0 usage.
Definition cost (usage : list UsageRow) : Q := match usage with [] => 0%Q | _ => sum (us_estimated_cost_usd <$> usage) end.
Definition credential_val (usage : list UsageRow) (r : CredentialRow) : option jsval :=
  capability ← JSON_parse (cw_capability_json r);
  let u := usage_of (cw_id r) usage in
  Some (VObj [("id", VStr (cw_id r)); ("contributorId", VStr (cw_contributor_id r)); ("label", VStr (cw_label r));
    ("provider", VStr (cw_provider r)); ("status", VStr (cw_status r)); ("weight", vint (cw_weight r)); ("rawCredential", VStr "HIDDEN");
    ("keyFingerprint", VStr (cw_key_fingerprint r)); ("capability", capability); ("capabilitySignature", VStr (cw_capability_signature r));
    ("createdAt", credential_created_at (cw_id r)); ("lastUsedAt", or_null (fun t => VStr (iso t)) (cw_last_used_at r));
    ("cooldownUntil", or_null (fun t => VStr (iso t)) (cw_cooldown_until r)); ("failureCount", vint (cw_failure_count r));
    ("operationalLimits", VObj [("dailyUsd", or_null vq (cw_daily_usd_limit r)); ("dailyRequests", or_null vint (cw_daily_request_limit r));
       ("enforcement", VStr "operationally enforced")]);
    ("today", VObj [("requests", vint (cw_requests_today r)); ("estimatedCostUsd", vq (micro (cw_cost_today r)))]);
    ("total", VObj [("requests", vint (Z.of_nat (length u))); ("tokens", vint (tokens u)); ("estimatedCostUsd", vq (micro (cost u)))])]).
(** [ORDER BY created_at] is the order of the table, whose rows are appended.  [None]:
    a capability that does not parse, answered by the error handler. *)
Definition get_credentials (contributorId : option string) (l : Ledger) : option Reply :=
  let rows := match contributorId with
              | Some id => if str_empty id then lg_credentials l else List.filter (fun r => String.eqb (cw_contributor_id r) id) (lg_credentials l)
              | None => lg_credentials l
              end in
  data ← mapM (credential_val (lg_usage l)) rows;
  Some (ok_reply (VObj [("data", VArr data)])).
End credentials.

(** ** The pages of a request *)
Section pages.
(** [contributors.display_name], and the answers of the enclave's [/verify]. *)
Context (display_name : string -> jsval) (verify : object -> option jsval).

Definition proof_row (requestId : string) (d : Db) : option row := find_where "request_id" requestId (db_proofs d).
Definition stored (r : row) (k : string) : option jsval := if truthy (col r k) then Some (col r k) else None.
Definition verified_flag (r : row) : jsval := VBool (match col r "verified" with VNum n => num_is n 1 | _ => false end).

(** [None]: an exception, answered by the error handler. *)
Definition get_proof (requestId : string) (d : Db) : option Reply :=
  match find_where "id" requestId (db_requests d), proof_row requestId d with
  | None, _ => Some unknown_request
  | _, None => Some (ok_reply (VObj [("request_id", VStr requestId); ("proof_status", VStr "NOT_REQUIRED")]))
  | Some req, Some p =>
      let artifact := stored p "receipt_blob" in
      let verification := match artifact with
                          | Some a => match verify [("artifact", a)] with Some r => js_get_opt r "proof" | None => VNull end
                          | None => VNull
                          end in
      let journal := match artifact with Some a => js_get_opt a "decodedJournal" | None => VUndef end in
      decision ← match sql (col req "policy_result"), artifact with
                 | VNull, Some _ => js_get journal "decision"
                 | VNull, None => Some VUndef
                 | v, _ => Some v
                 end;
      Some (ok_reply (VObj [("request_id", VStr requestId); ("request_commitment", sql (col req "request_commitment"));
        ("policy_id", sql (col req "policy_id")); ("decision", nullish decision VNull); ("proof_system", sql (col p "proof_system"));
        ("guest_image_id", sql (col p "guest_image_id")); ("proof_status", sql (col p "status")); ("proof_verified", verified_flag p);
        ("proof_ms", sql (col p "proof_ms")); ("error", sql (col p "error")); ("artifact_digest", sql (col p "receipt_digest"));
        ("decoded_journal", nullish journal VNull); ("artifact", default VNull artifact);
        ("binding", default VNull (stored p "binding_json")); ("verification", verification)]))
  end.

Definition get_receipt (requestId : string) (d : Db) : Reply :=
  match find_where "id" requestId (db_requests d) with
  | None => unknown_request
  | Some req =>
      let receiptRow := find_where "request_id" requestId (db_receipts d) in
      let signedReceipt := (fun r => VObj [("receipt", col r "receipt_json"); ("enclaveSignature", col r "signature")]) <$> receiptRow in
      let field k := default VUndef (proof_row requestId d ≫= fun p => stored p k) in
      let artifact := field "receipt_blob" in
      let binding := field "binding_json" in
      ok_reply (VObj [("request_id", VStr requestId); ("receipt_id", match receiptRow with Some r => sql (col r "id") | None => VNull end);
        ("proof_status", sql (col req "proof_status")); ("trust_status", sql (col req "trust_status"));
        ("signed_receipt", default VNull signedReceipt); ("proof_artifact", artifact); ("proof_binding", binding);
        ("verification", match signedReceipt with
                         | Some receipt => default VNull (verify [("receipt", receipt); ("artifact", artifact); ("binding", binding)])
                         | None => VNull
                         end)])
  end.

Definition contributor_val (credentialId : jsval) (l : Ledger) : jsval :=
  match credentialId with
  | VStr id =>
      if str_empty id then VNull
      else match find_row id (lg_credentials l) with
           | Some r => if bool_decide (cw_contributor_id r ∈ lg_contributors l)
                       then VObj [("id", VStr (cw_contributor_id r)); ("displayName", display_name (cw_contributor_id r))] else VNull
           | None => VNull
           end
  | _ => VNull
  end.
Definition attempt_order (a b : row) : comparison :=
  match col a "attempt_number", col b "attempt_number" with VNum (Fin x), VNum (Fin y) => (x ?= y)%Q | _, _ => Eq end.
Definition attempts_of (requestId : string) (d : Db) : list row :=
  jsort attempt_order (List.filter (fun r => str_is (col r "request_id") requestId) (db_attempts d)).
Definition record_val (req : row) (contributor : jsval) : jsval := VObj [
  ("id", sql (col req "id")); ("commitment", sql (col req "request_commitment")); ("prompt", VStr "PRIVATE"); ("response", VStr "PRIVATE");
  ("status", sql (col req "status")); ("privacyMode", sql (col req "privacy_mode")); ("trustStatus", sql (col req "trust_status"));
  ("proofStatus", sql (col req "proof_status")); ("policyId", sql (col req "policy_id")); ("policyResult", sql (col req "policy_result"));
  ("provider", sql (col req "provider")); ("model", sql (col req "model")); ("credentialId", sql (col req "selected_credential_id"));
  ("contributor", contributor);
  ("usage", VObj [("inputTokens", sql (col req "input_tokens")); ("outputTokens", sql (col req "output_tokens"))]);
  ("timings", VObj [("policyMs", sql (col req "policy_ms")); ("proofMs", sql (col req "proof_ms")); ("providerMs", sql (col req "provider_ms"));
                    ("totalMs", sql (col req "total_ms"))]);
  ("errorCode", sql (col req "error_code")); ("createdAt", sql (col req "created_at")); ("completedAt", sql (col req "completed_at"))].
Definition proof_val (p : row) : option jsval :=
  digest ← match stored p "binding_json" with
           | Some b => js_get b "binding" ≫= fun x => js_get x "decisionReceiptDigest"
           | None => Some VNull
           end;
  Some (VObj [("status", sql (col p "status")); ("verified", verified_flag p); ("proofSystem", sql (col p "proof_system"));
    ("guestImageId", sql (col p "guest_image_id")); ("proofMs", sql (col p "proof_ms")); ("artifactDigest", sql (col p "receipt_digest"));
    ("decisionReceiptDigest", digest); ("error", sql (col p "error"))]).
Definition ATTEMPT_COLUMNS : list string :=
  ["id"; "request_id"; "credential_id"; "contributor_id"; "attempt_number"; "status"; "http_status"; "classification"; "latency_ms"; "created_at";
   "upstream_outcome_unknown"; "assumed_spend_micro_usd"].
Definition get_request (requestId : string) (d : Db) : option Reply :=
  match find_where "id" requestId (db_requests d) with
  | None => Some unknown_request
  | Some req =>
      proof ← match proof_row requestId d with Some p => proof_val p | None => Some VNull end;
      Some (ok_reply (VObj [("request", record_val req (contributor_val (col req "selected_credential_id") (db_ledger d)));
        ("attempts", VArr (select ATTEMPT_COLUMNS <$> attempts_of requestId d)); ("proof", proof);
        ("policyDecisionReceipt", match find_where "request_id" requestId (db_decisions d) with
           | Some r => VObj [("receipt", col r "receipt_json"); ("enclaveSignature", col r "signature")]
           | None => VNull
           end)]))
  end.
End pages.

(** ** The list of requests

    [limit]: [Number(query.limit ?? 50)].  SQLite refuses a limit that is no integer,
    and takes a negative one for no limit. *)
Definition REQUEST_COLUMNS : list string :=
  ["id"; "request_commitment"; "status"; "privacy_mode"; "trust_status"; "proof_status"; "model"; "provider"; "selected_credential_id";
   "policy_result"; "policy_ms"; "proof_ms"; "provider_ms"; "total_ms"; "input_tokens"; "output_tokens"; "error_code"; "created_at"].
Definition by_created (a b : row) : comparison :=
  match col b "created_at", col a "created_at" with VStr x, VStr y => String.compare x y | _, _ => Eq end.
Definition request_limit (limit : jsnum) : option (option nat) :=
  match limit with
  | Fin q =>
      match q_int (if Qle_bool q (inject_Z 200) then q else inject_Z 200) with
      | Some n => if n <? - 2 ^ 63 then None else Some (if n <? 0 then None else Some (Z.to_nat n))
      | None => None
      end
  | Inf false => Some (Some 200%nat)
  | _ => None
  end.
Definition get_requests (limit : jsnum) (d : Db) : option Reply :=
  n ← request_limit limit;
  let rows := jsort by_created (db_requests d) in
  Some (ok_reply (VObj [("data", VArr (select REQUEST_COLUMNS <$> match n with Some n => take n rows | None => rows end))])).

(** ** Statistics *)
Definition q_compare (a b : Q) : comparison := (a ?= b)%Q.
Definition percentile (values : list Q) (p : Q) : option Q :=
  match values with
  | [] => None
  | _ =>
      let sorted := jsort q_compare values in
      let len := Z.of_nat (length sorted) in
      let idx := Z.min (len - 1) (js_floor (js_mul (js_div p (inject_Z 100)) (inject_Z len))) in
      sorted !! Z.to_nat idx
  end.
Definition number (v : jsval) : option Q := match v with VNum (Fin q) => Some q | _ => None end.
Definition positive (v : jsval) : option Q := q ← number v; if Qle_bool q 0 then None else Some q.

Record Percentiles : Type := { pc_p50 : option Q; pc_p95 : option Q }.
Definition percentiles (values : list Q) : Percentiles := {| pc_p50 := percentile values 50; pc_p95 := percentile values 95 |}.
Record ContributorStats : Type := { ct_id : string; ct_requests : nat; ct_tokens : Z; ct_cost : Q }.
Record Stats : Type := {
  sa_requests : nat; sa_complete : nat; sa_denied : nat; sa_failed : nat; sa_proofsVerified : nat; sa_proofsFailed : nat;
  sa_contributors : nat; sa_credentials : nat;
  sa_policy : Percentiles; sa_proof : Percentiles; sa_provider : Percentiles; sa_overall : Percentiles;
  sa_added : Percentiles; sa_serialized_p50 : option Q; sa_samples : nat;
  sa_by_contributor : list ContributorStats; sa_cost : Q; sa_tokens : Z;
}.
Definition settled_rows (d : Db) : list row :=
  List.filter (fun r => str_is (col r "status") "COMPLETE" || str_is (col r "status") "DENIED" || str_is (col r "status") "FAILED") (db_requests d).
Definition count_rows (k v : string) (rows : list row) : nat := length (List.filter (fun r => str_is (col r k) v) rows).
Definition measured (k : string) (rows : list row) : list Q := omap (fun r => positive (col r k)) rows.
(** [f] of two numeric columns. *)
Definition paired (f : Q -> Q -> Q) (k1 k2 : string) (r : row) : option Q := x ← number (col r k1); y ← number (col r k2); Some (f x y).
Definition added (rows : list row) : list Q :=
  omap (paired (fun t p => js_add t (- p)) "total_ms" "provider_ms") (List.filter (fun r => str_is (col r "status") "COMPLETE") rows).
Definition contributor_stats (sum : list Q -> Q) (l : Ledger) (id : string) : ContributorStats :=
  let u := List.filter (fun u => String.eqb (us_contributor_id u) id) (lg_usage l) in
  {| ct_id := id; ct_requests := length u; ct_tokens := tokens u; ct_cost := cost sum u |}.
Definition get_stats (sum : list Q -> Q) (d : Db) : Stats :=
  let rows := settled_rows d in
  let l := db_ledger d in
  {| sa_requests := length rows; sa_complete := count_rows "status" "COMPLETE" rows; sa_denied := count_rows "status" "DENIED" rows;
     sa_failed := count_rows "status" "FAILED" rows; sa_proofsVerified := count_rows "proof_status" "VERIFIED" rows;
     sa_proofsFailed := count_rows "proof_status" "FAILED" rows; sa_contributors := length (lg_contributors l);
     sa_credentials := length (List.filter (fun r => String.eqb (cw_status r) "ACTIVE") (lg_credentials l));
     sa_policy := percentiles (measured "policy_ms" rows);
     sa_proof := percentiles (measured "proof_ms" (List.filter (fun r => str_is (col r "proof_status") "VERIFIED") rows));
     sa_provider := percentiles (measured "provider_ms" rows); sa_overall := percentiles (measured "total_ms" rows);
     sa_added := percentiles (added rows); sa_serialized_p50 := percentile (omap (paired js_add "proof_ms" "provider_ms") rows) 50;
     sa_samples := length (added rows);
     sa_by_contributor := jsort (fun a b => Nat.compare (ct_requests b) (ct_requests a)) (contributor_stats sum l <$> lg_contributors l);
     sa_cost := cost sum (lg_usage l); sa_tokens := tokens (lg_usage l) |}.

(** ** Percentiles *)
Lemma cle_q a b : cle q_compare a b = true <-> (a <= b)%Q.
Proof. unfold cle, q_compare. rewrite Qle_alt. destruct (a ?= b)%Q; split; done. Qed.
Lemma q_sorted values : StronglySorted (fun a b => (a <= b)%Q) (jsort q_compare values).
Proof.
  assert (Hs : StronglySorted (fun x y => cle q_compare x y = true) (jsort q_compare values)).
  { apply jsort_sorted.
    - intros x y. rewrite !cle_q. destruct (Qlt_le_dec x y); [left|right]; [by apply Qlt_le_weak|done].
    - intros x y z. rewrite !cle_q. apply Qle_trans. }
  induction Hs as [|x l _ IH Hx]; constructor; [done|]. eapply Forall_impl; [exact Hx|]. intros y. apply cle_q.
Qed.
Definition below (v : Q) (x : Q) : bool := negb (Qle_bool v x).
Definition upto (v : Q) (x : Q) : bool := Qle_bool x v.
Lemma sorted_rank l i v : StronglySorted (fun a b => (a <= b)%Q) l -> l !! i = Some v ->
  (length (List.filter (below v) l) <= i < length (List.filter (upto v) l))%nat.
Proof.
  intros Hs. revert i. induction Hs as [|x l Hs IH Hx]; intros i Hi; [done|]. destruct i as [|i]; simpl in Hi.
  - injection Hi as ->. assert (Hb : below v v = false) by (unfold below; by rewrite (proj2 (Qle_bool_iff v v) (Qle_refl v))).
    assert (Hu : upto v v = true) by (apply Qle_bool_iff, Qle_refl). simpl. rewrite Hb, Hu. simpl. split; [|lia].
    assert (Hn : List.filter (below v) l = []); [|by rewrite Hn]. clear -Hx. induction Hx as [|y l Hy _ IH]; [done|]. simpl. unfold below at 1.
    by rewrite (proj2 (Qle_bool_iff v y) Hy).
  - specialize (IH i Hi). assert (Hv : (x <= v)%Q).
    { rewrite List.Forall_forall in Hx. apply Hx, list_elem_of_In. by eapply list_elem_of_lookup_2. }
    simpl. unfold upto at 1. rewrite (proj2 (Qle_bool_iff x v) Hv). simpl. destruct (below v x); simpl; lia.
Qed.
Lemma filter_perm {A} (f : A -> bool) l l' : l ≡ₚ l' -> length (List.filter f l) = length (List.filter f l').
Proof. induction 1; simpl; try (destruct (f x)); try (destruct (f y)); simpl; congruence. Qed.
Local Abbreviation p2 := (Qpower 2).
(** Halving an integer below [2^53] is exact. *)
Lemma rnd_half n : (0 < n <= MAX_SAFE)%Z -> (rnd ((1 # 2) * inject_Z n) == (1 # 2) * inject_Z n)%Q.
Proof.
  intros Hn. set (q := ((1 # 2) * inject_Z n)%Q). assert (H1 : (1 <= inject_Z n)%Q) by (change 1%Q with (inject_Z 1); rewrite <-Zle_Qle; lia).
  assert (Hq : (0 < q)%Q) by (unfold q; Lqa.lra).
  assert (Hmin : (p2 (-1021) <= q)%Q) by (eapply Qle_trans; [|apply (Qmult_le_l 1 (inject_Z n) (1 # 2)); [done|exact H1]]; done).
  assert (He : (q_exp q <= -1)%Z).
  { destruct (q_exp_spec q Hq Hmin) as [Hlo _]. set (e := q_exp q) in *. assert (H : (p2 (52 + e) < p2 52)%Q).
    { apply (Qle_lt_trans _ q).
      - apply (Qle_trans _ (q * p2 (- e) * p2 e)); [|rewrite q_back; apply Qle_refl]. rewrite p2_plus.
        apply Qmult_le_compat_r; [done|]. apply Qlt_le_weak, p2_pos.
      - assert (Hlt : (inject_Z n < inject_Z (2 ^ 53))%Q) by (rewrite <-Zlt_Qlt; unfold MAX_SAFE in Hn; lia).
        rewrite p2_inject by done. change (inject_Z (2 ^ 53)) with (2 * inject_Z (2 ^ 52))%Q in Hlt. unfold q. Lqa.lra. }
    apply Qpower_lt_compat_l_inv in H; [lia|done]. }
  rewrite rnd_eq. set (e := q_exp q) in *.
  assert (E : (q * p2 (- e) == inject_Z (n * 2 ^ (- e - 1)))%Q).
  { replace (- e)%Z with ((- e - 1) + 1)%Z at 1 by lia. rewrite p2_plus, inject_Z_mult, <-(p2_inject (- e - 1)) by lia. unfold q.
    change (p2 1) with 2%Q. ring. }
  rewrite (round_even_Proper _ _ E), round_even_int, <-E. apply q_back.
Qed.
Lemma js_half n : (0 <= n <= MAX_SAFE)%Z -> js_floor (js_mul (js_div 50 (inject_Z 100)) (inject_Z n)) = n / 2.
Proof.
  intros Hn. unfold js_floor, js_mul. change (js_div 50 (inject_Z 100)) with (1 # 2)%Q.
  destruct (Z.eq_dec n 0) as [->|Hz]; [done|]. rewrite rnd_half by lia. unfold Qfloor. cbn. by rewrite Z.mul_1_l.
Qed.

Lemma percentile_nil p : percentile [] p = None.
Proof. done. Qed.
(** The element at the rank the code computes, cut off at the last one. *)
Lemma percentile_rank values p : values <> [] ->
  let len := Z.of_nat (length values) in
  let i := Z.to_nat (Z.min (len - 1) (js_floor (js_mul (js_div p (inject_Z 100)) (inject_Z len)))) in
  exists v, percentile values p = Some v /\ v ∈ values /\
    (length (List.filter (below v) values) <= i < length (List.filter (upto v) values))%nat.
Proof.
  intros Hne len i. assert (Hi : (i < length (jsort q_compare values))%nat).
  { rewrite length_jsort. unfold i, len. assert (length values <> 0%nat) by (by destruct values). lia. }
  apply lookup_lt_is_Some_2 in Hi as [v Hv]. exists v. split; [|split].
  - unfold percentile. destruct values as [|x l]; [done|]. rewrite length_jsort. exact Hv.
  - apply (elem_of_jsort q_compare). by eapply list_elem_of_lookup_2.
  - pose proof (jsort_perm q_compare values) as Hp. rewrite <-(filter_perm (below v) _ _ Hp), <-(filter_perm (upto v) _ _ Hp).
    eapply sorted_rank; [apply q_sorted|exact Hv].
Qed.

(** [m] is a middle value of [l]; only an empty list has none. *)
Definition is_median (l : list Q) (m : option Q) : Prop :=
  match m with
  | None => l = []
  | Some v => v ∈ l /\ (length (List.filter (below v) l) <= length l / 2 < length (List.filter (upto v) l))%nat
  end.
Lemma median_spec l : Z.of_nat (length l) <= MAX_SAFE -> is_median l (percentile l 50).
Proof.
  intros Hl. destruct l as [|x l]; [done|]. destruct (percentile_rank (x :: l) 50) as (v & -> & Hv & Hr); [done|]. split; [done|].
  rewrite js_half in Hr by lia. revert Hr. generalize (length (List.filter (below v) (x :: l))) as a, (length (List.filter (upto v) (x :: l))) as b.
  intros a b. set (n := length (x :: l)) in *. assert (0 < n)%nat by (unfold n; simpl; lia).
  assert (Z.of_nat n / 2 < Z.of_nat n) by (apply Z.div_lt_upper_bound; lia).
  rewrite Z.min_r by lia. change 2 with (Z.of_nat 2). rewrite <-Nat2Z.inj_div, Nat2Z.id. done.
Qed.
Definition measured_by (l : list Q) (p : Percentiles) : Prop :=
  is_median l (pc_p50 p) /\ match pc_p95 p with None => l = [] | Some v => v ∈ l end.
Lemma percentiles_spec l : Z.of_nat (length l) <= MAX_SAFE -> measured_by l (percentiles l).
Proof.
  intros Hl. split; [by apply median_spec|]. cbn [percentiles pc_p95]. destruct l as [|x l]; [done|].
  destruct (percentile_rank (x :: l) 95) as (v & -> & Hv & _); done.
Qed.
Lemma settled_count d : let rows := settled_rows d in
  length rows = (count_rows "status" "COMPLETE" rows + count_rows "status" "DENIED" rows + count_rows "status" "FAILED" rows)%nat.
Proof.
  unfold settled_rows, count_rows. cbv zeta. induction (db_requests d) as [|r l IH]; [done|]. cbn [List.filter].
  assert (Hex : forall a b v, a <> b -> str_is v a = true -> str_is v b = false).
  { intros a b v Hab Ha%str_is_true. destruct (str_is v b) eqn:Hb; [|done]. apply str_is_true in Hb. congruence. }
  destruct (str_is (col r "status") "COMPLETE") eqn:H1; cbn [orb List.filter].
  - rewrite H1, (Hex "COMPLETE" "DENIED" _ ltac:(done) H1), (Hex "COMPLETE" "FAILED" _ ltac:(done) H1). simpl. lia.
  - destruct (str_is (col r "status") "DENIED") eqn:H2; cbn [orb List.filter].
    + rewrite H1, H2, (Hex "DENIED" "FAILED" _ ltac:(done) H2). simpl. lia.
    + destruct (str_is (col r "status") "FAILED") eqn:H3; cbn [orb List.filter]; [|exact IH]. rewrite H1, H2, H3. simpl. lia.
Qed.
Lemma length_omap_le {A B} (f : A -> option B) l : (length (omap f l) <= length l)%nat.
Proof. induction l as [|x l IH]; [done|]. simpl. change (list_omap A B f l) with (omap f l). destruct (f x); simpl; lia. Qed.
Lemma length_filter_le {A} (f : A -> bool) l : (length (List.filter f l) <= length l)%nat.
Proof. induction l as [|x l IH]; [done|]. simpl. destruct (f x); simpl; lia. Qed.
Lemma measured_positive k rows v : v ∈ measured k rows -> (0 < v)%Q /\ exists r, r ∈ rows /\ col r k = VNum (Fin v).
Proof.
  intros (r & Hr & Hp)%list_elem_of_omap. unfold positive, number in Hp. destruct (col r k) as [| | |[q| |]| | |] eqn:Hc; try done. simpl in Hp.
  destruct (Qle_bool q 0) eqn:Hq; [done|]. injection Hp as <-. split; [|by exists r]. by apply Qle_bool_false.
Qed.

Definition settled (r : row) : bool := existsb (str_is (col r "status")) ["COMPLETE"; "DENIED"; "FAILED"].
(** Counting in the table is counting among the settled rows. *)
Lemma filter_settled (p : row -> bool) d : (forall r, p r = true -> settled r = true) ->
  List.filter p (List.filter settled (db_requests d)) = List.filter p (db_requests d).
Proof.
  intros Hp. induction (db_requests d) as [|r l IH]; [done|]. cbn [List.filter]. destruct (settled r) eqn:Hs; cbn [List.filter].
  - by rewrite IH.
  - destruct (p r) eqn:Hpr; [|exact IH]. apply Hp in Hpr. congruence.
Qed.
Lemma settled_rows_filter d : settled_rows d = List.filter settled (db_requests d).
Proof. unfold settled_rows, settled. apply filter_ext. intros r. simpl. by rewrite orb_false_r, orb_assoc. Qed.

(** C38. The statistics describe what happened.  The completed, denied and failed
    counts are the numbers of requests with that status in the table, and the total is
    their sum; the proofs counted as verified and failed are the settled requests with
    that proof status.  Each latency is a median of the positive measurements of the
    settled requests - there is none exactly when nothing was measured -, and the
    proof latency is one of requests whose proof is VERIFIED: with none verified it
    is absent, whatever failed proofs took. *)
Theorem stats_spec sum d : Z.of_nat (length (db_requests d)) <= MAX_SAFE ->
  let s := get_stats sum d in
  let rows := List.filter settled (db_requests d) in
  let with_status status := length (List.filter (fun r => str_is (col r "status") status) (db_requests d)) in
  let with_proof status := List.filter (fun r => str_is (col r "proof_status") status) rows in
  let verified := with_proof "VERIFIED" in
  sa_complete s = with_status "COMPLETE" /\ sa_denied s = with_status "DENIED" /\ sa_failed s = with_status "FAILED" /\
  sa_requests s = (with_status "COMPLETE" + with_status "DENIED" + with_status "FAILED")%nat /\
  sa_proofsVerified s = length verified /\ sa_proofsFailed s = length (with_proof "FAILED") /\
  measured_by (measured "policy_ms" rows) (sa_policy s) /\ measured_by (measured "provider_ms" rows) (sa_provider s) /\
  measured_by (measured "total_ms" rows) (sa_overall s) /\ measured_by (measured "proof_ms" verified) (sa_proof s) /\
  (forall v, pc_p50 (sa_proof s) = Some v -> (0 < v)%Q /\ exists r, r ∈ verified /\ col r "proof_ms" = VNum (Fin v)) /\
  (sa_proofsVerified s = 0%nat -> sa_proof s = {| pc_p50 := None; pc_p95 := None |}).
Proof.
  intros Hd s rows with_status with_proof verified.
  assert (Hst : forall t, t ∈ ["COMPLETE"; "DENIED"; "FAILED"] -> count_rows "status" t (settled_rows d) = with_status t).
  { intros t Ht. unfold count_rows, with_status. rewrite settled_rows_filter. f_equal. apply filter_settled. intros r Hr%str_is_true.
    apply existsb_exists. exists t. split; [by apply list_elem_of_In|]. rewrite Hr. by apply str_is_true. }
  assert (Hsr : settled_rows d = rows) by apply settled_rows_filter.
  assert (Hrows : (length rows <= length (db_requests d))%nat) by apply length_filter_le.
  assert (Hver : (length verified <= length rows)%nat) by apply length_filter_le.
  assert (Hm : forall k l, (length l <= length (db_requests d))%nat -> measured_by (measured k l) (percentiles (measured k l))).
  { intros k l Hl. apply percentiles_spec. assert (length (measured k l) <= length l)%nat by apply length_omap_le. lia. }
  assert (Hcount : sa_requests s = (with_status "COMPLETE" + with_status "DENIED" + with_status "FAILED")%nat).
  { rewrite <-!Hst by set_solver. apply settled_count. }
  unfold s, get_stats. rewrite Hsr in Hst |- *. cbn [sa_complete sa_denied sa_failed sa_proofsVerified sa_proofsFailed sa_policy sa_proof sa_provider sa_overall].
  split_and!; [apply Hst; set_solver|apply Hst; set_solver|apply Hst; set_solver|by rewrite <-Hcount, <-Hsr|done|done|apply Hm; lia|apply Hm; lia|apply Hm; lia
    |exact (Hm "proof_ms" verified ltac:(lia))| |].
  - intros v Hv. apply measured_positive. destruct (Hm "proof_ms" verified ltac:(lia)) as [Hmed _].
    change (pc_p50 (percentiles (measured "proof_ms" verified)) = Some v) in Hv. rewrite Hv in Hmed. apply Hmed.
  - intros H0. change (length verified = 0%nat) in H0. apply nil_length_inv in H0.
    change (percentiles (measured "proof_ms" verified) = {| pc_p50 := None; pc_p95 := None |}). by rewrite H0.
Qed.

(** ** Models and routing *)
Lemma offers_count rows l model : mapM offered_models rows = Some l ->
  (length (List.filter (fun r => match offered_models r with Some ms => bool_decide (model ∈ ms) | None => false end) rows) <= available (mjoin l) model)%nat.
Proof.
  revert l. induction rows as [|r rows IH]; intros l; simpl; [lia|]. destruct (offered_models r) as [ms|]; [|done]. simpl.
  destruct (mapM offered_models rows) as [ls|]; [|done]. intros [= <-]. specialize (IH ls eq_refl). unfold available in *. simpl.
  rewrite List.filter_app, List.length_app. case_bool_decide as Hin; simpl; [|lia].
  assert (length (List.filter (String.eqb model) ms) <> 0%nat); [|lia]. intros H0%nil_length_inv.
  assert (Hf : model ∈ List.filter (String.eqb model) ms) by (apply list_elem_of_In, filter_In; split; [by apply list_elem_of_In|apply String.eqb_refl]).
  rewrite H0 in Hf. by apply not_elem_of_nil in Hf.
Qed.
Lemma exclusion_roll model policyId now r : exclusion model policyId now (rollUsageDay now r) = Ok None ->
  String.eqb (cw_status r) "ACTIVE" = true /\ forall ms, offered_models r = Some ms -> model ∈ ms.
Proof.
  assert (Hroll : cw_status (rollUsageDay now r) = cw_status r /\ cw_capability_json (rollUsageDay now r) = cw_capability_json r).
  { unfold rollUsageDay. by case_bool_decide. }
  destruct Hroll as [Hs Hc]. unfold exclusion, offered_models. rewrite Hs, Hc. destruct (String.eqb _ _); [|done]. cbn [negb]. intros He. split; [done|].
  intros ms Hm. destruct (match cw_cooldown_until _ with Some t => _ | None => _ end); [done|]. destruct (JSON_parse _) as [c|]; [|done].
  cbn [mbind option_bind] in Hm. destruct (js_get c "allowedModels") as [v|]; [|done]. cbn [mbind option_bind] in He, Hm. destruct v as [| | | | |l|]; try done.
  destruct (js_includes (VArr l) model) as [[]|] eqn:Hi; try done. injection Hi as Hi. apply existsb_exists in Hi as (x & Hx & ->%str_is_true).
  apply list_elem_of_In in Hx. clear -Hx Hm. revert ms Hm. induction l as [|y l IH]; intros ms Hm; [by apply not_elem_of_nil in Hx|].
  simpl in Hm. destruct (as_str y) as [t|] eqn:Hy; [|done]. simpl in Hm. change (list_mapM option_ret option_bind jsval string as_str l) with (mapM as_str l) in Hm || idtac.
  destruct (mapM as_str l) as [ts|] eqn:Ht; [|done]. injection Hm as <-. apply elem_of_cons in Hx as [<-|Hx]; [|right; by apply IH].
  injection Hy as <-. left.
Qed.
Lemma filter_roll_le (P Q Act : CredentialRow -> bool) (f : CredentialRow -> CredentialRow) l : (forall r, r ∈ l -> P (f r) = true -> Act r = true /\ Q r = true) ->
  (length (List.filter P (f <$> l)) <= length (List.filter Q (List.filter Act l)))%nat.
Proof.
  intros H. induction l as [|r l IH]; [done|]. cbn. change (list_fmap _ _ f l) with (f <$> l). destruct (P (f r)) eqn:Hp.
  - destruct (H r (list_elem_of_here _ _) Hp) as [-> Hq]. cbn. rewrite Hq. cbn. apply le_n_S, IH. intros x Hx. apply H. by right.
  - assert (Hle : (length (List.filter P (f <$> l)) <= length (List.filter Q (List.filter Act l)))%nat) by (apply IH; intros x Hx; apply H; by right).
    destruct (Act r); cbn; [destruct (Q r); cbn; lia|exact Hle].
Qed.
Lemma mapM_elem {A B} (f : A -> option B) l ys x : mapM f l = Some ys -> x ∈ l -> is_Some (f x).
Proof.
  intros Hm Hx. apply mapM_Some_1 in Hm. apply list_elem_of_lookup in Hx as [i Hi]. eapply Forall2_lookup_l in Hm as (y & _ & Hy); [|exact Hi]. by exists y.
Qed.

(** The picker does not promise what routing cannot keep.  Whatever the catalog says,
    a listed model shows at least as many providers as discovery finds candidates for
    it, at every instant and under every policy: a request for a model shown with
    none finds no capacity. *)
Lemma models_cover_routing localeCompare catalog l data e policyId now :
  NoDup (cw_id <$> lg_credentials l) -> Forall (fun r => readable r = true) (lg_credentials l) ->
  get_models (lg_credentials l) catalog = Some data -> e ∈ data ->
  exists res, (discoverCandidates localeCompare (me_id e) policyId now l).2 = Ok res /\
    (length (dc_candidates res) <= me_providers_available e)%nat.
Proof.
  intros Hnd Hrd Hm He. pose proof (discover_run localeCompare (me_id e) policyId now l Hnd Hrd) as Hdisc. cbv zeta in Hdisc. rewrite Hdisc. eexists. split; [done|].
  cbn [dc_candidates]. rewrite length_fmap. unfold get_models, offers in Hm. set (act := List.filter (fun r => String.eqb (cw_status r) "ACTIVE") (lg_credentials l)) in *.
  destruct (mapM offered_models act) as [ls|] eqn:Hoff; [|done]. cbn in Hm. injection Hm as <-.
  apply list_elem_of_fmap in He as (id & -> & _). cbn [me_id me_providers_available].
  eapply Nat.le_trans; [apply length_filter_le|]. rewrite length_jsort. eapply Nat.le_trans; [|apply (offers_count _ _ id Hoff)].
  apply filter_roll_le. intros r Hr Hx%bool_decide_eq_true. apply exclusion_roll in Hx as [Ha Hms]. split; [done|].
  assert (Hin : r ∈ act) by (by apply list_elem_of_In, filter_In; split; [apply list_elem_of_In|]).
  destruct (mapM_elem _ _ _ _ Hoff Hin) as [ms Hms']. rewrite Hms'. by apply bool_decide_eq_true, Hms.
Qed.

(** ** The secret stays out *)
(** Nothing on the credentials page depends on the sealed blobs. *)
Definition with_blob (b : string) (r : CredentialRow) : CredentialRow := {|
  cw_id := cw_id r; cw_contributor_id := cw_contributor_id r; cw_provider := cw_provider r; cw_label := cw_label r; cw_encrypted_blob := b;
  cw_capability_json := cw_capability_json r; cw_capability_signature := cw_capability_signature r; cw_key_fingerprint := cw_key_fingerprint r;
  cw_status := cw_status r; cw_weight := cw_weight r; cw_last_used_at := cw_last_used_at r; cw_requests_today := cw_requests_today r;
  cw_cost_today := cw_cost_today r; cw_usage_day := cw_usage_day r; cw_failure_count := cw_failure_count r; cw_cooldown_until := cw_cooldown_until r;
  cw_daily_usd_limit := cw_daily_usd_limit r; cw_daily_request_limit := cw_daily_request_limit r |}.
Lemma credentials_hide_blobs iso created sum contributorId l blob :
  get_credentials iso created sum contributorId (with_credentials ((fun r => with_blob (blob (cw_id r)) r) <$> lg_credentials l) l) =
  get_credentials iso created sum contributorId l.
Proof.
  set (f := fun r => with_blob (blob (cw_id r)) r).
  assert (Hf : forall rows, mapM (credential_val iso created sum (lg_usage l)) (f <$> rows) = mapM (credential_val iso created sum (lg_usage l)) rows).
  { intros rows. induction rows as [|r rows IH]; [done|]. cbn. change (list_fmap _ _ f rows) with (f <$> rows). rewrite IH. done. }
  assert (Hg : forall p rows, (forall r, p (f r) = p r) -> List.filter p (f <$> rows) = f <$> List.filter p rows).
  { intros p rows Hp. induction rows as [|r rows IH]; [done|]. cbn. rewrite Hp. change (list_fmap _ _ f rows) with (f <$> rows). rewrite IH. by destruct (p r). }
  unfold get_credentials. cbn [with_credentials lg_credentials lg_usage]. fold f.
  destruct contributorId as [id|]; [destruct (str_empty id)|]; rewrite ?Hg by done; by rewrite Hf.
Qed.

(** The bulletin shown is the last one the enclave answered with. *)
Lemma insights_last_good last answers answer :
  rp_body (get_insights (foldl (fun s a => (get_insights s a).1) last answers) answer).2 =
  match List.find (fun a => bool_decide (is_Some a)) (answer :: rev answers) with
  | Some (Some bulletin) => bulletin
  | _ => match last with Some bulletin => bulletin | None => rp_body unavailable end
  end.
Proof.
  destruct answer as [b|]; [done|]. cbn [List.find]. rewrite bool_decide_eq_false_2 by (by intros [? [=]]).
  enough (H : foldl (fun s a => (get_insights s a).1) last answers =
    match List.find (fun a => bool_decide (is_Some a)) (rev answers) with Some (Some b) => Some b | _ => last end).
  { cbn [get_insights snd]. rewrite H. destruct (List.find _ _) as [[b|]|] eqn:Hf; [done| |by destruct last].
    apply List.find_some in Hf as [_ Hf]. by apply bool_decide_eq_true in Hf as [? [=]]. }
  induction answers as [|a answers IH] using rev_ind; [done|]. rewrite foldl_app, rev_unit. cbn. destruct a as [b|]; [done|].
  rewrite bool_decide_eq_false_2 by (by intros [? [=]]). exact IH.
Qed.

(** ** Examples *)
(** A negative limit is no limit: the cap of 200 does not hold. *)
Example negative_limit :
  request_limit (jnum 50) = Some (Some 50%nat) /\ request_limit (jnum 1000) = Some (Some 200%nat) /\ request_limit (jnum (-1)) = Some None.
Proof. vm_compute. done. Qed.
Example ex_percentiles : percentile ([5; 1; 3; 2])%Q 50 = Some 3%Q /\ percentile ([5; 1; 3; 2])%Q 95 = Some 5%Q /\ percentile ([7])%Q 95 = Some 7%Q.
Proof. vm_compute. done. Qed.

Definition ex_rows : list row :=
  let r id status proof ms := [("id", VStr id); ("status", VStr status); ("proof_status", VStr proof); ("proof_ms", vint ms); ("total_ms", vint 9)] in
  [r "req_1" "COMPLETE" "VERIFIED" 35000; r "req_2" "COMPLETE" "FAILED" 3; r "req_3" "DENIED" "FAILED" 2; r "req_4" "RECEIVED" "QUEUED" 0].
(** The failed proofs do not make the latency of a verified one look small. *)
Lemma stats_spec_witness :
  let s := get_stats (fun _ => 0%Q) (set_requests ex_rows db_empty) in
  sa_complete s = 2%nat /\ sa_denied s = 1%nat /\ sa_requests s = 3%nat /\ pc_p50 (sa_proof s) = Some (inject_Z 35000).
Proof.
  intros s. destruct (stats_spec (fun _ => 0%Q) (set_requests ex_rows db_empty)) as (Hc & Hd & _); [vm_compute; discriminate|].
  split; [exact Hc|]. split; [exact Hd|]. split; vm_compute; reflexivity.
Defined.

Lemma models_cover_routing_witness :
  let m := {| me_id := "m"; me_label := "m"; me_tier := "standard"; me_providers_available := 4 |} in
  get_models (lg_credentials ex_ledger) None = Some [m] /\
  exists res, (discoverCandidates js_compare "m" "p" 1000 ex_ledger).2 = Ok res /\ (length (dc_candidates res) <= 4)%nat.
Proof.
  intros m. assert (Hm : get_models (lg_credentials ex_ledger) None = Some [m]) by (vm_compute; reflexivity). split; [exact Hm|].
  refine (models_cover_routing js_compare None ex_ledger [m] m "p" 1000 _ _ Hm _).
  - vm_compute. repeat (constructor; [set_solver|]). constructor.
  - repeat constructor.
  - left.
Defined.
