(* ===== verification/Pages.v ===== *)
(** * The pages of a request agree (services/coordinator/src/index.ts)

    A request's proof is recorded twice - the [proof_status] of its own row and the
    row of [proofs] - by a handler and by a watcher that run interleaved with all
    the others.  The two never part: an abstraction of the tables, what each
    statement does to it, and what follows for the endpoints of Reads.v. *)

From S2P Require Import Prelude JsNum Utf8 Json Unicode Types Crypto Authorize Pricing Providers Insights Gates GateRequest Dispatch JsMap Logs Routing Events Coordinator Trust Onboarding Schema Reads.
Local Open Scope Z_scope.

(** ** The abstraction *)
Abbreviation vreq := (jsval * jsval)%type.                     (* id, proof_status *)
Abbreviation vproof := (jsval * jsval * jsval * jsval)%type.   (* id, request_id, status, verified *)
Abbreviation view := (list vreq * list vproof)%type.
Definition req_view (r : row) : vreq := (col r "id", col r "proof_status").
Definition proof_view (p : row) : vproof := (col p "id", col p "request_id", col p "status", col p "verified").
(** A row that claims a verified proof has one. *)
Definition honest (r : row) : Prop := col r "trust_status" = VStr "CONFIDENTIAL_VERIFIED" -> col r "proof_status" = VStr "VERIFIED".
Record shows (v : view) (d : Db) : Prop := {
  sh_requests : req_view <$> db_requests d = v.1;
  sh_proofs : proof_view <$> db_proofs d = v.2;
  sh_honest : Forall honest (db_requests d);
}.

Definition rid (p : vproof) : jsval := p.1.1.2.
Definition new_request (k : string) (v : view) : view := (v.1 ++ [(VStr k, VStr "NOT_REQUIRED")], v.2).
Definition set_status (k : string) (s : jsval) (l : list vreq) : list vreq := (fun x => if str_is x.1 k then (x.1, s) else x) <$> l.
Definition queue (k : string) (v : view) : view :=
  (set_status k (VStr "QUEUED") v.1, v.2 ++ [(VStr ("proof_" +:+ k), VStr k, VStr "QUEUED", vint 0)]).
Definition set_verified (k : string) (s : jsval) (verified : option jsval) (l : list vproof) : list vproof :=
  (fun p => if str_is (rid p) k then (p.1.1.1, rid p, s, default p.2 verified) else p) <$> l.
Definition set_proof (k : string) (s : jsval) (verified : option jsval) (v : view) : view := (set_status k s v.1, set_verified k s verified v.2).

(** ** The invariant

    [fresh]: the requests whose handler has not come to the proof yet; [watched]: those
    whose proof is being watched. *)
Definition proofs_of (k : string) (l : list vproof) : list vproof := List.filter (fun p => str_is (rid p) k) l.
Definition agrees (fresh watched : list string) (k : string) (s : jsval) (ps : list vproof) : Prop :=
  (ps = [] /\ s = VStr "NOT_REQUIRED" /\ k ∉ watched) \/
  (exists id verified, ps = [(id, VStr k, s, verified)] /\ (verified = vint 0 \/ verified = vint 1) /\
     (verified = vint 1 <-> s = VStr "VERIFIED") /\ s <> VStr "NOT_REQUIRED" /\ k ∉ fresh /\ (k ∈ watched -> s <> VStr "VERIFIED")).
Record pages (fresh watched : list string) (v : view) : Prop := {
  pg_rows x : x ∈ v.1 -> exists k, x.1 = VStr k /\ agrees fresh watched k x.2 (proofs_of k v.2);
  pg_refs p : p ∈ v.2 -> exists k, rid p = VStr k /\ p.1.1.1 = VStr ("proof_" +:+ k) /\ VStr k ∈ v.1.*1;
  pg_fresh : NoDup fresh;
  pg_watched : NoDup watched;
  pg_live k : k ∈ fresh \/ k ∈ watched -> VStr k ∈ v.1.*1;
}.

Lemma agrees_weaken fr fr' wa wa' k s ps : (forall x, x ∈ fr' -> x ∈ fr) -> (forall x, x ∈ wa' -> x ∈ wa) -> agrees fr wa k s ps -> agrees fr' wa' k s ps.
Proof. intros Hf Hw [(H1 & H2 & H3)|(id & b & H1 & H2 & H3 & H4 & H5 & H6)]; [left|right; exists id, b]; split_and!; auto. Qed.
Lemma pages_weaken fr fr' wa wa' v : (forall x, x ∈ fr' -> x ∈ fr) -> (forall x, x ∈ wa' -> x ∈ wa) -> NoDup fr' -> NoDup wa' -> pages fr wa v -> pages fr' wa' v.
Proof.
  intros Hf Hw Hnf Hnw [H1 H2 H3 H4 H5]. split; [|done..|].
  - intros x Hx. destruct (H1 x Hx) as (k & Hk & Ha). exists k. split; [done|]. by eapply agrees_weaken.
  - intros k [Hk|Hk]; apply H5; auto.
Qed.

Lemma proofs_of_app k l l' : proofs_of k (l ++ l') = proofs_of k l ++ proofs_of k l'.
Proof. apply List.filter_app. Qed.
Lemma proofs_of_set k k' s b l : proofs_of k (set_verified k' s b l) = set_verified k' s b (proofs_of k l).
Proof.
  unfold set_verified, proofs_of. induction l as [|p l IH]; [done|]. rewrite fmap_cons. cbn [List.filter].
  assert (He : rid (if str_is (rid p) k' then (p.1.1.1, rid p, s, default p.2 b) else p) = rid p) by (by destruct (str_is (rid p) k')).
  rewrite He, IH. by destruct (str_is (rid p) k).
Qed.
Lemma status_ids k s l : (set_status k s l).*1 = l.*1.
Proof. unfold set_status. rewrite <-list_fmap_compose. apply list_fmap_ext. intros i x _. cbn. by destruct (str_is x.1 k). Qed.
Lemma str_is_VStr k k' : str_is (VStr k) k' = bool_decide (k = k').
Proof. done. Qed.

(** A new request. *)
Lemma pages_new fr wa v k : VStr k ∉ v.1.*1 -> pages fr wa v -> pages (k :: fr) wa (new_request k v).
Proof.
  intros Hk [H1 H2 H3 H4 H5]. assert (Hkf : k ∉ fr) by (intros Hin; apply Hk, H5; by left). assert (Hkw : k ∉ wa) by (intros Hin; apply Hk, H5; by right).
  assert (Hnone : proofs_of k v.2 = []).
  { unfold proofs_of. destruct (List.filter _ _) as [|p ps] eqn:Hf; [done|]. assert (Hp : p ∈ p :: ps) by left. rewrite <-Hf in Hp.
    apply list_elem_of_In, filter_In in Hp as [Hp Hs]. apply list_elem_of_In, H2 in Hp as (k' & Hk' & _ & Hin). apply str_is_true in Hs. rewrite Hs in Hk'. by injection Hk' as <-. }
  split; cbn [new_request fst snd].
  - intros x [Hx| ->%list_elem_of_singleton]%elem_of_app.
    + destruct (H1 x Hx) as (k' & Hk' & Ha). exists k'. split; [done|]. assert (Hne : k' <> k).
      { intros ->. apply Hk. rewrite <-Hk'. by apply list_elem_of_fmap_2. }
      destruct Ha as [Ha|(id & b & Ha)]; [left; tauto|right; exists id, b]. split_and!; try tauto. intros [->|]%elem_of_cons; tauto.
    + exists k. split; [done|]. left. by rewrite Hnone.
  - intros p Hp. destruct (H2 p Hp) as (k' & ? & ? & ?). exists k'. split_and!; try done. rewrite fmap_app. apply elem_of_app. by left.
  - by apply NoDup_cons.
  - done.
  - intros k' Hk'. rewrite fmap_app. apply elem_of_app. destruct Hk' as [[->|Hk']%elem_of_cons|Hk']; [right; by left|left; apply H5; auto..].
Qed.

(** Nothing of the proof of a fresh request is recorded. *)
Lemma fresh_row fr wa v k x : pages (k :: fr) wa v -> x ∈ v.1 -> x.1 = VStr k -> x.2 = VStr "NOT_REQUIRED" /\ proofs_of k v.2 = [] /\ k ∉ wa.
Proof.
  intros Hp Hx Hk. destruct (pg_rows _ _ _ Hp x Hx) as (k' & Hk' & Ha). rewrite Hk in Hk'. injection Hk' as <-.
  destruct Ha as [Ha|(id & b & _ & _ & _ & _ & Hn & _)]; [tauto|]. destruct Hn. by left.
Qed.
Lemma fresh_none fr wa v k : pages (k :: fr) wa v -> proofs_of k v.2 = [] /\ k ∉ wa.
Proof.
  intros Hp. destruct (proj1 (list_elem_of_fmap _ _ _) (pg_live _ _ _ Hp k (or_introl (list_elem_of_here _ _)))) as (x & Hk & Hx). by destruct (fresh_row _ _ _ _ _ Hp Hx (eq_sym Hk)).
Qed.
(** Its proof is queued. *)
Lemma pages_queue fr wa v k : pages (k :: fr) wa v -> pages fr (k :: wa) (queue k v).
Proof.
  intros Hp. destruct (fresh_none _ _ _ _ Hp) as [Hps Hkw]. destruct Hp as [H1 H2 [Hkf Hnf]%NoDup_cons H4 H5].
  split; cbn [queue fst snd].
  - intros x (y & -> & Hy)%list_elem_of_fmap. destruct (H1 y Hy) as (k' & Hk' & Ha). exists k'. rewrite Hk', str_is_VStr.
    rewrite proofs_of_app. case_bool_decide as He; cbn [fst snd].
    + subst k'. split; [done|]. right. rewrite Hps. unfold proofs_of. cbn [List.filter rid fst snd]. rewrite str_is_VStr, bool_decide_eq_true_2 by done.
      eexists _, _. split_and!; [done|by left|split; [intros Hx; discriminate Hx|intros Hx; discriminate Hx]|done|done|done].
    + split; [done|]. replace (proofs_of k' [_]) with (@nil vproof).
      2: { unfold proofs_of. cbn [List.filter rid fst snd]. by rewrite str_is_VStr, bool_decide_eq_false_2. }
      rewrite app_nil_r. destruct Ha as [Ha|(id & b & Ha)]; [left|right; exists id, b].
      * destruct Ha as (? & ? & ?). split_and!; try done. intros [->|]%elem_of_cons; done.
      * destruct Ha as (? & ? & ? & ? & Hnf' & Hw). split_and!; try done; [|intros [->|]%elem_of_cons; auto]. intros Hin. apply Hnf'. by right.
  - rewrite status_ids. intros p [Hp| ->%list_elem_of_singleton]%elem_of_app; [by apply H2|]. exists k. split_and!; [done|done|]. apply H5. left. left.
  - done.
  - by apply NoDup_cons.
  - rewrite status_ids. intros k' [Hk'|[->|Hk']%elem_of_cons]; apply H5; [left; by right|left; by left|by right].
Qed.

(** The watcher of a proof writes what it learnt. *)
Definition consistent (s : jsval) (verified : option jsval) (watching : Prop) : Prop :=
  s <> VStr "NOT_REQUIRED" /\
  match verified with
  | Some b => (b = vint 0 \/ b = vint 1) /\ (b = vint 1 <-> s = VStr "VERIFIED")
  | None => s <> VStr "VERIFIED"
  end /\ (watching -> s <> VStr "VERIFIED").
Lemma pages_set fr wa wa' v k s b : k ∈ wa -> (forall x, x ∈ wa' -> x ∈ wa) -> NoDup wa' -> consistent s b (k ∈ wa') ->
  pages fr wa v -> pages fr wa' (set_proof k s b v).
Proof.
  intros Hk Hsub Hnd (Hs & Hb & Hw) [H1 H2 H3 H4 H5]. split; cbn [set_proof fst snd].
  - intros x (y & -> & Hy)%list_elem_of_fmap. destruct (H1 y Hy) as (k' & Hk' & Ha). exists k'. rewrite Hk', str_is_VStr, proofs_of_set.
    case_bool_decide as He; cbn [fst snd].
    + subst k'. split; [done|]. right. destruct Ha as [(_ & _ & Hn)|(id & b0 & Hps & Hb0 & Hv & _ & Hf & Hnv)]; [done|].
      exists id, (default b0 b). rewrite Hps. unfold set_verified. cbn [list_fmap fmap rid fst snd]. rewrite str_is_VStr, bool_decide_eq_true_2 by done.
      destruct b as [b|]; cbn [default]; [destruct Hb; split_and!; done|]. split_and!; try done. split; [|intros Hs1; by destruct Hb]. intros He. apply Hv in He. by destruct (Hnv Hk).
    + split; [done|]. destruct Ha as [(-> & -> & Hn)|(id & b0 & -> & Ha)].
      * left. split_and!; [done|done|auto].
      * right. exists id, b0. unfold set_verified. cbn [list_fmap fmap rid fst snd]. rewrite str_is_VStr, bool_decide_eq_false_2 by done. destruct Ha as (? & ? & ? & ? & ?).
        split_and!; auto.
  - rewrite status_ids. intros p (q & -> & Hq)%list_elem_of_fmap. destruct (H2 q Hq) as (k' & ? & ? & ?). exists k'. destruct (str_is (rid q) k); done.
  - done.
  - done.
  - rewrite status_ids. intros k' [Hk'|Hk']; apply H5; auto.
Qed.

(** ** Statements *)
Section statements.
Context `{L : LowerCase}.
Context (to_upper : string -> string) (js_text : jsval -> string) (iso : Z -> string).
Context (localeCompare : string -> string -> comparison) (COOLDOWN_MS : Z).

Lemma shows_same v d d' : db_requests d' = db_requests d -> db_proofs d' = db_proofs d -> shows v d -> shows v d'.
Proof. intros E1 E2 []. by split; rewrite ?E1, ?E2. Qed.
Lemma sh_emit v now ty id p : preserves (shows v) (emit to_upper js_text iso now ty id p).
Proof. intros d Hd. unfold emit. destruct (emitEvent _ _ _ _ _ _ _ _) as [q []]; by apply (shows_same v d). Qed.
Lemma sh_child v table get set r : (forall x d, db_requests (set x d) = db_requests d /\ db_proofs (set x d) = db_proofs d) ->
  preserves (shows v) (insert_child table get set r).
Proof. intros Hs d Hd. unfold insert_child. destruct (_ || _); [done|]. apply (shows_same v d); [apply Hs|apply Hs|exact Hd]. Qed.
Lemma sh_decision v id r : preserves (shows v) (replace_decision id r).
Proof. intros d Hd. unfold replace_decision. destruct (known_request _ _); by apply (shows_same v d). Qed.
Lemma sh_discover v model p now : preserves (shows v) (discover localeCompare model p now).
Proof. intros d Hd. unfold discover. destruct (discoverCandidates _ _ _ _ _) as [l []]; by apply (shows_same v d). Qed.
Lemma sh_outcome v now a : preserves (shows v) (apply_outcome COOLDOWN_MS now a).
Proof. intros d Hd. unfold apply_outcome. destruct (applyAttemptOutcome _ _ _ _ _ _); by apply (shows_same v d). Qed.
Lemma sh_assumed v now id a : preserves (shows v) (book_assumed now id a).
Proof. unfold book_assumed. destruct (at_upstreamOutcomeUnknown a); [|apply pres_ret]. apply pres_modify. intros d Hd. by apply (shows_same v d). Qed.
Lemma sh_usage v now id s u : preserves (shows v) (book_usage now id s u).
Proof.
  intros d Hd. unfold book_usage. destruct (match u with Some (i, o, c) => _ | None => _ end) as [[i o] q].
  destruct (recordUsage _ _ _ _ _ _ _ _) as [l []]; by apply (shows_same v d).
Qed.
Lemma sh_attempts v now id l : preserves (shows v) (record_attempts to_upper js_text iso COOLDOWN_MS now id l).
Proof.
  induction l as [|a l IH]; [apply pres_ret|]. apply pres_bind; [|by intros _].
  apply pres_bind; [apply sh_outcome|intros action]. apply pres_bind; [by apply sh_child|intros _].
  apply pres_bind; [apply sh_assumed|intros _]. destruct (at_success a); [apply pres_ret|apply sh_emit].
Qed.

(** An update of a request outside the proof columns, that claims no proof. *)
Definition quiet (cols : row) : bool :=
  match cols_get cols "id", cols_get cols "proof_status", cols_get cols "trust_status" with
  | None, None, None => true
  | None, None, Some t => negb (str_is t "CONFIDENTIAL_VERIFIED")
  | _, _, _ => false
  end.
Lemma quiet_spread cols r : quiet cols = true -> req_view (spread r cols) = req_view r /\ (honest r -> honest (spread r cols)).
Proof.
  unfold quiet, req_view, honest. rewrite !col_spread. destruct (cols_get cols "id"); [done|]. destruct (cols_get cols "proof_status"); [done|].
  destruct (cols_get cols "trust_status") as [t|]; [|done]. intros Ht. split; [done|]. by intros _ ->.
Qed.
Lemma sh_map v (f : row -> row) : (forall r, req_view (f r) = req_view r /\ (honest r -> honest (f r))) ->
  preserves (E := Thrown) (shows v) (se_modify (fun d => set_requests (f <$> db_requests d) d)).
Proof.
  intros Hf d []. unfold se_modify. cbn [fst]. split; cbn [db_requests set_requests db_proofs]; [|done|].
  - rewrite <-list_fmap_compose, <-sh_requests0. apply list_fmap_ext. intros i r _. apply Hf.
  - apply Forall_fmap. eapply Forall_impl; [exact sh_honest0|]. intros r. apply Hf.
Qed.
Lemma sh_update v id cols : quiet cols = true -> preserves (shows v) (update_request id cols).
Proof. intros Hq. apply sh_map. intros r. destruct (str_is _ _); [by apply quiet_spread|done]. Qed.

Ltac sh_step :=
  first [ apply pres_ret | apply sh_emit | apply sh_decision | apply sh_discover | apply sh_outcome | apply sh_assumed | apply sh_usage
        | apply sh_attempts | (apply sh_child; done) | (apply sh_update; reflexivity) | (apply pres_bind; [|intros ?]) ].

Section segments.
Context (v : view).
Lemma sh_gate_failed c k err : preserves (shows v) (gate_failed to_upper js_text iso c k err).
Proof. unfold gate_failed. destruct err as [|code message http]; [|destruct (str_is code _)]; try (apply pres_guard; intros _); repeat sh_step. Qed.
Lemma sh_gate_recorded c k gate : preserves (shows v) (gate_recorded iso c k gate).
Proof. unfold gate_recorded. repeat sh_step. Qed.
Lemma sh_announce now k gate att : preserves (shows v) (announce to_upper js_text iso now k gate att).
Proof. unfold announce. sh_step; [destruct att|]; repeat sh_step. Qed.
Lemma sh_decide c e m gate : preserves (shows v) (decide_dispatch to_upper js_text iso localeCompare c e m gate).
Proof.
  unfold decide_dispatch, deny, no_capacity. destruct (gt_decision gate).
  - sh_step; [sh_step|]. sh_step; [sh_step|]. destruct (dc_candidates _); repeat sh_step.
  - destruct m; repeat sh_step.
Qed.
Lemma sh_execute_failed c k gate err : preserves (shows v) (execute_failed to_upper js_text iso c k gate err).
Proof. unfold execute_failed. destruct err; try (apply pres_guard; intros _); repeat sh_step. Qed.
Lemma sh_executed c k m gate r : preserves (shows v) (executed to_upper js_text iso COOLDOWN_MS c k m gate r).
Proof.
  unfold executed, settle_complete, settle_failed, malformed. destruct (eb_status r); [|repeat sh_step|]; (sh_step; [sh_step|]);
    [destruct (eb_selected r); [destruct (eb_receipt r)|]|]; try destruct (match eb_usage r with Some (i, o, _) => (i, o) | None => (0, 0) end);
    destruct m; repeat sh_step.
Qed.
End segments.

(** Updates of the proof columns. *)
Lemma shows_status v d k cols s : cols_get cols "id" = None -> cols_get cols "proof_status" = Some s -> cols_get cols "trust_status" = None ->
  (forall x, x ∈ v.1 -> x.1 = VStr k -> x.2 = VStr "VERIFIED" -> s = VStr "VERIFIED") ->
  shows v d -> shows (set_status k s v.1, v.2) (update_request k cols d).1.
Proof.
  intros E1 E2 E3 Hv []. unfold update_request, se_modify, update_where. split; cbn [fst snd db_requests set_requests db_proofs].
  - unfold set_status. rewrite <-sh_requests0, <-!list_fmap_compose. apply list_fmap_ext. intros i r _. cbn.
    destruct (str_is (col r "id") k); [|done]. unfold req_view. by rewrite !col_spread, E1, E2.
  - done.
  - apply Forall_fmap. apply List.Forall_forall. intros r Hr. rewrite List.Forall_forall in sh_honest0. specialize (sh_honest0 r Hr). cbn.
    destruct (str_is (col r "id") k) eqn:Hk; [|done]. unfold honest. rewrite !col_spread, E2, E3. intros Ht. apply (Hv (req_view r)).
    + rewrite <-sh_requests0. by apply list_elem_of_fmap_2, list_elem_of_In.
    + by apply str_is_true.
    + by apply sh_honest0.
Qed.
Lemma shows_proof v d k cols s : cols_get cols "id" = None -> cols_get cols "request_id" = None -> cols_get cols "status" = Some s ->
  shows v d -> shows (v.1, set_verified k s (cols_get cols "verified") v.2) (update_proof k cols d).1.
Proof.
  intros E1 E2 E3 []. unfold update_proof, se_modify, update_where. split; cbn [fst snd db_requests set_proofs db_proofs]; [done| |done].
  unfold set_verified. rewrite <-sh_proofs0, <-!list_fmap_compose. apply list_fmap_ext. intros i r _. cbn. change (rid (proof_view r)) with (col r "request_id").
  destruct (str_is (col r "request_id") k); [|done]. unfold proof_view. rewrite !col_spread, E1, E2, E3. by destruct (cols_get cols "verified").
Qed.

(** A request arrives: at most its row is new. *)
Lemma sh_receive v d now e m : shows v d -> let '(d', r) := receive to_upper js_text iso localeCompare COOLDOWN_MS now e m d in
  (shows v d' /\ is_ok r = false) \/ (VStr (env_requestId e) ∉ v.1.*1 /\ shows (new_request (env_requestId e) v) d').
Proof.
  intros Hd. unfold receive, insert_request, mbind, SE_bind. destruct (taken _ _) eqn:Ht; [by left|]. set (d1 := set_ledger _ _).
  assert (Hk : VStr (env_requestId e) ∉ v.1.*1).
  { intros Hin. apply (not_taken_id _ (request_row iso now e m) (env_requestId e) eq_refl) in Ht. apply Ht. unfold ids. rewrite <-(sh_requests _ _ Hd), <-list_fmap_compose in Hin. exact Hin. }
  assert (H1 : shows (new_request (env_requestId e) v) d1).
  { destruct Hd. split; cbn [d1 db_requests set_ledger set_requests db_proofs new_request fst snd]; [|done|].
    - by rewrite fmap_app, sh_requests0.
    - apply Forall_app. split; [done|]. constructor; [intros Hx; discriminate Hx|constructor]. }
  match goal with |- context [emit ?a ?b ?c ?t ?ty ?id ?p ?x] => pose proof (sh_emit _ t ty id p x H1) as H2; destruct (emit a b c t ty id p x) as [d2 r]; by right end.
Qed.

(** The row of a proof can be inserted. *)
Lemma insert_proof v d k r : shows v d -> VStr k ∈ v.1.*1 -> proofs_of k v.2 = [] ->
  (forall p, p ∈ v.2 -> exists k', rid p = VStr k' /\ p.1.1.1 = VStr ("proof_" +:+ k')) -> col r "id" = VStr ("proof_" +:+ k) -> col r "request_id" = VStr k ->
  insert_child "proofs" db_proofs set_proofs r d = (set_proofs (db_proofs d ++ [r]) d, Ok tt).
Proof.
  intros Hd Hlive Hnil Hrefs Hid Hrid. unfold insert_child.
  assert (Hknown : known_request d r = true).
  { unfold known_request. rewrite Hrid. apply bool_decide_eq_true. apply list_elem_of_fmap in Hlive as (x & Hx & Hin).
    rewrite <-(sh_requests _ _ Hd) in Hin. apply list_elem_of_fmap in Hin as (q & -> & Hq). unfold find_where.
    destruct (List.find _ _) eqn:Hf; [by eexists|]. apply List.find_none with (x := q) in Hf; [|by apply list_elem_of_In].
    cbn [req_view fst] in Hx. by rewrite <-Hx, str_is_VStr, bool_decide_eq_true_2 in Hf. }
  assert (Htaken : taken (db_proofs d) r = false); [|by rewrite Htaken, Hknown].
  apply not_true_iff_false. unfold taken. rewrite Hid. intros (p & Hpin & Hs)%existsb_exists. apply list_elem_of_In in Hpin. apply str_is_true in Hs.
  assert (Hv : proof_view p ∈ v.2) by (rewrite <-(sh_proofs _ _ Hd); by apply list_elem_of_fmap_2).
  destruct (Hrefs _ Hv) as (k' & Hr & Hid'). change (col p "id" = VStr ("proof_" +:+ k')) in Hid'. rewrite Hs in Hid'.
  assert (k' = k) as -> by (by injection Hid').
  assert (Hpp : proof_view p ∈ proofs_of k v.2) by (apply list_elem_of_In, filter_In; split; [by apply list_elem_of_In|by apply str_is_true]).
  rewrite Hnil in Hpp. by apply not_elem_of_nil in Hpp.
Qed.
(** The proof is queued, or nothing of it is seen. *)
Lemma sh_prepare fr wa v d c k gate att : shows v d -> pages (k :: fr) wa v ->
  let '(d', r) := prepare to_upper js_text iso c k gate att d in
  (shows v d' /\ (is_ok r = true -> gt_proofStarted gate = false)) \/ (gt_proofStarted gate = true /\ shows (queue k v) d').
Proof.
  intros Hd Hp. unfold prepare, mbind, SE_bind. pose proof (sh_announce v (ck_now c) k gate att d Hd) as Ha.
  destruct (announce _ _ _ _ _ _ _) as [d1 [u|t]]; [|by left]. cbn [fst] in Ha. unfold queue_proof. destruct (gt_proofStarted gate); [|left; done].
  assert (H2 : shows (set_status k (VStr "QUEUED") v.1, v.2) (update_request k [("proof_status", VStr "QUEUED")] d1).1).
  { apply shows_status; try done. intros x Hx Hk Hv. destruct (fresh_row _ _ _ _ _ Hp Hx Hk) as [Hn _]. congruence. }
  unfold mbind, SE_bind. change (update_request k [("proof_status", VStr "QUEUED")] d1) with ((update_request k [("proof_status", VStr "QUEUED")] d1).1, Ok (E := Thrown) tt).
  cbn match. set (d2 := (update_request _ _ d1).1) in *.
  erewrite (insert_proof _ d2 k); [|exact H2|cbn [fst]; rewrite status_ids; apply (pg_live _ _ _ Hp); left; left|exact (proj1 (fresh_none fr wa v k Hp))| |done|done].
  2: { intros p Hpin. destruct (pg_refs _ _ _ Hp p Hpin) as (k' & ? & ? & _). by exists k'. }
  set (d3 := set_proofs _ d2). assert (H3 : shows (queue k v) d3).
  { destruct H2. split; cbn [d3 db_requests set_proofs db_proofs queue fst snd] in *; [done| |done]. by rewrite fmap_app, sh_proofs0. }
  match goal with |- context [emit ?a ?b ?c ?t ?ty ?id ?p ?x] => pose proof (sh_emit _ t ty id p x H3) as H4; destruct (emit a b c t ty id p x) as [d4 r]; by right end.
Qed.

(** *** The watcher *)
Lemma watched_row fr wa v k x : pages fr (k :: wa) v -> x ∈ v.1 -> x.1 = VStr k -> x.2 <> VStr "VERIFIED".
Proof.
  intros Hp Hx Hk. destruct (pg_rows _ _ _ Hp x Hx) as (k' & Hk' & Ha). rewrite Hk in Hk'. injection Hk' as <-.
  destruct Ha as [(_ & -> & _)|(id & b & _ & _ & _ & _ & _ & Hw)]; [done|]. apply Hw. left.
Qed.
Lemma sh_set fr wa v d k s cols pcols : cols_get cols "id" = None -> cols_get cols "proof_status" = Some s -> cols_get cols "trust_status" = None ->
  cols_get pcols "id" = None -> cols_get pcols "request_id" = None -> cols_get pcols "status" = Some s ->
  shows v d -> pages fr (k :: wa) v -> shows (set_proof k s (cols_get pcols "verified") v) (update_proof k pcols (update_request k cols d).1).1.
Proof.
  intros E1 E2 E3 E4 E5 E6 Hd Hp. apply (shows_proof (set_status k s v.1, v.2)); try done. apply shows_status; try done.
  intros x Hx Hk Hv. by destruct (watched_row _ _ _ _ _ Hp Hx Hk).
Qed.
Lemma sh_trust v k trust only : trust <> "CONFIDENTIAL_VERIFIED" \/ (forall x, x ∈ v.1 -> x.1 = VStr k -> x.2 = VStr "VERIFIED") ->
  preserves (shows v) (set_trust k trust only).
Proof.
  intros Hv d []. unfold set_trust, se_modify. cbn [fst]. split; cbn [db_requests set_requests db_proofs]; [|done|].
  - rewrite <-sh_requests0, <-list_fmap_compose. apply list_fmap_ext. intros i r _. unfold compose. destruct (_ && _ && _); [|done]. unfold req_view. by rewrite !col_spread.
  - apply Forall_fmap. apply List.Forall_forall. intros r Hr. rewrite List.Forall_forall in sh_honest0. specialize (sh_honest0 r Hr). unfold compose.
    destruct (_ && _ && _) eqn:Hc; [|done]. apply andb_true_iff in Hc as [Hc _]. apply andb_true_iff in Hc as [Hid _]. apply str_is_true in Hid. unfold honest. rewrite !col_spread. cbn [cols_get fold_left fst snd String.eqb Ascii.eqb Bool.eqb]. intros [= ->].
    destruct Hv as [Hv|Hv]; [done|]. apply (Hv (req_view r)); [|exact Hid]. rewrite <-sh_requests0. by apply list_elem_of_fmap_2, list_elem_of_In.
Qed.

Lemma after_set fr wa v d k s b cols pcols {A} (rest : SE Db Thrown A) : cols_get cols "id" = None -> cols_get cols "proof_status" = Some s ->
  cols_get cols "trust_status" = None -> cols_get pcols "id" = None -> cols_get pcols "request_id" = None -> cols_get pcols "status" = Some s ->
  cols_get pcols "verified" = b -> shows v d -> pages fr (k :: wa) v -> preserves (shows (set_proof k s b v)) rest ->
  shows (set_proof k s b v) ((_ ← update_request k cols; _ ← update_proof k pcols; rest) d).1.
Proof. intros ? ? ? ? ? ? <- ? ? Hrest. unfold update_request, update_proof, mbind, SE_bind, se_modify. apply Hrest. by eapply sh_set. Qed.

(** A watch goes on with the same request, or ends. *)
Definition next_watched (r : res Thrown (option Watcher)) (wa : list string) : list string :=
  match r with Ok (Some x) => wt_requestId x :: wa | _ => wa end.
Lemma step_end fr wa {A} (m : SE Db Thrown A) d : (exists v', shows v' (m d).1 /\ pages fr wa v') ->
  exists v', shows v' ((_ ← m; mret (@None Watcher)) d).1 /\ pages fr (next_watched ((_ ← m; mret (@None Watcher)) d).2 wa) v'.
Proof. intros (v' & H1 & H2). exists v'. unfold mbind, SE_bind. by destruct (m d) as [d1 [a|t]]. Qed.

Lemma pages_unwatch fr wa v k s b : consistent s b False -> pages fr (k :: wa) v -> pages fr wa (set_proof k s b v).
Proof.
  intros (H1 & H2 & _) Hp. destruct (proj1 (NoDup_cons _ _) (pg_watched _ _ _ Hp)) as [Hk Hn].
  eapply pages_set; [left| |exact Hn| |exact Hp]; [by right|]. split_and!; [done|done|by intros ?].
Qed.

Section polls.
Context (fr wa : list string) (v : view) (d : Db) (w : Watcher) (now : Z).
Local Abbreviation k := (wt_requestId w).
Context (Hd : shows v d) (Hp : pages fr (k :: wa) v).

Lemma sh_markFailed error ms : exists v', shows v' (markFailed to_upper js_text iso now k error ms d).1 /\ pages fr wa v'.
Proof using Hd Hp.
  exists (set_proof k (VStr "FAILED") None v). split; [|by apply pages_unwatch].
  unfold markFailed. apply (after_set fr wa v d k (VStr "FAILED")); try done.
  apply pres_bind; [apply sh_trust; left; done|intros _; apply sh_emit].
Qed.
Lemma sh_polled answer : exists v', shows v' (polled to_upper js_text iso now w answer d).1 /\
  pages fr (next_watched (polled to_upper js_text iso now w answer d).2 wa) v'.
Proof using Hd Hp.
  unfold polled. destruct answer as [res|[|code msg http]]; [|by exists v|destruct (str_is _ _); [apply step_end, sh_markFailed|by exists v]].
  case_bool_decide as Hin; [|destruct (String.eqb_spec (pw_status res) "FAILED") as [Hf|Hf]; [apply step_end, sh_markFailed|]].
  - exists (set_proof k (VStr (pw_status res)) None v). split.
    + apply (after_set fr wa v d k (VStr (pw_status res))); try (by destruct (pw_artifactDigest res)).
      apply pres_bind; [|intros _; apply pres_ret]. unfold transition. repeat case_match; first [apply pres_ret|apply sh_emit].
    + assert (Hk : pages fr (k :: wa) (set_proof k (VStr (pw_status res)) None v)).
      { assert (Hc : consistent (VStr (pw_status res)) None True) by (clear -Hin; set_unfold in Hin; destruct Hin as [E|[E|[E|[]]]]; rewrite E; done).
        destruct Hc as (H1 & H2 & H3). eapply pages_set; [left|done|apply (pg_watched _ _ _ Hp)| |exact Hp]. split_and!; [done|done|auto]. }
      unfold update_request, update_proof, mbind, SE_bind, se_modify. destruct (transition _ _ _ _ _ _ _) as [d1 [u|t]]; [exact Hk|].
      eapply pages_weaken; [done| |apply (pg_fresh _ _ _ Hp)| |exact Hk]; [by right|]. by destruct (proj1 (NoDup_cons _ _) (pg_watched _ _ _ Hp)).
  - apply step_end. unfold proof_ended. set (ok := String.eqb (pw_status res) "VERIFIED" && pw_proofVerified res).
    set (s := VStr (if ok then "VERIFIED" else "GENERATED")). exists (set_proof k s (Some (vint (if ok then 1 else 0))) v). split.
    + apply (after_set fr wa v d k s); try done. apply pres_bind; [|intros _; apply sh_emit]. destruct ok; [|apply pres_ret]. apply sh_trust. right.
      intros x (y & -> & Hy)%list_elem_of_fmap. destruct (str_is y.1 k) eqn:Hyk; [done|]. intros Hk. by rewrite Hk, str_is_VStr, bool_decide_eq_true_2 in Hyk.
    + apply pages_unwatch; [|exact Hp]. unfold s. destruct ok; split_and!; try done; auto.
Qed.
Lemma sh_poll : exists v', shows v' (poll to_upper js_text iso now w d).1 /\ pages fr (next_watched (poll to_upper js_text iso now w d).2 wa) v'.
Proof using Hd Hp. unfold poll. destruct (_ <? _); [apply step_end, sh_markFailed|by exists v]. Qed.
End polls.

(** ** Every interleaving *)
Definition fresh_task (t : option Task) : option string :=
  match t with Some (AwaitGate e _) | Some (AwaitAttestation e _ _) => Some (env_requestId e) | _ => None end.
Definition watched_by (w : option Watcher) : option string := match w with Some w => Some (wt_requestId w) | None => None end.
Definition pages_inv (w : CWorld) : Prop := exists v, shows v (cw_db w) /\ pages (omap fresh_task (cw_tasks w)) (omap watched_by (cw_watchers w)) v.

Lemma omap_replace {A} (f : A -> option string) l i x y : l !! i = Some x ->
  option_list (f x) ++ omap f (<[i := y]> l) ≡ₚ option_list (f y) ++ omap f l.
Proof.
  revert i. induction l as [|z l IH]; intros [|i]; [done..| |].
  - intros [= ->]. cbn. destruct (f x), (f y); cbn; first [done|apply Permutation_swap].
  - intros H. specialize (IH i H). cbn. change (list_omap A string f) with (omap f : list A -> list string). destruct (f z) as [b|]; [|exact IH].
    rewrite <-!Permutation_middle. by constructor.
Qed.
Lemma pages_perm fr fr' wa wa' v : fr ≡ₚ fr' -> wa ≡ₚ wa' -> pages fr wa v -> pages fr' wa' v.
Proof.
  intros Hf Hw Hp. eapply pages_weaken; [| | | |exact Hp]; try (intros x; by rewrite Hf || rewrite Hw).
  - rewrite <-Hf. apply Hp.
  - rewrite <-Hw. apply Hp.
Qed.
(** A task that no longer concerns the proof, or still does. *)
Lemma pages_task tasks wa v i x y : tasks !! i = Some x -> (fresh_task y = fresh_task x \/ fresh_task y = None) ->
  pages (omap fresh_task tasks) wa v -> pages (omap fresh_task (<[i := y]> tasks)) wa v.
Proof.
  intros Hi Hy Hp. pose proof (omap_replace fresh_task tasks i x y Hi) as Hperm. destruct Hy as [Hy|Hy]; rewrite Hy in Hperm.
  - apply Permutation_app_inv_l in Hperm. by eapply pages_perm; [symmetry; exact Hperm|done|].
  - cbn [option_list app] in Hperm. eapply pages_weaken; [| | |apply Hp|exact Hp]; [|done|].
    + intros k Hk. rewrite <-Hperm. apply elem_of_app. by right.
    + eapply (NoDup_app (option_list (fresh_task x))). rewrite Hperm. apply Hp.
Qed.
Lemma omap_app_one {A B} (f : A -> option B) l x : omap f (l ++ [x]) = omap f l ++ option_list (f x).
Proof. by rewrite omap_app. Qed.

Local Abbreviation step := (cstep to_upper js_text iso localeCompare COOLDOWN_MS).
Lemma pages_inv_post w now e m : pages_inv w -> pages_inv (step w (Post now e m)).1.
Proof.
  intros (v & Hd & Hp). pose proof (sh_receive v (cw_db w) now e m Hd) as Hr. unfold cstep.
  destruct (receive _ _ _ _ _ _ _ _ _) as [d [u|t]].
  - assert (Hw : pages_inv {| cw_db := d; cw_tasks := cw_tasks w ++ [Some (AwaitGate e m)]; cw_watchers := cw_watchers w |}).
    { destruct Hr as [[_ Hr]|[Hk Hr]]; [done|]. eexists. split; [exact Hr|]. cbn [cw_tasks cw_watchers]. rewrite omap_app_one.
      eapply pages_perm; [|done|by apply pages_new]. cbn. by rewrite Permutation_app_comm. }
    destruct m; [destruct (secure_check _ _)|]; [by exists v|exact Hw..].
  - assert (Hw : pages_inv {| cw_db := d; cw_tasks := cw_tasks w ++ [None]; cw_watchers := cw_watchers w |}).
    { unfold pages_inv. cbn [cw_db cw_tasks cw_watchers]. rewrite omap_app_one. cbn [fresh_task option_list]. rewrite app_nil_r.
      destruct Hr as [[Hr _]|[Hk Hr]]; [by exists v|]. eexists. split; [exact Hr|]. eapply pages_weaken; [| |apply Hp|apply Hp|by apply pages_new]; [|done]. by right. }
    destruct m; [destruct (secure_check _ _)|]; [by exists v|exact Hw..].
Qed.
Lemma pages_inv_attested w i c att : pages_inv w -> pages_inv (step w (AttestationAnswers i c att)).1.
Proof.
  intros (v & Hd & Hp). unfold cstep. destruct (cw_tasks w !! i) as [[[e m|e m g|e m g]|]|] eqn:Hi; [by exists v| |by exists v..].
  set (k := env_requestId e). pose proof (omap_replace fresh_task (cw_tasks w) i _ None Hi) as Hperm. cbn [fresh_task option_list app] in Hperm. fold k in Hperm.
  set (fr := omap fresh_task (<[i := None]> (cw_tasks w))) in *. set (wa := omap watched_by (cw_watchers w)) in *.
  assert (Hpk : pages (k :: fr) wa v) by (by eapply pages_perm; [symmetry; exact Hperm|done|exact Hp]).
  assert (Hgone : pages fr wa v).
  { eapply pages_weaken; [| | |apply Hp|exact Hpk]; [by right|done|]. by destruct (proj1 (NoDup_cons _ _) (pg_fresh _ _ _ Hpk)). }
  pose proof (sh_prepare fr wa v (cw_db w) c k g att Hd Hpk) as Hpr. destruct (prepare _ _ _ _ _ _ _ _) as [d [u|t]].
  - set (ws := cw_watchers w ++ _).
    assert (Hpost : exists v', shows v' d /\ pages fr (omap watched_by ws) v').
    { unfold ws. destruct Hpr as [[Hs Hn]|[Hst Hs]].
      - exists v. rewrite (Hn eq_refl), app_nil_r. done.
      - exists (queue k v). rewrite Hst, omap_app_one. split; [done|]. eapply pages_perm; [done| |by apply pages_queue]. cbn. by rewrite Permutation_app_comm. }
    destruct Hpost as (v' & Hs & Hpp). pose proof (sh_decide v' c e m g d Hs) as Hdec.
    assert (Hfr : forall x : option Task, fresh_task x = None -> omap fresh_task (<[i := x]> (cw_tasks w)) ≡ₚ fr).
    { intros x Hx. pose proof (omap_replace fresh_task (cw_tasks w) i _ x Hi) as H2. rewrite Hx in H2. cbn [fresh_task option_list app] in H2. fold k in H2.
      rewrite <-Hperm in H2. by apply Permutation_cons_inv in H2. }
    destruct (decide_dispatch _ _ _ _ _ _ _ _ _) as [d2 [[reply|cands]|t]]; exists v'; (split; [exact Hdec|]); cbn [cw_tasks cw_watchers];
      (eapply pages_perm; [symmetry; by apply Hfr|done|exact Hpp]).
  - destruct Hpr as [[Hs _]|[_ Hs]]; [by exists v|]. exists (queue k v). split; [done|]. cbn [cw_tasks cw_watchers].
    eapply pages_weaken; [| |apply Hgone|apply Hgone|by apply pages_queue]; [done|by right].
Qed.
(** A watcher that takes its step. *)
Lemma pages_watcher ws fr v j x r : ws !! j = Some (Some x) -> pages fr (omap watched_by ws) v ->
  exists wa, pages fr (wt_requestId x :: wa) v /\
    forall v', pages fr (next_watched r wa) v' -> pages fr (omap watched_by (<[j := match r with Ok x => x | Err _ => None end]> ws)) v'.
Proof.
  intros Hj Hp. exists (omap watched_by (<[j := None]> ws)). pose proof (omap_replace watched_by ws j _ None Hj) as Hperm. cbn [watched_by option_list app] in Hperm.
  split; [by eapply pages_perm; [done|symmetry; exact Hperm|]|]. intros v' Hv'.
  pose proof (omap_replace watched_by ws j _ (match r with Ok x => x | Err _ => None end) Hj) as H2. cbn [watched_by option_list app] in H2.
  rewrite <-Hperm in H2. destruct r as [[y|]|t]; cbn [watched_by option_list app next_watched] in *.
  - change (wt_requestId x :: omap watched_by (<[j:=Some y]> ws) ≡ₚ wt_requestId y :: wt_requestId x :: omap watched_by (<[j:=None]> ws)) in H2.
    rewrite Permutation_swap in H2. apply Permutation_cons_inv in H2. by eapply pages_perm; [done|symmetry; exact H2|].
  - exact Hv'.
  - exact Hv'.
Qed.
Lemma pages_inv_step w ev : pages_inv w -> pages_inv (step w ev).1.
Proof.
  intros Hw. destruct ev as [now e m|i c ans|i c att|i c ans|j now|j now ans|op]; [by apply pages_inv_post| |by apply pages_inv_attested|..];
    pose proof Hw as (v & Hd & Hp); cbn [cstep].
  - destruct (cw_tasks w !! i) as [[[e m|e m g|e m g]|]|] eqn:Hi; [|exact Hw..]. destruct ans as [gate|err].
    + pose proof (sh_gate_recorded v c (env_requestId e) gate _ Hd) as H. destruct (gate_recorded _ _ _ _ _) as [d [u|t]];
        exists v; (split; [exact H|]); cbn [cw_tasks cw_watchers fst]; (eapply pages_task; [exact Hi|by auto|exact Hp]).
    + pose proof (sh_gate_failed v c (env_requestId e) err _ Hd) as H. destruct (gate_failed _ _ _ _ _ _ _) as [d r].
      exists v. split; [exact H|]. eapply pages_task; [exact Hi|by right|exact Hp].
  - destruct (cw_tasks w !! i) as [[[e m|e m g|e m g]|]|] eqn:Hi; [exact Hw..| |exact Hw|exact Hw]. destruct ans as [body|err].
    + pose proof (sh_executed v c (env_requestId e) m g body _ Hd) as H. destruct (executed _ _ _ _ _ _ _ _ _ _) as [d r].
      exists v. split; [exact H|]. eapply pages_task; [exact Hi|by right|exact Hp].
    + pose proof (sh_execute_failed v c (env_requestId e) g err _ Hd) as H. destruct (execute_failed _ _ _ _ _ _ _ _) as [d r].
      exists v. split; [exact H|]. eapply pages_task; [exact Hi|by right|exact Hp].
  - destruct (cw_watchers w !! j) as [[x|]|] eqn:Hj; [|exact Hw..].
    destruct (pages_watcher (cw_watchers w) _ v j x (poll to_upper js_text iso now x (cw_db w)).2 Hj Hp) as (wa & Hx & Hnext).
    destruct (sh_poll _ wa v (cw_db w) x now Hd Hx) as (v' & Hs & Hp'). apply Hnext in Hp'. destruct (poll _ _ _ _ _ _) as [d r]. by exists v'.
  - destruct (cw_watchers w !! j) as [[x|]|] eqn:Hj; [|exact Hw..].
    destruct (pages_watcher (cw_watchers w) _ v j x (polled to_upper js_text iso now x ans (cw_db w)).2 Hj Hp) as (wa & Hx & Hnext).
    destruct (sh_polled _ wa v (cw_db w) x now Hd Hx ans) as (v' & Hs & Hp'). apply Hnext in Hp'. destruct (polled _ _ _ _ _ _ _) as [d r]. by exists v'.
  - exists v. split; [by apply (shows_same v (cw_db w))|exact Hp].
Qed.
Lemma pages_inv_run evs : pages_inv (crun to_upper js_text iso localeCompare COOLDOWN_MS cworld_empty evs).1.
Proof.
  induction evs as [|ev evs IH] using rev_ind; [|rewrite crun_snoc; by apply pages_inv_step].
  exists ([], []). split; [by split|]. split; [by intros x ?%not_elem_of_nil|by intros x ?%not_elem_of_nil|constructor|constructor|].
  by intros k [?%not_elem_of_nil|?%not_elem_of_nil].
Qed.
End statements.

(** ** The endpoints *)
(** What the tables say of one request. *)
Lemma request_pages v d fr wa id req : shows v d -> pages fr wa v -> find_where "id" id (db_requests d) = Some req ->
  honest req /\
  match proof_row id d with
  | None => col req "proof_status" = VStr "NOT_REQUIRED"
  | Some p => col p "status" = col req "proof_status" /\ (col p "verified" = vint 0 \/ col p "verified" = vint 1) /\
      (col p "verified" = vint 1 <-> col req "proof_status" = VStr "VERIFIED") /\ col req "proof_status" <> VStr "NOT_REQUIRED"
  end.
Proof.
  intros Hd Hp Hf. apply List.find_some in Hf as [Hin Hid]. apply str_is_true in Hid.
  split; [pose proof (sh_honest _ _ Hd) as Hh; rewrite List.Forall_forall in Hh; by apply Hh|]. apply list_elem_of_In in Hin.
  assert (Hx : req_view req ∈ v.1) by (rewrite <-(sh_requests _ _ Hd); by apply list_elem_of_fmap_2).
  destruct (pg_rows _ _ _ Hp _ Hx) as (k & Hk & Ha). cbn [req_view fst snd] in Hk, Ha. rewrite Hid in Hk. injection Hk as <-.
  assert (Hps : forall p, p ∈ db_proofs d -> str_is (col p "request_id") id = true -> proof_view p ∈ proofs_of id v.2).
  { intros p Hpin Hs. apply list_elem_of_In, filter_In. split; [|exact Hs]. rewrite <-(sh_proofs _ _ Hd). by apply list_elem_of_In, list_elem_of_fmap_2. }
  unfold proof_row, find_where. destruct (List.find _ (db_proofs d)) as [p|] eqn:Hfp.
  - apply List.find_some in Hfp as [Hpin Hs]. apply list_elem_of_In in Hpin. specialize (Hps p Hpin Hs).
    destruct Ha as [(Hnil & _)|(pid & b & Hone & Hb & Hv & Hn & _)]; [rewrite Hnil in Hps; by apply not_elem_of_nil in Hps|].
    rewrite Hone in Hps. apply list_elem_of_singleton in Hps. unfold proof_view in Hps. injection Hps as _ _ Hst Hver. rewrite Hst, Hver. done.
  - destruct Ha as [(_ & Hs & _)|(pid & b & Hone & _)]; [done|]. exfalso.
    assert (Hq : (pid, VStr id, col req "proof_status", b) ∈ proofs_of id v.2) by (rewrite Hone; left).
    apply list_elem_of_In, filter_In in Hq as [Hq Hqs]. rewrite <-(sh_proofs _ _ Hd) in Hq. apply list_elem_of_In, list_elem_of_fmap in Hq as (p & Hpv & Hpin).
    apply list_elem_of_In in Hpin. apply (List.find_none _ _ Hfp) in Hpin. cbn [rid fst snd] in Hqs. unfold proof_view in Hpv. injection Hpv as _ Hr _ _.
    rewrite <-Hr in Hpin. congruence.
Qed.

Lemma sql_VStr a s : sql a = VStr s <-> a = VStr s.
Proof. by destruct a. Qed.
Lemma verified_flag_spec p : col p "verified" = vint 0 \/ col p "verified" = vint 1 -> verified_flag p = VBool true <-> col p "verified" = vint 1.
Proof. unfold verified_flag. by intros [-> | ->]. Qed.

(** C10. The pages of a request agree.  In every interleaving of requests, proof polls,
    contributions and revocations, whatever the enclave answers, the record, the
    receipt and the proof page of a request show one proof status; the record has a
    proof exactly when one was required, under that status; a page says the proof is
    verified exactly when the status is VERIFIED; and a request labelled
    CONFIDENTIAL_VERIFIED shows a verified proof everywhere. *)
Theorem pages_agree `{LowerCase} to_upper js_text iso localeCompare COOLDOWN_MS display_name verify evs id rq rp :
  let d := cw_db (crun to_upper js_text iso localeCompare COOLDOWN_MS cworld_empty evs).1 in
  let rr := get_receipt verify id d in
  let s := shown rr ["proof_status"] in
  get_request display_name id d = Some rq -> get_proof verify id d = Some rp -> rp_code rr = 200 ->
  shown rq ["request"; "proofStatus"] = s /\ shown rp ["proof_status"] = s /\
  (shown rq ["proof"] = VNull <-> s = VStr "NOT_REQUIRED") /\
  (shown rq ["proof"] <> VNull -> shown rq ["proof"; "status"] = s /\ (shown rq ["proof"; "verified"] = VBool true <-> s = VStr "VERIFIED")) /\
  (shown rp ["proof_verified"] = VBool true <-> s = VStr "VERIFIED") /\
  (shown rr ["trust_status"] = VStr "CONFIDENTIAL_VERIFIED" -> s = VStr "VERIFIED") /\
  shown rq ["request"; "trustStatus"] = shown rr ["trust_status"].
Proof.
  intros d rr s Hrq Hrp Hrr. destruct (pages_inv_run to_upper js_text iso localeCompare COOLDOWN_MS evs) as (v & Hd & Hp). fold d in Hd.
  unfold rr, get_receipt in Hrr. unfold get_request in Hrq. unfold get_proof in Hrp. unfold s, rr, get_receipt.
  destruct (find_where "id" id (db_requests d)) as [req|] eqn:Hf; [|done]. destruct (request_pages _ _ _ _ _ _ Hd Hp Hf) as [Hh Hpr].
  unfold proof_row in *. destruct (find_where "request_id" id (db_proofs d)) as [p|].
  - destruct Hpr as (Hst & Hb & Hv & Hn). destruct (match sql (col req "policy_result") with VNull => _ | _ => _ end) as [dec|]; [|done].
    destruct (proof_val p) as [pv|] eqn:Hpv; [|done]. cbn [mbind option_bind] in Hrq, Hrp. injection Hrq as <-. injection Hrp as <-.
    unfold proof_val in Hpv. destruct (match stored p "binding_json" with Some b => _ | None => _ end) as [dg|]; [|done]. injection Hpv as <-.
    unfold shown. cbn. rewrite Hst, sql_VStr. pose proof (verified_flag_spec p Hb) as Hvf. rewrite Hvf, Hv. rewrite !sql_VStr. split_and!; try done.
  - cbn [mbind option_bind] in Hrq. injection Hrq as <-. injection Hrp as <-. unfold shown. cbn. rewrite Hpr. cbn. rewrite sql_VStr. split_and!; try done.
    intros Hc. apply Hh in Hc. by rewrite Hpr in Hc.
Qed.

Definition ex_run : list CEvent := ex_setup ++ [ExecuteAnswers 0 (ex_clock 40) (Ok ex_body); ProofAnswers 0 50 (Ok ex_verified)].
Lemma pages_agree_witness :
  let d := cw_db (crun (fun s => s) (fun _ => "") ex_iso js_compare 60000 cworld_empty ex_run).1 in
  exists rq rp, get_request VStr (env_requestId ex_env) d = Some rq /\ get_proof (fun _ => None) (env_requestId ex_env) d = Some rp /\
    shown (get_receipt (fun _ => None) (env_requestId ex_env) d) ["proof_status"] = VStr "VERIFIED" /\
    shown rq ["request"; "proofStatus"] = shown (get_receipt (fun _ => None) (env_requestId ex_env) d) ["proof_status"].
Proof.
  intros d. destruct (get_request VStr (env_requestId ex_env) d) as [rq|] eqn:Hrq; [|vm_compute in Hrq; discriminate Hrq].
  destruct (get_proof (fun _ => None) (env_requestId ex_env) d) as [rp|] eqn:Hrp; [|vm_compute in Hrp; discriminate Hrp].
  exists rq, rp. split; [done|]. split; [done|]. split; [vm_compute; reflexivity|].
  refine (proj1 (pages_agree (fun s => s) (fun _ => "") ex_iso js_compare 60000 VStr (fun _ => None) ex_run (env_requestId ex_env) rq rp Hrq Hrp _)).
  vm_compute. reflexivity.
Defined.
