(* ===== verification/Compat.v ===== *)
(** * The compatibility endpoint (services/coordinator/src/compat.ts)

    [POST /v1/chat/completions]: the coordinator seals the request and opens the
    answer itself.  [responseKeys] is the state of the module. *)

From S2P Require Import Prelude JsNum Utf8 Json Unicode Canonical Stringify Types Crypto Texts Policy PolicyV1 Authorize Pricing Providers Intent Insights JsMap Gates Hpke Tee EnclaveVerify ProofVerify ProverClient Prover GateRequest Dispatch Enclave Logs Routing Events Coordinator Trust Settle Booking Client EndToEnd Onboarding Reads.
Local Open Scope Z_scope.

Abbreviation ResponseKeys := (list (string * string)).
Inductive CompatThrow : Type :=
| CompatCall (e : CallError)
| CompatCanonical (e : CanonicalizationError)
| CompatCrypto          (** the seal or the opening threw *)
| CompatType            (** a property read off [null] or [undefined], a body that is not JSON *)
| NoResponseKey
| CompatHandler (t : Thrown).

Section Compat.
Context `{U : Unicode} `{C : Crypto} `{H : Hpke}.

(** What is read off the body of the request. *)
Definition compat_input (body : jsval) : jsval :=
  VObj ((fun k => (k, js_get_opt body k)) <$> ["model"; "messages"; "temperature"; "max_tokens"]).
Definition lift_compat {A} (o : option A) (e : CompatThrow) : res CompatThrow A := match o with Some a => Ok a | None => Err e end.

(** The id is a UUID without its dashes: sixteen bytes in hexadecimal. *)
Definition buildSecureEnvelope (attestation : res CallError AttestationBundle) (body : jsval) (r : ClientRandom)
    : SE ResponseKeys CompatThrow SecureRequestEnvelope :=
  bundle ← se_lift (map_err CompatCall attestation);
  canonical ← se_lift (map_err CompatCanonical (toCanonicalRequest (compat_input body)));
  let '(publicKeyB64, privateKeyB64) := generateHpkeKeyPair (cr_keySeed r) in
  let requestId := "req_" +:+ randomHex (cr_requestId r) in
  _ ← se_modify (fun keys => map_set keys requestId privateKeyB64);
  text ← se_lift (lift_compat (stringify (payload_val
           {| pl_request := canonical; pl_requestNonce := randomHex (cr_nonce r); pl_responsePublicKey := publicKeyB64 |})) CompatCrypto);
  aad ← se_lift (map_err CompatCanonical (canonicalJson (header_val (cr_model canonical))));
  sealed ← se_lift (lift_compat (hpkeSeal (ab_ingressPublicKey bundle) (cr_eph r) text (Some aad)) CompatCrypto);
  mret (envelope_of bundle requestId (cr_model canonical) sealed).

Definition openResponse (requestId : string) (encrypted : jsval) : SE ResponseKeys CompatThrow jsval := fun keys =>
  let privateKey := map_get keys requestId in
  (map_delete keys requestId,
   match privateKey with
   | None => Err NoResponseKey
   | Some k =>
       if str_empty k then Err NoResponseKey
       else opened ← lift_compat (as_box encrypted ≫= fun box => hpkeOpen k box None) CompatCrypto;
            lift_compat (JSON_parse (text_decode opened)) CompatType
   end).

(** *** The handler *)
Definition compat_check (body : jsval) : option Reply :=
  if truthy (js_get_opt body "model") && (match js_get_opt body "messages" with VArr _ => true | _ => false end) then None
  else Some (refusal 400 (VStr "CTN_INVALID_ENVELOPE") (VStr "model and messages are required")).
(** [a + b] of the token counts, which the enclave sends as integers. *)
Definition plus (a b : jsval) : jsval := match a, b with VNum (Fin x), VNum (Fin y) => VNum (Fin (js_add x y)) | _, _ => VNum NaN end.
Definition openai_reply (requestId : string) (created : Z) (result decoded : jsval) : res CompatThrow Reply :=
  model ← lift_compat (js_get decoded "model") CompatType;
  usage ← lift_compat (js_get decoded "usage") CompatType;
  input ← lift_compat (js_get usage "inputTokens") CompatType;
  let output := js_get_opt usage "outputTokens" in
  Ok {| rp_code := 200; rp_body := VObj [
    ("id", VStr ("chatcmpl-" +:+ requestId)); ("object", VStr "chat.completion"); ("created", vint created); ("model", model);
    ("choices", VArr [VObj [("index", vint 0); ("message", VObj [("role", VStr "assistant"); ("content", js_get_opt decoded "content")]);
                            ("finish_reason", VStr "stop")]]);
    ("usage", VObj [("prompt_tokens", input); ("completion_tokens", output); ("total_tokens", plus input output)]);
    ("ctn", VObj [("request_id", VStr requestId); ("privacy_mode", VStr "compatibility");
       ("privacy_note", VStr "TLS terminated at the coordinator, so this endpoint does not provide operator-blind prompt confidentiality. Use /v1/secure/chat/completions for that.");
       ("receipt", js_get_opt result "receipt"); ("route", js_get_opt result "route"); ("trust_status", VStr "COMPATIBILITY")])] |}.

(** [err.message] of what stopped the sealing. *)
Context (message : CompatThrow -> string).
(** [run] is [runSecureRequest] in compatibility mode; [created] the second of the answer. *)
Definition compat_post (attestation : res CallError AttestationBundle) (body : jsval) (r : ClientRandom) (created : Z)
    (run : SecureRequestEnvelope -> res Thrown Reply) : SE ResponseKeys CompatThrow Reply := fun keys =>
  match compat_check body with
  | Some refusal => (keys, Ok refusal)
  | None =>
      match buildSecureEnvelope attestation body r keys with
      | (keys, Err (CompatCall EnclaveUnavailable)) => (keys, Ok unavailable)
      | (keys, Err e) => (keys, Ok (refusal 400 (VStr "CTN_INVALID_ENVELOPE") (VStr (message e))))
      | (keys, Ok envelope) =>
          match run envelope with
          | Err t => (keys, Err (CompatHandler t))
          | Ok reply =>
              if negb (rp_code reply =? 200) then (keys, Ok reply)
              else match openResponse (env_requestId envelope) (js_get_opt (rp_body reply) "encrypted_response") keys with
                   | (keys, Err e) => (keys, Err e)
                   | (keys, Ok decoded) => (keys, openai_reply (env_requestId envelope) created (rp_body reply) decoded)
                   end
          end
      end
  end.
End Compat.

(** ** It seals as the client does *)
Section facts.
Context `{U : Unicode} `{C : Crypto} `{H : Hpke}.
Lemma built_as_sealed bundle body r envelope key nonce keys : sealRequest bundle (compat_input body) r = Ok (envelope, key, nonce) ->
  buildSecureEnvelope (Ok bundle) body r keys = (map_set keys (env_requestId envelope) key, Ok envelope).
Proof.
  unfold sealRequest, buildSecureEnvelope. destruct (toCanonicalRequest (compat_input body)) as [canonical|e]; [|done]. cbn [map_err mbind res_bind].
  destruct (generateHpkeKeyPair (cr_keySeed r)) as [pub priv]. unfold mbind, SE_bind, se_lift, se_modify, map_err, res_bind, opt_or, lift_compat.
  destruct (stringify _) as [text|]; [|done]. destruct (canonicalJson _) as [aad|]; [|done]. destruct (hpkeSeal _ _ _ _) as [sealed|]; [|done].
  by intros [= <- <- <-].
Qed.

(** A key is used at most once: the second opening finds none. *)
Lemma openResponse_single_use id box box' keys : (openResponse id box' (openResponse id box keys).1).2 = Err NoResponseKey.
Proof. unfold openResponse. cbn [fst snd]. by rewrite map_get_delete. Qed.
End facts.

(** ** The whole path *)
Section served.
Context `{U : Unicode} `{C : Crypto} `{W : Url} `{H : Hpke} `{N : NodeCrypto} `{Lo : LowerCaseOk}.
Context `{!UnicodeOk U} `{!CryptoOk C} `{!HpkeOk H}.
Context (message : CompatThrow -> string) (created : Z) (bundle : AttestationBundle) (body : jsval) (rnd : ClientRandom) (keys : ResponseKeys).
Local Abbreviation id := (request_id rnd).
Local Abbreviation key := (generateHpkeKeyPair (cr_keySeed rnd)).2.

(** An error of the coordinator, passed on; the key of the response stays in memory. *)
Definition passed_on (code : string) (result : ResponseKeys * res CompatThrow Reply) : Prop :=
  exists reply, result.2 = Ok reply /\ rp_code reply <> 200 /\ shown reply ["error"; "code"] = VStr code /\ map_get result.1 id = Some key.
(** The provider's answer in the shape of the OpenAI API; the key is gone. *)
Definition completed_as (model : string) (answer : ProviderResponse) (result : ResponseKeys * res CompatThrow Reply) : Prop :=
  exists reply, result.2 = Ok reply /\ rp_code reply = 200 /\ shown reply ["id"] = VStr ("chatcmpl-" +:+ id) /\ shown reply ["model"] = VStr model /\
    shown reply ["choices"] = VArr [VObj [("index", vint 0); ("message", VObj [("role", VStr "assistant"); ("content", VStr (rs_content answer))]);
                                          ("finish_reason", VStr "stop")]] /\
    shown reply ["usage"; "prompt_tokens"] = vint (rs_inputTokens answer) /\ shown reply ["usage"; "completion_tokens"] = vint (rs_outputTokens answer) /\
    shown reply ["ctn"; "trust_status"] = VStr "COMPATIBILITY" /\ map_get result.1 id = None.

Lemma post_error run envelope reply code : compat_check body = None -> env_requestId envelope = id ->
  sealRequest bundle (compat_input body) rnd = Ok (envelope, key, randomHex (cr_nonce rnd)) ->
  run envelope = Ok reply -> rp_code reply <> 200 -> shown reply ["error"; "code"] = VStr code ->
  passed_on code (compat_post message (Ok bundle) body rnd created run keys).
Proof.
  intros Hc Hid Hs Hrun Hcode He. unfold compat_post. rewrite Hc, (built_as_sealed _ _ _ _ _ _ keys Hs), Hrun.
  rewrite (proj2 (Z.eqb_neq _ _) Hcode). cbn [negb]. exists reply. split_and!; try done. cbn [fst]. rewrite Hid. apply map_get_set.
Qed.
Lemma post_complete run envelope b sel receipt box text requestId model answer : compat_check body = None -> env_requestId envelope = id ->
  str_empty key = false ->
  sealRequest bundle (compat_input body) rnd = Ok (envelope, key, randomHex (cr_nonce rnd)) ->
  run envelope = Ok (complete_reply id b sel receipt) -> eb_encryptedResponse b = Some box -> hpkeOpen key box None = Some text ->
  JSON_parse (text_decode text) = Some (response_val requestId model answer) ->
  completed_as model answer (compat_post message (Ok bundle) body rnd created run keys).
Proof.
  intros Hc Hid Hk Hs Hrun Hbox Hopen Hparse. unfold compat_post. rewrite Hc, (built_as_sealed _ _ _ _ _ _ keys Hs), Hrun, Hid.
  change (rp_code (complete_reply id b sel receipt) =? 200) with true. cbn [negb].
  assert (He : js_get_opt (rp_body (complete_reply id b sel receipt)) "encrypted_response" = box_val (Some box)) by (rewrite <-Hbox; done). rewrite He.
  unfold openResponse. rewrite map_get_set, Hk. destruct box as [enc ciphertext].
  change (as_box (box_val (Some {| sb_enc := enc; sb_ciphertext := ciphertext |}))) with (Some {| sb_enc := enc; sb_ciphertext := ciphertext |}).
  cbn [mbind option_bind]. rewrite Hopen. cbn [lift_compat mbind res_bind]. rewrite Hparse. cbn [lift_compat].
  eexists. split; [reflexivity|]. unfold shown. cbn. split_and!; try done. apply map_get_delete.
Qed.
End served.

(** C14. The compatibility endpoint answers like the provider, and forgets the key only
    then.  For a deployment in which a request can be served, an accepted body is
    decided on by the enclave as its canonical request; an allowed request that
    completes is answered 200 in the shape of the OpenAI API with the provider's
    content and counts, labelled COMPATIBILITY, and its response key is discarded;
    a denial, a lack of capacity or a failed dispatch is passed on with its error
    code, and then the key stays in the coordinator's memory. *)
Theorem compat_completion `{Unicode} `{Crypto} `{Url} `{Hpke} `{NodeCrypto} `{LowerCaseOk} `{!UnicodeOk _} `{!CryptoOk _} `{!HpkeOk _}
    D M seed bundle rules policyId rnd body canonical message created keys :
  serviceable D M seed bundle rules policyId rnd -> str_empty (generateHpkeKeyPair (cr_keySeed rnd)).2 = false ->
  compat_check body = None -> toCanonicalRequest (compat_input body) = Ok canonical -> texts_ok (request_val canonical) = true ->
  exists o authorized record,
    go_canonical o = canonical /\
    request_commitment_of canonical (randomHex (cr_nonce rnd)) = Ok (go_commitment o) /\
    go_decision o = pe_decision (evaluateRequest rules (cm_content <$> cr_messages canonical)) /\
    let result := compat_post message (Ok bundle) body rnd created (coordinate D M compatibility) keys in
    match go_decision o with
    | DENY => passed_on rnd "CTN_POLICY_DENIED" result
    | ALLOW =>
        ar_request authorized = canonical /\ ar_requestCommitment authorized = go_commitment o /\
        let '(_, c2, _) := mo_clocks M in
        match candidates (dp_localeCompare D) (cr_model canonical) policyId (ck_now c2) (lg_credentials (db_ledger (mo_db M))) with
        | [] => passed_on rnd "CTN_NO_CAPACITY" result
        | found =>
            let '(sent, r) := runDispatch (dp_egress_env D) (dp_registry D) (dp_vaultKey D) (dp_tee D) o authorized found record (mo_dispatch M) in
            match r, ds_success sent with
            | Ok _, Some (answer, _) => well_formed (rs_content answer) = true -> completed_as rnd (cr_model canonical) answer result
            | Ok _, None => passed_on rnd (failure_code (ds_lastFailure sent)) result
            | Err _, _ => passed_on rnd "CTN_INTERNAL" result
            end
        end
    end.
Proof.
  intros Hsv Hkey Hcheck Hcan Htexts. destruct (enclave_serves _ _ _ _ _ _ _ _ _ Hsv Hcan Htexts)
    as (e & o & w & authorized & record & Hseal & Hid & Hmodel & Hgate & Hoid & Hoc & Hcommit & Hdec & Hpol & Hpk & Hallow).
  exists o, authorized, record. split; [exact Hoc|]. split; [exact Hcommit|]. split; [exact Hdec|]. cbv zeta.
  pose proof (sv_fresh _ _ _ _ _ _ _ Hsv) as Hfresh. pose proof (sv_issued _ _ _ _ _ _ _ Hsv) as Hissued.
  pose (execute := fun cands => execute_answer (dp_dispatch_message D)
    (runDispatch (dp_egress_env D) (dp_registry D) (dp_vaultKey D) (dp_tee D) o authorized cands record (mo_dispatch M)).2).
  pose proof (coordinate_reply D M compatibility e w o execute) as Hrun. rewrite Hid in Hrun. specialize (Hrun Hfresh Hgate).
  destruct (mo_clocks M) as [[c1 c2] c3]. destruct Hrun as (reply & Hrun & Hcode & Hbody & Herr).
  { intros Hal. by apply Hallow. }
  { intros cands. apply run_answer_ok. }
  assert (Hpass : forall code, oc_code (request_outcome (dp_localeCompare D) c2 c3 e (lg_credentials (db_ledger (mo_db M))) (Ok (gate_result o)) execute) <> 200 ->
    shown reply ["error"; "code"] = VStr code -> passed_on rnd code (compat_post message (Ok bundle) body rnd created (coordinate D M compatibility) keys)).
  { intros code Hne He. eapply post_error; try eassumption. by rewrite Hcode. }
  unfold request_outcome, verdict_outcome in *. rewrite Hid, Hmodel, Hpol in *. cbn [gt_decision gate_result] in *.
  destruct (go_decision o); [|apply Hpass; [done|by apply Herr]].
  destruct (Hallow eq_refl) as (Hreq & Hcm & _). split; [exact Hreq|]. split; [exact Hcm|].
  destruct (candidates _ _ _ _ _) as [|cand cands]; [apply Hpass; [done|by apply Herr]|].
  unfold execute in *. destruct (runDispatch _ _ _ _ _ _ _ _ _) as [sent r] eqn:Hr. cbn [snd] in *.
  destruct r as [b|t]; [|apply Hpass; [done|by apply Herr]].
  destruct (run_answer _ _ _ _ _ _ _ _ _ _ _ Hr) as [_ Hs]. unfold execute_outcome in *. cbn [execute_answer map_err] in *.
  destruct (ds_success sent) as [[answer sel]|] eqn:Hsu.
  - destruct Hs as (Hst & Hse & [rc Hrc] & _). rewrite Hst, Hse, Hrc in *. cbn [completion oc_code oc_body oc_error] in *. intros Hw.
    destruct (dispatch_receipt _ _ _ _ _ _ _ _ _ _ _ (cr_keySeed rnd) Hr Hst) as (r' & s' & sig & box & text & Hsu' & _ & _ & Hbox & Hopen & Htext & Hparse & _); [by apply Hissued|done|].
    rewrite Hsu in Hsu'. injection Hsu' as <- <-. rewrite Hreq in *.
    assert (Htd : text_decode text = text) by (subst text; apply response_decodes; [rewrite Hoid; apply request_id_well_formed|done|done]).
    eapply post_complete; try eassumption; [|by rewrite Htd].
    rewrite Hrun. f_equal. destruct reply as [code rb]. cbn in *. subst code. by rewrite (Hbody _ eq_refl).
  - pose proof (complete_fields _ _ _ _ _ _ _ _ _ _ _ Hr) as Hf. rewrite Hsu in Hf. destruct Hf as [m He].
    rewrite Hs in *. cbn [dispatch_failure oc_code oc_body oc_error] in *. rewrite He in *. apply Hpass; [done|by apply Herr].
Qed.

(** ** Examples *)
Definition ex_found : list CandidateRecord := candidates js_compare "gpt-4o-2024-08-06" "0xp" 30 (lg_credentials (db_ledger ex_openai_db)).
Lemma compat_completion_witness : exists bundle o authorized record,
  ex_issued = Ok bundle /\ go_decision o = ALLOW /\ toCanonicalRequest ex_input = Ok (go_canonical o) /\ length ex_found = 1%nat /\
  let result := compat_post (fun _ => "") (Ok bundle) ex_input ex_rnd 40 (coordinate ex_deployment ex_moment compatibility) [] in
  let '(sent, r) := runDispatch "" (buildRegistry "http://mock") ex_dek ex_tee o authorized ex_found record (mo_dispatch ex_moment) in
  match r, ds_success sent with
  | Ok _, Some (answer, _) => well_formed (rs_content answer) = true -> completed_as ex_rnd "gpt-4o-2024-08-06" answer result
  | Ok _, None => passed_on ex_rnd (failure_code (ds_lastFailure sent)) result
  | Err _, _ => passed_on ex_rnd "CTN_INTERNAL" result
  end.
Proof.
  assert (Hi : is_ok ex_issued = true) by (vm_compute; reflexivity).
  destruct ex_issued as [bundle|] eqn:He; [|discriminate Hi].
  assert (Hr : exists canonical, toCanonicalRequest (compat_input ex_input) = Ok canonical /\ toCanonicalRequest ex_input = Ok canonical /\
    cr_model canonical = "gpt-4o-2024-08-06" /\ texts_ok (request_val canonical) = true /\ pe_decision (evaluateRequest ex_rules (cm_content <$> cr_messages canonical)) = ALLOW).
  { eexists. split; [vm_compute; reflexivity|]. split; [vm_compute; reflexivity|]. split; [reflexivity|]. split; vm_compute; reflexivity. }
  destruct Hr as (canonical & Hcan & Hcan' & Hmodel & Htexts & Hal).
  destruct (compat_completion ex_deployment ex_moment "ingress" bundle ex_rules "0xp" ex_rnd ex_input canonical (fun _ => "") 40 []
    (ex_serviceable _ He)) as (o & authorized & record & Hoc & _ & Hdec & Hres);
    [vm_compute; reflexivity|vm_compute; reflexivity|exact Hcan|exact Htexts|].
  rewrite Hal in Hdec. cbv zeta in Hres. rewrite Hdec in Hres. destruct Hres as (_ & _ & Hres). cbn [mo_clocks ex_moment] in Hres. rewrite Hmodel in Hres.
  exists bundle, o, authorized, record. split; [reflexivity|]. split; [exact Hdec|]. split; [rewrite Hoc; exact Hcan'|].
  change (candidates _ _ _ _ _) with ex_found in Hres.
  assert (Hlen : length ex_found = 1%nat) by (vm_compute; reflexivity). split; [exact Hlen|].
  destruct ex_found as [|cand l]; [discriminate Hlen|]. exact Hres.
Defined.

(** The key of a request that does not complete is never removed. *)
Example response_key_leaks bundle : ex_issued = Ok bundle ->
  (compat_post (fun _ => "") (Ok bundle) ex_input ex_rnd 40 (fun _ => Ok unavailable) []).1 =
    [(request_id ex_rnd, (generateHpkeKeyPair (cr_keySeed ex_rnd)).2)].
Proof.
  assert (Hc : match ex_issued with
    | Ok b => bool_decide ((compat_post (fun _ => "") (Ok b) ex_input ex_rnd 40 (fun _ => Ok unavailable) []).1 =
        [(request_id ex_rnd, (generateHpkeKeyPair (cr_keySeed ex_rnd)).2)])
    | Err _ => false end = true) by (vm_compute; reflexivity).
  intros He. rewrite He in Hc. apply bool_decide_eq_true in Hc. exact Hc.
Qed.
