(* ===== verification/Labels.v ===== *)
(** * The label and the proof (GET /proofs of tee-sim/src/index.ts, watchProof of the coordinator)

    The coordinator's watcher reads the enclave's record of a proof through one
    endpoint; joined over it, the two processes are one system, in which the label
    of a request can be traced to what the prover did. *)

From S2P Require Import Prelude JsNum Utf8 Json Unicode Canonical Types Crypto Policy JsMap Authorize Pricing Providers Insights Gates Hpke Tee ProofVerify ProverClient Prover GateRequest Dispatch Logs Routing Events Coordinator Trust Client EndToEnd Onboarding Reads.
Local Open Scope Z_scope.

(** ** The page of a proof *)
Definition journal_val (j : PolicyJournal) : jsval :=
  VObj [("protocolVersion", vint (j_protocolVersion j)); ("requestCommitment", VStr (j_requestCommitment j)); ("policyId", VStr (j_policyId j));
        ("decision", VStr (decision_str (j_decision j))); ("proofNonce", VStr (j_proofNonce j))].
Definition wire_val (a : ProofArtifactWireV1) : jsval :=
  VObj [("proofSystem", VStr "risc0"); ("risc0Version", VStr (Types.pw_risc0Version a)); ("receiptCodec", VStr "bincode-v1"); ("receiptB64", VStr (Types.pw_receiptB64 a)); ("imageId", VStr (Types.pw_imageId a));
        ("journalVersion", vint (Types.pw_journalVersion a)); ("decodedJournal", journal_val (Types.pw_decodedJournal a))].
Definition check_val (c : SubprocessCheck) : jsval :=
  VObj [("name", VStr (sc_name c)); ("pass", VBool (sc_pass c)); ("detail", opt_str (sc_detail c))].
Definition binding_wire (b : SignedProofBindingV2) : jsval :=
  VObj [("binding", proof_binding_val (spb_binding b)); ("enclaveSignature", VStr (spb_enclaveSignature b))].

(** What every state says first. *)
Definition base (requestId : string) (rc : ProofRecord) : object :=
  [("requestId", VStr requestId); ("proofSystem", VStr "risc0"); ("proofNonce", VStr (rec_proofNonce rc))].
Definition get_proof_state (signingPublicKey requestId : string) (ps : PState) : Reply :=
  match get ps requestId with
  | None => {| rp_code := 404; rp_body := VObj [("status", VStr "NOT_REQUIRED")] |}
  | Some rc =>
      ok_reply (VObj (base requestId rc ++
        match rec_state rc with
        | PQueued _ => [("status", VStr "QUEUED"); ("proofVerified", VBool false)]
        | PProving _ => [("status", VStr "PROVING"); ("proofVerified", VBool false)]
        | PFailed error ms => [("status", VStr "FAILED"); ("proofVerified", VBool false); ("error", VStr error); ("proofMs", vint ms)]
        | PGenerated a digest ms =>
            [("status", VStr "GENERATED"); ("proofVerified", VBool false); ("proofMs", vint ms); ("imageId", VStr (pa_imageId a));
             ("decodedJournal", journal_val (pa_decodedJournal a)); ("artifactDigest", VStr digest); ("artifact", wire_val (artifactToWire a))]
        | PVerified a digest receiptDigest binding v ms =>
            [("status", VStr "VERIFIED"); ("proofVerified", VBool true); ("proofMs", vint ms); ("imageId", VStr (pa_imageId a));
             ("decodedJournal", journal_val (pa_decodedJournal a)); ("artifactDigest", VStr digest);
             ("decisionReceiptDigest", VStr receiptDigest);
             ("verification", VObj [("ok", VBool (sv_ok v)); ("checks", VArr (check_val <$> sv_checks v))]);
             ("artifact", wire_val (artifactToWire a)); ("binding", binding_wire binding); ("enclaveSigningPublicKey", VStr signingPublicKey)]
        end))
  end.

(** What the coordinator reads of it. *)
Definition present (v : jsval) : option jsval := match v with VUndef => None | v => Some v end.
Definition proof_response (json : jsval) : ProofResponse := {|
  pw_status := default "" (as_str (js_get_opt json "status")); pw_proofVerified := truthy (js_get_opt json "proofVerified");
  pw_proofMs := match js_get_opt json "proofMs" with VNum n => safe_int n | _ => None end; pw_error := as_str (js_get_opt json "error");
  pw_imageId := as_str (js_get_opt json "imageId"); pw_artifactDigest := as_str (js_get_opt json "artifactDigest");
  pw_decisionReceiptDigest := as_str (js_get_opt json "decisionReceiptDigest"); pw_artifact := present (js_get_opt json "artifact");
  pw_binding := present (js_get_opt json "binding") |}.
Definition poll_answer (r : Reply) : res CallError ProofResponse :=
  json ← call (Response (rp_code r) (Some (reparsed (rp_body r)))); Ok (proof_response json).

(** A poll is answered with the state of the record, as it is then. *)
Lemma poll_reads signingPublicKey requestId ps : match get ps requestId with
  | None => poll_answer (get_proof_state signingPublicKey requestId ps) = Err EnclaveUnavailable
  | Some rc => exists res, poll_answer (get_proof_state signingPublicKey requestId ps) = Ok res /\
      pw_status res = proof_status_str (status (rec_state rc)) /\ (pw_proofVerified res = true <-> status (rec_state rc) = VERIFIED)
  end.
Proof.
  unfold get_proof_state. destruct (get ps requestId) as [rc|]; [|done]. eexists. split; [by destruct rc as [[]]|]. by destruct rc as [[]].
Qed.

(** ** The two processes *)
Section joint.
Context `{U : Unicode} `{C : Crypto} `{H : Hpke} `{N : NodeCrypto} `{L : LowerCase}.
Context (json_error type_error : string -> string) (crypto_message : CryptoError -> string) (p : Prover).
Context (to_upper : string -> string) (js_text : jsval -> string) (iso : Z -> string).
Context (localeCompare : string -> string -> comparison) (COOLDOWN_MS : Z).

Inductive JointEvent : Type :=
| ToCoordinator (e : CEvent)
| InProver (e : Prover.Event)
| Polled (j : nat) (now : Z).   (** watcher [j] asks, and the enclave answers *)
Record Joint : Type := { jt_world : CWorld; jt_prover : System }.
Definition joint_init : Joint := {| jt_world := cworld_empty; jt_prover := sys_init |}.
Local Abbreviation cstep' := (cstep to_upper js_text iso localeCompare COOLDOWN_MS).

(** Only the enclave reports on proofs; a call may still fail. *)
Definition own_event (e : CEvent) : bool := match e with ProofAnswers _ _ (Ok _) => false | _ => true end.
Definition joint_step (s : Joint) (e : JointEvent) : Joint :=
  match e with
  | ToCoordinator ev => if own_event ev then {| jt_world := (cstep' (jt_world s) ev).1; jt_prover := jt_prover s |} else s
  | InProver ev => {| jt_world := jt_world s; jt_prover := sys_step json_error type_error crypto_message p (jt_prover s) ev |}
  | Polled j now =>
      match cw_watchers (jt_world s) !! j with
      | Some (Some x) =>
          let reply := get_proof_state (tee_signingPublicKey (pv_tee p)) (wt_requestId x) (sy_state (jt_prover s)) in
          {| jt_world := (cstep' (jt_world s) (ProofAnswers j now (poll_answer reply))).1; jt_prover := jt_prover s |}
      | _ => s
      end
  end.
Definition joint_run (evs : list JointEvent) : Joint := foldl joint_step joint_init evs.
Definition prover_events (evs : list JointEvent) : list Prover.Event := omap (fun e => match e with InProver e => Some e | _ => None end) evs.

Lemma joint_snoc evs e : joint_run (evs ++ [e]) = joint_step (joint_run evs) e.
Proof. unfold joint_run. by rewrite foldl_app. Qed.
Lemma joint_prover evs : jt_prover (joint_run evs) = sys_run json_error type_error crypto_message p (prover_events evs).
Proof.
  induction evs as [|e evs IH] using rev_ind; [done|]. rewrite joint_snoc. unfold prover_events in *. rewrite omap_app. unfold sys_run in *.
  rewrite fold_left_app, <-IH. destruct e as [ev|ev|j now]; cbn [joint_step]; [by destruct (own_event ev)|done|].
  by destruct (cw_watchers _ !! j) as [[x|]|].
Qed.

(** The record of the request was VERIFIED at some point of the history. *)
Definition proved (evs : list JointEvent) (id : string) : Prop :=
  exists pre post rc, evs = pre ++ post /\ get (sy_state (jt_prover (joint_run pre))) id = Some rc /\ status (rec_state rc) = VERIFIED.
Lemma proved_more evs e id : proved evs id -> proved (evs ++ [e]) id.
Proof. intros (pre & post & rc & -> & Hr). exists pre, (post ++ [e]), rc. split; [by rewrite <-(assoc_L (++))|done]. Qed.

Lemma joint_winv evs : winv (proved evs) (jt_world (joint_run evs)).
Proof.
  induction evs as [|e evs IH] using rev_ind; [split; [constructor|split; constructor]|].
  assert (Hw : winv (proved (evs ++ [e])) (jt_world (joint_run evs))).
  { destruct IH as [Hnd Ht]. split; [done|]. eapply table_evidence; [|exact Ht]. intros id. apply proved_more. }
  rewrite joint_snoc. destruct e as [ev|ev|j now]; cbn [joint_step jt_world]; [|exact Hw|].
  - destruct (own_event ev) eqn:Ho; [|exact Hw]. apply winv_step; [exact Hw|]. by intros j now res x -> _ _ _.
  - destruct (cw_watchers (jt_world (joint_run evs)) !! j) as [[x|]|] eqn:Hj; [|exact Hw..]. apply winv_step; [exact Hw|].
    intros j' now' res x' He Hj' Hs Hv. injection He as <- <- He. rewrite Hj in Hj'. injection Hj' as <-.
    pose proof (poll_reads (tee_signingPublicKey (pv_tee p)) (wt_requestId x) (sy_state (jt_prover (joint_run evs)))) as Hp.
    destruct (get _ (wt_requestId x)) as [rc|] eqn:Hg; [|by rewrite Hp in He]. destruct Hp as (res' & Hp & _ & Hpv). rewrite Hp in He. injection He as <-.
    exists evs, [Polled j now], rc. split_and!; [done|done|by apply Hpv].
Qed.
End joint.

(** C5. The label stands for a proof.  In every history of the coordinator and the
    enclave's prover, with the watchers' polls answered from its records: a request
    labelled CONFIDENTIAL_VERIFIED is a COMPLETE one of the secure endpoint for which
    the prover, at some point, held a VERIFIED record - of a task started with that
    nonce and re-executed to the same verdict, whose receipt bytes the reference
    verifier accepted for the gate's commitment, decision and nonce, under a binding
    that verifies against the enclave's key. *)
Theorem verified_label `{Unicode} `{Crypto} `{Hpke} `{NodeCrypto} `{LowerCase} `{!CryptoOk _}
    json_error type_error crypto_message p to_upper js_text iso localeCompare COOLDOWN_MS evs :
  let run := joint_run json_error type_error crypto_message p to_upper js_text iso localeCompare COOLDOWN_MS in
  Forall (fun r => col r "trust_status" = VStr "CONFIDENTIAL_VERIFIED" ->
    col r "status" = VStr "COMPLETE" /\ col r "privacy_mode" = VStr "secure" /\
    exists id pre post rc a digest receiptDigest binding v ms,
      col r "id" = VStr id /\ evs = pre ++ post /\ get (sy_state (jt_prover (run pre))) id = Some rc /\
      rec_state rc = PVerified a digest receiptDigest binding v ms /\
      record_ok json_error type_error p (prover_events pre) id rc) (db_requests (cw_db (jt_world (run evs)))).
Proof.
  intros run. destruct (joint_winv json_error type_error crypto_message p to_upper js_text iso localeCompare COOLDOWN_MS evs) as [_ [Hall _]].
  eapply Forall_impl; [exact Hall|]. intros r [(id & m & Hid & Hm & _ & Hv) _ _] Ht. destruct (Hv Ht) as (Hst & -> & pre & post & rc & He & Hg & Hver).
  split; [done|]. split; [done|]. destruct (rec_state rc) as [| | |a digest rd b v ms|] eqn:Hrc; try done.
  exists id, pre, post, rc, a, digest, rd, b, v, ms. split_and!; try done.
  rewrite joint_prover in Hg. destruct (sys_run_ok json_error type_error crypto_message p (prover_events pre)) as [Hok _]. by apply Hok.
Qed.

(** ** An example: a request completed, proved and labelled *)
Definition ex_joint_events : list JointEvent :=
  (ToCoordinator <$> ex_setup) ++ [ToCoordinator (ExecuteAnswers 0 (ex_clock 40) (Ok ex_body)); InProver (Start "req_1" ex_witness "0xn" 0); Polled 0 45] ++
  (InProver <$> [Resume 0 (WProve (Ok "j1")) 20; Resume 0 (WPoll (Ok (ex_job "GENERATED" false))) 1000050; Resume 0 (WVerify Prover.ex_env) 1000060]) ++
  [Polled 0 2000].
Definition ex_joint : Joint :=
  joint_run (fun s => s) (fun s => s) (fun _ => "") ex_prover (fun s => s) (fun _ => "") ex_iso js_compare 60000 ex_joint_events.

Lemma verified_label_witness :
  (fun r => (col r "id", col r "trust_status")) <$> db_requests (cw_db (jt_world ex_joint)) = [(VStr "req_1", VStr "CONFIDENTIAL_VERIFIED")] /\
  exists r, r ∈ db_requests (cw_db (jt_world ex_joint)) /\ col r "status" = VStr "COMPLETE".
Proof.
  assert (Hl : (fun r => (col r "id", col r "trust_status")) <$> db_requests (cw_db (jt_world ex_joint)) = [(VStr "req_1", VStr "CONFIDENTIAL_VERIFIED")])
    by (vm_compute; reflexivity).
  split; [exact Hl|]. pose proof (verified_label (fun s => s) (fun s => s) (fun _ => "") ex_prover (fun s => s) (fun _ => "") ex_iso js_compare 60000 ex_joint_events) as Hv.
  cbv zeta in Hv. revert Hv Hl. unfold ex_joint. generalize (db_requests (cw_db (jt_world (joint_run (fun s => s) (fun s => s) (fun _ => "") ex_prover (fun s => s) (fun _ => "") ex_iso js_compare 60000 ex_joint_events)))). intros rows Hv Hl.
  destruct rows as [|r rows]; [discriminate Hl|]. injection Hl as _ Hl _. assert (Hr : r ∈ r :: rows) by left. exact (ex_intro _ r (conj Hr (proj1 (Forall_inv Hv Hl)))).
Defined.
