(* ===== verification/ReceiptCli.v ===== *)
(** * The receipt checker of a terminal (scripts/verify-receipt.ts)

    [main] from the bundle, the attested keys and the pinned manifest to the exit
    status.  Every printed check, note and verdict is a line of the state, whose other
    part is the module's [failures]; headings and colours are left out. *)

From S2P Require Import Prelude JsNum Utf8 Json Unicode Canonical Stringify Types Crypto Authorize Hpke Tee EnclaveVerify ReceiptVerify Dispatch Logs Events Labels.
From Stdlib Require Import QArith.
Local Open Scope Z_scope.

Inductive CliLine : Type :=
| Checked (pass : bool) (name : string) (detail : jsval)
| DelegatedTo (name detail : string)
| Noted
| Verdict (verified : bool).
Record Cli : Type := { cl_failures : Z; cl_lines : list CliLine }.
Definition cli_init : Cli := {| cl_failures := 0; cl_lines := [] |}.
(** [process.exit(code)], or a throw that reaches the handler of [main]. *)
Inductive Stop : Type := Exit (code : Z) | Uncaught.

(** The fields of the JSON, whatever they hold. *)
Record Bundle : Type := { bd_signed_receipt : jsval; bd_proof_artifact : jsval; bd_proof_binding : jsval }.
Record Keys : Type := { ky_enclaveSigningPublicKey : jsval; ky_policyId : jsval; ky_guestImageId : jsval }.

(** The file system and the reference verifier: whether the binary exists, whether a
    temporary file can be written, and what running the binary with these arguments
    gives - whether it exited with 0, and its standard output.  [ce_text] is the text of
    an argument that is not a string. *)
Record CliEnv : Type := {
  ce_exists : bool;
  ce_dir : option string;
  ce_write : string -> string -> bool;
  ce_run : list string -> bool * string;
  ce_text : jsval -> string;
  ce_release : string;
  ce_policy : string;
}.
Record ProverVerdict : Type := { pv_available : bool; pv_ok : bool; pv_firstFailure : option string }.

Section cli.
Context `{U : Unicode} `{C : Crypto} `{L : LowerCase}.
(** The JSON text of a value with a fraction in it, which [stringify] leaves open. *)
Context (fraction_text : jsval -> string).

(** ** Printing *)
Definition line (l : CliLine) : SE Cli Stop unit :=
  se_modify (fun s => {| cl_failures := cl_failures s; cl_lines := cl_lines s ++ [l] |}).
Definition failed (pass : bool) : SE Cli Stop unit :=
  se_modify (fun s => {| cl_failures := cl_failures s + (if pass then 0 else 1); cl_lines := cl_lines s |}).
Definition check (pass : bool) (name : string) (detail : jsval) : SE Cli Stop unit :=
  _ ← failed pass; line (Checked pass name detail).
Definition delegated (name detail : string) : SE Cli Stop unit := line (DelegatedTo name detail).
Definition note : SE Cli Stop unit := line Noted.
Definition read {A} (o : option A) : SE Cli Stop A := se_lift (match o with Some a => Ok a | None => Err Uncaught end).

(** ** What it reads *)
Definition loadManifest (m : option jsval) : SE Cli Stop VerifyManifest :=
  m ← read m;
  imageIdHex ← read (js_get m "imageIdHex");
  mret {| vm_imageIdHex := imageIdHex; vm_policyId := js_get_opt m "policyId"; vm_rulesDigest := js_get_opt m "rulesDigest";
          vm_journalVersion := js_get_opt m "journalVersion"; vm_receiptCodec := js_get_opt m "receiptCodec" |}.
(** [attestation]: the JSON of a 2xx answer. *)
Definition loadKeys (attestation : option jsval) : SE Cli Stop Keys :=
  attestation ← read attestation;
  attested ← read (bundle ← js_get attestation "bundle"; document ← js_get bundle "document";
                   userData ← js_get document "userData"; js_get userData "signingPublicKey");
  let presented := js_get_opt (js_get_opt attestation "bundle") "enclaveSigningPublicKey" in
  _ ← se_guard (js_strict_eq attested presented) Uncaught;
  policyId ← read (policy ← js_get attestation "policy"; js_get policy "policyId");
  mret {| ky_enclaveSigningPublicKey := presented; ky_policyId := policyId;
          ky_guestImageId := js_get_opt (js_get_opt attestation "policy") "guestImageId" |}.

(** ** The seal *)
Definition expect_args (e : CliEnv) (expect : VerifyExpect) : list string :=
  let arg flag v := if truthy v then [flag; match v with VStr s => s | _ => ce_text e v end] else [] in
  arg "--expect-commitment" (xe_commitment expect) ++ arg "--expect-decision" (xe_decision expect) ++
  arg "--expect-proof-nonce" (xe_proofNonce expect).
Fixpoint first_word (l : list Z) : list Z :=
  match l with c :: l => if js_space c then [] else c :: first_word l | [] => [] end.
(** The name on the first line that begins with [FAIL] in brackets. *)
Definition first_failure (stdout : string) : option string :=
  (fun l => encode (first_word (trim (drop 6 l)))) <$> List.find (prefixb (points "[FAIL]")) (split_on 10 (points stdout)).

Definition runProverVerify (e : CliEnv) (receiptBytes : string) (expect : VerifyExpect) : SE Cli Stop ProverVerdict :=
  if negb (ce_exists e) then mret {| pv_available := false; pv_ok := false; pv_firstFailure := None |} else
  dir ← read (ce_dir e);
  let path := dir +:+ "/receipt.bin" in
  _ ← se_guard (ce_write e path receiptBytes) Uncaught;
  let r := ce_run e (["--receipt"; path; "--release"; ce_release e; "--policy-dir"; ce_policy e] ++ expect_args e expect) in
  mret {| pv_available := true; pv_ok := r.1; pv_firstFailure := first_failure r.2 |}.

(** [detail.replace(/^DELEGATED — /, "")] *)
Definition undelegated (detail : string) : string :=
  let p := chars "DELEGATED — " in
  if prefixb p (chars detail) then unchars (drop (length p) (chars detail)) else detail.
Definition local_check (c : VerifyCheck) : SE Cli Stop unit :=
  if ck_delegated c then delegated (ck_name c) (undelegated (ck_detail c)) else check (ck_ok c) (ck_name c) (VStr (ck_detail c)).
Definition local_checks (r : VerifyResult) : SE Cli Stop unit :=
  foldl (fun m c => _ ← m; local_check c) (mret tt) (res_checks r).
(** [note] is called twice where the binary is missing. *)
Definition seal_check (pv : ProverVerdict) : SE Cli Stop unit :=
  if pv_available pv
  then check (pv_ok pv) "seal confirmed by prover-verify"
         (VStr (if pv_ok pv then "exit 0 — every check passed" else "first fail: " +:+ default "undefined" (pv_firstFailure pv)))
  else _ ← note; _ ← note; _ ← failed false; check false "seal confirmed by prover-verify" (VStr "binary unavailable").

(** [fromB64(artifact.receiptB64)], which throws on what has no bytes; the arrays that
    Buffer.from also reads are left out. *)
Definition artifact_bytes (artifact : jsval) : option string := fromB64 <$> as_str (js_get_opt artifact "receiptB64").
Definition verifyProofArtifact (e : CliEnv) (artifact : jsval) (manifest : VerifyManifest) (expect : VerifyExpect)
    : SE Cli Stop unit :=
  receiptBytes ← read (artifact_bytes artifact);
  let local := verifyReceipt receiptBytes manifest expect in
  _ ← local_checks local;
  pv ← runProverVerify e receiptBytes expect;
  _ ← seal_check pv;
  line (Verdict (res_ok local && pv_available pv && pv_ok pv)).

(** [--receipt <file>] *)
Definition verifyRawReceipt (e : CliEnv) (release : option jsval) (file : option string) : SE Cli Stop unit :=
  manifest ← loadManifest release;
  receiptBytes ← read file;
  let nothing := {| xe_commitment := VUndef; xe_decision := VUndef; xe_proofNonce := VUndef |} in
  let local := verifyReceipt receiptBytes manifest nothing in
  _ ← local_checks local;
  pv ← runProverVerify e receiptBytes nothing;
  _ ← (if pv_available pv
       then check (pv_ok pv) "seal confirmed by prover-verify"
              (VStr (if pv_ok pv then "exit 0" else "first fail: " +:+ default "undefined" (pv_firstFailure pv)))
       else _ ← note; _ ← failed false; check false "seal confirmed by prover-verify" (VStr "binary unavailable"));
  s ← se_get;
  let verified := (cl_failures s =? 0) && res_ok local in
  _ ← line (Verdict verified);
  se_throw (Exit (if verified then 0 else 1)).

(** ** The bundle *)
Definition verify_key (value signature key : jsval) : SE Cli Stop bool :=
  se_lift (map_err (fun _ => Uncaught)
    (match key with
     | VStr k => verifyCanonical_js value signature k
     | _ => _ ← lift_crypto (canonicalHash value); Ok false
     end)).
(** [/^0x[0-9a-f]{64}$/.test(v)], on the text of [v]: that of an array of one element is
    the element's, and no other value but a string has such a text. *)
Fixpoint is_commitment (v : jsval) : bool := match v with VStr s => HEX_0X_64 s | VArr [x] => is_commitment x | _ => false end.
Definition forbidden : list string := ["prompt"; "messages"; "content"; "sk-"; "mock-provider-key"; "bearer"].
Definition lower_case (s : string) : string := encode (to_lower (points s)).
Definition artifacts_text (b : Bundle) : string :=
  let v := VObj [("receipt", bd_signed_receipt b); ("proof_artifact", bd_proof_artifact b); ("proof_binding", bd_proof_binding b)] in
  lower_case (default (fraction_text v) (stringify v)).

Definition check_receipt (signed receipt : jsval) (keys : Keys) : SE Cli Stop unit :=
  sig_ok ← verify_key receipt (js_get_opt signed "enclaveSignature") (ky_enclaveSigningPublicKey keys);
  _ ← check sig_ok "signature valid under the attested enclave signing key" VUndef;
  version ← read (js_get receipt "version");
  _ ← check (str_is version "ctn-receipt-1") "receipt version recognized" version;
  policy ← read (js_get receipt "policy");
  decision ← read (js_get policy "decision");
  _ ← check (str_is decision "ALLOW") "policy decision is ALLOW" VUndef;
  let policyId := js_get_opt policy "policyId" in
  _ ← check (js_strict_eq policyId (ky_policyId keys)) "receipt policy id equals the currently attested policy" policyId;
  let commitment := js_get_opt receipt "requestCommitment" in
  check (is_commitment commitment) "request commitment well-formed" commitment.

Definition check_binding (receipt : jsval) (artifactDigest : string) (sb : jsval) (keys : Keys) : SE Cli Stop unit :=
  binding ← read (js_get sb "binding");
  sig_ok ← verify_key binding (js_get_opt sb "enclaveSignature") (ky_enclaveSigningPublicKey keys);
  _ ← check sig_ok "binding signature valid under the attested enclave signing key" VUndef;
  digest ← read (js_get binding "artifactDigest");
  _ ← check (str_is digest artifactDigest) "binding commits to this exact artifact" (VStr artifactDigest);
  _ ← check (js_strict_eq (js_get_opt binding "policyId") (js_get_opt (js_get_opt receipt "policy") "policyId"))
        "binding policy id equals receipt policy id" VUndef;
  check (truthy (js_get_opt binding "proofVerified")) "binding reports a server-verified proof" VUndef.

(** What the proof is checked against: the receipt's commitment, and the decision and
    nonce the artifact itself shows. *)
Definition cli_expect (receipt artifact : jsval) : VerifyExpect :=
  let j := js_get_opt artifact "decodedJournal" in {|
  xe_commitment := js_get_opt receipt "requestCommitment";
  xe_decision := js_get_opt j "decision"; xe_proofNonce := js_get_opt j "proofNonce" |}.

Definition check_proof (e : CliEnv) (receipt : jsval) (b : Bundle) (keys : Keys) (manifest : VerifyManifest) : SE Cli Stop unit :=
  let artifact := bd_proof_artifact b in
  if negb (truthy artifact) then note else
  _ ← read (js_get (js_get_opt artifact "decodedJournal") "decision");
  _ ← verifyProofArtifact e artifact manifest (cli_expect receipt artifact);
  receiptBytes ← read (artifact_bytes artifact);
  if negb (truthy (bd_proof_binding b)) then note else check_binding receipt (zkArtifactDigest receiptBytes) (bd_proof_binding b) keys.

(** [attempt >= 1] on a number, its declared type, or a boolean *)
Definition at_least_1 (v : jsval) : bool :=
  match v with VNum (Fin q) => Qle_bool 1 q | VNum (Inf neg) => negb neg | VBool b => b | _ => false end.
Definition check_route (receipt : jsval) : SE Cli Stop unit :=
  route ← read (js_get receipt "route");
  credentialId ← read (js_get route "credentialId");
  _ ← check (truthy credentialId) "a credential is named" credentialId;
  _ ← check (truthy (js_get_opt route "contributorId")) "a contributor is credited" (js_get_opt route "contributorId");
  let attempt := js_get_opt route "attempt" in
  check (at_least_1 attempt) "attempt number recorded" attempt.

Definition check_confidential (b : Bundle) : SE Cli Stop unit :=
  foldl (fun m needle => _ ← m; check (negb (str_includes needle (artifacts_text b)))
                                  (str_app ["no "; quote needle; " in the receipt, proof or binding"]) VUndef) (mret tt) forbidden.

(** [main] with a bundle in hand. *)
Definition verifyBundle (e : CliEnv) (b : Bundle) (attestation release : option jsval) : SE Cli Stop unit :=
  keys ← loadKeys attestation;
  manifest ← loadManifest release;
  let signed := bd_signed_receipt b in
  if negb (truthy signed) then se_throw (Exit 1) else
  receipt ← read (js_get signed "receipt");
  _ ← check_receipt signed receipt keys;
  _ ← check_proof e receipt b keys manifest;
  _ ← check_route receipt;
  _ ← check_confidential b;
  _ ← read (tee ← js_get receipt "tee"; js_get tee "mode");
  s ← se_get;
  se_throw (Exit (if cl_failures s =? 0 then 0 else 1)).

(** [args.indexOf(flag)] and the argument after it: [Some None] where it is missing or
    empty. *)
Definition flag_value (flag : string) (args : list string) : option (option string) :=
  (fun i => match args !! S i.1 with Some path => if str_empty path then None else Some path | None => None end) <$>
  list_find (fun a => a = flag) args.
(** [bytes], [json], [fetched]: a file's bytes, the bundle in a file, the bundle the
    coordinator serves for a request - each [None] where reading it throws. *)
Definition main (e : CliEnv) (bytes : string -> option string) (json fetched : string -> option Bundle)
    (attestation release : option jsval) (args : list string) : SE Cli Stop unit :=
  match flag_value "--receipt" args with
  | Some path => path ← read path; verifyRawReceipt e release (bytes path)
  | None =>
      match flag_value "--file" args with
      | Some path => path ← read path; b ← read (json path); verifyBundle e b attestation release
      | None =>
          match args with
          | requestId :: _ => if str_empty requestId then se_throw (Exit 2) else b ← read (fetched requestId); verifyBundle e b attestation release
          | [] => se_throw (Exit 2)
          end
      end
  end.

(** The exit status of the process. *)
Definition status {A} (m : SE Cli Stop A) : Z :=
  match (m cli_init).2 with Ok _ => 0 | Err (Exit code) => code | Err Uncaught => 1 end.
End cli.

(** ** What the checks come to

    [passes m P]: run from anywhere, [m] adds no failure and returns [a] exactly when
    [P a], never takes a failure back, and never exits with 0. *)
Definition passes {A} (m : SE Cli Stop A) (P : A -> Prop) : Prop := forall s,
  (forall s' a, m s = (s', Ok a) -> cl_failures s <= cl_failures s' /\ (cl_failures s' = cl_failures s <-> P a)) /\
  (forall a, P a -> exists s', m s = (s', Ok a)) /\
  (forall s', m s <> (s', Err (Exit 0))).
(** [concludes m P]: run with no failure so far, [m] exits with 0 exactly when [P]. *)
Definition concludes {A} (m : SE Cli Stop A) (P : Prop) : Prop := forall s, 0 <= cl_failures s ->
  ((exists s', m s = (s', Err (Exit 0))) <-> cl_failures s = 0 /\ P) /\ (forall s' a, m s <> (s', Ok a)).

Lemma passes_ext {A} (m : SE Cli Stop A) (P Q : A -> Prop) : passes m P -> (forall a, P a <-> Q a) -> passes m Q.
Proof. intros H Hi s. destruct (H s) as (H1 & H2 & H3). split_and!; [|naive_solver..]. intros s' a Hm. rewrite <-Hi. by apply H1. Qed.

Lemma passes_bind {A B} (m : SE Cli Stop A) (f : A -> SE Cli Stop B) P Q :
  passes m P -> (forall a, passes (f a) (Q a)) -> passes (m ≫= f) (fun b => exists a, P a /\ Q a b).
Proof.
  intros Hm Hf s. destruct (Hm s) as (H1 & H2 & H3). unfold mbind, SE_bind. destruct (m s) as [s1 [a|st]] eqn:E.
  - destruct (H1 _ _ eq_refl) as [Hle Hiff], (Hf a s1) as (G1 & G2 & G3). split_and!; [|intros b (a' & Ha & Hb)|done].
    + intros s' b Hb. destruct (G1 _ _ Hb) as [Hle' Hiff']. split; [lia|]. split.
      * intros. exists a. split; [apply Hiff|apply Hiff']; lia.
      * intros (a' & Ha & Hb'). destruct (H2 _ Ha) as [? [= <- <-]]. apply Hiff in Ha. apply Hiff' in Hb'. lia.
    + destruct (H2 _ Ha) as [? [= <- <-]]. by apply G2.
  - split_and!; [done|intros b (a' & Ha & _); by destruct (H2 _ Ha)|]. intros s' [= -> ->]. by apply (H3 s').
Qed.

Lemma concludes_bind {A B} (m : SE Cli Stop A) (f : A -> SE Cli Stop B) P Q :
  passes m P -> (forall a, concludes (f a) (Q a)) -> concludes (m ≫= f) (exists a, P a /\ Q a).
Proof.
  intros Hm Hf s Hs. destruct (Hm s) as (H1 & H2 & H3). unfold mbind, SE_bind. destruct (m s) as [s1 [a|st]] eqn:E.
  - destruct (H1 _ _ eq_refl) as [Hle Hiff]. destruct (Hf a s1) as [G1 G2]; [lia|]. split; [|done]. rewrite G1. split.
    + intros [H0 HQ]. assert (cl_failures s = 0) by lia. split; [done|]. exists a. split; [apply Hiff; lia|done].
    + intros (H0 & a' & Ha & HQ). destruct (H2 _ Ha) as [? [= <- <-]]. apply Hiff in Ha. split; [lia|done].
  - split; [|done]. split; [intros [s' [= -> ->]]; by destruct (H3 s')|]. intros (_ & a & Ha & _). by destruct (H2 _ Ha).
Qed.

Lemma passes_line l : passes (line l) (fun _ => True).
Proof. intros s. split_and!; [|intros [] _; by eexists|done]. intros s' a [= <- <-]. simpl. split; [lia|done]. Qed.
Lemma passes_ret {A} (a : A) : passes (mret a) (fun b => b = a).
Proof. intros s. split_and!; [|intros b ->; by eexists|done]. intros s' b [= <- <-]. split; [lia|done]. Qed.
Lemma passes_failed b : passes (failed b) (fun _ => b = true).
Proof. intros s. split_and!; [|intros [] _; by eexists|done]. intros s' a [= <- <-]. simpl. destruct b; split; try lia; split; done || lia. Qed.
Lemma passes_read {A} (o : option A) : passes (read o) (fun a => o = Some a).
Proof. intros s. unfold read, se_lift. destruct o; split_and!; naive_solver lia. Qed.
Lemma passes_lift {A} (r : res Stop A) : (r <> Err (Exit 0)) -> passes (se_lift r) (fun a => r = Ok a).
Proof. intros Hr s. unfold se_lift. destruct r; split_and!; naive_solver lia. Qed.
Lemma passes_check b name d : passes (check b name d) (fun _ => b = true).
Proof. eapply passes_ext; [eapply passes_bind; [apply passes_failed|intros ?; apply passes_line]|]. intros a. split; [by intros (_ & -> & _)|intros ->; by exists tt]. Qed.
Lemma passes_note : passes note (fun _ => True).
Proof. apply passes_line. Qed.
Lemma passes_fold {X} (f : X -> SE Cli Stop unit) (P : X -> Prop) l : (forall x, passes (f x) (fun _ => P x)) ->
  passes (foldl (fun m x => _ ← m; f x) (mret tt) l) (fun _ => Forall P l).
Proof.
  intros Hf. enough (Hg : forall m R, passes m (fun _ => R) -> passes (foldl (fun m x => _ ← m; f x) m l) (fun _ => R /\ Forall P l)).
  { eapply passes_ext; [apply (Hg (mret tt) True)|naive_solver]. eapply passes_ext; [apply passes_ret|by intros []]. }
  clear -Hf. induction l as [|x l IH]; intros m R Hm; simpl; [eapply passes_ext; [exact Hm|]; intros a; rewrite Forall_nil; tauto|].
  eapply passes_ext; [apply (IH _ (R /\ P x)); eapply passes_ext; [eapply passes_bind; [exact Hm|intros ?; apply Hf]|]|]; intros a.
  - split; [by intros (_ & ? & ?)|by exists tt].
  - rewrite Forall_cons. tauto.
Qed.
Lemma passes_guard b : passes (se_guard b Uncaught) (fun _ => b = true).
Proof. intros s. unfold se_guard, se_lift, guard_ok. destruct b; simpl; (split_and!; [intros s' a Hm|intros a Ha|intros s' Hm]); try discriminate; [injection Hm as <- <-; split; [lia|done]|destruct a; by eexists]. Qed.

(** ** The verdict of each part *)
Section verdicts.
Context `{U : Unicode} `{C : Crypto} `{L : LowerCase}.
Context (fraction_text : jsval -> string).

Definition signed_under (key value signature : jsval) : Prop :=
  exists k, key = VStr k /\ verifyCanonical_js value signature k = Ok true.
(** The reference verifier exits with 0 on these bytes, this release and what is
    expected. *)
Definition seal_confirmed (e : CliEnv) (receiptBytes : string) (expect : VerifyExpect) : Prop :=
  ce_exists e = true /\ exists dir, ce_dir e = Some dir /\ ce_write e (dir +:+ "/receipt.bin") receiptBytes = true /\
  (ce_run e (["--receipt"; dir +:+ "/receipt.bin"; "--release"; ce_release e; "--policy-dir"; ce_policy e] ++ expect_args e expect)).1 = true.
Definition proof_genuine (e : CliEnv) (receiptBytes : string) (manifest : VerifyManifest) (expect : VerifyExpect) : Prop :=
  res_ok (verifyReceipt receiptBytes manifest expect) = true /\ seal_confirmed e receiptBytes expect.

Record receipt_genuine (signed receipt : jsval) (keys : Keys) : Prop := {
  rg_signed : signed_under (ky_enclaveSigningPublicKey keys) receipt (js_get_opt signed "enclaveSignature");
  rg_version : js_get_opt receipt "version" = VStr "ctn-receipt-1";
  rg_decision : js_get_opt (js_get_opt receipt "policy") "decision" = VStr "ALLOW";
  rg_policy : js_strict_eq (js_get_opt (js_get_opt receipt "policy") "policyId") (ky_policyId keys) = true;
  rg_commitment : is_commitment (js_get_opt receipt "requestCommitment") = true;
}.
Record binding_genuine (receipt sb : jsval) (receiptBytes : string) (keys : Keys) : Prop := {
  bg_signed : signed_under (ky_enclaveSigningPublicKey keys) (js_get_opt sb "binding") (js_get_opt sb "enclaveSignature");
  bg_digest : js_get_opt (js_get_opt sb "binding") "artifactDigest" = VStr (zkArtifactDigest receiptBytes);
  bg_policy : js_strict_eq (js_get_opt (js_get_opt sb "binding") "policyId") (js_get_opt (js_get_opt receipt "policy") "policyId") = true;
  bg_verified : truthy (js_get_opt (js_get_opt sb "binding") "proofVerified") = true;
}.
Record route_named (receipt : jsval) : Prop := {
  rn_credential : truthy (js_get_opt (js_get_opt receipt "route") "credentialId") = true;
  rn_contributor : truthy (js_get_opt (js_get_opt receipt "route") "contributorId") = true;
  rn_attempt : at_least_1 (js_get_opt (js_get_opt receipt "route") "attempt") = true;
}.
Definition confidential (b : Bundle) : Prop := Forall (fun needle => str_includes needle (artifacts_text fraction_text b) = false) forbidden.

Lemma js_get_opt_Some v k x : js_get v k = Some x -> js_get_opt v k = x.
Proof. unfold js_get_opt. by intros ->. Qed.
(** A property that is something is read off an object. *)
Lemma js_get_opt_read v k : js_get_opt v k <> VUndef -> js_get v k = Some (js_get_opt v k).
Proof. unfold js_get_opt. by destruct (js_get v k). Qed.

Lemma passes_signed value signature key name (k : SE Cli Stop unit) (P : unit -> Prop) : passes k P ->
  passes (ok ← verify_key value signature key; _ ← check ok name VUndef; k) (fun a => signed_under key value signature /\ P a).
Proof.
  intros Hk. eapply passes_ext.
  - eapply passes_bind; [apply passes_lift; by destruct (match key with VStr _ => _ | _ => _ end)|]. intros ok.
    eapply passes_bind; [apply passes_check|]. intros ?. apply Hk.
  - intros a. split.
    + intros (ok & Hok & _ & -> & HP). split; [|done]. destruct key as [| | | |key| |]; cbn in Hok;
        try (destruct (lift_crypto _); cbn in Hok; discriminate). apply map_err_Ok in Hok. by exists key.
    + intros [(key' & -> & Hv) HP]. exists true. rewrite Hv. split; [done|]. by exists tt.
Qed.

Lemma passes_local r : passes (local_checks r) (fun _ => forallb (fun c => ck_ok c || ck_delegated c) (res_checks r) = true).
Proof.
  eapply passes_ext; [apply (passes_fold local_check (fun c => ck_ok c || ck_delegated c = true))|].
  - intros c. unfold local_check. destruct (ck_delegated c); [eapply passes_ext; [apply passes_line|]; intros ?; by rewrite orb_true_r|].
    rewrite orb_false_r. apply passes_check.
  - intros a. rewrite forallb_forall, List.Forall_forall. done.
Qed.

Lemma passes_prover e receiptBytes expect : passes (runProverVerify e receiptBytes expect) (fun pv =>
  if ce_exists e then
    exists dir, ce_dir e = Some dir /\ ce_write e (dir +:+ "/receipt.bin") receiptBytes = true /\
    let r := ce_run e (["--receipt"; dir +:+ "/receipt.bin"; "--release"; ce_release e; "--policy-dir"; ce_policy e] ++ expect_args e expect) in
    pv = {| pv_available := true; pv_ok := r.1; pv_firstFailure := first_failure r.2 |}
  else pv = {| pv_available := false; pv_ok := false; pv_firstFailure := None |}).
Proof.
  unfold runProverVerify. destruct (ce_exists e); cbn [negb]; [|apply passes_ret].
  eapply passes_bind; [apply passes_read|]. intros dir.
  eapply passes_ext; [eapply passes_bind; [apply passes_guard|intros ?; apply passes_ret]|].
  intros pv. split; [by intros (_ & Hw & ->)|intros [Hw ->]; by exists tt].
Qed.
Lemma passes_seal_check pv : passes (seal_check pv) (fun _ => pv_available pv = true /\ pv_ok pv = true).
Proof.
  unfold seal_check. destruct (pv_available pv).
  - eapply passes_ext; [apply passes_check|]. naive_solver.
  - eapply passes_ext; [eapply passes_bind; [apply passes_note|]; intros ?; eapply passes_bind; [apply passes_note|]; intros ?;
      eapply passes_bind; [apply passes_failed|]; intros ?; apply passes_check|]. naive_solver.
Qed.
Lemma passes_seal e receiptBytes expect l : passes
  (pv ← runProverVerify e receiptBytes expect; _ ← seal_check pv; line (l pv)) (fun _ => seal_confirmed e receiptBytes expect).
Proof.
  eapply passes_ext; [eapply passes_bind; [apply passes_prover|]; intros pv; eapply passes_bind; [apply passes_seal_check|]; intros ?; apply passes_line|].
  intros a. unfold seal_confirmed. destruct (ce_exists e); [|naive_solver].
  split.
  - intros (pv & (dir & Hd & Hw & ->) & _ & [_ Hok] & _). split; [done|]. by exists dir.
  - intros (_ & dir & Hd & Hw & Hok). eexists. split; [by exists dir|]. exists tt. split; [|done]. by split.
Qed.
Lemma passes_proof e artifact manifest expect :
  (forall receiptBytes, honest ["image-id"; "seal"; "rules-digest"] (verifyReceipt receiptBytes manifest expect)) ->
  passes (verifyProofArtifact e artifact manifest expect)
    (fun _ => exists receiptBytes, artifact_bytes artifact = Some receiptBytes /\ proof_genuine e receiptBytes manifest expect).
Proof.
  intros Hh. unfold verifyProofArtifact, proof_genuine. eapply passes_bind; [apply passes_read|]. intros receiptBytes.
  destruct (Hh receiptBytes) as (_ & Hok & _). cbv zeta. rewrite Hok.
  eapply passes_ext; [eapply passes_bind; [apply passes_local|]; intros ?; apply passes_seal|]. intros a. split; [by intros (_ & ? & ?)|by exists tt].
Qed.

Lemma str_is_iff v s : str_is v s = true <-> v = VStr s.
Proof. destruct v; simpl; rewrite ?bool_decide_eq_true; naive_solver. Qed.

Lemma passes_receipt signed receipt keys : passes (check_receipt signed receipt keys) (fun _ => receipt_genuine signed receipt keys).
Proof.
  unfold check_receipt. eapply passes_ext; [apply passes_signed|].
  - eapply passes_ext; [eapply passes_bind; [apply passes_read|]; intros version; eapply passes_bind; [apply passes_check|]; intros ?;
      eapply passes_bind; [apply passes_read|]; intros policy; eapply passes_bind; [apply passes_read|]; intros decision;
      eapply passes_bind; [apply passes_check|]; intros ?; eapply passes_bind; [apply passes_check|]; intros ?; apply passes_check|].
    intros a. instantiate (1 := fun _ => js_get_opt receipt "version" = VStr "ctn-receipt-1" /\
      js_get_opt (js_get_opt receipt "policy") "decision" = VStr "ALLOW" /\
      js_strict_eq (js_get_opt (js_get_opt receipt "policy") "policyId") (ky_policyId keys) = true /\
      is_commitment (js_get_opt receipt "requestCommitment") = true). split.
    + intros (version & Hv & _ & Hv1 & policy & Hp & decision & Hd & _ & Hd1 & _ & Hid & Hc).
      apply js_get_opt_Some in Hv, Hp, Hd. subst. by rewrite <-!str_is_iff.
    + intros (Hv & Hd & Hid & Hc). do 2 eexists; [apply js_get_opt_read; by rewrite Hv|]. exists tt. rewrite str_is_iff. split; [done|].
      assert (Hp : js_get_opt receipt "policy" <> VUndef) by (intros Hp; by rewrite Hp in Hd).
      do 2 eexists; [by apply js_get_opt_read|]. do 2 eexists; [apply js_get_opt_read; by rewrite Hd|]. exists tt. rewrite str_is_iff. by split_and!; [|exists tt].
  - intros a. split; [intros (? & ? & ? & ? & ?); by split|intros []; by split_and!].
Qed.

Lemma passes_binding receipt receiptBytes sb keys :
  passes (check_binding receipt (zkArtifactDigest receiptBytes) sb keys) (fun _ => binding_genuine receipt sb receiptBytes keys).
Proof.
  unfold check_binding. eapply passes_ext; [eapply passes_bind; [apply passes_read|]; intros binding; apply passes_signed|].
  - eapply passes_bind; [apply passes_read|]. intros digest.
    eapply passes_bind; [apply passes_check|]. intros ?. eapply passes_bind; [apply passes_check|]. intros ?. apply passes_check.
  - intros a. split.
    + intros (binding & Hb & Hs & digest & Hd & _ & Hd1 & _ & Hp & Hv). apply js_get_opt_Some in Hb, Hd. subst.
      split; [done|by apply str_is_iff|done|done].
    + intros [Hs Hd Hp Hv]. assert (Hb : js_get_opt sb "binding" <> VUndef) by (intros Hb; by rewrite Hb in Hd).
      eexists. split; [by apply js_get_opt_read|]. split; [done|].
      eexists. split; [apply js_get_opt_read; by rewrite Hd|]. exists tt. split; [by apply str_is_iff|]. by exists tt.
Qed.
Lemma passes_route receipt : passes (check_route receipt) (fun _ => route_named receipt).
Proof.
  unfold check_route. eapply passes_ext; [eapply passes_bind; [apply passes_read|]; intros route; eapply passes_bind; [apply passes_read|];
    intros credentialId; eapply passes_bind; [apply passes_check|]; intros ?; eapply passes_bind; [apply passes_check|]; intros ?; apply passes_check|].
  intros a. split.
  - intros (route & Hr & credentialId & Hc & _ & Hc1 & _ & Hk & Ha). apply js_get_opt_Some in Hr, Hc. by subst.
  - intros [Hc Hk Ha]. assert (Hr : js_get_opt receipt "route" <> VUndef) by (intros Hr; by rewrite Hr in Hc).
    assert (Hi : js_get_opt (js_get_opt receipt "route") "credentialId" <> VUndef) by (intros Hi; by rewrite Hi in Hc).
    eexists. split; [by apply js_get_opt_read|]. eexists. split; [by apply js_get_opt_read|]. exists tt. split; [done|]. by exists tt.
Qed.
Lemma passes_confidential b : passes (check_confidential fraction_text b) (fun _ => confidential b).
Proof.
  unfold check_confidential, confidential. apply passes_fold. intros needle.
  eapply passes_ext; [apply passes_check|]. intros a. apply negb_true_iff.
Qed.

(** What is asked of the proof, where the bundle has one. *)
Definition proof_part (e : CliEnv) (receipt : jsval) (b : Bundle) (keys : Keys) (manifest : VerifyManifest) : Prop :=
  let artifact := bd_proof_artifact b in
  truthy artifact = true -> is_Some (js_get (js_get_opt artifact "decodedJournal") "decision") /\
  exists receiptBytes, artifact_bytes artifact = Some receiptBytes /\ proof_genuine e receiptBytes manifest (cli_expect receipt artifact) /\
    (truthy (bd_proof_binding b) = true -> binding_genuine receipt (bd_proof_binding b) receiptBytes keys).
Lemma passes_proof_part e receipt b keys manifest :
  (forall receiptBytes, honest ["image-id"; "seal"; "rules-digest"] (verifyReceipt receiptBytes manifest (cli_expect receipt (bd_proof_artifact b)))) ->
  passes (check_proof e receipt b keys manifest) (fun _ => proof_part e receipt b keys manifest).
Proof.
  intros Hh. unfold check_proof, proof_part. cbv zeta.
  assert (Hbind : forall receiptBytes, passes
    (if negb (truthy (bd_proof_binding b)) then note else check_binding receipt (zkArtifactDigest receiptBytes) (bd_proof_binding b) keys)
    (fun _ => truthy (bd_proof_binding b) = true -> binding_genuine receipt (bd_proof_binding b) receiptBytes keys)).
  { intros bytes. destruct (truthy (bd_proof_binding b)); cbn [negb]; (eapply passes_ext; [apply passes_binding || apply passes_note|]); naive_solver. }
  destruct (truthy (bd_proof_artifact b)); cbn [negb]; [|eapply passes_ext; [apply passes_note|]; naive_solver].
  eapply passes_ext; [eapply passes_bind; [apply passes_read|]; intros ?; eapply passes_bind; [by apply passes_proof|]; intros ?;
    eapply passes_bind; [apply passes_read|]; intros receiptBytes; apply Hbind|].
  intros x. split.
  - intros (d & Hd & _ & (bytes & Hb & Hg) & bytes' & Hb' & Hs) _. rewrite Hb in Hb'. injection Hb' as <-. split; [by exists d|]. by exists bytes.
  - intros H. destruct (H eq_refl) as ([d Hd] & bytes & Hb & Hg & Hs). exists d. split; [done|]. exists tt. split; [by exists bytes|]. by exists bytes.
Qed.

Lemma concludes_exit : concludes (s ← se_get; se_throw (A:=unit) (Exit (if cl_failures s =? 0 then 0 else 1))) True.
Proof.
  intros s Hs. split; [|done]. unfold mbind, SE_bind, se_get, se_throw. destruct (Z.eqb_spec (cl_failures s) 0) as [He|He].
  - split; [done|]. by eexists.
  - split; [by intros [? [= ]]|tauto].
Qed.
Lemma concludes_ext {A} (m : SE Cli Stop A) (P Q : Prop) : concludes m P -> (P <-> Q) -> concludes m Q.
Proof. intros H Hi s Hs. destruct (H s Hs) as [H1 H2]. split; [|done]. by rewrite H1, Hi. Qed.
Lemma concludes_if b (m : SE Cli Stop unit) P : concludes m P -> concludes (if negb b then se_throw (Exit 1) else m) (b = true /\ P).
Proof.
  intros H. destruct b; cbn [negb]; [eapply concludes_ext; [done|tauto]|]. intros s Hs. split; [|done]. split; [by intros [? [= ]]|by intros [_ [? _]]].
Qed.
Lemma status_concludes (m : SE Cli Stop unit) P : concludes m P -> status m = 0 <-> P.
Proof.
  intros H. destruct (H cli_init) as [H1 H2]; [done|]. unfold status. destruct (m cli_init) as [s [a|st]]; [by destruct (H2 s a)|]. cbn [snd].
  transitivity (exists s', (s, Err st) = (s', @Err Stop unit (Exit 0))); [|rewrite H1; simpl; tauto].
  destruct st as [code|]; split; [intros ->; by exists s|by intros [? [= -> ->]]|done|by intros [? [= ]]].
Qed.
Lemma concludes_verdict r : concludes (s ← se_get; let verified := (cl_failures s =? 0) && r in
  _ ← line (Verdict verified); se_throw (A:=unit) (Exit (if verified then 0 else 1))) (r = true).
Proof.
  intros s Hs. unfold mbind, SE_bind, se_get, se_throw, line, se_modify. cbn. split; [|done]. destruct (Z.eqb_spec (cl_failures s) 0), r; cbn; (split; [intros [? [= ]]|intros [? ?]]); try done. by eexists.
Qed.
Lemma passes_loadKeys attestation : passes (loadKeys attestation) (fun keys => (loadKeys attestation cli_init).2 = Ok keys).
Proof.
  assert (Hs : forall s, loadKeys attestation s = (s, (loadKeys attestation cli_init).2) /\ (loadKeys attestation cli_init).2 <> Err (Exit 0)).
  { intros s. unfold loadKeys, read, se_guard, guard_ok, se_lift, mbind, SE_bind, mret, SE_ret. repeat (case_match; simplify_eq/=; try done). }
  intros s. destruct (Hs s) as [-> Hn]. split_and!; [intros s' a [= <- Ha]; split; [lia|done]|intros a Ha; exists s; by rewrite Ha|intros s' [= _ He]; by apply Hn].
Qed.
Lemma passes_loadManifest release : passes (loadManifest release) (fun m => (loadManifest release cli_init).2 = Ok m).
Proof.
  assert (Hs : forall s, loadManifest release s = (s, (loadManifest release cli_init).2) /\ (loadManifest release cli_init).2 <> Err (Exit 0)).
  { intros s. unfold loadManifest, read, se_lift, mbind, SE_bind, mret, SE_ret. repeat (case_match; simplify_eq/=; try done). }
  intros s. destruct (Hs s) as [-> Hn]. split_and!; [intros s' a [= <- Ha]; split; [lia|done]|intros a Ha; exists s; by rewrite Ha|intros s' [= _ He]; by apply Hn].
Qed.
End verdicts.

(** The bare receipt file: the same two halves, with nothing expected. *)
Lemma raw_receipt_spec `{U : Unicode} `{C : Crypto} e release file :
  status (verifyRawReceipt e release file) = 0 <->
  exists manifest receiptBytes, (loadManifest release cli_init).2 = Ok manifest /\ file = Some receiptBytes /\
    proof_genuine e receiptBytes manifest {| xe_commitment := VUndef; xe_decision := VUndef; xe_proofNonce := VUndef |}.
Proof.
  apply status_concludes. unfold verifyRawReceipt. eapply concludes_ext.
  - eapply concludes_bind; [apply passes_loadManifest|]. intros manifest. eapply concludes_bind; [apply passes_read|]. intros receiptBytes. cbv zeta.
    eapply concludes_bind; [apply passes_local|]. intros ?. eapply concludes_bind; [apply passes_prover|]. intros pv.
    eapply (concludes_bind _ _ (fun _ => pv_available pv = true /\ pv_ok pv = true)); [|intros ?; apply concludes_verdict].
    destruct (pv_available pv); [eapply passes_ext; [apply passes_check|]; naive_solver|].
    eapply passes_ext; [eapply passes_bind; [apply passes_note|]; intros ?; eapply passes_bind; [apply passes_failed|]; intros ?; apply passes_check|]. naive_solver.
  - set (x := {| xe_commitment := VUndef; xe_decision := VUndef; xe_proofNonce := VUndef |}). split.
    + intros (manifest & Hm & receiptBytes & Hf & _ & _ & pv & Hpv & _ & [Ha Ho] & Hr). exists manifest, receiptBytes. split_and!; [done..|]. split; [done|].
      unfold seal_confirmed. destruct (ce_exists e); [|by subst]. destruct Hpv as (dir & Hd & Hw & ->). split; [done|]. by exists dir.
    + intros (manifest & receiptBytes & Hm & Hf & Hr & He & dir & Hd & Hw & Hx). exists manifest. split; [done|]. exists receiptBytes. split; [done|].
      exists tt. split; [destruct (verifyReceipt_honest receiptBytes manifest x) as (_ & Hh & _); by rewrite <-Hh|]. eexists. rewrite He. split; [by exists dir|]. exists tt. by repeat split.
Qed.

(** C18. The terminal checker exits with 0 exactly when: the attestation names one signing
    key and the release could be read; the receipt is signed under that key, of a known
    version, an ALLOW under the attested policy with a well-formed commitment; where the
    bundle has a proof, its bytes pass every local check and the reference verifier exits
    with 0 on them, both for this receipt's commitment, and a binding is signed under the
    same key for these bytes, this policy and a verified proof; the route names a
    credential, a contributor and an attempt; and no forbidden word is in the artifacts.
    So it accepts a receipt of the enclave's dispatch only where the attestation names
    the policy of the guest, not that of the preview package. *)
Theorem receipt_cli_spec `{U : Unicode} `{C : Crypto} `{L : LowerCase} fraction_text e b attestation release :
  let code := status (verifyBundle fraction_text e b attestation release) in
  (code = 0 <-> exists keys manifest receipt,
     (loadKeys attestation cli_init).2 = Ok keys /\ (loadManifest release cli_init).2 = Ok manifest /\
     truthy (bd_signed_receipt b) = true /\ js_get (bd_signed_receipt b) "receipt" = Some receipt /\
     receipt_genuine (bd_signed_receipt b) receipt keys /\ proof_part e receipt b keys manifest /\
     route_named receipt /\ confidential fraction_text b /\ is_Some (js_get receipt "tee" ≫= fun tee => js_get tee "mode")) /\
  (forall r sig, bd_signed_receipt b = signed_receipt_val (compute_receipt_val r) sig -> code = 0 ->
     exists keys, (loadKeys attestation cli_init).2 = Ok keys /\ ky_policyId keys = VStr (cpr_policyId r)).
Proof.
  assert (Hc : concludes (verifyBundle fraction_text e b attestation release) (exists keys manifest receipt,
     (loadKeys attestation cli_init).2 = Ok keys /\ (loadManifest release cli_init).2 = Ok manifest /\
     truthy (bd_signed_receipt b) = true /\ js_get (bd_signed_receipt b) "receipt" = Some receipt /\
     receipt_genuine (bd_signed_receipt b) receipt keys /\ proof_part e receipt b keys manifest /\
     route_named receipt /\ confidential fraction_text b /\ is_Some (js_get receipt "tee" ≫= fun tee => js_get tee "mode"))).
  { unfold verifyBundle. eapply concludes_ext.
    - eapply concludes_bind; [apply passes_loadKeys|]. intros keys. eapply concludes_bind; [apply passes_loadManifest|]. intros manifest.
      apply (concludes_if (truthy (bd_signed_receipt b))).
      eapply concludes_bind; [apply passes_read|]. intros receipt. eapply concludes_bind; [apply passes_receipt|]. intros ?.
      eapply concludes_bind; [refine (passes_proof_part fraction_text e receipt b keys manifest _); intros ?; apply verifyReceipt_honest|]. intros ?.
      eapply concludes_bind; [apply passes_route|]. intros ?. eapply concludes_bind; [apply passes_confidential|]. intros ?.
      eapply concludes_bind; [apply passes_read|]. intros ?. apply concludes_exit.
    - split.
      + intros (keys & Hk & manifest & Hm & Ht & receipt & Hr & _ & Hg & _ & Hp & _ & Hn & _ & Hc & mode & Hm' & _).
        exists keys, manifest, receipt. by split_and!.
      + intros (keys & manifest & receipt & Hk & Hm & Ht & Hr & Hg & Hp & Hn & Hc & mode & Hm'). exists keys. split; [done|]. exists manifest. split; [done|]. split; [done|].
        exists receipt. split; [done|]. exists tt. split; [done|]. exists tt. split; [done|]. exists tt. split; [done|]. exists tt. split; [done|]. by exists mode. }
  cbv zeta. assert (Hs : status (verifyBundle fraction_text e b attestation release) = 0 <-> _) by (apply status_concludes, Hc). split; [exact Hs|].
  intros r sig Hb H0. apply Hs in H0 as (keys & manifest & receipt & Hk & _ & _ & Hr & [_ _ _ Hp _] & _). exists keys. split; [done|].
  rewrite Hb in Hr. injection Hr as <-. cbn in Hp. destruct (ky_policyId keys); try done. by apply String.eqb_eq in Hp as ->.
Qed.

(** ** An example: the attestation of the enclave names the preview package *)
Definition ex_served : ComputeReceipt := {|
  cpr_requestId := "req_1"; cpr_requestCommitment := ex_hash; cpr_teeMode := simulation; cpr_buildId := "b"; cpr_attestationDigest := "0xat";
  cpr_policyId := ex_hash; cpr_zkReceiptDigest := "pending"; cpr_provider := "mock"; cpr_model := "ctn/demo-model-a";
  cpr_credentialId := "cred_1"; cpr_contributorId := "ctr_1"; cpr_attempt := 1; cpr_inputTokens := 3; cpr_outputTokens := 5;
  cpr_estimatedCostMicroUsd := jnum 2; cpr_pricingTableDigest := "0xpt"; cpr_receivedAt := "t"; cpr_policyMs := 4; cpr_providerTotalMs := 9;
  cpr_upstreamRequestHash := "0xuq"; cpr_upstreamResponseHash := "0xur" |}.
Definition ex_signed (v : jsval) : string := match signReceipt ex_tee v with Ok sig => sig | Err _ => "" end.
Definition ex_cli_artifact : ProofArtifactWireV1 := {|
  Types.pw_risc0Version := "3.0.6"; Types.pw_receiptB64 := toB64 (ex_receipt 1); Types.pw_imageId := "bb"; Types.pw_journalVersion := 1;
  Types.pw_decodedJournal := {| j_protocolVersion := 1; j_requestCommitment := ex_hash; j_policyId := ex_hash; j_decision := ALLOW; j_proofNonce := "0xabc" |} |}.
Definition ex_bundle : Bundle := {|
  bd_signed_receipt := signed_receipt_val (compute_receipt_val ex_served) (ex_signed (compute_receipt_val ex_served));
  bd_proof_artifact := wire_val ex_cli_artifact; bd_proof_binding := VUndef |}.
Definition ex_attested (policyId : string) : jsval :=
  let key := VStr (tee_signingPublicKey ex_tee) in
  VObj [("bundle", VObj [("enclaveSigningPublicKey", key); ("document", VObj [("userData", VObj [("signingPublicKey", key)])])]);
        ("policy", VObj [("policyId", VStr policyId); ("guestImageId", VStr "0xg")])].
Definition ex_cli_release : jsval :=
  VObj [("imageIdHex", VStr (unchars (repeat (byte_of 98) 64))); ("policyId", VStr ex_hash); ("rulesDigest", VStr ex_hash);
        ("journalVersion", vint 1); ("receiptCodec", VStr "bincode-v1")].
Definition ex_cli_env : CliEnv := {|
  ce_exists := true; ce_dir := Some "/tmp/d"; ce_write := fun _ _ => true; ce_run := fun _ => (true, "[ ok ] seal"); ce_text := fun _ => ""; ce_release := "release.json"; ce_policy := "policy/v1" |}.

Example preview_identity_rejected :
  status (verifyBundle (fun _ => "") ex_cli_env ex_bundle (Some (ex_attested ex_hash)) (Some ex_cli_release)) = 0 /\
  status (verifyBundle (fun _ => "") ex_cli_env ex_bundle (Some (ex_attested "0x12ed02575a98")) (Some ex_cli_release)) = 1.
Proof. split; vm_compute; reflexivity. Qed.
