(* ===== verification/Preview.v ===== *)
(** * The policy lab and the verification endpoint (services/tee-sim/src/index.ts)

    [POST /policy-test], through the coordinator and the client; [POST /verify]; and
    what [GET /attestation], [GET /build-manifest] and [GET /providers] answer.  None
    of them changes the state of the enclave, so they are functions of the request. *)

From S2P Require Import Prelude JsNum Utf8 Json Unicode Canonical Stringify Types Crypto Texts Policy PolicyV1 PolicyPackage Authorize Pricing Providers Intent Insights JsMap Gates Hpke Tee EnclaveVerify ProofVerify ProverClient Prover GateRequest Dispatch Enclave Logs Routing Events Coordinator Trust Settle Booking Client EndToEnd Onboarding Schema Reads Labels.
Local Open Scope Z_scope.

(** ** POST /policy-test *)
Record Preview : Type := {
  pt_testId : string;
  pt_decision : PolicyDecision;
  pt_commitment : string;
  pt_policyId : string;
  pt_policyMs : Z;
}.
Definition preview_val (p : Preview) : jsval := VObj [
  ("testId", VStr (pt_testId p)); ("decision", VStr (decision_str (pt_decision p))); ("commitment", VStr (pt_commitment p));
  ("policyId", VStr (pt_policyId p)); ("policyMs", vint (pt_policyMs p)); ("promptVisiblePublicly", VBool false); ("proofStarted", VBool false)].

Section preview.
Context `{U : Unicode} `{C : Crypto} `{H : Hpke} `{N : NodeCrypto}.
Context (gate_message : GateThrow -> string).
(** The enclave, the rules of its package and their id. *)
Context (tee : SimulatedTEE) (rules : PolicyRules) (pkgPolicyId : string).

(** [uuid]: the sixteen bytes of [randomUUID()]; [elapsed]: the rounded time of the
    evaluation.  No version, model or replay check: the preview gates nothing. *)
Definition policy_test_enclave (uuid : string) (elapsed : Z) (posted : posted_envelope) : res GateThrow Preview :=
  match posted with
  | None => Err (GateError 400 "CTN_INVALID_ENVELOPE" "bad envelope")
  | Some (_, envelope) =>
      _ ← guard_ok (String.eqb (env_enclaveKeyId envelope) (tee_enclaveKeyId tee)) (GateError 400 "CTN_INVALID_ENVELOPE" "bad envelope");
      aad ← map_err (fun _ => GateOther) (canonicalJson (aad_val envelope));
      payload ← open_payload tee envelope aad;
      canonical ← map_err (fun _ => GateOther) (toCanonicalRequest (op_request payload));
      '(gate, _) ← map_err of_throw (evaluate_preview canonical (op_requestNonce payload) rules pkgPolicyId elapsed);
      Ok {| pt_testId := "ptest_" +:+ String.substring 0 20 (toHex uuid); pt_decision := gate_decision gate;
            pt_commitment := gate_commitment gate; pt_policyId := pkgPolicyId; pt_policyMs := Z.max 1 elapsed |}
  end.

(** What the enclave sends, and what its client in the coordinator makes of it. *)
Definition preview_wire (r : res GateThrow Preview) : Wire :=
  match r with
  | Ok p => Response 200 (Some (reparsed (preview_val p)))
  | Err t => let '(status, code) := gate_reply t in
             Response status (Some (VObj [("error", VObj [("code", VStr code); ("message", VStr (gate_message t))])]))
  end.
(** [POST /v1/policy/test] with the enclave behind it, as the browser's fetch sees it. *)
Definition preview_post (uuid : string) (elapsed : Z) (e : SecureRequestEnvelope) : Wire :=
  served (Ok (policy_test (VStr (sb_ciphertext (env_box e))) (call (preview_wire (policy_test_enclave uuid elapsed (Some ("ctn-1", e))))))).

(** ** POST /verify *)
Record VerifyBody : Type := { vb_artifact : option ProofArtifactWireV1; vb_receipt : option jsval; vb_binding : option jsval }.
Record VerifyKeys : Type := { vk_enclaveSigningPublicKey : string; vk_proverPublicKey : string; vk_guestImageId : string; vk_policyId : string }.
Record VerifyReply : Type := { vy_proof : option (bool * list SubprocessCheck); vy_receipt : option VerificationResult; vy_keys : VerifyKeys }.
(** The expectations are the artifact's own. *)
Definition own_expectations (a : ProofArtifactV1) : ProofExpectations := {|
  ex_commitment := j_requestCommitment (pa_decodedJournal a); ex_decision := j_decision (pa_decodedJournal a);
  ex_proofNonce := j_proofNonce (pa_decodedJournal a) |}.
Definition post_verify (env : subprocess_env) (paths : VerifierPaths) (guestImageId : string) (body : VerifyBody) : res Throw VerifyReply :=
  let artifact := artifactFromWire <$> vb_artifact body in
  let proof := (fun a => let sub := runReferenceVerify env (pa_receiptBytes a) (own_expectations a) paths in (sv_ok sub, sv_checks sub)) <$> artifact in
  receipt ← match vb_receipt body with
            | None => Ok None
            | Some r => v ← verifyComputeReceipt r (tee_signingPublicKey tee) artifact (vb_binding body); Ok (Some v)
            end;
  Ok {| vy_proof := proof; vy_receipt := receipt;
        vy_keys := {| vk_enclaveSigningPublicKey := tee_signingPublicKey tee; vk_proverPublicKey := tee_proverPublicKey tee;
                      vk_guestImageId := guestImageId; vk_policyId := pkgPolicyId |} |}.
End preview.

(** ** The preview and the gate *)
Section rounds.
Context `{U : Unicode} `{C : Crypto} `{H : Hpke} `{N : NodeCrypto} `{!UnicodeOk U}.

Lemma preview_complete tee rules pkgPolicyId uuid elapsed envelope payload canonical commitment :
  well_sealed tee envelope payload canonical commitment ->
  policy_test_enclave tee rules pkgPolicyId uuid elapsed (Some ("ctn-1", envelope)) = Ok {|
    pt_testId := "ptest_" +:+ String.substring 0 20 (toHex uuid);
    pt_decision := pe_decision (evaluateRequest rules (cm_content <$> cr_messages canonical));
    pt_commitment := commitment; pt_policyId := pkgPolicyId; pt_policyMs := Z.max 1 elapsed |}.
Proof.
  intros [Hkey Hopen Hreq _ Hc]. destruct (aad_ok envelope) as [aad Haad]. unfold policy_test_enclave.
  rewrite Hkey, String.eqb_refl. cbn [guard_ok mbind res_bind]. rewrite Haad. cbn [map_err mbind res_bind]. rewrite (Hopen _ Haad). cbn [mbind res_bind].
  rewrite Hreq. cbn [map_err mbind res_bind]. unfold evaluate_preview. rewrite Hc. cbn [map_err mbind res_bind].
  by destruct (pe_decision _).
Qed.
End rounds.

(** The request the client seals. *)
Definition preview_input (model prompt : string) : jsval :=
  VObj [("model", VStr model); ("messages", VArr [VObj [("role", VStr "user"); ("content", VStr prompt)]])].

(** C20. The policy lab tells the truth about the gate. A prompt tested from the browser,
    through the coordinator, is answered with the verdict of the policy engine on the
    canonical request, the commitment of exactly that request and nonce, and the preview
    policy's id, and starts no proof; and if the same sealed envelope is then posted to the
    gate, with an executor that does what it documents, the gate reaches the same verdict
    on the same commitment, under the guest's policy id. *)
Theorem preview_agrees `{U : Unicode} `{C : Crypto} `{H : Hpke} `{N : NodeCrypto} `{!UnicodeOk U} `{!CryptoOk C} `{!HpkeOk H}
    gate_message tee seed bundle rules pkgPolicyId uuid elapsed prompt model rnd canonical :
  keyed tee seed bundle -> toCanonicalRequest (preview_input model prompt) = Ok canonical ->
  texts_ok (request_val canonical) = true -> String.length (cr_nonce rnd) = 32%nat ->
  (forall pk eph text aad box, hpkeSeal pk eph text aad = Some box -> sb_ciphertext box <> "") ->
  let decision := pe_decision (evaluateRequest rules (cm_content <$> cr_messages canonical)) in
  exists v envelope commitment,
    policyTest bundle prompt model rnd (preview_post gate_message tee rules pkgPolicyId uuid elapsed) = Ok v /\
    js_get_opt v "decision" = VStr (decision_str decision) /\ js_get_opt v "commitment" = VStr commitment /\
    js_get_opt v "policyId" = VStr pkgPolicyId /\ js_get_opt v "proofStarted" = VBool false /\
    request_commitment_of canonical (randomHex (cr_nonce rnd)) = Ok commitment /\
    (exists priv nonce, sealRequest bundle (preview_input model prompt) rnd = Ok (envelope, priv, nonce)) /\
    (forall canonical_message g guestPolicyId s, faithful rules guestPolicyId (gv_daemon g) -> Z.abs (gv_gateMs g) <= MAX_SAFE ->
       map_has (es_seenNonces s) (randomHex (cr_nonce rnd)) = false ->
       exists s' o, gateRequest canonical_message tee g (Some ("ctn-1", envelope)) s = (s', Ok o) /\
         go_decision o = decision /\ go_commitment o = commitment /\ dr_policyId (sdr_receipt (go_decisionReceipt o)) = guestPolicyId).
Proof.
  intros Hk Hcan Htexts Hn Hct. cbv zeta.
  destruct (seal_opens _ _ _ _ _ rnd Hk Hcan Htexts Hn) as (envelope & payload & commitment & Hseal & _ & Hws & Hnonce & _).
  assert (Hne : str_empty (sb_ciphertext (env_box envelope)) = false).
  { unfold sealRequest in Hseal. rewrite Hcan in Hseal. cbn [map_err mbind res_bind] in Hseal. destruct (generateHpkeKeyPair (cr_keySeed rnd)) as [pub priv].
    apply res_bind_Ok in Hseal as (text & _ & Hseal). apply res_bind_Ok in Hseal as (aad & _ & Hseal). apply res_bind_Ok in Hseal as (box & Hbox & [= <-]).
    unfold opt_or in Hbox. destruct (hpkeSeal _ _ _ _) as [box'|] eqn:Hs; [|done]. injection Hbox as ->. apply Hct in Hs. cbn [env_box envelope_of]. by destruct (sb_ciphertext box). }
  exists (reparsed (reparsed (preview_val {| pt_testId := "ptest_" +:+ String.substring 0 20 (toHex uuid);
    pt_decision := pe_decision (evaluateRequest rules (cm_content <$> cr_messages canonical));
    pt_commitment := commitment; pt_policyId := pkgPolicyId; pt_policyMs := Z.max 1 elapsed |}))), envelope, commitment.
  split; [|split_and!; try reflexivity].
  - unfold policyTest. change (VObj _) with (preview_input model prompt). rewrite Hseal. cbn [mbind res_bind].
    unfold preview_post. rewrite (preview_complete _ _ _ _ _ _ _ _ _ Hws). cbn [preview_wire call].
    unfold policy_test, truthy. rewrite Hne. done.
  - rewrite <-Hnonce. apply Hws.
  - by eexists _, _.
  - intros cm g gp s Hf Hms Hfresh. rewrite <-Hnonce in Hfresh.
    destruct (gateRequest_complete cm tee rules gp g envelope payload canonical commitment s Hf Hms Hws Hfresh)
      as (s' & o & Hg & _ & Hc & Hd & Hp & _). by exists s', o.
Qed.

(** ** Both checks of POST /verify *)
(** A proof and a receipt that are both reported valid belong together: the reference
    verifier accepted these bytes for the commitment the signed receipt names. *)
Lemma post_verify_joint `{U : Unicode} `{C : Crypto} tee pkgPolicyId env paths guestImageId body reply a r v checks :
  post_verify tee pkgPolicyId env paths guestImageId body = Ok reply ->
  vb_artifact body = Some a -> vb_receipt body = Some r -> vy_proof reply = Some (true, checks) -> vy_receipt reply = Some v -> vr_valid v = true ->
  receipt_ok r (tee_signingPublicKey tee) /\ artifact_ok r (artifactFromWire a) /\
  exists expect, js_get_opt (js_get_opt r "receipt") "requestCommitment" = VStr (ProofVerify.ex_commitment expect) /\
    verifier_accepts env (fromB64 (Types.pw_receiptB64 a)) expect paths.
Proof.
  unfold post_verify. intros Hv Ha Hr Hp Hy Hok. rewrite Ha, Hr in Hv. cbn [fmap option_fmap option_map] in Hv.
  apply res_bind_Ok in Hv as (o & Ho & [= <-]). cbn [vy_proof vy_receipt] in *. injection Hp as Hsub _. subst o.
  apply res_bind_Ok in Ho as (v' & Hv & [= ->]). destruct (proj1 (verifyComputeReceipt_spec _ _ _ _ _ Hv) Hok) as [Hro [Hart _]].
  split_and!; [done|done|]. exists (own_expectations (artifactFromWire a)). split; [apply Hart|].
  by apply (proj1 (runReferenceVerify_ok env _ (own_expectations (artifactFromWire a)) paths)).
Qed.

(** ** An example: a prompt tested before it is sent *)
Definition ex_previewed (bundle : AttestationBundle) : res ClientThrow jsval :=
  policyTest bundle "hi" "gpt-4o-2024-08-06" ex_rnd (preview_post (fun _ => "") ex_tee ex_rules "0xpreview" "0123456789abcdef" 3).
Lemma preview_agrees_witness : exists bundle v, ex_issued = Ok bundle /\ ex_previewed bundle = Ok v /\
  js_get_opt v "decision" = VStr "ALLOW" /\ js_get_opt v "proofStarted" = VBool false.
Proof.
  destruct ex_issued as [bundle|] eqn:He; [|vm_compute in He; discriminate He].
  destruct (serviceable_keyed _ _ _ _ _ _ _ (ex_serviceable bundle He)) as [Hk _].
  assert (Hr : exists canonical, toCanonicalRequest (preview_input "gpt-4o-2024-08-06" "hi") = Ok canonical /\ texts_ok (request_val canonical) = true /\
    pe_decision (evaluateRequest ex_rules (cm_content <$> cr_messages canonical)) = ALLOW).
  { eexists. split; [vm_compute; reflexivity|]. split; vm_compute; reflexivity. }
  destruct Hr as (canonical & Hcan & Htexts & Hal).
  destruct (preview_agrees (fun _ => "") ex_tee "ingress" bundle ex_rules "0xpreview" "0123456789abcdef" 3 "hi" "gpt-4o-2024-08-06" ex_rnd canonical
    Hk Hcan Htexts eq_refl) as (v & envelope & commitment & Hv & Hd & _ & _ & Hp & _).
  - intros pk eph text aad box Hs Hc. injection Hs as <-. apply (f_equal fromB64) in Hc. cbn [sb_ciphertext] in Hc. rewrite fromB64_toB64 in Hc.
    apply (f_equal String.length) in Hc. rewrite str_length_app in Hc.
    match type of Hc with (String.length ?t + _)%nat = _ => assert (Hl : String.length t = 32%nat) by apply (sha256_length (C := toy_crypto)); rewrite Hl in Hc end. discriminate Hc.
  - exists bundle, v. rewrite Hal in Hd. split; [reflexivity|]. split; [exact Hv|]. split; [exact Hd|exact Hp].
Defined.
